(** * QLab Box: a shallow embedding of the pairing, liveness and LED logic

    The development follows the Python sources of the controller:
    - [app/core.py]     shared bricks (state store, reply waiters, dispatcher,
                        protocol helpers);
    - [app/discover.py] classification of the discovered workspaces, the
                        role decision, the two windows of a discovery and
                        the pairing;
    - [app/daemon.py]   heartbeat, offline backoff, reconcile, the LED
                        renderer and the LED states, actions, unpairing,
                        the edge guard of the buttons and the rotary encoder.

    Conventions of the embedding.
    - A Python [str] is a [string] holding its UTF-8 bytes.  Equality,
      [startswith], [endswith], [replace] and the ordering used by [sort]
      agree on code points and on UTF-8 bytes.
    - A Python [float] holding seconds is an exact rational ([Q]).  The
      division of [_blink_on], whose quotient is truncated to an integer, is
      rounded to the nearest binary64 number as the machine rounds it; the
      rounding of the other floating-point operations is not modelled.
    - A value decoded from JSON is a [value]; a [dict] whose iteration order is
      observable is an association list kept in insertion order, with unique
      keys; the module-level dictionaries that are only looked up by key are
      [gmap]s.
    - [time.monotonic] is an oracle [clock : nat -> Q] indexed by the number of
      reads made so far; the other threads (the datagram server and the send
      worker) take their steps while the modelled thread waits on an event
      or sleeps.
    - A function of [daemon.py] whose result does not tell which of its
      return statements ended the call has, in the embedding, that statement
      as its result, together with the clock value the call went by.
    - Calls to the logger are not modelled. *)

From Stdlib Require Import QArith Qround Qminmax Qpower Lqa ZArith.
From Stdlib Require Import String Ascii List Bool Lia.
From stdpp Require Import base decidable option list gmap strings sorting.
Import ListNotations.
Local Open Scope string_scope.

(** ** Python strings, values and insertion-ordered dictionaries *)

Module Py.

(** [s.startswith(p)] *)
Definition startswith (s p : string) : bool := String.prefix p s.

(** [s.endswith(suf)] *)
Definition endswith (s suf : string) : bool :=
  let n := String.length s in
  let k := String.length suf in
  (k <=? n)%nat && String.eqb (substring (n - k) k s) suf.

(** [s[: -k]] for [k = len(suffix)] : with [k = 0] the slice is [s[:0]], the
    empty string; a [k] beyond the length is clipped to the start. *)
Definition slice_to_neg (s : string) (k : nat) : string :=
  match k with
  | O => ""
  | S _ => substring 0 (String.length s - k) s
  end.

(** [s.replace(old, new)] for a non-empty [old]: one pass from the left over
    non-overlapping occurrences.  [skip] counts the characters of the
    occurrence being consumed. *)
Fixpoint replace_from (old new : string) (skip : nat) (s : string) : string :=
  match s with
  | EmptyString => EmptyString
  | String c rest =>
      match skip with
      | S k => replace_from old new k rest
      | O =>
          if String.prefix old s
          then new ++ replace_from old new (String.length old - 1) rest
          else String c (replace_from old new 0 rest)
      end
  end.

(** With an empty [old], Python inserts [new] before every character and at
    the end. *)
Fixpoint intersperse_new (new s : string) : string :=
  match s with
  | EmptyString => new
  | String c rest => new ++ String c (intersperse_new new rest)
  end.

Definition replace (s old new : string) : string :=
  match old with
  | EmptyString => intersperse_new new s
  | String _ _ => replace_from old new 0 s
  end.

(** [list.sort()] / [sorted] on strings: insertion sort on [String.leb]. *)
Fixpoint insert_sorted (x : string) (l : list string) : list string :=
  match l with
  | [] => [x]
  | y :: l' => if String.leb x y then x :: l else y :: insert_sorted x l'
  end.

Fixpoint sort (l : list string) : list string :=
  match l with
  | [] => []
  | x :: l' => insert_sorted x (sort l')
  end.

(** Values as [json.loads] produces them. *)
#[warnings="-register-all"]
Inductive value : Type :=
| VNone
| VBool (b : bool)
| VNum (q : Q)
| VStr (s : string)
| VList (l : list value)
| VDict (d : list (string * value)).

(** Truth value of an object, as [if x], [not x], [x or y] test it. *)
Definition truthy (v : value) : bool :=
  match v with
  | VNone => false
  | VBool b => b
  | VNum q => negb (Qeq_bool q 0)
  | VStr s => negb (String.eqb s "")
  | VList l => match l with [] => false | _ => true end
  | VDict d => match d with [] => false | _ => true end
  end.

(** [isinstance(v, str)] *)
Definition as_str (v : value) : option string :=
  match v with VStr s => Some s | _ => None end.

(** [isinstance(v, str) and v] *)
Definition nonempty_str (v : value) : option string :=
  match v with
  | VStr s => if String.eqb s "" then None else Some s
  | _ => None
  end.

(** Insertion-ordered dictionaries. *)
Abbreviation dict K V := (list (K * V)).

Section Dict.
Context {K V : Type} `{EqDecision K}.

  (** [d.get(k)] *)
Fixpoint dict_get (k : K) (d : dict K V) : option V :=
    match d with
    | [] => None
    | (k', v) :: d' => if decide (k' = k) then Some v else dict_get k d'
    end.

  (** [k in d] *)
Definition dict_mem (k : K) (d : dict K V) : bool :=
    match dict_get k d with Some _ => true | None => false end.

  (** [d[k] = v] : an existing key keeps its position. *)
Fixpoint dict_set (k : K) (v : V) (d : dict K V) : dict K V :=
    match d with
    | [] => [(k, v)]
    | (k', v') :: d' =>
        if decide (k' = k) then (k, v) :: d' else (k', v') :: dict_set k v d'
    end.

  (** [d.setdefault(k, v)] : the dictionary after the call. *)
Definition dict_setdefault (k : K) (v : V) (d : dict K V) : dict K V :=
    if dict_mem k d then d else dict_set k v d.

  (** [d.pop(k, None)] : the dictionary after the call. *)
Fixpoint dict_pop (k : K) (d : dict K V) : dict K V :=
    match d with
    | [] => []
    | (k', v') :: d' =>
        if decide (k' = k) then d' else (k', v') :: dict_pop k d'
    end.

Definition dict_keys (d : dict K V) : list K := map fst d.
End Dict.

(** [d.get(k)] on a decoded JSON object, [None] standing for a missing key. *)
Definition vget (k : string) (d : dict string value) : value :=
  match dict_get k d with Some v => v | None => VNone end.

(** [a or b] *)
Definition or_else (a b : value) : value := if truthy a then a else b.

(** [x < y] on floats. *)
Definition Qltb (x y : Q) : bool := negb (Qle_bool y x).

(** *** Floats

    A float is a binary64 number: [m * 2^e] with [|m| < 2^53] and
    [-1074 <= e <= 971]. *)
Definition binary64 (x : Q) : Prop :=
  exists m e : Z,
    (Z.abs m < 2 ^ 53)%Z /\ (-1074 <= e <= 971)%Z /\
    (x == inject_Z m * 2 ^ e)%Q.

(** The exponent of a positive rational: the [k] with
    [2^k <= x < 2^(k+1)]. *)
Definition Qlog2 (x : Q) : Z :=
  let k := (Z.log2 (Qnum x) - Z.log2 (Zpos (Qden x)))%Z in
  if Qle_bool (2 ^ k) x then k else (k - 1)%Z.

(** The nearest integer, the even one of the two when they are equally
    near. *)
Definition round_half_even (x : Q) : Z :=
  let f := Qfloor x in
  match Qcompare (x - inject_Z f) (1 # 2) with
  | Lt => f
  | Gt => (f + 1)%Z
  | Eq => if Z.even f then f else (f + 1)%Z
  end.

(** The float nearest to a positive rational [x], ties to even: a multiple
    of the unit in the last place, which is [2^(k-52)] for
    [2^k <= x < 2^(k+1)] and [2^-1074] for the subnormal numbers. *)
Definition b64_round_pos (x : Q) : Q :=
  let ulp := (2 ^ Z.max (Qlog2 x - 52) (-1074))%Q in
  (inject_Z (round_half_even (x / ulp)) * ulp)%Q.

Definition b64_round (x : Q) : Q :=
  match Qcompare x 0 with
  | Eq => 0%Q
  | Gt => b64_round_pos x
  | Lt => (- b64_round_pos (- x))%Q
  end.

(** [x / y] on floats: the exact quotient, rounded.  A divisor that is zero
    raises and a quotient of [2^1024] or more is infinite, after which [int]
    raises; the statements keep both away. *)
Definition float_div (x y : Q) : Q := b64_round (x / y).

End Py.

Import Py.

(** ** Configuration ([config/user_config.py] read through [getattr]) *)

Record Config : Type := {
  PI_REPLY_PORT : Z;
  OSC_PASSCODE : string;
  EXPECTED_WS_MAIN : string;
  EXPECTED_WS_BACKUP : string;
  SUFFIX_MAIN : string;
  SUFFIX_BACKUP : string;
  SUFFIX_AUX1 : string;
  RECONCILE_EVERY : Q;
}.

(** The values of [config/user_config.py], which are also the defaults. *)
Definition user_config : Config := {|
  PI_REPLY_PORT := 53001;
  OSC_PASSCODE := "7777";
  EXPECTED_WS_MAIN := "show_main";
  EXPECTED_WS_BACKUP := "show_backup";
  SUFFIX_MAIN := "_main";
  SUFFIX_BACKUP := "_backup";
  SUFFIX_AUX1 := "_aux1";
  RECONCILE_EVERY := 5;
|}.

(** ** [core.Endpoint] *)

Record Endpoint : Type := {
  ip : string;
  role : string;
  workspace_name : option string;
  workspace_id : option string;
  last_seen_mono : Q;
}.

(** The constructor call [Endpoint(ip=..., role=..., workspace_name=...,
    workspace_id=...)], [last_seen_mono] taking its default. *)
Definition mkEndpoint (i r n w : string) : Endpoint :=
  {| ip := i; role := r; workspace_name := Some n; workspace_id := Some w;
     last_seen_mono := 0 |}.

(** ** [core.parse_workspaces] *)

(** [name.replace(".qlab5", "").replace(".qlab4", "")] *)
Definition strip_format (name : string) : string :=
  replace (replace name ".qlab5" "") ".qlab4" "".

(** [it.get("displayName") or it.get("name") or it.get("fileName")] *)
Definition name_of (it : dict string value) : value :=
  or_else (or_else (vget "displayName" it) (vget "name" it)) (vget "fileName" it).

(** [it.get("uniqueID") or it.get("id") or it.get("workspace_id")] *)
Definition uid_of (it : dict string value) : value :=
  or_else (or_else (vget "uniqueID" it) (vget "id" it)) (vget "workspace_id" it).

(** The key and the identifier an element of [data] contributes, if any. *)
Definition entry_of (it : value) : option (string * string) :=
  match it with
  | VDict d =>
      match name_of d, uid_of d with
      | VStr name, VStr uid => Some (strip_format name, uid)
      | _, _ => None
      end
  | _ => None
  end.

(** One iteration of the loop over [data]. *)
Definition parse_item (out : dict string string) (it : value)
  : dict string string :=
  match entry_of it with
  | Some (key, uid) => dict_set key uid out
  | None => out
  end.

(** [v == "ok"] *)
Definition is_ok (v : value) : bool :=
  match v with VStr s => String.eqb s "ok" | _ => false end.

Definition parse_workspaces (reply_json : value) : dict string string :=
  match reply_json with
  | VDict r =>
      if negb (is_ok (vget "status" r)) then []
      else match vget "data" r with
           | VList data => fold_left parse_item data []
           | _ => []
           end
  | _ => []
  end.

(** What the specification's sentence says of the key, word for word: the
    file-format suffix is removed from the end of the name. *)
Definition strip_suffix_at_end (name : string) : string :=
  if endswith name ".qlab5" then slice_to_neg name 6
  else if endswith name ".qlab4" then slice_to_neg name 6
  else name.

(** ** [app/discover.py] *)

Module Discover.

(** The kinds ["main"], ["backup"], ["aux"] and ["plain"]. *)
Inductive kind : Type := KMain | KBackup | KAux | KPlain.

#[global] Instance kind_eq_dec : EqDecision kind.
Proof. solve_decision. Defined.

(** The dataclass [Candidate]; [c_ip] and [c_kind] are its fields [ip] and
    [kind]. *)
Record Candidate : Type := {
  c_ip : string;
  ws_name : string;
  ws_id : string;
  c_kind : kind;
  base : string;
}.

Inductive NoRespondersWhy : Type :=
  | NoQLabResponders
  | NoValidWorkspaces
  | NoSelectableWorkspace.

Inductive ConflictWhy : Type :=
  | MultipleAux
  | DuplicateCandidate (b : string) (k : kind)
  | MultipleMainBases (bases : list string)
  | SelectedBaseHasNoMain (b : string)
  | MultiplePlain (names : list string).

(** The two subclasses of [PairingError], each with the place it is raised
    from. *)
Inductive PairingError : Type :=
  | NoRespondersError (why : NoRespondersWhy)
  | ConflictError (why : ConflictWhy).

Section WithConfig.
Variable cfg : Config.

Definition legacy_base : string := "__legacy_expected__".

Definition _classify (name : string) : kind * string :=
  if String.eqb name (EXPECTED_WS_MAIN cfg) then (KMain, legacy_base)
  else if String.eqb name (EXPECTED_WS_BACKUP cfg) then (KBackup, legacy_base)
  else if endswith name (SUFFIX_MAIN cfg)
  then (KMain, slice_to_neg name (String.length (SUFFIX_MAIN cfg)))
  else if endswith name (SUFFIX_BACKUP cfg)
  then (KBackup, slice_to_neg name (String.length (SUFFIX_BACKUP cfg)))
  else if endswith name (SUFFIX_AUX1 cfg)
  then (KAux, slice_to_neg name (String.length (SUFFIX_AUX1 cfg)))
  else (KPlain, name).

(** The body of the inner loop: one workspace of one responder. *)
Definition candidate_of (addr : string) (item : string * value)
  : list Candidate :=
  let '(kd, b) := _classify (fst item) in
  match nonempty_str (snd item) with
  | Some wid =>
      [ {| c_ip := addr; ws_name := fst item; ws_id := wid;
           c_kind := kd; base := b |} ]
  | None => []
  end.

(** The list [cands] after the two nested loops. *)
Definition candidates (responders : list (string * dict string value))
  : list Candidate :=
  flat_map (fun r => flat_map (candidate_of (fst r)) (snd r)) responders.

Definition is_kind (k : kind) (c : Candidate) : bool :=
  bool_decide (c_kind c = k).

Definition main_or_backup (c : Candidate) : bool :=
  is_kind KMain c || is_kind KBackup c.

(** The loop that fills [by_base], raising on the first duplicate. *)
Fixpoint group_by_base (cands : list Candidate)
    (by_base : dict string (dict kind Candidate))
  : PairingError + dict string (dict kind Candidate) :=
  match cands with
  | [] => inr by_base
  | c :: rest =>
      if main_or_backup c then
        let by_base1 := dict_setdefault (base c) [] by_base in
        let inner := default [] (dict_get (base c) by_base1) in
        if dict_mem (c_kind c) inner
        then inl (ConflictError (DuplicateCandidate (base c) (c_kind c)))
        else group_by_base rest
               (dict_set (base c) (dict_set (c_kind c) c inner) by_base1)
      else group_by_base rest by_base
  end.

Definition endpoint_of (r : string) (c : Candidate) : Endpoint :=
  mkEndpoint (c_ip c) r (ws_name c) (ws_id c).

Definition bases_with (p : dict kind Candidate -> bool)
    (by_base : dict string (dict kind Candidate)) : list string :=
  map fst (filter (fun bm => p (snd bm) = true) by_base).

(** [selected_base], or the conflict raised while choosing it. *)
Definition select_base (by_base : dict string (dict kind Candidate))
  : PairingError + option string :=
  let complete_bases :=
    bases_with (fun mm => dict_mem KMain mm && dict_mem KBackup mm) by_base in
  match sort complete_bases with
  | b :: _ => inr (Some b)
  | [] =>
      let main_bases := bases_with (fun mm => dict_mem KMain mm) by_base in
      match main_bases with
      | [] => inr None
      | [b] => inr (Some b)
      | _ => inl (ConflictError (MultipleMainBases (sort main_bases)))
      end
  end.

(** The assignment of main and backup, from the selected base or from the
    single plain workspace. *)
Definition assign_main_backup (cands : list Candidate)
    (by_base : dict string (dict kind Candidate))
    (selected_base : option string)
  : PairingError + dict string Endpoint :=
  match selected_base with
  | Some sb =>
      let mm := default [] (dict_get sb by_base) in
      match dict_get KMain mm with
      | None => inl (ConflictError (SelectedBaseHasNoMain sb))
      | Some m =>
          let assigned := dict_set "main" (endpoint_of "main" m) [] in
          match dict_get KBackup mm with
          | Some b => inr (dict_set "backup" (endpoint_of "backup" b) assigned)
          | None => inr assigned
          end
      end
  | None =>
      match filter (fun c => is_kind KPlain c = true) cands with
      | [] => inl (NoRespondersError NoSelectableWorkspace)
      | [p] => inr (dict_set "main" (endpoint_of "main" p) [])
      | plains =>
          inl (ConflictError
                 (MultiplePlain (sort (remove_dups (map ws_name plains)))))
      end
  end.

(** The body of [decide_roles] once [cands] is built. *)
Definition decide_candidates (cands : list Candidate)
  : PairingError + dict string Endpoint :=
  match cands with
  | [] => inl (NoRespondersError NoValidWorkspaces)
  | _ =>
      let aux_cands := filter (fun c => is_kind KAux c = true) cands in
      match aux_cands with
      | _ :: _ :: _ => inl (ConflictError MultipleAux)
      | _ =>
          let aux_ep := option_map (endpoint_of "aux") (head aux_cands) in
          match group_by_base cands [] with
          | inl e => inl e
          | inr by_base =>
              match select_base by_base with
              | inl e => inl e
              | inr selected_base =>
                  match assign_main_backup cands by_base selected_base with
                  | inl e => inl e
                  | inr assigned =>
                      match aux_ep with
                      | Some a => inr (dict_set "aux" a assigned)
                      | None => inr assigned
                      end
                  end
              end
          end
      end
  end.

Definition decide_roles (responders : list (string * dict string value))
  : PairingError + dict string Endpoint :=
  match responders with
  | [] => inl (NoRespondersError NoQLabResponders)
  | _ => decide_candidates (candidates responders)
  end.

End WithConfig.

End Discover.

Import Discover.


(** ** [app/daemon.py]: the LED renderer *)

Module Led.

Local Open Scope Q_scope.

(** An RGB triple. *)
Definition color : Type := Z * Z * Z.

Definition C_OFF : color := (0, 0, 0)%Z.
Definition C_BLUE : color := (0, 0, 255)%Z.
Definition C_RED : color := (255, 0, 0)%Z.
Definition C_VIOLET : color := (255, 0, 255)%Z.

Definition BLINK_TOGGLE_NORM : Q := 1 # 2.
Definition ACK_FLASH_SEC : Q := 1 # 4.
Definition ACK_RETURN_FADE_SEC : Q := 1 # 4.

(** [int(x)] on a float: truncation toward zero. *)
Definition py_int (x : Q) : Z := Z.quot (Qnum x) (Zpos (Qden x)).

Section WithDim.
(** [MASTER_DIM], read from the configuration (0.18 in [user_config.py]). *)
Variable MASTER_DIM : Q.

Definition dim (c : color) : color :=
  let f := Qmax 0 (Qmin 1 MASTER_DIM) in
  let '(r, g, b) := c in
  (py_int (inject_Z r * f), py_int (inject_Z g * f), py_int (inject_Z b * f)).

(** The dictionaries of [LEDWorker], keyed by role. *)
Record LEDWorker : Type := {
  _steady : gmap string color;
  _blink : gmap string bool;
  _toggle : gmap string Q;
  _flash_until : gmap string Q;
  _fade_start : gmap string Q;
  _fade_from : gmap string color;
  _last_rendered : gmap string color;
  _flash_active : gmap string bool;
}.

Definition LED_ROLES : list string := ["main"; "backup"; "aux"].

(** [{r: x for r in LED_BY_ROLE.keys()}] *)
Definition for_roles {A : Type} (x : A) : gmap string A :=
  list_to_map (map (fun r => (r, x)) LED_ROLES).

(** [LEDWorker.__init__] *)
Definition LEDWorker_init : LEDWorker := {|
  _steady := for_roles (dim C_OFF);
  _blink := for_roles false;
  _toggle := for_roles BLINK_TOGGLE_NORM;
  _flash_until := for_roles 0;
  _fade_start := for_roles 0;
  _fade_from := for_roles (dim C_OFF);
  _last_rendered := for_roles (dim C_OFF);
  _flash_active := for_roles false;
|}.

(** The float [0.05]: the binary64 number nearest to a twentieth. *)
Definition float_0_05 : Q := 3602879701896397 # 72057594037927936.

Definition set_state (r : string) (steady_rgb : color) (blink : bool)
    (toggle_sec : Q) (w : LEDWorker) : LEDWorker :=
  {| _steady := <[r := steady_rgb]> (_steady w);
     _blink := <[r := blink]> (_blink w);
     _toggle := <[r := Qmax float_0_05 toggle_sec]> (_toggle w);
     _flash_until := _flash_until w;
     _fade_start := _fade_start w;
     _fade_from := _fade_from w;
     _last_rendered := _last_rendered w;
     _flash_active := _flash_active w |}.

(** [flash_ack], [now] being the value [qc.mono()] returns. *)
Definition flash_ack (now : Q) (r : string) (duration : Q) (w : LEDWorker)
  : LEDWorker :=
  {| _steady := _steady w;
     _blink := _blink w;
     _toggle := _toggle w;
     _flash_until := <[r := now + duration]> (_flash_until w);
     _fade_start := _fade_start w;
     _fade_from := _fade_from w;
     _last_rendered := _last_rendered w;
     _flash_active := _flash_active w |}.

Definition _blink_on (now toggle_sec : Q) : bool :=
  (py_int (float_div now toggle_sec) mod 2 =? 0)%Z.

Definition _lerp_rgb (a b : color) (t : Q) : color :=
  let t := Qmax 0 (Qmin 1 t) in
  let '(a0, a1, a2) := a in
  let '(b0, b1, b2) := b in
  (py_int (inject_Z a0 + inject_Z (b0 - a0) * t),
   py_int (inject_Z a1 + inject_Z (b1 - a1) * t),
   py_int (inject_Z a2 + inject_Z (b2 - a2) * t)).

(** The colour [target] of the loop body of [run], before the fade. *)
Definition target_color (now : Q) (r : string) (w : LEDWorker) : color :=
  let steady := default (dim C_OFF) (_steady w !! r) in
  let do_blink := default false (_blink w !! r) in
  let toggle := default BLINK_TOGGLE_NORM (_toggle w !! r) in
  let blink_on := _blink_on now toggle in
  if do_blink && negb blink_on then dim C_OFF else steady.

Definition with_flash_end (now : Q) (r : string) (w : LEDWorker) : LEDWorker :=
  {| _steady := _steady w;
     _blink := _blink w;
     _toggle := _toggle w;
     _flash_until := _flash_until w;
     _fade_start := <[r := now]> (_fade_start w);
     _fade_from :=
       <[r := default (dim C_BLUE) (_last_rendered w !! r)]> (_fade_from w);
     _last_rendered := _last_rendered w;
     _flash_active := <[r := false]> (_flash_active w) |}.

Definition with_rendered (r : string) (c : color) (fade_start : gmap string Q)
    (flash_active : gmap string bool) (w : LEDWorker) : LEDWorker :=
  {| _steady := _steady w;
     _blink := _blink w;
     _toggle := _toggle w;
     _flash_until := _flash_until w;
     _fade_start := fade_start;
     _fade_from := _fade_from w;
     _last_rendered := <[r := c]> (_last_rendered w);
     _flash_active := flash_active |}.

(** The body of the loop over the roles in [run]: the worker afterwards and
    the colour applied to the role's pixel. *)
Definition render_role (now : Q) (r : string) (w : LEDWorker)
  : LEDWorker * color :=
  if Qltb now (default 0 (_flash_until w !! r)) then
    let c := dim C_BLUE in
    (with_rendered r c (_fade_start w) (<[r := true]> (_flash_active w)) w, c)
  else
    let w1 := if default false (_flash_active w !! r)
              then with_flash_end now r w else w in
    let target := target_color now r w1 in
    let fade_t0 := default 0 (_fade_start w1 !! r) in
    if Qltb 0 fade_t0 then
      let dt := now - fade_t0 in
      if Qltb dt ACK_RETURN_FADE_SEC then
        let start := default (dim C_BLUE) (_fade_from w1 !! r) in
        let c := _lerp_rgb start target (dt / ACK_RETURN_FADE_SEC) in
        (with_rendered r c (_fade_start w1) (_flash_active w1) w1, c)
      else
        (with_rendered r target (<[r := 0]> (_fade_start w1))
           (_flash_active w1) w1, target)
    else
      (with_rendered r target (_fade_start w1) (_flash_active w1) w1, target).

(** One pass of [run] over the three pixels, at the time [now] read at the
    top of the pass. *)
Definition run_once (now : Q) (w : LEDWorker) : LEDWorker * list color :=
  fold_left (fun acc r => let '(w', c) := render_role now r (fst acc) in
                          (w', (snd acc ++ [c])%list))
            LED_ROLES (w, []).

End WithDim.

End Led.


(** ** [app/core.py]: clock, send worker, reply waiters, dispatcher *)

Module Core.

Local Open Scope Q_scope.

Definition P_UDP_REPLY_PORT : string := "/udpReplyPort".
Definition P_ALWAYS_REPLY : string := "/alwaysReply".
Definition P_FORGET_ME_NOT : string := "/forgetMeNot".
Definition P_WORKSPACES : string := "/workspaces".

Definition HEARTBEAT_INTERVAL : Q := 2.
Definition OFFLINE_AFTER : Q := 8.
Definition CONNECT_REFRESH_EVERY : Q := 6.
Definition APPFLAGS_REFRESH_EVERY : Q := 10.

Definition ROLES : list string := ["main"; "backup"; "aux"].

(** The first positional argument of a received OSC message. *)
Inductive osc_arg : Type :=
  | ArgStr (s : string)
  | ArgBytes (decoded : string)
  | ArgOther.

(** A step taken by another thread: the datagram server calling the handler,
    or the send worker taking a message from its queue. *)
Inductive bg_step : Type :=
  | Datagram (client_address : option string) (address : string)
             (args : list osc_arg)
  | WorkerSend.

(** What the program does not decide. *)
Record Env : Type := {
  (** The value of the n-th read of [time.monotonic]. *)
  clock : nat -> Q;
  (** The steps of the other threads during the n-th [Event.wait]. *)
  background : nat -> list bg_step;
  (** [json.loads], [None] when it raises. *)
  json_loads : string -> option value;
  (** [st_mtime] of the state file after the n-th write. *)
  fs_mtime : nat -> Q;
}.

Record Net : Type := {
  (** Reads of [time.monotonic] made so far. *)
  ticks : nat;
  (** Calls of [Event.wait] made so far. *)
  waits : nat;
  (** [WAITERS._events]: the armed events, with their flag. *)
  _events : gmap string bool;
  (** [WAITERS._payloads] *)
  _payloads : gmap string value;
  (** [DISCOVERY._map] *)
  DISCOVERY : gmap string value;
  ROLE_BY_IP : gmap string string;
  LAST_SEEN_BY_IP : gmap string Q;
  (** [SENDW.q], oldest message first. *)
  SENDW_q : list (string * string * value);
  (** Messages the worker has handed to the UDP clients. *)
  wire : list (string * string * value);
  (** Whether an acknowledgement callback is registered. *)
  _on_ack : bool;
  (** The calls [_on_ack(ip, role)] made so far. *)
  acks : list (string * string);
  (** [ensure_app_flags._last] *)
  flags_last : gmap string Q;
  (** [ensure_connected._last] *)
  connect_last : gmap string Q;
}.

Definition set_ticks (x : nat) (w : Net) : Net :=
  {| ticks := x; waits := waits w; _events := _events w; _payloads :=
  _payloads w; DISCOVERY := DISCOVERY w; ROLE_BY_IP := ROLE_BY_IP w;
  LAST_SEEN_BY_IP := LAST_SEEN_BY_IP w; SENDW_q := SENDW_q w; wire := wire
  w; _on_ack := _on_ack w; acks := acks w; flags_last := flags_last w;
  connect_last := connect_last w |}.

Definition set_waits (x : nat) (w : Net) : Net :=
  {| ticks := ticks w; waits := x; _events := _events w; _payloads :=
  _payloads w; DISCOVERY := DISCOVERY w; ROLE_BY_IP := ROLE_BY_IP w;
  LAST_SEEN_BY_IP := LAST_SEEN_BY_IP w; SENDW_q := SENDW_q w; wire := wire
  w; _on_ack := _on_ack w; acks := acks w; flags_last := flags_last w;
  connect_last := connect_last w |}.

Definition set__events (x : gmap string bool) (w : Net) : Net :=
  {| ticks := ticks w; waits := waits w; _events := x; _payloads :=
  _payloads w; DISCOVERY := DISCOVERY w; ROLE_BY_IP := ROLE_BY_IP w;
  LAST_SEEN_BY_IP := LAST_SEEN_BY_IP w; SENDW_q := SENDW_q w; wire := wire
  w; _on_ack := _on_ack w; acks := acks w; flags_last := flags_last w;
  connect_last := connect_last w |}.

Definition set__payloads (x : gmap string value) (w : Net) : Net :=
  {| ticks := ticks w; waits := waits w; _events := _events w; _payloads :=
  x; DISCOVERY := DISCOVERY w; ROLE_BY_IP := ROLE_BY_IP w; LAST_SEEN_BY_IP
  := LAST_SEEN_BY_IP w; SENDW_q := SENDW_q w; wire := wire w; _on_ack :=
  _on_ack w; acks := acks w; flags_last := flags_last w; connect_last :=
  connect_last w |}.

Definition set_DISCOVERY (x : gmap string value) (w : Net) : Net :=
  {| ticks := ticks w; waits := waits w; _events := _events w; _payloads :=
  _payloads w; DISCOVERY := x; ROLE_BY_IP := ROLE_BY_IP w; LAST_SEEN_BY_IP
  := LAST_SEEN_BY_IP w; SENDW_q := SENDW_q w; wire := wire w; _on_ack :=
  _on_ack w; acks := acks w; flags_last := flags_last w; connect_last :=
  connect_last w |}.

Definition set_ROLE_BY_IP (x : gmap string string) (w : Net) : Net :=
  {| ticks := ticks w; waits := waits w; _events := _events w; _payloads :=
  _payloads w; DISCOVERY := DISCOVERY w; ROLE_BY_IP := x; LAST_SEEN_BY_IP :=
  LAST_SEEN_BY_IP w; SENDW_q := SENDW_q w; wire := wire w; _on_ack :=
  _on_ack w; acks := acks w; flags_last := flags_last w; connect_last :=
  connect_last w |}.

Definition set_LAST_SEEN_BY_IP (x : gmap string Q) (w : Net) : Net :=
  {| ticks := ticks w; waits := waits w; _events := _events w; _payloads :=
  _payloads w; DISCOVERY := DISCOVERY w; ROLE_BY_IP := ROLE_BY_IP w;
  LAST_SEEN_BY_IP := x; SENDW_q := SENDW_q w; wire := wire w; _on_ack :=
  _on_ack w; acks := acks w; flags_last := flags_last w; connect_last :=
  connect_last w |}.

Definition set_SENDW_q (x : list (string * string * value)) (w : Net) : Net :=
  {| ticks := ticks w; waits := waits w; _events := _events w; _payloads :=
  _payloads w; DISCOVERY := DISCOVERY w; ROLE_BY_IP := ROLE_BY_IP w;
  LAST_SEEN_BY_IP := LAST_SEEN_BY_IP w; SENDW_q := x; wire := wire w;
  _on_ack := _on_ack w; acks := acks w; flags_last := flags_last w;
  connect_last := connect_last w |}.

Definition set_wire (x : list (string * string * value)) (w : Net) : Net :=
  {| ticks := ticks w; waits := waits w; _events := _events w; _payloads :=
  _payloads w; DISCOVERY := DISCOVERY w; ROLE_BY_IP := ROLE_BY_IP w;
  LAST_SEEN_BY_IP := LAST_SEEN_BY_IP w; SENDW_q := SENDW_q w; wire := x;
  _on_ack := _on_ack w; acks := acks w; flags_last := flags_last w;
  connect_last := connect_last w |}.

Definition set__on_ack (x : bool) (w : Net) : Net :=
  {| ticks := ticks w; waits := waits w; _events := _events w; _payloads :=
  _payloads w; DISCOVERY := DISCOVERY w; ROLE_BY_IP := ROLE_BY_IP w;
  LAST_SEEN_BY_IP := LAST_SEEN_BY_IP w; SENDW_q := SENDW_q w; wire := wire
  w; _on_ack := x; acks := acks w; flags_last := flags_last w; connect_last
  := connect_last w |}.

Definition set_acks (x : list (string * string)) (w : Net) : Net :=
  {| ticks := ticks w; waits := waits w; _events := _events w; _payloads :=
  _payloads w; DISCOVERY := DISCOVERY w; ROLE_BY_IP := ROLE_BY_IP w;
  LAST_SEEN_BY_IP := LAST_SEEN_BY_IP w; SENDW_q := SENDW_q w; wire := wire
  w; _on_ack := _on_ack w; acks := x; flags_last := flags_last w;
  connect_last := connect_last w |}.

Definition set_flags_last (x : gmap string Q) (w : Net) : Net :=
  {| ticks := ticks w; waits := waits w; _events := _events w; _payloads :=
  _payloads w; DISCOVERY := DISCOVERY w; ROLE_BY_IP := ROLE_BY_IP w;
  LAST_SEEN_BY_IP := LAST_SEEN_BY_IP w; SENDW_q := SENDW_q w; wire := wire
  w; _on_ack := _on_ack w; acks := acks w; flags_last := x; connect_last :=
  connect_last w |}.

Definition set_connect_last (x : gmap string Q) (w : Net) : Net :=
  {| ticks := ticks w; waits := waits w; _events := _events w; _payloads :=
  _payloads w; DISCOVERY := DISCOVERY w; ROLE_BY_IP := ROLE_BY_IP w;
  LAST_SEEN_BY_IP := LAST_SEEN_BY_IP w; SENDW_q := SENDW_q w; wire := wire
  w; _on_ack := _on_ack w; acks := acks w; flags_last := flags_last w;
  connect_last := x |}.
(** The globals at import time. *)
Definition Net_init : Net :=
  {| ticks := 0; waits := 0; _events := ∅; _payloads := ∅; DISCOVERY := ∅;
     ROLE_BY_IP := ∅; LAST_SEEN_BY_IP := ∅; SENDW_q := []; wire := [];
     _on_ack := false; acks := []; flags_last := ∅; connect_last := ∅ |}.

(** Computations of [core.py] on the network side. *)
Definition M (A : Type) : Type := Env -> Net -> A * Net.

Definition ret {A : Type} (a : A) : M A := fun _ w => (a, w).

Definition bind {A B : Type} (m : M A) (k : A -> M B) : M B :=
  fun e w => let '(a, w') := m e w in k a e w'.

Notation "x <- m ;; k" := (bind m (fun x => k))
  (at level 100, m at next level, right associativity).
Notation "m ;; k" := (bind m (fun _ => k))
  (at level 100, right associativity).

Definition ask : M Env := fun e w => (e, w).
Definition get : M Net := fun _ w => (w, w).
Definition modify (f : Net -> Net) : M unit := fun _ w => (tt, f w).

(** [mono()] *)
Definition mono : M Q :=
  fun e w => (clock e (ticks w), set_ticks (S (ticks w)) w).

Definition mark_seen (addr : string) : M unit :=
  now <- mono ;;
  modify (fun w => set_LAST_SEEN_BY_IP (<[addr := now]> (LAST_SEEN_BY_IP w)) w).

Definition role_from_ip (addr : string) : M (option string) :=
  w <- get ;; ret (ROLE_BY_IP w !! addr).

(** [refresh_role_map_from_state]: the mapping built from the record. *)
Definition role_map_of (st : dict string value) : gmap string string :=
  match dict_get "endpoints" st with
  | None => ∅
  | Some (VDict eps) =>
      fold_left
        (fun mapping r =>
           match dict_get r eps with
           | Some (VDict e) =>
               match nonempty_str (vget "ip" e) with
               | Some addr => <[addr := r]> mapping
               | None => mapping
               end
           | _ => mapping
           end)
        ROLES ∅
  | Some _ => ∅
  end.

Definition refresh_role_map_from_state (st : dict string value) : M unit :=
  modify (set_ROLE_BY_IP (role_map_of st)).

(** [SendWorker.send]: [put_nowait] on a queue of capacity 1000, the message
    being dropped when the queue is full. *)
Definition SENDW_send (addr path : string) (arg : value) : M unit :=
  modify (fun w =>
            if (length (SENDW_q w) <? 1000)%nat
            then set_SENDW_q (SENDW_q w ++ [(addr, path, arg)])%list w
            else w).

(** An iteration of [SendWorker.run] that finds a message. *)
Definition SENDW_run_once : M unit :=
  modify (fun w =>
            match SENDW_q w with
            | [] => w
            | m :: q => set_wire (wire w ++ [m])%list (set_SENDW_q q w)
            end).

(** The argument put on the queue for the positional arguments [args]. *)
Definition send_arg (args : list value) : value :=
  match args with
  | [] => VList []
  | [a] => a
  | _ => VList args
  end.

Definition send_app (addr path : string) (args : list value) : M unit :=
  SENDW_send addr path (send_arg args).

(** [f"/workspace/{wsid}/{suffix}".replace("//", "/")] *)
Definition ws_path (wsid suffix : string) : string :=
  replace ("/workspace/" ++ wsid ++ "/" ++ suffix)%string "//" "/".

Definition send_ws (addr wsid suffix : string) (args : list value) : M string :=
  let full := ws_path wsid suffix in
  SENDW_send addr full (send_arg args) ;; ret full.

(** [ReplyWaiter] *)
Definition WAITERS_arm (key : string) : M unit :=
  modify (fun w => set__payloads (delete key (_payloads w))
                     (set__events (<[key := false]> (_events w)) w)).

Definition WAITERS_set (key : string) (payload : value) : M unit :=
  modify (fun w =>
            let w1 := set__payloads (<[key := payload]> (_payloads w)) w in
            match _events w1 !! key with
            | Some _ => set__events (<[key := true]> (_events w1)) w1
            | None => w1
            end).

Definition WAITERS_pop (key : string) : M (option value) :=
  w <- get ;;
  modify (fun w => set__payloads (delete key (_payloads w))
                     (set__events (delete key (_events w)) w)) ;;
  ret (_payloads w !! key).

Definition WAITERS_cleanup (key : string) : M unit :=
  modify (fun w => set__payloads (delete key (_payloads w))
                     (set__events (delete key (_events w)) w)).

Definition DISCOVERY_add (addr : string) (payload : value) : M unit :=
  modify (fun w => set_DISCOVERY (<[addr := payload]> (DISCOVERY w)) w).

(** [v == s] for a string [s] *)
Definition eq_str (v : value) (s : string) : bool :=
  match v with VStr x => String.eqb x s | _ => false end.

(** [isinstance(v, str) and v.endswith(suffix)] *)
Definition str_endswith (v : value) (suffix : string) : bool :=
  match v with VStr x => endswith x suffix | _ => false end.

Definition ACK_SUFFIXES : list string :=
  ["/go"; "/panic"; "/stop"; "/pause"; "/resume"; "/select/next";
   "/select/previous"].

(** [isinstance(v, str) and v] as a condition *)
Definition nonempty (v : value) : bool :=
  if nonempty_str v is Some _ then true else false.

(** The text of a value known to be a string. *)
Definition text_of (v : value) : string := default "" (as_str v).

(** The routing rules of [_osc_handler], for a payload decoded to the
    object [j]. *)
Definition route (src_ip address : string) (j : dict string value) : M unit :=
  let invoked := default (VStr "") (dict_get "address" j) in
  let wsid := vget "workspace_id" j in
  let status := vget "status" j in
  if startswith address "/reply/workspaces" || eq_str invoked "/workspaces"
  then
    WAITERS_set ("workspaces:" ++ src_ip)%string (VDict j) ;;
    DISCOVERY_add src_ip (VDict j)
  else if str_endswith invoked "/connect" && nonempty wsid then
    WAITERS_set ("connect:" ++ src_ip ++ ":" ++ text_of wsid)%string (VDict j) ;;
    if eq_str status "ok" then mark_seen src_ip else ret tt
  else if str_endswith invoked "/thump" && nonempty wsid then
    if eq_str status "ok" then mark_seen src_ip else ret tt
  else if eq_str status "ok" && nonempty wsid &&
          (if as_str invoked is Some _ then true else false) then
    if existsb (str_endswith invoked) ACK_SUFFIXES then
      mark_seen src_ip ;;
      r <- role_from_ip src_ip ;;
      w <- get ;;
      match r with
      | Some rl =>
          if negb (String.eqb rl "") && _on_ack w
          then modify (fun w => set_acks (acks w ++ [(src_ip, rl)])%list w)
          else ret tt
      | None => ret tt
      end
    else ret tt
  else ret tt.

(** The length compared with 200_000 is that of the decoded text, counted
    here in bytes of its UTF-8 form. *)
Definition _osc_handler (client_address : option string) (address : string)
    (args : list osc_arg) : M unit :=
  let src_ip := default "0.0.0.0" client_address in
  match head args with
  | Some (ArgStr payload) | Some (ArgBytes payload) =>
      if (200000 <? N.of_nat (String.length payload))%N then ret tt
      else
        e <- ask ;;
        match json_loads e payload with
        | Some (VDict j) => route src_ip address j
        | _ => ret tt
        end
  | _ => ret tt
  end.

Definition bg_run (s : bg_step) : M unit :=
  match s with
  | Datagram c a args => _osc_handler c a args
  | WorkerSend => SENDW_run_once
  end.

Fixpoint bg_run_all (l : list bg_step) : M unit :=
  match l with
  | [] => ret tt
  | s :: l' => bg_run s ;; bg_run_all l'
  end.

(** [ev.wait(timeout)] on the event armed under [key]: the other threads
    take their steps, then the flag of the event is the result. *)
Definition Event_wait (key : string) : M bool :=
  e <- ask ;;
  w <- get ;;
  modify (set_waits (S (waits w))) ;;
  bg_run_all (background e (waits w)) ;;
  w' <- get ;;
  ret (default false (_events w' !! key)).



(** *** Protocol helpers *)

Section Helpers.
Variable cfg : Config.

Definition ensure_app_flags (addr : string) (force : bool) : M unit :=
  now <- mono ;;
  w <- get ;;
  if negb force &&
     Qltb (now - default 0 (flags_last w !! addr)) APPFLAGS_REFRESH_EVERY
  then ret tt
  else
    modify (fun w => set_flags_last (<[addr := now]> (flags_last w)) w) ;;
    send_app addr P_UDP_REPLY_PORT [VNum (inject_Z (PI_REPLY_PORT cfg))] ;;
    send_app addr P_ALWAYS_REPLY [VNum 1] ;;
    send_app addr P_FORGET_ME_NOT [VNum 1].

Definition request_workspaces (addr : string) : M (option (dict string value)) :=
  let key := ("workspaces:" ++ addr)%string in
  WAITERS_arm key ;;
  send_app addr P_WORKSPACES [] ;;
  woken <- Event_wait key ;;
  if negb woken then WAITERS_cleanup key ;; ret None
  else
    payload <- WAITERS_pop key ;;
    ret (match payload with Some (VDict d) => Some d | _ => None end).

(** [ep.workspace_id] when it is truthy. *)
Definition usable_id (ep : Endpoint) : option string :=
  match workspace_id ep with
  | Some s => if String.eqb s "" then None else Some s
  | None => None
  end.

Definition connect_endpoint (ep : Endpoint) : M bool :=
  match usable_id ep with
  | None => ret false
  | Some wsid =>
      let key := ("connect:" ++ ip ep ++ ":" ++ wsid)%string in
      WAITERS_arm key ;;
      (if String.eqb (OSC_PASSCODE cfg) ""
       then send_ws (ip ep) wsid "connect" []
       else send_ws (ip ep) wsid "connect" [VStr (OSC_PASSCODE cfg)]) ;;
      woken <- Event_wait key ;;
      if negb woken then WAITERS_cleanup key ;; ret false
      else
        payload <- WAITERS_pop key ;;
        match payload with
        | Some (VDict d) =>
            if eq_str (vget "status" d) "ok"
            then mark_seen (ip ep) ;; ret true
            else ret false
        | _ => ret false
        end
  end.

Definition ensure_connected (ep : Endpoint) (force : bool) : M unit :=
  match usable_id ep with
  | None => ret tt
  | Some _ =>
      now <- mono ;;
      w <- get ;;
      if negb force &&
         Qltb (now - default 0 (connect_last w !! ip ep)) CONNECT_REFRESH_EVERY
      then ret tt
      else
        modify (fun w => set_connect_last (<[ip ep := now]> (connect_last w)) w) ;;
        connected <- connect_endpoint ep ;;
        if connected then ret tt
        else ensure_app_flags (ip ep) true ;;
             connect_endpoint ep ;; ret tt
  end.

End Helpers.

(** *** [StateManager] and the state file *)

Record Store : Type := {
  (** The state file, [None] when there is none: its modification time and
      its content as [json.load] decodes it, [None] when decoding fails. *)
  state_file : option (Q * option value);
  (** Files written so far. *)
  saves : nat;
  (** [STATE._cache] *)
  _cache : dict string value;
  (** [STATE._mtime] *)
  _mtime : Q;
}.

Definition set_state_file (x : option (Q * option value)) (s : Store) : Store :=
  {| state_file := x; saves := saves s; _cache := _cache s; _mtime := _mtime
  s |}.

Definition set_saves (x : nat) (s : Store) : Store :=
  {| state_file := state_file s; saves := x; _cache := _cache s; _mtime :=
  _mtime s |}.

Definition set__cache (x : dict string value) (s : Store) : Store :=
  {| state_file := state_file s; saves := saves s; _cache := x; _mtime :=
  _mtime s |}.

Definition set__mtime (x : Q) (s : Store) : Store :=
  {| state_file := state_file s; saves := saves s; _cache := _cache s;
  _mtime := x |}.
(** [StateManager.__init__], before any file exists. *)
Definition Store_init : Store :=
  {| state_file := None; saves := 0; _cache := []; _mtime := -1 |}.

(** [StateManager._read_file] *)
Definition _read_file (s : Store) : dict string value :=
  match state_file s with
  | Some (_, Some (VDict x)) => x
  | _ => []
  end.

(** [StateManager.load]: the record returned and the manager afterwards. *)
Definition STATE_load (s : Store) : dict string value * Store :=
  let mtime := match state_file s with
               | Some (m, _) => m
               | None => -1
               end in
  let s1 := if negb (Qeq_bool mtime (_mtime s))
            then set__mtime mtime (set__cache (_read_file s) s)
            else s in
  (_cache s1, s1).

(** [StateManager.save]: the temporary file replaces the state file in one
    step; [mtime] is the modification time the file system gives it. *)
Definition STATE_save (mtime : Q) (st : dict string value) (s : Store) : Store :=
  set__mtime mtime
    (set__cache st
       (set_saves (S (saves s))
          (set_state_file (Some (mtime, Some (VDict st))) s))).

End Core.


(** ** [app/daemon.py]: heartbeat, offline backoff, reconcile *)

Module Daemon.

Import Core.
Local Open Scope Q_scope.

Definition OFFLINE_BACKOFF_MIN : Q := 2.
Definition OFFLINE_BACKOFF_MAX : Q := 20.
Definition OFFLINE_BACKOFF_FACTOR : Q := 2.

Record Globals : Type := {
  _last_thump_sent : gmap string Q;
  _last_reconcile : gmap string Q;
  _offline_backoff : gmap string Q;
  _offline_next_try : gmap string Q;
}.

Definition set__last_thump_sent (x : gmap string Q) (g : Globals) : Globals :=
  {| _last_thump_sent := x; _last_reconcile := _last_reconcile g;
  _offline_backoff := _offline_backoff g; _offline_next_try :=
  _offline_next_try g |}.

Definition set__last_reconcile (x : gmap string Q) (g : Globals) : Globals :=
  {| _last_thump_sent := _last_thump_sent g; _last_reconcile := x;
  _offline_backoff := _offline_backoff g; _offline_next_try :=
  _offline_next_try g |}.

Definition set__offline_backoff (x : gmap string Q) (g : Globals) : Globals :=
  {| _last_thump_sent := _last_thump_sent g; _last_reconcile :=
  _last_reconcile g; _offline_backoff := x; _offline_next_try :=
  _offline_next_try g |}.

Definition set__offline_next_try (x : gmap string Q) (g : Globals) : Globals :=
  {| _last_thump_sent := _last_thump_sent g; _last_reconcile :=
  _last_reconcile g; _offline_backoff := _offline_backoff g;
  _offline_next_try := x |}.
Definition Globals_init : Globals :=
  {| _last_thump_sent := ∅; _last_reconcile := ∅; _offline_backoff := ∅;
     _offline_next_try := ∅ |}.

Record Sys : Type := {
  (** The dictionaries of [daemon.py]. *)
  globals : Globals;
  (** [core.STATE] and its file. *)
  store : Store;
  (** The other globals of [core.py]. *)
  net : Net;
}.

Definition set_globals (x : Globals) (y : Sys) : Sys :=
  {| globals := x; store := store y; net := net y |}.

Definition set_store (x : Store) (y : Sys) : Sys :=
  {| globals := globals y; store := x; net := net y |}.

Definition set_net (x : Net) (y : Sys) : Sys :=
  {| globals := globals y; store := store y; net := x |}.
(** Computations of [daemon.py]. *)
Definition DM (A : Type) : Type := Env -> Sys -> A * Sys.

Definition dret {A : Type} (a : A) : DM A := fun _ y => (a, y).

Definition dbind {A B : Type} (m : DM A) (k : A -> DM B) : DM B :=
  fun e y => let '(a, y') := m e y in k a e y'.

Notation "x <~ m ;; k" := (dbind m (fun x => k))
  (at level 100, m at next level, right associativity).
Notation "m ;;; k" := (dbind m (fun _ => k))
  (at level 100, right associativity).

(** A computation of [core.py] run from [daemon.py]. *)
Definition liftN {A : Type} (m : M A) : DM A :=
  fun e y => let '(a, n) := m e (net y) in (a, set_net n y).

Definition getG : DM Globals := fun _ y => (globals y, y).

Definition modifyG (f : Globals -> Globals) : DM unit :=
  fun _ y => (tt, set_globals (f (globals y)) y).

(** [qc.STATE.load()] *)
Definition STATE_load_d : DM (dict string value) :=
  fun _ y => let '(st, s) := STATE_load (store y) in (st, set_store s y).

(** [qc.STATE.save(st)] *)
Definition STATE_save_d (st : dict string value) : DM unit :=
  fun e y => (tt, set_store
                    (STATE_save (fs_mtime e (saves (store y))) st (store y)) y).

Section WithConfig.
Variable cfg : Config.

(** The return statement that ends a call of [thump_fire], which returns
    [None] in each case. *)
Inductive thump_outcome : Type :=
  | ThumpNoId
  | ThumpThrottled
  | ThumpSent (now : Q).

Definition thump_fire (ep : Endpoint) : DM thump_outcome :=
  match usable_id ep with
  | None => dret ThumpNoId
  | Some wsid =>
      liftN (ensure_app_flags cfg (ip ep) false) ;;;
      liftN (ensure_connected cfg ep false) ;;;
      now <~ liftN mono ;;
      let k := (ip ep ++ ":" ++ wsid)%string in
      g <~ getG ;;
      if Qltb (now - default 0 (_last_thump_sent g !! k)) HEARTBEAT_INTERVAL
      then dret ThumpThrottled
      else
        modifyG (fun g => set__last_thump_sent
                            (<[k := now]> (_last_thump_sent g)) g) ;;;
        liftN (send_ws (ip ep) wsid "thump" []) ;;;
        dret (ThumpSent now)
  end.

Definition offline_gate (r : string) : DM bool :=
  now <~ liftN mono ;;
  g <~ getG ;;
  dret (Qle_bool (default 0 (_offline_next_try g !! r)) now).

(** The backoff after one more failure. *)
Definition next_backoff (cur : Q) : Q :=
  if Qle_bool cur 0 then OFFLINE_BACKOFF_MIN
  else Qmin OFFLINE_BACKOFF_MAX (cur * OFFLINE_BACKOFF_FACTOR).

Definition bump_offline_backoff (r : string) : DM unit :=
  g <~ getG ;;
  let cur := next_backoff (default 0 (_offline_backoff g !! r)) in
  modifyG (fun g => set__offline_backoff (<[r := cur]> (_offline_backoff g)) g) ;;;
  now <~ liftN mono ;;
  modifyG (fun g => set__offline_next_try
                      (<[r := now + cur]> (_offline_next_try g)) g).

Definition reset_offline_backoff (r : string) : DM unit :=
  modifyG (fun g => set__offline_next_try (<[r := 0]> (_offline_next_try g))
                      (set__offline_backoff (<[r := 0]> (_offline_backoff g)) g)).

(** The four statements of [reconcile_endpoint] that rewrite the record
    loaded from the store; [None] when one of them raises, [st["endpoints"]]
    or [st["endpoints"][role]] being no dictionary. *)
Definition set_endpoint_ws (r new_id desired : string) (st : dict string value)
  : option (dict string value) :=
  let st1 := dict_setdefault "endpoints" (VDict []) st in
  match dict_get "endpoints" st1 with
  | Some (VDict eps) =>
      let eps1 := dict_setdefault r (VDict []) eps in
      match dict_get r eps1 with
      | Some (VDict entry) =>
          let entry1 :=
            dict_set "workspace_name" (VStr desired)
              (dict_set "workspace_id" (VStr new_id) entry) in
          Some (dict_set "endpoints"
                  (VDict (dict_set r (VDict entry1) eps1)) st1)
      | _ => None
      end
  | _ => None
  end.

(** How a call of [reconcile_endpoint] ends: by one of the two early
    returns, after a failed attempt, after a successful one (the flag is the
    value returned, the other cases returning [False]), or by an exception
    while the record is rewritten. *)
Inductive reconcile_outcome : Type :=
  | Gated
  | Throttled
  | Failed (now : Q)
  | Reconciled (now : Q) (changed : bool)
  | Raised (now : Q).

Definition with_workspace_id (new_id : string) (ep : Endpoint) : Endpoint :=
  {| ip := ip ep; role := role ep; workspace_name := workspace_name ep;
     workspace_id := Some new_id; last_seen_mono := last_seen_mono ep |}.

(** [bump_offline_backoff(role); return False] *)
Definition reconcile_fail (r : string) (ep : Endpoint) (now : Q)
  : DM (reconcile_outcome * Endpoint) :=
  bump_offline_backoff r ;;; dret (Failed now, ep).

(** The last four statements of [reconcile_endpoint]. *)
Definition reconcile_finish (r : string) (now : Q) (changed : bool)
    (ep : Endpoint) : DM (reconcile_outcome * Endpoint) :=
  liftN (ensure_connected cfg ep true) ;;;
  liftN (ensure_app_flags cfg (ip ep) true) ;;;
  reset_offline_backoff r ;;;
  dret (Reconciled now changed, ep).

(** The block run when the identifier has changed, [ep] being the endpoint
    object with its new identifier. *)
Definition reconcile_persist (r : string) (now : Q) (new_id desired : string)
    (ep : Endpoint) : DM (reconcile_outcome * Endpoint) :=
  st <~ STATE_load_d ;;
  match set_endpoint_ws r new_id desired st with
  | None => dret (Raised now, ep)
  | Some st' =>
      STATE_save_d st' ;;;
      liftN (refresh_role_map_from_state st') ;;;
      reconcile_finish r now true ep
  end.

(** [reconcile_endpoint] from the reply [r] of [request_workspaces] on: the
    outcome and the endpoint object afterwards. *)
Definition reconcile_reply (r : string) (ep : Endpoint) (now : Q)
    (reply : option (dict string value)) : DM (reconcile_outcome * Endpoint) :=
  match reply with
  | None | Some [] => reconcile_fail r ep now
  | Some rj =>
      match parse_workspaces (VDict rj) with
      | [] => reconcile_fail r ep now
      | wsmap =>
          match workspace_name ep with
          | None => reconcile_fail r ep now
          | Some desired =>
              if String.eqb desired "" then reconcile_fail r ep now
              else
                match dict_get desired wsmap with
                | None => reconcile_fail r ep now
                | Some new_id =>
                    if String.eqb new_id "" then reconcile_fail r ep now
                    else if bool_decide (Some new_id = workspace_id ep)
                    then reconcile_finish r now false ep
                    else reconcile_persist r now new_id desired
                           (with_workspace_id new_id ep)
                end
          end
      end
  end.

Definition reconcile_endpoint (r : string) (ep : Endpoint)
  : DM (reconcile_outcome * Endpoint) :=
  open <~ offline_gate r ;;
  if negb open then dret (Gated, ep)
  else
    now <~ liftN mono ;;
    g <~ getG ;;
    if Qltb (now - default 0 (_last_reconcile g !! r)) (RECONCILE_EVERY cfg)
    then dret (Throttled, ep)
    else
      modifyG (fun g => set__last_reconcile
                          (<[r := now]> (_last_reconcile g)) g) ;;;
      liftN (ensure_app_flags cfg (ip ep) true) ;;;
      reply <~ liftN (request_workspaces (ip ep)) ;;
      reconcile_reply r ep now reply.

(** The value [reconcile_endpoint] returns, when it returns. *)
Definition returned (o : reconcile_outcome) : option bool :=
  match o with
  | Raised _ => None
  | Reconciled _ changed => Some changed
  | _ => Some false
  end.

End WithConfig.

End Daemon.


(** ** Vocabulary of the statements *)

Import Led Core Daemon.

Local Open Scope list_scope.

(** The head of the list is a lower bound of the list. *)
Definition head_is_least (l : list string) : Prop :=
  match l with
  | [] => True
  | m :: _ => forall x, In x l -> String.leb m x = true
  end.

(** The key under which a tagged candidate is filed. *)
Definition cand_key (c : Candidate) : kind * string := (c_kind c, base c).

(** [by_base[b][k]], when both levels are present. *)
Definition lookup2 (b : string) (k : kind)
    (by_base : dict string (dict kind Candidate)) : option Candidate :=
  dict_get k (default [] (dict_get b by_base)).

(** [by_base] after the iteration for a candidate that is no duplicate. *)
Definition by_base_add (c : Candidate)
    (by_base : dict string (dict kind Candidate))
  : dict string (dict kind Candidate) :=
  let by_base1 := dict_setdefault (base c) [] by_base in
  dict_set (base c)
    (dict_set (c_kind c) c (default [] (dict_get (base c) by_base1))) by_base1.

(** ["main" in mm and "backup" in mm] *)
Definition complete (mm : dict kind Candidate) : bool :=
  dict_mem KMain mm && dict_mem KBackup mm.

(** A workspace whose identifier is a non-empty string. *)
Definition usable (item : string * value) : bool :=
  if nonempty_str (snd item) is Some _ then true else false.

(** The discovery input without them. *)
Definition drop_unusable (rs : list (string * dict string value))
  : list (string * dict string value) :=
  map (fun r => (fst r, filter (fun item => usable item = true) (snd r))) rs.

(** The identifiers that [data] gives for a key, in the order of [data]. *)
Definition uids_for (key : string) (data : list value) : list string :=
  map snd (filter (fun e => fst e = key) (omap entry_of data)).

(** Names without a dot keep all their characters. *)
Fixpoint dot_free (s : string) : bool :=
  match s with
  | EmptyString => true
  | String c rest => negb (Ascii.eqb c ".") && dot_free rest
  end.

(** The key of [_last_thump_sent] for an endpoint. *)
Definition thump_key (ep : Endpoint) : string :=
  (ip ep ++ ":" ++ default "" (usable_id ep))%string.

(** [_last_thump_sent.get(k, 0.0)] *)
Definition last_thump (y : Sys) (k : string) : Q :=
  default 0%Q (_last_thump_sent (globals y) !! k).

(** Sample environments and states, on which the statements are tried: a
    clock that advances by 3 seconds per read and nothing on the network. *)
Definition sample_env_idle : Env :=
  {| clock := fun n => inject_Z (Z.of_nat n) * 3;
     background := fun _ => [];
     json_loads := fun _ => None;
     fs_mtime := fun _ => 0 |}%Q.

(** A paired primary. *)
Definition sample_endpoint : Endpoint :=
  mkEndpoint "10.0.0.1" "main" "gala_main" "W1".

(** The globals of the two modules at import time. *)
Definition sys_init : Sys :=
  {| globals := Globals_init; store := Store_init; net := Net_init |}.

(** An environment in which every payload decodes to the object [j]. *)
Definition sample_env_reply (j : dict string value) : Env :=
  {| clock := fun n => inject_Z (Z.of_nat n) + 100;
     background := fun _ => [];
     json_loads := fun _ => Some (VDict j);
     fs_mtime := fun _ => 0 |}%Q.

(** [_offline_backoff.get(role, 0.0)] *)
Definition backoff_of (g : Globals) (r : string) : Q :=
  default 0%Q (_offline_backoff g !! r).

(** [_offline_next_try.get(role, 0.0)] *)
Definition next_try_of (g : Globals) (r : string) : Q :=
  default 0%Q (_offline_next_try g !! r).


(** The globals after [bump_offline_backoff], the clock being read at [t]. *)
Definition bumped (r : string) (t : Q) (g : Globals) : Globals :=
  set__offline_next_try
    (<[r := (t + next_backoff (backoff_of g r))%Q]> (_offline_next_try g))
    (set__offline_backoff
       (<[r := next_backoff (backoff_of g r)]> (_offline_backoff g)) g).

(** The globals after [reset_offline_backoff]. *)
Definition reset (r : string) (g : Globals) : Globals :=
  set__offline_next_try (<[r := 0%Q]> (_offline_next_try g))
    (set__offline_backoff (<[r := 0%Q]> (_offline_backoff g)) g).



(** A clock that advances by 10 seconds per read, and no reply at all. *)
Definition sample_env_silent : Env :=
  {| clock := fun n => inject_Z (Z.of_nat n) * 10 + 10;
     background := fun _ => [];
     json_loads := fun _ => None;
     fs_mtime := fun _ => 0 |}%Q.

(** [st["endpoints"]] as a dictionary, empty when it is absent. *)
Definition endpoints_of (st : dict string value) : dict string value :=
  match dict_get "endpoints" st with
  | Some (VDict eps) => eps
  | _ => []
  end.

(** [st["endpoints"][role]], likewise. *)
Definition entry_of_role (st : dict string value) (r : string)
  : dict string value :=
  match dict_get r (endpoints_of st) with
  | Some (VDict entry) => entry
  | _ => []
  end.

(** The record the state file holds, as [load] reads it. *)
Definition persisted (s : Store) : dict string value := _read_file s.

(** The cache of the manager is the content of the file whenever the
    modification times agree. *)
Definition coherent (s : Store) : Prop :=
  Qeq_bool (match state_file s with Some (m, _) => m | None => -1 end)
           (_mtime s) = true ->
  _cache s = _read_file s.

(** A record whose [endpoints], when present, is a dictionary whose entry
    for the role, when present, is a dictionary. *)
Definition well_shaped (r : string) (st : dict string value) : Prop :=
  match dict_get "endpoints" st with
  | None => True
  | Some (VDict eps) =>
      match dict_get r eps with
      | None | Some (VDict _) => True
      | Some _ => False
      end
  | Some _ => False
  end.

(** The persisted record [st'] is [st] with the identifier and the name of
    the role [r] rewritten and nothing else changed. *)
Definition rewritten (r new_id desired : string) (st st' : dict string value)
  : Prop :=
  dict_get "workspace_id" (entry_of_role st' r) = Some (VStr new_id) /\
  dict_get "workspace_name" (entry_of_role st' r) = Some (VStr desired) /\
  (forall f, f <> "workspace_id" -> f <> "workspace_name" ->
     dict_get f (entry_of_role st' r) = dict_get f (entry_of_role st r)) /\
  (forall r', r' <> r ->
     dict_get r' (endpoints_of st') = dict_get r' (endpoints_of st)) /\
  (forall k, k <> "endpoints" -> dict_get k st' = dict_get k st).

(** A reply to [/workspaces] listing one workspace. *)
Definition sample_listing : dict string value :=
  [("status", VStr "ok"); ("address", VStr "/workspaces");
   ("data", VList [VDict [("displayName", VStr "gala_main");
                          ("uniqueID", VStr "W2")]])].

(** The reply arrives from 10.0.0.1 during the first wait. *)
Definition sample_env_listing : Env :=
  {| clock := fun n => inject_Z (Z.of_nat n) * 10 + 10;
     background := fun n =>
       match n with
       | O => [Datagram (Some "10.0.0.1") "/reply/workspaces" [ArgStr "{...}"]]
       | S _ => []
       end;
     json_loads := fun _ => Some (VDict sample_listing);
     fs_mtime := fun n => inject_Z (Z.of_nat n) + 1000 |}%Q.

(** A pairing record as [save_paired_state] writes it, in part. *)
Definition sample_record : dict string value :=
  [("paired", VBool true); ("qlab_port", VNum 53000);
   ("endpoints",
    VDict [("main", VDict [("ip", VStr "10.0.0.1");
                           ("workspace_name", VStr "gala_main");
                           ("workspace_id", VStr "W1")]);
           ("backup", VDict [("ip", VStr "10.0.0.2");
                             ("workspace_name", VStr "gala_backup");
                             ("workspace_id", VStr "B1")])]);
   ("paused", VBool false)].

(** The record is in the state file and has not been loaded yet. *)
Definition sample_sys : Sys :=
  {| globals := Globals_init;
     store := {| state_file := Some (500%Q, Some (VDict sample_record));
                 saves := 0; _cache := []; _mtime := (-1)%Q |};
     net := Net_init |}.

(** The state after one call of [reconcile_endpoint] for the primary. *)
Definition sample_sys_reconciled : Sys :=
  snd (reconcile_endpoint user_config "main" sample_endpoint
         sample_env_listing sample_sys).

(** An envelope whose only workspace has the file-format suffix inside its
    name. *)
Definition sample_reply_inner_suffix : value :=
  VDict [("status", VStr "ok");
         ("data", VList [VDict [("displayName", VStr "show.qlab5_main");
                                ("uniqueID", VStr "A")]])].

(** The float nearest to 0.85. *)
Definition float_0_85 : Q := 7656119366529843 # 9007199254740992.

(** ** Vocabulary of the further properties *)

(** The kinds a role is filled from: the primary from a workspace tagged as
    primary or from the single plain one. *)
Definition kind_fits (r : string) (k : kind) : Prop :=
  (r = "main" /\ (k = KMain \/ k = KPlain)) \/
  (r = "backup" /\ k = KBackup) \/
  (r = "aux" /\ k = KAux).

(** The discovery input [rs'] holds the answers of [rs] in another order:
    the responders are permuted, and so are the workspaces each one lists. *)
Definition reordered (rs rs' : list (string * dict string value)) : Prop :=
  exists rs1, rs ≡ₚ rs1 /\
    Forall2 (fun r r' => fst r = fst r' /\ snd r ≡ₚ snd r') rs1 rs'.

(** Each channel of [c] lies between the same channel of [a] and of [b]. *)
Definition within (a b c : color) : Prop :=
  let '(a0, a1, a2) := a in
  let '(b0, b1, b2) := b in
  let '(c0, c1, c2) := c in
  (Z.min a0 b0 <= c0 <= Z.max a0 b0 /\
   Z.min a1 b1 <= c1 <= Z.max a1 b1 /\
   Z.min a2 b2 <= c2 <= Z.max a2 b2)%Z.

(** What a call of the handler for a datagram from [src] leaves alone: the
    send queue and what went out, the role map, the throttles of the
    protocol helpers, the set of armed events, and what is known of the
    other addresses. *)
Definition handler_frame (src : string) (w w' : Net) : Prop :=
  SENDW_q w' = SENDW_q w /\ wire w' = wire w /\
  ROLE_BY_IP w' = ROLE_BY_IP w /\
  flags_last w' = flags_last w /\ connect_last w' = connect_last w /\
  waits w' = waits w /\ _on_ack w' = _on_ack w /\
  (forall k, is_Some (_events w' !! k) <-> is_Some (_events w !! k)) /\
  (forall a, a <> src ->
     LAST_SEEN_BY_IP w' !! a = LAST_SEEN_BY_IP w !! a /\
     DISCOVERY w' !! a = DISCOVERY w !! a) /\
  (acks w' = acks w \/
   exists r, ROLE_BY_IP w !! src = Some r /\ acks w' = acks w ++ [(src, r)]).

(** A step of the other threads that is a datagram from the address
    [addr]. *)
Definition datagram_from (addr : string) (s : bg_step) : Prop :=
  match s with
  | Datagram c _ _ => default "0.0.0.0" c = addr
  | WorkerSend => False
  end.

#[global] Instance datagram_from_dec addr s : Decision (datagram_from addr s).
Proof. destruct s; simpl; apply _. Defined.

(** A use of the send worker: a message handed to [SendWorker.send], or an
    iteration of [SendWorker.run]. *)
Inductive sendw_use : Type :=
  | Put (addr path : string) (arg : value)
  | Take.

Definition sendw_step (u : sendw_use) : M unit :=
  match u with
  | Put addr path arg => SENDW_send addr path arg
  | Take => SENDW_run_once
  end.

(** Uses of the send worker, one after the other. *)
Fixpoint sendw_run (us : list sendw_use) : M unit :=
  match us with
  | [] => ret tt
  | u :: rest => sendw_step u ;; sendw_run rest
  end.

(** The messages handed to [send], in the order of the calls. *)
Definition puts (us : list sendw_use) : list (string * string * value) :=
  omap (fun u => match u with
                 | Put addr path arg => Some (addr, path, arg)
                 | Take => None
                 end) us.

(** The address on file for a role, as [refresh_role_map_from_state] reads
    it: a non-empty string. *)
Definition role_ip (st : dict string value) (r : string) : option string :=
  match dict_get r (endpoints_of st) with
  | Some (VDict e) => nonempty_str (vget "ip" e)
  | _ => None
  end.

(** A workspace whose name carries a tag or is one of the historical names. *)
Definition tagged (cfg : Config) (item : string * value) : bool :=
  negb (bool_decide (fst (_classify cfg (fst item)) = KPlain)).

(** The discovery input without the plain workspaces. *)
Definition drop_plain (cfg : Config) (rs : list (string * dict string value))
  : list (string * dict string value) :=
  map (fun r => (fst r, filter (fun item => tagged cfg item = true) (snd r))) rs.


(** ** [app/core.py]: liveness and the pairing record *)

(** [Endpoint.online]: the clock is read only when [last_seen_mono > 0]. *)
Definition online (ep : Endpoint) : M bool :=
  if Qltb 0 (last_seen_mono ep)
  then (now <- mono ;; ret (Qltb (now - last_seen_mono ep)%Q OFFLINE_AFTER))
  else ret false.

(** [DiscoveryStore.clear] and [DiscoveryStore.snapshot] *)
Definition DISCOVERY_clear : M unit := modify (set_DISCOVERY ∅).

Definition DISCOVERY_snapshot : M (gmap string value) :=
  w <- get ;; ret (DISCOVERY w).

Definition send_ws_fast (addr wsid suffix : string) : M string :=
  let full := ws_path wsid suffix in
  SENDW_send addr full (VList []) ;; ret full.

(** [set_ack_callback(cb)], [registered] telling whether [cb] is a
    function. *)
Definition set_ack_callback (registered : bool) : M unit :=
  modify (set__on_ack registered).

(** An optional string as a JSON value. *)
Definition str_or_null (o : option string) : value :=
  match o with Some s => VStr s | None => VNone end.

(** The arguments [ip], [workspace_name] and [workspace_id] of the call
    [Endpoint(ip=ip, role=role, workspace_name=wsn, workspace_id=wsid)] in
    [load_paired_endpoints]: [wsn] is the value on file, which nothing
    checks to be a string. *)
Definition paired_entry (e : dict string value)
  : option (string * value * string) :=
  match vget "ip" e, vget "workspace_id" e with
  | VStr addr, VStr wsid => Some (addr, vget "workspace_name" e, wsid)
  | _, _ => None
  end.

(** One iteration of the loop over [ROLES]. *)
Definition load_role (eps : dict string value)
    (out : dict string (string * value * string)) (r : string)
  : dict string (string * value * string) :=
  match dict_get r eps with
  | Some (VDict e) =>
      match paired_entry e with
      | Some args => dict_set r args out
      | None => out
      end
  | _ => out
  end.

(** [load_paired_endpoints]: [None] when it raises [SystemExit]; else, for
    every role kept, the arguments the endpoint is built from. *)
Definition load_paired_endpoints
  : DM (option (dict string (string * value * string))) :=
  st <~ STATE_load_d ;;
  if negb (truthy (vget "paired" st)) then dret None
  else
    match default (VDict []) (dict_get "endpoints" st) with
    | VDict eps => dret (Some (fold_left (load_role eps) ROLES []))
    | _ => dret (Some [])
    end.

(** The endpoint built from these arguments, when the name on file is a
    string or null. *)
Definition as_endpoint (r : string) (args : string * value * string)
  : option Endpoint :=
  let '(addr, wsn, wsid) := args in
  match wsn with
  | VStr n => Some (mkEndpoint addr r n wsid)
  | VNone => Some {| ip := addr; role := r; workspace_name := None;
                     workspace_id := Some wsid; last_seen_mono := 0 |}
  | _ => None
  end.

Section Pairing.
Variable cfg : Config.
(** [QLAB_PORT], read from the configuration (53000 in [user_config.py]). *)
Variable QLAB_PORT : Z.

(** The entry written for a role. *)
Definition endpoint_entry (ep : Endpoint) : value :=
  VDict [("ip", VStr (ip ep));
         ("workspace_name", str_or_null (workspace_name ep));
         ("workspace_id", str_or_null (workspace_id ep))].

(** The dictionary comprehension over [assigned.items()]. *)
Definition endpoint_entries (assigned : dict string Endpoint)
  : dict string value :=
  fold_left (fun out re => dict_set (fst re) (endpoint_entry (snd re)) out)
            assigned [].

(** The record [save_paired_state] writes; [paired_at] is the value
    [time.time()] returns and [old] the record loaded before. *)
Definition paired_record (paired_at : Q) (assigned : dict string Endpoint)
    (old : dict string value) : dict string value :=
  [("paired", VBool true);
   ("paired_at", VNum paired_at);
   ("qlab_port", VNum (inject_Z QLAB_PORT));
   ("pi_reply_port", VNum (inject_Z (PI_REPLY_PORT cfg)));
   ("expected_ws_main", VStr (EXPECTED_WS_MAIN cfg));
   ("expected_ws_backup", VStr (EXPECTED_WS_BACKUP cfg));
   ("suffix_main", VStr (SUFFIX_MAIN cfg));
   ("suffix_backup", VStr (SUFFIX_BACKUP cfg));
   ("suffix_aux1", VStr (SUFFIX_AUX1 cfg));
   ("endpoints", VDict (endpoint_entries assigned));
   ("paused",
    VBool (truthy (default (VBool false) (dict_get "paused" old))))].

Definition save_paired_state (paired_at : Q) (assigned : dict string Endpoint)
  : DM unit :=
  old <~ STATE_load_d ;;
  let st := paired_record paired_at assigned old in
  STATE_save_d st ;;;
  liftN (refresh_role_map_from_state st).

(** The exceptions [pair_auto] ends with: its own [NoRespondersError], or
    what [decide_roles] raised. *)
Inductive PairAutoError : Type :=
  | PairAutoNoResponders
  | FromDecideRoles (err : PairingError).

(** The loop of [pair_auto] over [assigned.items()]. *)
Fixpoint pair_lock (assigned : dict string Endpoint) : M unit :=
  match assigned with
  | [] => ret tt
  | (_, ep) :: rest =>
      ensure_app_flags cfg (ip ep) true ;;
      ensure_connected cfg ep true ;;
      pair_lock rest
  end.

(** The workspace maps of [discover_by_broadcast], as [decide_roles] reads
    them. *)
Definition as_responders (rs : list (string * dict string string))
  : list (string * dict string value) :=
  map (fun r => (fst r, map (fun nu => (fst nu, VStr (snd nu))) (snd r))) rs.

(** [pair_auto], from the list [discover_by_broadcast] returned on. *)
Definition pair_auto_from (paired_at : Q)
    (responders : list (string * dict string string))
  : DM (PairAutoError + dict string Endpoint) :=
  match responders with
  | [] => dret (inl PairAutoNoResponders)
  | _ =>
      match decide_roles cfg (as_responders responders) with
      | inl err => dret (inl (FromDecideRoles err))
      | inr assigned =>
          liftN (pair_lock assigned) ;;;
          save_paired_state paired_at assigned ;;;
          dret (inr assigned)
      end
  end.

End Pairing.


(** ** [app/daemon.py]: actions, unpairing, buttons and LED states *)

Definition BLINK_TOGGLE_SLOW : Q := 1.
Definition BLINK_TOGGLE_FAST : Q := 1 # 4.

Section Actions.
Variable cfg : Config.

(** The body of the loop of [warmup_before_action]. *)
Definition warmup_role (eps : dict string Endpoint) (r : string) : M unit :=
  match dict_get r eps with
  | Some ep =>
      match usable_id ep with
      | Some _ =>
          ensure_app_flags cfg (ip ep) true ;; ensure_connected cfg ep true
      | None => ret tt
      end
  | None => ret tt
  end.

Definition warmup_before_action (eps : dict string Endpoint) : M unit :=
  warmup_role eps "main" ;; warmup_role eps "backup" ;; warmup_role eps "aux".

(** The body of the loop of [send_action]. *)
Definition send_role (eps : dict string Endpoint) (suffix r : string)
  : M unit :=
  match dict_get r eps with
  | Some ep =>
      match usable_id ep with
      | Some wsid => send_ws_fast (ip ep) wsid suffix ;; ret tt
      | None => ret tt
      end
  | None => ret tt
  end.

Definition send_action (eps : dict string Endpoint) (suffix : string)
  : M unit :=
  send_role eps suffix "main" ;; send_role eps suffix "backup" ;;
  send_role eps suffix "aux".

Definition pause_toggle (eps : dict string Endpoint) : DM unit :=
  st <~ STATE_load_d ;;
  let paused := truthy (default (VBool false) (dict_get "paused" st)) in
  if paused then
    liftN (send_action eps "resume") ;;;
    STATE_save_d (dict_set "paused" (VBool false) st)
  else
    liftN (send_action eps "pause") ;;;
    STATE_save_d (dict_set "paused" (VBool true) st).

End Actions.

(** The globals of [daemon.py] that the pairing, the buttons and the LED
    states use. *)
Record Panel : Type := {
  _PAIR_FATAL_FAIL : bool;
  _PAIR_CONFLICT : bool;
  _MISSING_UNTIL : gmap string Q;
  _HEAL_MISMATCH_UNTIL : gmap string Q;
  _last_fire : gmap string Q;
  (** The dictionaries of the LED worker. *)
  LEDW : LEDWorker;
  (** The state of the watchdog, the store and [core.py]. *)
  sys : Sys;
}.

Definition set__PAIR_FATAL_FAIL (x : bool) (p : Panel) : Panel :=
  {| _PAIR_FATAL_FAIL := x; _PAIR_CONFLICT := _PAIR_CONFLICT p;
  _MISSING_UNTIL := _MISSING_UNTIL p; _HEAL_MISMATCH_UNTIL :=
  _HEAL_MISMATCH_UNTIL p; _last_fire := _last_fire p; LEDW := LEDW p; sys :=
  sys p |}.

Definition set__PAIR_CONFLICT (x : bool) (p : Panel) : Panel :=
  {| _PAIR_FATAL_FAIL := _PAIR_FATAL_FAIL p; _PAIR_CONFLICT := x;
  _MISSING_UNTIL := _MISSING_UNTIL p; _HEAL_MISMATCH_UNTIL :=
  _HEAL_MISMATCH_UNTIL p; _last_fire := _last_fire p; LEDW := LEDW p; sys :=
  sys p |}.

Definition set__MISSING_UNTIL (x : gmap string Q) (p : Panel) : Panel :=
  {| _PAIR_FATAL_FAIL := _PAIR_FATAL_FAIL p; _PAIR_CONFLICT :=
  _PAIR_CONFLICT p; _MISSING_UNTIL := x; _HEAL_MISMATCH_UNTIL :=
  _HEAL_MISMATCH_UNTIL p; _last_fire := _last_fire p; LEDW := LEDW p; sys :=
  sys p |}.

Definition set__HEAL_MISMATCH_UNTIL (x : gmap string Q) (p : Panel) : Panel :=
  {| _PAIR_FATAL_FAIL := _PAIR_FATAL_FAIL p; _PAIR_CONFLICT :=
  _PAIR_CONFLICT p; _MISSING_UNTIL := _MISSING_UNTIL p; _HEAL_MISMATCH_UNTIL
  := x; _last_fire := _last_fire p; LEDW := LEDW p; sys := sys p |}.

Definition set__last_fire (x : gmap string Q) (p : Panel) : Panel :=
  {| _PAIR_FATAL_FAIL := _PAIR_FATAL_FAIL p; _PAIR_CONFLICT :=
  _PAIR_CONFLICT p; _MISSING_UNTIL := _MISSING_UNTIL p; _HEAL_MISMATCH_UNTIL
  := _HEAL_MISMATCH_UNTIL p; _last_fire := x; LEDW := LEDW p; sys := sys p
  |}.

Definition set_LEDW (x : LEDWorker) (p : Panel) : Panel :=
  {| _PAIR_FATAL_FAIL := _PAIR_FATAL_FAIL p; _PAIR_CONFLICT :=
  _PAIR_CONFLICT p; _MISSING_UNTIL := _MISSING_UNTIL p; _HEAL_MISMATCH_UNTIL
  := _HEAL_MISMATCH_UNTIL p; _last_fire := _last_fire p; LEDW := x; sys :=
  sys p |}.

Definition set_sys (x : Sys) (p : Panel) : Panel :=
  {| _PAIR_FATAL_FAIL := _PAIR_FATAL_FAIL p; _PAIR_CONFLICT :=
  _PAIR_CONFLICT p; _MISSING_UNTIL := _MISSING_UNTIL p; _HEAL_MISMATCH_UNTIL
  := _HEAL_MISMATCH_UNTIL p; _last_fire := _last_fire p; LEDW := LEDW p; sys
  := x |}.
(** Computations of [daemon.py] on these globals. *)
Definition PM (A : Type) : Type := Env -> Panel -> A * Panel.

Definition pret {A : Type} (a : A) : PM A := fun _ p => (a, p).

Definition pbind {A B : Type} (m : PM A) (k : A -> PM B) : PM B :=
  fun e p => let '(a, p') := m e p in k a e p'.

Notation "x <<~ m ;; k" := (pbind m (fun x => k))
  (at level 100, m at next level, right associativity).
Notation "m ;;;; k" := (pbind m (fun _ => k))
  (at level 100, right associativity).

(** A computation of the watchdog or of [core.py] run from here. *)
Definition liftD {A : Type} (m : DM A) : PM A :=
  fun e p => let '(a, y) := m e (sys p) in (a, set_sys y p).

Definition getP : PM Panel := fun _ p => (p, p).

Definition modifyP (f : Panel -> Panel) : PM unit := fun _ p => (tt, f p).

(** [st.pop("paired", None); st.pop("endpoints", None);
    st.pop("paused", None)] *)
Definition unpaired (st : dict string value) : dict string value :=
  dict_pop "paused" (dict_pop "endpoints" (dict_pop "paired" st)).

Definition force_unpair_state : PM unit :=
  st <<~ liftD STATE_load_d ;;
  liftD (STATE_save_d (unpaired st)) ;;;;
  liftD (liftN (refresh_role_map_from_state (unpaired st))) ;;;;
  modifyP (set__PAIR_FATAL_FAIL false) ;;;;
  modifyP (set__PAIR_CONFLICT false) ;;;;
  modifyP (fun p => set__MISSING_UNTIL (<["backup" := 0%Q]> (_MISSING_UNTIL p)) p) ;;;;
  modifyP (fun p => set__MISSING_UNTIL (<["aux" := 0%Q]> (_MISSING_UNTIL p)) p).

(** [edge_guard] *)
Definition edge_guard (key : string) (min_dt : Q) : PM bool :=
  now <<~ liftD (liftN mono) ;;
  p <<~ getP ;;
  if Qltb (now - default 0 (_last_fire p !! key))%Q min_dt then pret false
  else
    modifyP (fun p => set__last_fire (<[key := now]> (_last_fire p)) p) ;;;;
    pret true.


Section LedStates.
Variable MASTER_DIM : Q.

(** [LEDW.set_state(role, rgb, blink=..., toggle_sec=...)] *)
Definition led_set (r : string) (rgb : color) (blink : bool) (toggle_sec : Q)
  : PM unit :=
  modifyP (fun p => set_LEDW (set_state r rgb blink toggle_sec (LEDW p)) p).

(** The loop over [LED_BY_ROLE.keys()] of the four functions below. *)
Definition led_set_all (rgb : color) (blink : bool) (toggle_sec : Q) : PM unit :=
  led_set "main" rgb blink toggle_sec ;;;;
  led_set "backup" rgb blink toggle_sec ;;;;
  led_set "aux" rgb blink toggle_sec.

Definition set_led_never_paired : PM unit :=
  led_set_all (dim MASTER_DIM C_BLUE) true BLINK_TOGGLE_SLOW.

Definition set_led_discovery : PM unit :=
  led_set_all (dim MASTER_DIM C_BLUE) true BLINK_TOGGLE_FAST.

Definition set_led_fatal_fail : PM unit :=
  led_set_all (dim MASTER_DIM C_RED) false BLINK_TOGGLE_NORM.

Definition set_led_conflict : PM unit :=
  led_set_all (dim MASTER_DIM C_VIOLET) false BLINK_TOGGLE_NORM.



(** The globals when the module has been imported. *)
Definition Panel_init : Panel :=
  {| _PAIR_FATAL_FAIL := false;
     _PAIR_CONFLICT := false;
     _MISSING_UNTIL := <["aux" := 0%Q]> (<["backup" := 0%Q]> ∅);
     _HEAL_MISMATCH_UNTIL :=
       <["aux" := 0%Q]> (<["backup" := 0%Q]> (<["main" := 0%Q]> ∅));
     _last_fire := ∅;
     LEDW := LEDWorker_init MASTER_DIM;
     sys := set_net (set__on_ack true Net_init) sys_init |}.

End LedStates.


(** ** Vocabulary of the properties of the actions and of the buttons *)

(** The message [send_action] hands to the send worker for a role. *)
Definition action_message (eps : dict string Endpoint) (suffix r : string)
  : list (string * string * value) :=
  match dict_get r eps with
  | Some ep =>
      match usable_id ep with
      | Some wsid => [(ip ep, ws_path wsid suffix, VList [])]
      | None => []
      end
  | None => []
  end.

Definition action_messages (eps : dict string Endpoint) (suffix : string)
  : list (string * string * value) :=
  action_message eps suffix "main" ++ action_message eps suffix "backup" ++
  action_message eps suffix "aux".

(** [_last_fire.get(key, 0.0)] *)
Definition last_fire_of (p : Panel) (key : string) : Q :=
  default 0%Q (_last_fire p !! key).

(** A sequence of calls of [edge_guard], one after the other, with the value
    each call returned and the clock value it read. *)
Fixpoint edge_run (calls : list (string * Q)) : PM (list (bool * Q)) :=
  match calls with
  | [] => pret []
  | (key, min_dt) :: rest =>
      fun e p =>
        let now := clock e (ticks (net (sys p))) in
        let '(b, p1) := edge_guard key min_dt e p in
        let '(os, p2) := edge_run rest e p1 in
        ((b, now) :: os, p2)
  end.

(** The messages handed to the send worker and not dropped: those gone out,
    then those pending. *)
Definition handed (w : Net) : list (string * string * value) :=
  wire w ++ SENDW_q w.

(** The message [connect_endpoint] sends. *)
Definition connect_message (cfg : Config) (ep : Endpoint) (wsid : string)
  : string * string * value :=
  (ip ep, ws_path wsid "connect",
   if String.eqb (OSC_PASSCODE cfg) "" then VList []
   else VStr (OSC_PASSCODE cfg)).

(** The three messages [ensure_app_flags] sends. *)
Definition flag_messages (cfg : Config) (addr : string)
  : list (string * string * value) :=
  [(addr, P_UDP_REPLY_PORT, VNum (inject_Z (PI_REPLY_PORT cfg)));
   (addr, P_ALWAYS_REPLY, VNum 1);
   (addr, P_FORGET_ME_NOT, VNum 1)].

(** No slash at all in a string; no slash at its start; no two slashes in a
    row. *)
Fixpoint no_slash (s : string) : bool :=
  match s with
  | EmptyString => true
  | String c rest => negb (Ascii.eqb c "/") && no_slash rest
  end.

Definition no_leading_slash (s : string) : bool :=
  negb (String.prefix "/" s).

Fixpoint no_double_slash (s : string) : bool :=
  match s with
  | EmptyString => true
  | String c rest => negb (String.prefix "//" s) && no_double_slash rest
  end.


(** ** [app/daemon.py]: the rotary encoder and the liveness of the endpoints *)

(** The fields of [RotaryEncoder] that [_loop] reads and writes. *)
Record Encoder : Type := {
  last_clk : Z;
  _last_emit_mono : Q;
  _last_dir : Z;
}.

(** The callback an iteration calls. *)
Inductive rotation : Type := Clockwise | CounterClockwise.

Section EncoderLoop.
(** [ENCODER_EVENT_COOLDOWN] and [ENCODER_DIR_GLITCH_SEC], read from the
    configuration (0.12 and 0.03 in [user_config.py]). *)
Variables event_cooldown dir_glitch_sec : Q.

(** One iteration of [RotaryEncoder._loop]: [clk] and [dt] are the levels of
    the two pins, the second being read only when the first has changed. *)
Definition encoder_step (clk dt : Z) (enc : Encoder)
  : M (option rotation * Encoder) :=
  if negb (clk =? last_clk enc)%Z then
    let direction := if negb (dt =? clk)%Z then 1%Z else (-1)%Z in
    now <- mono ;;
    let too_soon := Qltb (now - _last_emit_mono enc)%Q event_cooldown in
    let glitch_reverse :=
      negb (_last_dir enc =? 0)%Z && negb (direction =? _last_dir enc)%Z &&
      Qltb (now - _last_emit_mono enc)%Q dir_glitch_sec in
    if negb too_soon && negb glitch_reverse then
      ret (Some (if (0 <? direction)%Z then Clockwise else CounterClockwise),
           {| last_clk := clk; _last_emit_mono := now;
              _last_dir := direction |})
    else
      ret (None, {| last_clk := clk; _last_emit_mono := _last_emit_mono enc;
                    _last_dir := _last_dir enc |})
  else
    ret (None, {| last_clk := clk; _last_emit_mono := _last_emit_mono enc;
                  _last_dir := _last_dir enc |}).

End EncoderLoop.

Definition with_last_seen (t : Q) (ep : Endpoint) : Endpoint :=
  {| ip := ip ep; role := role ep; workspace_name := workspace_name ep;
     workspace_id := workspace_id ep; last_seen_mono := t |}.

(** The body of the loop of [_inject_last_seen]: the endpoint object
    afterwards. *)
Definition inject_one (seen : gmap string Q) (ep : Endpoint) : Endpoint :=
  match seen !! ip ep with
  | Some ts =>
      if negb (Qeq_bool ts 0)
      then with_last_seen (Qmax (last_seen_mono ep) ts) ep
      else ep
  | None => ep
  end.

(** [_inject_last_seen]: the endpoint objects of [eps] afterwards. *)
Definition _inject_last_seen (eps : dict string Endpoint)
  : M (dict string Endpoint) :=
  w <- get ;;
  ret (map (fun re => (fst re, inject_one (LAST_SEEN_BY_IP w) (snd re))) eps).


(** ** [app/discover.py]: the responders of a discovery *)

(** [l.sort(key=lambda x: x[0])] and [sorted(l, key=lambda x: x[0])]: a
    stable insertion sort on the address. *)
Fixpoint insert_by_ip {V : Type} (x : string * V) (l : list (string * V))
  : list (string * V) :=
  match l with
  | [] => [x]
  | y :: l' =>
      if String.leb (fst x) (fst y) then x :: l else y :: insert_by_ip x l'
  end.

Fixpoint sort_by_ip {V : Type} (l : list (string * V)) : list (string * V) :=
  match l with
  | [] => []
  | x :: l' => insert_by_ip x (sort_by_ip l')
  end.

(** The body of the loop of [_log_snapshot]: what an entry of the snapshot
    adds to [parsed]. *)
Definition parsed_entry (entry : string * value)
  : option (string * dict string string) :=
  match parse_workspaces (snd entry) with
  | [] => None
  | wsmap => Some (fst entry, wsmap)
  end.

(** The list [_log_snapshot] returns for a snapshot.  The order in which
    the snapshot is gone through does not show in the result, which is
    sorted by address, the addresses of a snapshot being distinct. *)
Definition snapshot_responders (snap : gmap string value)
  : list (string * dict string string) :=
  sort_by_ip (omap parsed_entry (map_to_list snap)).

Definition _log_snapshot : M (list (string * dict string string)) :=
  snap <- DISCOVERY_snapshot ;; ret (snapshot_responders snap).

(** The end of [discover_by_broadcast]: the two lists are merged by
    address, then sorted. *)
Definition merge_responders (r1 r2 : list (string * dict string string))
  : list (string * dict string string) :=
  let merged :=
    fold_left (fun m r => dict_set (fst r) (snd r) m) r2
      (fold_left (fun m r => dict_set (fst r) (snd r) m) r1 []) in
  sort_by_ip merged.


(** ** [app/discover.py]: [discover_by_broadcast] *)

(** [time.sleep]: like [Event.wait], a blocking call during which the other
    threads take their steps. *)
Definition sleep : M unit :=
  e <- ask ;;
  w <- get ;;
  modify (set_waits (S (waits w))) ;;
  bg_run_all (background e (waits w)).

(** The loop of [_sleep_window]; [None] when the fuel runs out before the
    clock has advanced by [wait_sec]. *)
Fixpoint sleep_loop (fuel : nat) (t0 wait_sec : Q) : M (option unit) :=
  match fuel with
  | O => ret None
  | S fuel' =>
      now <- mono ;;
      if Qltb (now - t0) wait_sec
      then sleep ;; sleep_loop fuel' t0 wait_sec
      else ret (Some tt)
  end.

Definition _sleep_window (fuel : nat) (wait_sec : Q) : M (option unit) :=
  t0 <- mono ;; sleep_loop fuel t0 wait_sec.

(** A phase: the store is emptied, the window is waited for, the snapshot
    is parsed.  The broadcasts go out on a socket of their own, made for
    each of them, and leave the state alone. *)
Definition discovery_phase (fuel : nat) (wait_sec : Q)
  : M (option (list (string * dict string string))) :=
  DISCOVERY_clear ;;
  o <- _sleep_window fuel wait_sec ;;
  match o with
  | Some _ => r <- _log_snapshot ;; ret (Some r)
  | None => ret None
  end.

Definition discover_by_broadcast (fuel : nat) (wait_sec : Q)
  : M (option (list (string * dict string string))) :=
  o1 <- discovery_phase fuel wait_sec ;;
  match o1 with
  | Some r1 =>
      o2 <- discovery_phase fuel wait_sec ;;
      match o2 with
      | Some r2 => ret (Some (merge_responders r1 r2))
      | None => ret None
      end
  | None => ret None
  end.

(** A step of the other threads that files the payload [v] in the discovery
    store under the address [a]: a datagram from [a] that decodes to the
    JSON object [v] and is an answer to [/workspaces]. *)
Definition workspaces_answer (e : Env) (a : string) (v : value) (s : bg_step)
  : Prop :=
  match s with
  | Datagram c address args =>
      default "0.0.0.0" c = a /\
      exists payload j,
        (head args = Some (ArgStr payload) \/
         head args = Some (ArgBytes payload)) /\
        json_loads e payload = Some (VDict j) /\ v = VDict j /\
        (startswith address "/reply/workspaces" = true \/
         dict_get "address" j = Some (VStr "/workspaces"))
  | WorkerSend => False
  end.

(** [pair_auto]; [paired_at] is the value [time.time()] returns in
    [save_paired_state]. *)
Definition pair_auto (cfg : Config) (QLAB_PORT : Z) (fuel : nat)
    (wait_sec paired_at : Q)
  : DM (option (PairAutoError + dict string Endpoint)) :=
  o <~ liftN (discover_by_broadcast fuel wait_sec) ;;
  match o with
  | Some responders =>
      r <~ pair_auto_from cfg QLAB_PORT paired_at responders ;;
      dret (Some r)
  | None => dret None
  end.

(** *** Vocabulary of the properties of a discovery *)

(** What a window lets into the store: an entry found afterwards was there
    before, or was filed by an answer received during one of the sleeps of
    the window. *)
Definition window_spec (e : Env) (w w' : Net) : Prop :=
  waits w <= waits w' /\
  forall a v,
    DISCOVERY w' !! a = Some v ->
    DISCOVERY w !! a = Some v \/
    exists k s, waits w <= k < waits w' /\ In s (background e k) /\
                workspaces_answer e a v s.

(** A clock that advances by [d] at least from a read to the next. *)
Definition advancing (d : Q) (e : Env) : Prop :=
  forall n, (clock e n + d <= clock e (S n))%Q.

(** What a discovery leaves alone: the role map, and the messages handed to
    the send worker. *)
Definition quiet (w w' : Net) : Prop :=
  ROLE_BY_IP w' = ROLE_BY_IP w /\ handed w' = handed w.

(** ** Vocabulary of the rates *)

(** The clock value read last. *)
Definition last_read (e : Env) (y : Sys) : Q :=
  clock e (Nat.pred (ticks (net y))).

(** The message is the [/thump] message of the endpoint: it goes to the
    address of the endpoint, for the path of its workspace. *)
Definition is_thump (ep : Endpoint) (m : string * string * value) : bool :=
  String.eqb (fst (fst m)) (ip ep) &&
  String.eqb (snd (fst m)) (ws_path (default "" (usable_id ep)) "thump").

(** How many of them have been handed to the send worker, and not dropped,
    so far. *)
Definition thumps_handed (ep : Endpoint) (y : Sys) : nat :=
  length (filter (fun m => is_thump ep m = true) (handed (net y))).

(** The states around the calls of a sequence of calls of [thump_fire], one
    after the other: before the first call, then after each call. *)
Fixpoint thump_states (cfg : Config) (eps : list Endpoint) (e : Env)
    (y : Sys) : list Sys :=
  y :: match eps with
       | [] => []
       | ep :: rest => thump_states cfg rest e (snd (thump_fire cfg ep e y))
       end.

(** The last character of a string. *)
Fixpoint str_last (s : string) : option ascii :=
  match s with
  | EmptyString => None
  | String c EmptyString => Some c
  | String _ rest => str_last rest
  end.

(** The messages handed to the send worker from [w] to [w'] all satisfy
    [P]. *)
Definition hands_only (P : string * string * value -> Prop) (w w' : Net)
  : Prop :=
  exists l, handed w' = handed w ++ l /\ Forall P l.

(** The path of the message does not end with the letter [p]. *)
Definition not_thump_path (m : string * string * value) : Prop :=
  str_last (snd (fst m)) <> Some "p"%char.

(** The state after a first heartbeat for the sample endpoint, and after a
    second one. *)
Definition sample_sys_thump1 : Sys :=
  snd (thump_fire user_config sample_endpoint sample_env_idle sys_init).

Definition sample_sys_thump2 : Sys :=
  snd (thump_fire user_config sample_endpoint sample_env_idle
         sample_sys_thump1).





(** * Properties *)

Local Open Scope list_scope.

(** ** Insertion-ordered dictionaries *)

Section DictFacts.
Context {K V : Type} `{EqDecision K}.
Implicit Types (d : dict K V) (k : K) (v : V).

Lemma dict_get_set_same k v d : dict_get k (dict_set k v d) = Some v.
Proof.
  induction d as [|[k' v'] d IH]; simpl.
  - by rewrite decide_True.
  - destruct (decide (k' = k)) as [->|Hne]; simpl.
    + by rewrite decide_True.
    + by rewrite decide_False.
Qed.

Lemma dict_get_set_other k k' v d :
  k <> k' -> dict_get k' (dict_set k v d) = dict_get k' d.
Proof.
  intros Hne. induction d as [|[k0 v0] d IH]; simpl.
  - by rewrite decide_False.
  - destruct (decide (k0 = k)) as [->|Hk0]; simpl.
    + by rewrite !decide_False.
    + destruct (decide (k0 = k')); [done | apply IH].
Qed.

Lemma dict_get_In k v d : dict_get k d = Some v -> In (k, v) d.
Proof.
  induction d as [|[k' v'] d IH]; simpl; [done|].
  destruct (decide (k' = k)) as [->|Hne].
  - intros [= ->]. by left.
  - intros Hg. right. by apply IH.
Qed.

Lemma dict_In_get k v d :
  NoDup (dict_keys d) -> In (k, v) d -> dict_get k d = Some v.
Proof.
  induction d as [|[k' v'] d IH]; simpl; [done|].
  intros Hnd [Heq|Hin].
  - injection Heq as -> ->. by rewrite decide_True.
  - apply NoDup_cons in Hnd as [Hnotin Hnd].
    destruct (decide (k' = k)) as [->|Hne].
    + exfalso. apply Hnotin. apply list_elem_of_In.
      change k with (fst (k, v)). by apply in_map.
    + by apply IH.
Qed.

Lemma dict_keys_set k v d :
  dict_keys (dict_set k v d) =
  if dict_mem k d then dict_keys d else dict_keys d ++ [k].
Proof.
  unfold dict_mem. induction d as [|[k' v'] d IH]; simpl; [done|].
  destruct (decide (k' = k)) as [->|Hne]; simpl; [done|].
  rewrite IH. by destruct (dict_get k d).
Qed.

Lemma dict_mem_keys k d : dict_mem k d = true <-> In k (dict_keys d).
Proof.
  unfold dict_mem. induction d as [|[k' v'] d IH]; simpl.
  - split; [done | tauto].
  - destruct (decide (k' = k)) as [->|Hne].
    + split; [by left | done].
    + rewrite IH. split; [by right | by intros [?|?]].
Qed.

Lemma dict_set_NoDup k v d :
  NoDup (dict_keys d) -> NoDup (dict_keys (dict_set k v d)).
Proof.
  intros Hnd. rewrite dict_keys_set.
  destruct (dict_mem k d) eqn:Hm; [done|].
  apply NoDup_app. split; [done|]. split.
  - intros x Hx Hx'. apply list_elem_of_In in Hx, Hx'.
    destruct Hx' as [<-|[]].
    apply dict_mem_keys in Hx. congruence.
  - apply NoDup_singleton.
Qed.

Lemma dict_setdefault_NoDup k v d :
  NoDup (dict_keys d) -> NoDup (dict_keys (dict_setdefault k v d)).
Proof.
  unfold dict_setdefault. destruct (dict_mem k d); [done|].
  apply dict_set_NoDup.
Qed.

Lemma dict_get_setdefault_same k v d :
  dict_get k (dict_setdefault k v d) = Some (default v (dict_get k d)).
Proof.
  unfold dict_setdefault, dict_mem.
  destruct (dict_get k d) eqn:Hg; simpl; [done|].
  apply dict_get_set_same.
Qed.

Lemma dict_get_setdefault_other k k' v d :
  k <> k' -> dict_get k' (dict_setdefault k v d) = dict_get k' d.
Proof.
  intros Hne. unfold dict_setdefault. destruct (dict_mem k d); [done|].
  by apply dict_get_set_other.
Qed.

End DictFacts.

(** ** The ordering of [sort] *)

Lemma string_leb_refl s : String.leb s s = true.
Proof.
  unfold String.leb.
  assert (Hc : String.compare s s = Eq).
  { induction s as [|c s IH]; simpl; [done|].
    unfold Ascii.compare. by rewrite N.compare_refl. }
  by rewrite Hc.
Qed.

Lemma string_leb_trans a b c :
  String.leb a b = true -> String.leb b c = true -> String.leb a c = true.
Proof.
  unfold String.leb. revert b c.
  induction a as [|x a IH]; intros [|y b] [|z c]; simpl; try done.
  unfold Ascii.compare.
  destruct (N.compare_spec (N_of_ascii x) (N_of_ascii y)) as [Hxy|Hxy|Hxy];
    destruct (N.compare_spec (N_of_ascii y) (N_of_ascii z)) as [Hyz|Hyz|Hyz];
    try done.
  - intros H1 H2. rewrite Hxy, Hyz, N.compare_refl. by apply (IH b c).
  - intros _ _. rewrite Hxy. by apply N.compare_lt_iff in Hyz as ->.
  - intros _ _. rewrite <- Hyz. by apply N.compare_lt_iff in Hxy as ->.
  - intros _ _. assert (Hxz : (N_of_ascii x < N_of_ascii z)%N) by lia.
    by apply N.compare_lt_iff in Hxz as ->.
Qed.

Lemma insert_sorted_In x y l : In y (insert_sorted x l) <-> y = x \/ In y l.
Proof.
  induction l as [|z l IH]; simpl.
  - split; [intros [?|[]]; by left | intros [?|[]]; by left].
  - destruct (String.leb x z); simpl; [split; intros [?|?]; auto|].
    rewrite IH. tauto.
Qed.

Lemma sort_In x l : In x (sort l) <-> In x l.
Proof.
  induction l as [|y l IH]; simpl; [done|].
  rewrite insert_sorted_In, IH. split; intros [?|?]; auto.
Qed.

Lemma insert_sorted_least x l :
  head_is_least l -> head_is_least (insert_sorted x l).
Proof.
  destruct l as [|y l]; simpl.
  - intros _ z [<-|[]]. apply string_leb_refl.
  - intros Hy. destruct (String.leb x y) eqn:Hxy; simpl.
    + intros z [<-|Hz]; [apply string_leb_refl|].
      apply (string_leb_trans _ y); [done | by apply Hy].
    + intros z Hz. destruct Hz as [<-|Hz]; [apply string_leb_refl|].
      apply insert_sorted_In in Hz as [->|Hz].
      * destruct (String.leb_total x y) as [Hc|Hc]; congruence.
      * apply Hy. by right.
Qed.

Lemma sort_least l : head_is_least (sort l).
Proof.
  assert (Haux : forall l, head_is_least (sort l) /\ True).
  { clear l. induction l as [|x l [IH _]]; simpl; [done|].
    split; [|done]. by apply insert_sorted_least. }
  apply Haux.
Qed.

Lemma sort_head_least l m r x :
  sort l = m :: r -> In x l -> In m l /\ String.leb m x = true.
Proof.
  intros Hs Hx. split.
  - apply sort_In. rewrite Hs. by left.
  - pose proof (sort_least l) as Hl. rewrite Hs in Hl.
    apply Hl. rewrite <- Hs. by apply sort_In.
Qed.

Lemma sort_nil l : sort l = [] -> l = [].
Proof.
  destruct l as [|x l]; [done|]. intros Hs.
  assert (Hin : In x (sort (x :: l))) by (apply sort_In; by left).
  rewrite Hs in Hin. destruct Hin.
Qed.

(** ** Role decision: the grouping loop *)

Section DiscoverFacts.
Variable cfg : Config.

Lemma lookup2_add c b k bb :
  lookup2 b k (by_base_add c bb) =
  if decide (cand_key c = (k, b)) then Some c else lookup2 b k bb.
Proof.
  unfold lookup2, by_base_add, cand_key.
  destruct (decide (base c = b)) as [<-|Hb].
  - rewrite dict_get_set_same, dict_get_setdefault_same.
    change (default [] (Some ?x)) with x.
    destruct (decide (c_kind c = k)) as [<-|Hk].
    + rewrite decide_True by done. apply dict_get_set_same.
    + rewrite decide_False by congruence. by apply dict_get_set_other.
  - rewrite decide_False by congruence.
    rewrite dict_get_set_other, dict_get_setdefault_other by done. done.
Qed.

Lemma by_base_add_NoDup c bb :
  NoDup (dict_keys bb) -> NoDup (dict_keys (by_base_add c bb)).
Proof.
  intros Hnd. unfold by_base_add.
  by apply dict_set_NoDup, dict_setdefault_NoDup.
Qed.

Lemma group_by_base_skip c rest bb :
  main_or_backup c = false ->
  group_by_base (c :: rest) bb = group_by_base rest bb.
Proof. intros Hc. cbn [group_by_base]. by rewrite Hc. Qed.

Lemma group_by_base_fresh c rest bb :
  main_or_backup c = true -> lookup2 (base c) (c_kind c) bb = None ->
  group_by_base (c :: rest) bb = group_by_base rest (by_base_add c bb).
Proof.
  intros Hc Hl. cbn [group_by_base]. rewrite Hc.
  unfold by_base_add. rewrite dict_get_setdefault_same.
  change (default [] (Some ?x)) with x.
  change (dict_mem (c_kind c) (default [] (dict_get (base c) bb)))
    with (if lookup2 (base c) (c_kind c) bb is Some _ then true else false).
  by rewrite Hl.
Qed.

Lemma group_by_base_duplicate c c' rest bb :
  main_or_backup c = true -> lookup2 (base c) (c_kind c) bb = Some c' ->
  group_by_base (c :: rest) bb =
  inl (ConflictError (DuplicateCandidate (base c) (c_kind c))).
Proof.
  intros Hc Hl. cbn [group_by_base]. rewrite Hc.
  rewrite dict_get_setdefault_same.
  change (default [] (Some ?x)) with x.
  change (dict_mem (c_kind c) (default [] (dict_get (base c) bb)))
    with (if lookup2 (base c) (c_kind c) bb is Some _ then true else false).
  by rewrite Hl.
Qed.

(** The loop raises nothing but [ConflictError]. *)
Lemma group_by_base_error cs bb e :
  group_by_base cs bb = inl e ->
  exists b k, e = ConflictError (DuplicateCandidate b k).
Proof.
  revert bb. induction cs as [|c cs IH]; intros bb; [done|].
  destruct (main_or_backup c) eqn:Hc.
  - destruct (lookup2 (base c) (c_kind c) bb) as [c'|] eqn:Hl.
    + rewrite (group_by_base_duplicate c c') by done. intros [= <-]. eauto.
    + rewrite group_by_base_fresh by done. apply IH.
  - rewrite group_by_base_skip by done. apply IH.
Qed.

(** What a completed loop has filed. *)
Lemma group_by_base_spec cs bb0 bb :
  NoDup (dict_keys bb0) ->
  group_by_base cs bb0 = inr bb ->
  NoDup (dict_keys bb) /\
  (forall c, In c cs -> main_or_backup c = true ->
             lookup2 (base c) (c_kind c) bb = Some c) /\
  (forall b k c, lookup2 b k bb = Some c ->
             lookup2 b k bb0 = Some c \/
             (In c cs /\ main_or_backup c = true /\ cand_key c = (k, b))) /\
  (forall b k c, lookup2 b k bb0 = Some c -> lookup2 b k bb = Some c).
Proof.
  revert bb0. induction cs as [|c cs IH]; intros bb0 Hnd Hg.
  - simpl in Hg. injection Hg as <-. repeat split; auto. intros ? [].
  - destruct (main_or_backup c) eqn:Hc.
    + destruct (lookup2 (base c) (c_kind c) bb0) as [c'|] eqn:Hl.
      { by rewrite (group_by_base_duplicate c c') in Hg. }
      rewrite group_by_base_fresh in Hg by done.
      destruct (IH _ (by_base_add_NoDup c bb0 Hnd) Hg) as (Hn & Ha & Hb & Hk).
      split; [done|]. split; [|split].
      * intros c1 [<-|Hin] Hc1; [|by apply Ha].
        apply Hk. rewrite lookup2_add. by rewrite decide_True.
      * intros b k c1 Hl1. destruct (Hb _ _ _ Hl1) as [H0|(Hin & Hm & Hkey)].
        -- rewrite lookup2_add in H0.
           destruct (decide (cand_key c = (k, b))) as [Hkey|Hkey].
           ++ injection H0 as <-. right. repeat split; auto. by left.
           ++ by left.
        -- right. repeat split; auto. by right.
      * intros b k c1 Hl1. apply Hk. rewrite lookup2_add.
        destruct (decide (cand_key c = (k, b))) as [Hkey|Hkey]; [|done].
        unfold cand_key in Hkey. injection Hkey as <- <-. congruence.
    + rewrite group_by_base_skip in Hg by done.
      destruct (IH _ Hnd Hg) as (Hn & Ha & Hb & Hk).
      split; [done|]. split; [|split]; [|  |done].
      * intros c1 [<-|Hin] Hc1; [congruence | by apply Ha].
      * intros b k c1 Hl1. destruct (Hb _ _ _ Hl1) as [H0|(Hin & Hm & Hkey)];
          [by left|]. right. repeat split; auto. by right.
Qed.

(** Without two tagged candidates under one key, the loop completes. *)
Lemma group_by_base_total cs bb0 :
  NoDup (map cand_key (filter (fun c => main_or_backup c = true) cs)) ->
  (forall c, In c cs -> main_or_backup c = true ->
             lookup2 (base c) (c_kind c) bb0 = None) ->
  exists bb, group_by_base cs bb0 = inr bb.
Proof.
  revert bb0. induction cs as [|c cs IH]; intros bb0 Hnd Hfresh.
  - by exists bb0.
  - destruct (main_or_backup c) eqn:Hc.
    + rewrite filter_cons_True in Hnd by done. simpl in Hnd.
      apply NoDup_cons in Hnd as [Hnotin Hnd].
      rewrite group_by_base_fresh; [|done|apply Hfresh; [by left|done]].
      apply IH; [done|].
      intros c1 Hin Hc1. rewrite lookup2_add.
      destruct (decide (cand_key c = (c_kind c1, base c1))) as [Hkey|Hkey].
      * exfalso. apply Hnotin. rewrite Hkey.
        apply list_elem_of_In, in_map_iff. exists c1. split; [done|].
        apply list_elem_of_In, list_elem_of_filter.
        split; [done | by apply list_elem_of_In].
      * apply Hfresh; [by right | done].
    + rewrite filter_cons_False in Hnd by (by rewrite Hc).
      rewrite group_by_base_skip by done.
      apply IH; [done|]. intros c1 Hin. apply Hfresh. by right.
Qed.

End DiscoverFacts.

(** ** Role decision: choosing the base *)

Section DecideFacts.
Variable cfg : Config.

Lemma bases_with_In p (bb : dict string (dict kind Candidate)) b :
  NoDup (dict_keys bb) ->
  In b (bases_with p bb) <->
  exists mm, dict_get b bb = Some mm /\ p mm = true.
Proof.
  intros Hnd. unfold bases_with. rewrite in_map_iff. split.
  - intros ([b' mm] & <- & Hin). apply list_elem_of_In in Hin.
    apply list_elem_of_filter in Hin as [Hp Hin]. simpl in *.
    exists mm. split; [|done]. apply dict_In_get; [done|].
    by apply list_elem_of_In.
  - intros (mm & Hg & Hp). exists (b, mm). split; [done|].
    apply list_elem_of_In, list_elem_of_filter. split; [done|].
    apply list_elem_of_In. by apply dict_get_In.
Qed.

Lemma complete_lookup2 bb b :
  (exists mm, dict_get b bb = Some mm /\ complete mm = true) <->
  is_Some (lookup2 b KMain bb) /\ is_Some (lookup2 b KBackup bb).
Proof.
  unfold lookup2, complete, dict_mem. split.
  - intros (mm & -> & Hc). simpl. apply andb_true_iff in Hc as [H1 H2].
    destruct (dict_get KMain mm), (dict_get KBackup mm); try done.
  - intros [[m Hm] [k Hk]]. destruct (dict_get b bb) as [mm|]; [|done].
    exists mm. split; [done|]. simpl in *. by rewrite Hm, Hk.
Qed.

(** With a complete base on file, the least complete base is selected. *)
Lemma select_base_complete bb b0 :
  NoDup (dict_keys bb) ->
  is_Some (lookup2 b0 KMain bb) -> is_Some (lookup2 b0 KBackup bb) ->
  exists sb, select_base bb = inr (Some sb) /\
             String.leb sb b0 = true /\
             is_Some (lookup2 sb KMain bb) /\ is_Some (lookup2 sb KBackup bb).
Proof.
  intros Hnd Hm Hk. unfold select_base. fold complete.
  assert (Hin : In b0 (bases_with complete bb)).
  { apply bases_with_In; [done|]. by apply complete_lookup2. }
  destruct (sort (bases_with complete bb)) as [|sb r] eqn:Hs.
  - apply sort_nil in Hs. rewrite Hs in Hin. destruct Hin.
  - exists sb. destruct (sort_head_least _ _ _ _ Hs Hin) as [Hsb Hle].
    split; [done|]. split; [done|].
    apply complete_lookup2. by apply bases_with_In.
Qed.

Lemma candidates_nil_inv (rs : list (string * dict string value)) :
  candidates cfg rs <> [] -> rs <> [].
Proof. by destruct rs. Qed.

Lemma decide_roles_candidates rs :
  candidates cfg rs <> [] ->
  decide_roles cfg rs = decide_candidates (candidates cfg rs).
Proof. intros Hc. by destruct rs. Qed.

(** The general form of the selection of a complete base. *)
Lemma decide_candidates_complete cs m bk :
  In m cs -> In bk cs ->
  c_kind m = KMain -> c_kind bk = KBackup -> base m = base bk ->
  NoDup (map cand_key (filter (fun c => main_or_backup c = true) cs)) ->
  length (filter (fun c => is_kind KAux c = true) cs) <= 1 ->
  (forall m' bk', In m' cs -> In bk' cs ->
     c_kind m' = KMain -> c_kind bk' = KBackup -> base m' = base bk' ->
     String.leb (base m) (base m') = true) ->
  decide_candidates cs =
  inr (("main", endpoint_of "main" m) :: ("backup", endpoint_of "backup" bk) ::
       match head (filter (fun c => is_kind KAux c = true) cs) with
       | Some a => [("aux", endpoint_of "aux" a)]
       | None => []
       end).
Proof.
  intros Hm Hbk Hkm Hkb Hbase Hnd Haux Hmin.
  assert (Hmb_m : main_or_backup m = true).
  { unfold main_or_backup, is_kind. by rewrite bool_decide_eq_true_2. }
  assert (Hmb_bk : main_or_backup bk = true).
  { unfold main_or_backup, is_kind.
    rewrite (bool_decide_eq_true_2 (c_kind bk = KBackup)) by done.
    apply orb_true_r. }
  destruct (group_by_base_total cs [] Hnd) as [bb Hg]; [done|].
  destruct (group_by_base_spec cs [] bb (NoDup_nil_2) Hg) as (Hn & Ha & Hb & _).
  pose proof (Ha m Hm Hmb_m) as Hlm. rewrite Hkm in Hlm.
  pose proof (Ha bk Hbk Hmb_bk) as Hlb. rewrite Hkb, <- Hbase in Hlb.
  destruct (select_base_complete bb (base m) Hn)
    as (sb & Hsel & Hle & [m' Hm'] & [bk' Hbk']);
    [by rewrite Hlm | by rewrite Hlb |].
  destruct (Hb _ _ _ Hm') as [Hnil|(Hin_m' & _ & Hkey_m')]; [done|].
  destruct (Hb _ _ _ Hbk') as [Hnil|(Hin_bk' & _ & Hkey_bk')]; [done|].
  unfold cand_key in Hkey_m', Hkey_bk'.
  injection Hkey_m' as Hkm' Hbm'. injection Hkey_bk' as Hkb' Hbb'.
  assert (Hsb : sb = base m).
  { apply String.leb_antisym; [done|]. rewrite <- Hbm'.
    apply (Hmin m' bk'); congruence. }
  rewrite Hsb in Hsel. clear dependent sb.
  unfold decide_candidates. destruct cs as [|c0 cs']; [destruct Hm|].
  set (cs := c0 :: cs') in *.
  destruct (filter (fun c => is_kind KAux c = true) cs) as [|a [|a' auxs]] eqn:Hf.
  - rewrite Hg, Hsel. unfold assign_main_backup.
    change (dict_get ?k (default [] (dict_get (base m) bb)))
      with (lookup2 (base m) k bb).
    by rewrite Hlm, Hlb.
  - rewrite Hg, Hsel. unfold assign_main_backup.
    change (dict_get ?k (default [] (dict_get (base m) bb)))
      with (lookup2 (base m) k bb).
    by rewrite Hlm, Hlb.
  - simpl in Haux. lia.
Qed.

End DecideFacts.

(** ** Role decision: the candidates of a discovery input *)

Section CandidateFacts.
Variable cfg : Config.

Lemma candidate_of_In addr item c :
  In c (candidate_of cfg addr item) <->
  exists wid, nonempty_str (snd item) = Some wid /\
    c = {| c_ip := addr; ws_name := fst item; ws_id := wid;
           c_kind := fst (_classify cfg (fst item));
           base := snd (_classify cfg (fst item)) |}.
Proof.
  unfold candidate_of. destruct (_classify cfg (fst item)) as [kd b]. simpl.
  destruct (nonempty_str (snd item)) as [wid|]; simpl.
  - split.
    + intros [<-|[]]. by exists wid.
    + intros (wid' & [= <-] & ->). by left.
  - split; [done | by intros (? & ? & _)].
Qed.

Lemma candidates_In rs c :
  In c (candidates cfg rs) <->
  exists addr ws n v wid,
    In (addr, ws) rs /\ In (n, v) ws /\ nonempty_str v = Some wid /\
    c = {| c_ip := addr; ws_name := n; ws_id := wid;
           c_kind := fst (_classify cfg n); base := snd (_classify cfg n) |}.
Proof.
  unfold candidates. rewrite in_flat_map. split.
  - intros ([addr ws] & Hr & Hc). apply in_flat_map in Hc as ([n v] & Hi & Hc).
    apply candidate_of_In in Hc as (wid & Hv & ->). simpl in *.
    by exists addr, ws, n, v, wid.
  - intros (addr & ws & n & v & wid & Hr & Hi & Hv & ->).
    exists (addr, ws). split; [done|]. apply in_flat_map.
    exists (n, v). split; [done|]. apply candidate_of_In. by exists wid.
Qed.

(** Two different tagged candidates filed under one key are a conflict. *)
Lemma decide_candidates_duplicate cs c1 c2 :
  In c1 cs -> In c2 cs -> c1 <> c2 ->
  main_or_backup c1 = true -> cand_key c1 = cand_key c2 ->
  exists why, decide_candidates cs = inl (ConflictError why).
Proof.
  intros H1 H2 Hne Hmb Hkey.
  assert (Hmb2 : main_or_backup c2 = true).
  { unfold cand_key in Hkey. injection Hkey as Hk _.
    unfold main_or_backup, is_kind in *. by rewrite <- Hk. }
  unfold decide_candidates. destruct cs as [|c0 cs']; [destruct H1|].
  set (cs := c0 :: cs') in *.
  destruct (filter (fun c => is_kind KAux c = true) cs) as [|a [|a' auxs]];
    [| |by eexists].
  all: destruct (group_by_base cs []) as [e|bb] eqn:Hg;
    [apply group_by_base_error in Hg as (b & k & ->); by eexists|].
  all: exfalso; apply Hne.
  all: destruct (group_by_base_spec cs [] bb NoDup_nil_2 Hg) as (_ & Ha & _).
  all: pose proof (Ha c1 H1 Hmb) as Hl1; pose proof (Ha c2 H2 Hmb2) as Hl2.
  all: unfold cand_key in Hkey; injection Hkey as Hk Hb.
  all: rewrite Hk, Hb in Hl1; congruence.
Qed.

Lemma group_by_base_plain cs bb :
  (forall c, In c cs -> c_kind c = KPlain) -> group_by_base cs bb = inr bb.
Proof.
  induction cs as [|c cs IH]; intros Hp; [done|].
  rewrite group_by_base_skip.
  - apply IH. intros c' Hc'. apply Hp. by right.
  - unfold main_or_backup, is_kind. rewrite (Hp c) by (by left). done.
Qed.

Lemma filter_kind_all k (cs : list Candidate) :
  (forall c, In c cs -> c_kind c = k) ->
  filter (fun c => is_kind k c = true) cs = cs.
Proof.
  induction cs as [|c cs IH]; intros Hp; [done|].
  rewrite filter_cons_True.
  - f_equal. apply IH. intros c' Hc'. apply Hp. by right.
  - unfold is_kind. apply bool_decide_eq_true_2. apply Hp. by left.
Qed.

Lemma filter_kind_none k k' (cs : list Candidate) :
  k <> k' -> (forall c, In c cs -> c_kind c = k') ->
  filter (fun c => is_kind k c = true) cs = [].
Proof.
  intros Hne. induction cs as [|c cs IH]; intros Hp; [done|].
  rewrite filter_cons_False.
  - apply IH. intros c' Hc'. apply Hp. by right.
  - unfold is_kind. rewrite bool_decide_eq_false_2; [done|].
    rewrite (Hp c) by (by left). congruence.
Qed.

Lemma candidate_of_unusable addr item :
  usable item = false -> candidate_of cfg addr item = [].
Proof.
  unfold candidate_of, usable.
  by destruct (_classify cfg (fst item)), (nonempty_str (snd item)).
Qed.

Lemma flat_map_candidate_of_usable addr (ws : dict string value) :
  flat_map (candidate_of cfg addr) (filter (fun item => usable item = true) ws) =
  flat_map (candidate_of cfg addr) ws.
Proof.
  induction ws as [|item ws IH]; [done|].
  destruct (usable item) eqn:Hu.
  - rewrite filter_cons_True by done. cbn [flat_map]. by rewrite IH.
  - rewrite filter_cons_False by (by rewrite Hu). cbn [flat_map].
    by rewrite IH, candidate_of_unusable.
Qed.

Lemma candidates_drop_unusable rs :
  candidates cfg (drop_unusable rs) = candidates cfg rs.
Proof.
  unfold candidates, drop_unusable.
  induction rs as [|[addr ws] rs IH]; [done|].
  cbn [map flat_map fst snd]. by rewrite IH, flat_map_candidate_of_usable.
Qed.

Lemma candidates_all_unusable rs :
  (forall addr ws n v, In (addr, ws) rs -> In (n, v) ws ->
                       nonempty_str v = None) ->
  candidates cfg rs = [].
Proof.
  intros Hall. destruct (candidates cfg rs) as [|c cs] eqn:Hc; [done|].
  assert (Hin : In c (candidates cfg rs)) by (rewrite Hc; by left).
  apply candidates_In in Hin as (addr & ws & n & v & wid & Hr & Hi & Hv & _).
  rewrite (Hall _ _ _ _ Hr Hi) in Hv. done.
Qed.

End CandidateFacts.

(** ** Role decision: the claims *)

(** C1. A discovery input whose candidates are one primary and one backup of
    the same base, together with plain candidates only, is assigned that
    primary as main and that backup as backup, the plain candidates being
    ignored.  More generally, when no two tagged candidates share kind and
    base and at most one candidate is auxiliary, a primary and a backup of
    the lexicographically least base that has both are the ones assigned. *)
Theorem decide_roles_complete_base (cfg : Config) :
  (forall rs m bk plains,
      candidates cfg rs ≡ₚ m :: bk :: plains ->
      c_kind m = KMain -> c_kind bk = KBackup -> base m = base bk ->
      (forall p, In p plains -> c_kind p = KPlain) ->
      decide_roles cfg rs =
      inr [("main", endpoint_of "main" m); ("backup", endpoint_of "backup" bk)])
  /\
  (forall rs m bk,
      let cs := candidates cfg rs in
      In m cs -> In bk cs ->
      c_kind m = KMain -> c_kind bk = KBackup -> base m = base bk ->
      NoDup (map cand_key (filter (fun c => main_or_backup c = true) cs)) ->
      length (filter (fun c => is_kind KAux c = true) cs) <= 1 ->
      (forall m' bk', In m' cs -> In bk' cs ->
         c_kind m' = KMain -> c_kind bk' = KBackup -> base m' = base bk' ->
         String.leb (base m) (base m') = true) ->
      decide_roles cfg rs =
      inr (("main", endpoint_of "main" m) ::
           ("backup", endpoint_of "backup" bk) ::
           match head (filter (fun c => is_kind KAux c = true) cs) with
           | Some a => [("aux", endpoint_of "aux" a)]
           | None => []
           end)).
Proof.
  assert (Hgen : forall rs m bk,
      let cs := candidates cfg rs in
      In m cs -> In bk cs ->
      c_kind m = KMain -> c_kind bk = KBackup -> base m = base bk ->
      NoDup (map cand_key (filter (fun c => main_or_backup c = true) cs)) ->
      length (filter (fun c => is_kind KAux c = true) cs) <= 1 ->
      (forall m' bk', In m' cs -> In bk' cs ->
         c_kind m' = KMain -> c_kind bk' = KBackup -> base m' = base bk' ->
         String.leb (base m) (base m') = true) ->
      decide_roles cfg rs =
      inr (("main", endpoint_of "main" m) ::
           ("backup", endpoint_of "backup" bk) ::
           match head (filter (fun c => is_kind KAux c = true) cs) with
           | Some a => [("aux", endpoint_of "aux" a)]
           | None => []
           end)).
  { intros rs m bk cs Hm Hbk Hkm Hkb Hb Hnd Haux Hmin.
    rewrite decide_roles_candidates.
    - by apply decide_candidates_complete.
    - fold cs. intros Hnil. rewrite Hnil in Hm. destruct Hm. }
  split; [|exact Hgen].
  intros rs m bk plains Hperm Hkm Hkb Hb Hplain.
  set (cs := candidates cfg rs) in *.
  assert (Hin : forall c, In c cs <-> c = m \/ c = bk \/ In c plains).
  { intros c. rewrite <- !list_elem_of_In. rewrite Hperm.
    rewrite !elem_of_cons. done. }
  assert (Hfm : filter (fun c => main_or_backup c = true) (m :: bk :: plains)
                = [m; bk]).
  { rewrite !filter_cons_True.
    - do 2 f_equal. clear Hperm Hin. induction plains as [|p ps IH]; [done|].
      rewrite filter_cons_False.
      + apply IH. intros q Hq. apply Hplain. by right.
      + unfold main_or_backup, is_kind.
        rewrite (Hplain p) by (by left). done.
    - unfold main_or_backup, is_kind. rewrite Hkb. done.
    - unfold main_or_backup, is_kind. rewrite Hkm. done. }
  assert (Hfa : filter (fun c => is_kind KAux c = true) (m :: bk :: plains) = []).
  { rewrite !filter_cons_False.
    - by apply (filter_kind_none KAux KPlain).
    - unfold is_kind. rewrite Hkb. done.
    - unfold is_kind. rewrite Hkm. done. }
  assert (Hpa : filter (fun c => is_kind KAux c = true) cs = []).
  { apply Permutation_nil_r. rewrite <- Hfa. by apply filter_Permutation. }
  specialize (Hgen rs m bk). fold cs in Hgen. cbv zeta in Hgen.
  rewrite Hpa in Hgen. apply Hgen; try done.
  - apply Hin. by left.
  - apply Hin. right. by left.
  - assert (Hp2 : filter (fun c => main_or_backup c = true) cs ≡ₚ [m; bk]).
    { rewrite <- Hfm. by apply filter_Permutation. }
    apply (NoDup_Permutation_proper _ _ (fmap_Permutation cand_key _ _ Hp2)).
    unfold cand_key. simpl. rewrite Hkm, Hkb.
    apply NoDup_cons. split; [|apply NoDup_singleton].
    rewrite list_elem_of_singleton. congruence.
  - simpl. lia.
  - intros m' bk' Hm' Hbk' Hkm' Hkb' Hb'.
    apply Hin in Hm' as [->|[->|Hp]].
    + apply string_leb_refl.
    + congruence.
    + rewrite (Hplain _ Hp) in Hkm'. done.
Qed.

Lemma decide_roles_complete_base_witness :
  decide_roles user_config
    [("10.0.0.1", [("gala_main", VStr "A")]);
     ("10.0.0.2", [("gala_backup", VStr "B"); ("Notes", VStr "N")])] =
  inr [("main", mkEndpoint "10.0.0.1" "main" "gala_main" "A");
       ("backup", mkEndpoint "10.0.0.2" "backup" "gala_backup" "B")]
  /\
  decide_roles user_config
    [("10.0.0.1", [("z_main", VStr "Z1"); ("a_main", VStr "A1")]);
     ("10.0.0.2", [("z_backup", VStr "Z2"); ("a_backup", VStr "A2")]);
     ("10.0.0.4", [("fx_aux1", VStr "X")])] =
  inr [("main", mkEndpoint "10.0.0.1" "main" "a_main" "A1");
       ("backup", mkEndpoint "10.0.0.2" "backup" "a_backup" "A2");
       ("aux", mkEndpoint "10.0.0.4" "aux" "fx_aux1" "X")].
Proof.
  split.
  - apply (proj1 (decide_roles_complete_base user_config) _
             {| c_ip := "10.0.0.1"; ws_name := "gala_main"; ws_id := "A";
                c_kind := KMain; base := "gala" |}
             {| c_ip := "10.0.0.2"; ws_name := "gala_backup"; ws_id := "B";
                c_kind := KBackup; base := "gala" |}
             [ {| c_ip := "10.0.0.2"; ws_name := "Notes"; ws_id := "N";
                  c_kind := KPlain; base := "Notes" |} ]).
    + vm_compute. reflexivity.
    + reflexivity.
    + reflexivity.
    + reflexivity.
    + intros p [<-|[]]. reflexivity.
  - etransitivity; [|vm_compute; reflexivity].
    apply (proj2 (decide_roles_complete_base user_config)
             [("10.0.0.1", [("z_main", VStr "Z1"); ("a_main", VStr "A1")]);
              ("10.0.0.2", [("z_backup", VStr "Z2"); ("a_backup", VStr "A2")]);
              ("10.0.0.4", [("fx_aux1", VStr "X")])]
             {| c_ip := "10.0.0.1"; ws_name := "a_main"; ws_id := "A1";
                c_kind := KMain; base := "a" |}
             {| c_ip := "10.0.0.2"; ws_name := "a_backup"; ws_id := "A2";
                c_kind := KBackup; base := "a" |}).
    + vm_compute. tauto.
    + vm_compute. tauto.
    + reflexivity.
    + reflexivity.
    + reflexivity.
    + vm_compute. apply (bool_decide_unpack _). vm_compute. exact I.
    + vm_compute. lia.
    + intros m' bk' Hm' _ Hk _ _. vm_compute in Hm'.
      destruct Hm' as [<-|[<-|[<-|[<-|[<-|[]]]]]]; try discriminate Hk;
        vm_compute; reflexivity.
Defined.

(** C2, as the code has it.  Two responders at different addresses, each
    with a workspace whose identifier is a non-empty string and whose names
    classify to the same kind, primary or backup, with the same base: the
    decision raises [ConflictError] and returns no assignment. *)
Theorem decide_roles_same_kind_conflict (cfg : Config) rs
    ip1 ip2 ws1 ws2 n1 n2 v1 v2 k b :
  In (ip1, ws1) rs -> In (ip2, ws2) rs -> ip1 <> ip2 ->
  In (n1, v1) ws1 -> In (n2, v2) ws2 ->
  is_Some (nonempty_str v1) -> is_Some (nonempty_str v2) ->
  _classify cfg n1 = (k, b) -> _classify cfg n2 = (k, b) ->
  k = KMain \/ k = KBackup ->
  exists why, decide_roles cfg rs = inl (ConflictError why).
Proof.
  intros Hr1 Hr2 Hne Hi1 Hi2 [w1 Hw1] [w2 Hw2] Hc1 Hc2 Hk.
  set (c1 := {| c_ip := ip1; ws_name := n1; ws_id := w1;
                c_kind := fst (_classify cfg n1);
                base := snd (_classify cfg n1) |}).
  set (c2 := {| c_ip := ip2; ws_name := n2; ws_id := w2;
                c_kind := fst (_classify cfg n2);
                base := snd (_classify cfg n2) |}).
  assert (Hin1 : In c1 (candidates cfg rs)).
  { apply candidates_In. by exists ip1, ws1, n1, v1, w1. }
  assert (Hin2 : In c2 (candidates cfg rs)).
  { apply candidates_In. by exists ip2, ws2, n2, v2, w2. }
  rewrite decide_roles_candidates.
  - apply (decide_candidates_duplicate _ c1 c2); try done.
    + intros Heq. apply Hne. by injection Heq.
    + unfold main_or_backup, is_kind, c1. simpl. rewrite Hc1. simpl.
      by destruct Hk as [->| ->].
    + unfold cand_key, c1, c2. simpl. by rewrite Hc1, Hc2.
  - intros Hnil. rewrite Hnil in Hin1. destruct Hin1.
Qed.

Lemma decide_roles_same_kind_conflict_witness :
  exists why,
    decide_roles user_config
      [("10.0.0.1", [("gala_main", VStr "id-1")]);
       ("10.0.0.2", [("gala_main", VStr "id-2")])] =
    inl (ConflictError why).
Proof.
  apply (decide_roles_same_kind_conflict user_config _
           "10.0.0.1" "10.0.0.2"
           [("gala_main", VStr "id-1")] [("gala_main", VStr "id-2")]
           "gala_main" "gala_main" (VStr "id-1") (VStr "id-2") KMain "gala").
  - vm_compute. tauto.
  - vm_compute. tauto.
  - discriminate.
  - vm_compute. tauto.
  - vm_compute. tauto.
  - vm_compute. eauto.
  - vm_compute. eauto.
  - reflexivity.
  - reflexivity.
  - by left.
Defined.

(** C2, as stated, fails: a workspace whose identifier is the empty string
    is no candidate, so the second primary-tagged name raises nothing. *)
Lemma decide_roles_same_kind_empty_id :
  ~ (forall rs ip1 ip2 ws1 ws2 n1 n2 (v1 v2 : value) k b,
       In (ip1, ws1) rs -> In (ip2, ws2) rs -> ip1 <> ip2 ->
       In (n1, v1) ws1 -> In (n2, v2) ws2 ->
       _classify user_config n1 = (k, b) ->
       _classify user_config n2 = (k, b) ->
       k = KMain \/ k = KBackup ->
       exists why, decide_roles user_config rs = inl (ConflictError why)).
Proof.
  intros Hclaim.
  destruct (Hclaim
              [("10.0.0.1", [("gala_main", VStr "id-1")]);
               ("10.0.0.2", [("gala_main", VStr "")])]
              "10.0.0.1" "10.0.0.2"
              [("gala_main", VStr "id-1")] [("gala_main", VStr "")]
              "gala_main" "gala_main" (VStr "id-1") (VStr "") KMain "gala")
    as [why Hwhy].
  - vm_compute. tauto.
  - vm_compute. tauto.
  - discriminate.
  - vm_compute. tauto.
  - vm_compute. tauto.
  - reflexivity.
  - reflexivity.
  - by left.
  - vm_compute in Hwhy. discriminate Hwhy.
Qed.

(** C3. When every candidate is plain, the decision raises
    [NoRespondersError] for no candidate, assigns the single candidate as
    main, with no backup and no auxiliary, for exactly one, and raises
    [ConflictError] for more than one. *)
Theorem decide_roles_only_plain (cfg : Config) rs :
  (forall c, In c (candidates cfg rs) -> c_kind c = KPlain) ->
  match candidates cfg rs with
  | [] => exists why, decide_roles cfg rs = inl (NoRespondersError why)
  | [p] => decide_roles cfg rs = inr [("main", endpoint_of "main" p)]
  | _ :: _ :: _ => exists why, decide_roles cfg rs = inl (ConflictError why)
  end.
Proof.
  intros Hplain. unfold decide_roles.
  destruct rs as [|r rs']; [simpl; by eexists|].
  set (rs := r :: rs') in *.
  destruct (candidates cfg rs) as [|p [|q cs]] eqn:Hcs.
  - by eexists.
  - unfold decide_candidates.
    rewrite (filter_kind_none KAux KPlain), (group_by_base_plain [p] []) by done.
    cbn [select_base bases_with filter map list_filter sort].
    unfold assign_main_backup. by rewrite (filter_kind_all KPlain).
  - unfold decide_candidates.
    rewrite (filter_kind_none KAux KPlain),
      (group_by_base_plain (p :: q :: cs) []) by done.
    cbn [select_base bases_with filter map list_filter sort].
    unfold assign_main_backup. rewrite (filter_kind_all KPlain) by done.
    by eexists.
Qed.

Lemma decide_roles_only_plain_witness :
  decide_roles user_config [("10.0.0.3", [("ShowUnique", VStr "U")])] =
  inr [("main", mkEndpoint "10.0.0.3" "main" "ShowUnique" "U")].
Proof.
  apply (decide_roles_only_plain user_config
           [("10.0.0.3", [("ShowUnique", VStr "U")])]).
  intros c Hc. vm_compute in Hc. destruct Hc as [<-|[]]. reflexivity.
Defined.

(** C10. The decision is that of the discovery input with every workspace
    removed whose identifier is not a non-empty string; when a non-empty
    responder list has only such workspaces, [NoRespondersError] is raised. *)
Theorem decide_roles_ignores_unusable (cfg : Config) rs :
  decide_roles cfg rs = decide_roles cfg (drop_unusable rs) /\
  (rs <> [] ->
   (forall addr ws n v, In (addr, ws) rs -> In (n, v) ws ->
                        nonempty_str v = None) ->
   decide_roles cfg rs = inl (NoRespondersError NoValidWorkspaces)).
Proof.
  split.
  - unfold decide_roles. destruct rs as [|r rs']; [done|].
    cbn [drop_unusable map]. fold (drop_unusable rs').
    change ((fst r, filter (fun item => usable item = true) (snd r))
              :: drop_unusable rs') with (drop_unusable (r :: rs')).
    by rewrite candidates_drop_unusable.
  - intros Hne Hall. unfold decide_roles. destruct rs as [|r rs']; [done|].
    by rewrite candidates_all_unusable.
Qed.

Lemma decide_roles_ignores_unusable_witness :
  decide_roles user_config
    [("10.0.0.1", [("gala_main", VStr ""); ("gala_backup", VNone)]);
     ("10.0.0.2", [("gala_main", VNum 7)])] =
  inl (NoRespondersError NoValidWorkspaces).
Proof.
  apply (proj2 (decide_roles_ignores_unusable user_config _)).
  - discriminate.
  - intros addr ws n v Hr Hi. vm_compute in Hr.
    destruct Hr as [[= <- <-]|[[= <- <-]|[]]]; vm_compute in Hi.
    + destruct Hi as [[= <- <-]|[[= <- <-]|[]]]; reflexivity.
    + destruct Hi as [[= <- <-]|[]]; reflexivity.
Defined.

(** ** [parse_workspaces] *)

Lemma uids_for_cons key it data :
  uids_for key (it :: data) =
  match entry_of it with
  | Some (k, u) => if decide (k = key) then u :: uids_for key data
                   else uids_for key data
  | None => uids_for key data
  end.
Proof.
  unfold uids_for. cbn [omap list_omap]. fold (omap entry_of data).
  destruct (entry_of it) as [[k u]|]; [|done].
  destruct (decide (k = key)) as [Hk|Hk].
  - by rewrite filter_cons_True.
  - by rewrite filter_cons_False.
Qed.

Lemma fold_parse_item_get key data out :
  dict_get key (fold_left parse_item data out) =
  match last (uids_for key data) with
  | Some u => Some u
  | None => dict_get key out
  end.
Proof.
  revert out. induction data as [|it data IH]; intros out; [done|].
  cbn [fold_left]. rewrite IH, uids_for_cons. unfold parse_item.
  destruct (entry_of it) as [[k u]|]; [|done].
  destruct (decide (k = key)) as [->|Hk].
  - rewrite last_cons, dict_get_set_same. by destruct (last (uids_for key data)).
  - by rewrite dict_get_set_other.
Qed.

Lemma string_app_nil_r (s : string) : (s ++ "")%string = s.
Proof.
  induction s as [|c s IH]; [done|].
  change (String c (s ++ "")%string = String c s). by rewrite IH.
Qed.

Lemma replace_from_dot_free old stem t :
  dot_free stem = true ->
  replace_from (String "." old) "" 0 (stem ++ t)%string =
  (stem ++ replace_from (String "." old) "" 0 t)%string.
Proof.
  induction stem as [|c stem IH]; intros Hd; [done|].
  simpl in Hd. apply andb_true_iff in Hd as [Hc Hd].
  change (String c stem ++ t)%string with (String c (stem ++ t)%string).
  change (String c stem ++ ?u)%string with (String c (stem ++ u)%string).
  cbn [replace_from String.prefix].
  destruct (ascii_dec "." c) as [<-|Hne]; [done|].
  by rewrite IH.
Qed.

Lemma replace_from_dot_free_id old stem :
  dot_free stem = true -> replace_from (String "." old) "" 0 stem = stem.
Proof.
  induction stem as [|c stem IH]; intros Hd; [done|].
  simpl in Hd. apply andb_true_iff in Hd as [Hc Hd].
  cbn [replace_from String.prefix].
  destruct (ascii_dec "." c) as [<-|Hne]; [done|].
  by rewrite IH.
Qed.

Lemma strip_format_dot_free stem :
  dot_free stem = true ->
  strip_format stem = stem /\
  strip_format (stem ++ ".qlab5") = stem /\
  strip_format (stem ++ ".qlab4") = stem.
Proof.
  intros Hd. unfold strip_format, replace.
  pose proof (replace_from_dot_free_id "qlab5" stem Hd) as H5.
  pose proof (replace_from_dot_free_id "qlab4" stem Hd) as H4.
  split; [|split].
  - by rewrite H5, H4.
  - rewrite (replace_from_dot_free "qlab5" stem ".qlab5" Hd).
    change (replace_from ".qlab5" "" 0 ".qlab5") with "".
    by rewrite string_app_nil_r, H4.
  - rewrite (replace_from_dot_free "qlab5" stem ".qlab4" Hd).
    change (replace_from ".qlab5" "" 0 ".qlab4") with ".qlab4".
    rewrite (replace_from_dot_free "qlab4" stem ".qlab4" Hd).
    change (replace_from ".qlab4" "" 0 ".qlab4") with "".
    by rewrite string_app_nil_r.
Qed.

(** C6, as the code has it.  An envelope that is no object, whose status is
    not ["ok"] or whose data is no list yields the empty mapping.  Otherwise
    the mapping gives, for every key, the identifier of the last element of
    [data] that contributes this key: an element contributes when it is an
    object whose name (the first truthy of displayName, name, fileName) and
    identifier (the first truthy of uniqueID, id, workspace_id) are strings,
    and its key is the name with every occurrence of [.qlab5] and then of
    [.qlab4] deleted.  For a name without any other dot, this removes the
    file-format suffix from the end. *)
Theorem parse_workspaces_mapping :
  (forall reply, ~ (exists r data, reply = VDict r /\
                      is_ok (vget "status" r) = true /\
                      vget "data" r = VList data) ->
                 parse_workspaces reply = []) /\
  (forall r data key,
      is_ok (vget "status" r) = true -> vget "data" r = VList data ->
      dict_get key (parse_workspaces (VDict r)) = last (uids_for key data)) /\
  (forall d name uid,
      name_of d = VStr name -> uid_of d = VStr uid ->
      entry_of (VDict d) =
      Some (replace (replace name ".qlab5" "") ".qlab4" "", uid)) /\
  (forall it, (forall d name uid, it = VDict d -> name_of d = VStr name ->
                                  uid_of d = VStr uid -> False) ->
              entry_of it = None) /\
  (forall stem, dot_free stem = true ->
      strip_format stem = stem /\
      strip_format (stem ++ ".qlab5") = stem /\
      strip_format (stem ++ ".qlab4") = stem).
Proof.
  split; [|split; [|split; [|split]]].
  - intros reply Hno. unfold parse_workspaces.
    destruct reply as [| | | |l|r]; try done.
    destruct (is_ok (vget "status" r)) eqn:Hok; [|done]. simpl.
    destruct (vget "data" r) as [| | | |data|] eqn:Hd; try done.
    exfalso. apply Hno. by exists r, data.
  - intros r data key Hok Hd. unfold parse_workspaces.
    rewrite Hok, Hd. simpl. rewrite fold_parse_item_get.
    by destruct (last (uids_for key data)).
  - intros d name uid Hn Hu. unfold entry_of. by rewrite Hn, Hu.
  - intros it Hno. unfold entry_of. destruct it as [| | | | |d]; try done.
    destruct (name_of d) eqn:Hn; try done.
    destruct (uid_of d) eqn:Hu; try done.
    exfalso. by eapply Hno.
  - apply strip_format_dot_free.
Qed.

Lemma parse_workspaces_mapping_witness :
  dict_get "show"
    (parse_workspaces
       (VDict [("status", VStr "ok");
               ("data", VList [VDict [("fileName", VStr "show.qlab5");
                                      ("uniqueID", VStr "A")]])])) =
  Some "A".
Proof.
  destruct parse_workspaces_mapping as (_ & Hget & _).
  rewrite (Hget _ [VDict [("fileName", VStr "show.qlab5");
                          ("uniqueID", VStr "A")]] "show");
    reflexivity.
Defined.

(** C6, as stated, fails: a file-format suffix inside the name is deleted
    too, so the key is not the name with the suffix removed from its end. *)
Lemma parse_workspaces_strips_inside_name :
  strip_suffix_at_end "show.qlab5_main" = "show.qlab5_main" /\
  parse_workspaces sample_reply_inner_suffix = [("show_main", "A")] /\
  parse_workspaces sample_reply_inner_suffix
    <> [(strip_suffix_at_end "show.qlab5_main", "A")].
Proof. vm_compute. repeat split. discriminate. Qed.

(** ** Floats *)

Section FloatFacts.
Local Open Scope Q_scope.

Lemma two_pow_pos k : 0 < 2 ^ k.
Proof. apply Qpower_0_lt. reflexivity. Qed.

Lemma two_pow_succ k : 2 ^ (k + 1) == 2 * 2 ^ k.
Proof. rewrite Qpower_plus by discriminate. rewrite Qpower_1_r. ring. Qed.

Lemma two_pow_pred k : 2 * 2 ^ (k - 1) == 2 ^ k.
Proof.
  rewrite <- two_pow_succ. by replace (k - 1 + 1)%Z with k by lia.
Qed.

Lemma inject_two_pow (n : Z) : (0 <= n)%Z -> inject_Z (2 ^ n) == 2 ^ n.
Proof. intros H. by rewrite Zpower_Qpower. Qed.

Lemma Qlog2_spec (x : Q) :
  0 < x -> 2 ^ Qlog2 x <= x /\ x < 2 ^ (Qlog2 x + 1).
Proof.
  intros Hx. destruct x as [n d]. unfold Qlog2. cbn [Qnum Qden].
  assert (Hn : (0 < n)%Z) by (unfold Qlt in Hx; simpl in Hx; lia).
  set (ln := Z.log2 n). set (ld := Z.log2 (Z.pos d)).
  destruct (Z.log2_spec n Hn) as [Hn1 Hn2]. fold ln in Hn1, Hn2.
  destruct (Z.log2_spec (Z.pos d) ltac:(lia)) as [Hd1 Hd2].
  fold ld in Hd1, Hd2.
  assert (Hln : (0 <= ln)%Z) by apply Z.log2_nonneg.
  assert (Hld : (0 <= ld)%Z) by apply Z.log2_nonneg.
  set (x := n # d).
  assert (HxD : x * inject_Z (Z.pos d) == inject_Z n).
  { unfold x, Qeq, Qmult, inject_Z. simpl. lia. }
  assert (HA : 0 < 2 ^ ln) by apply two_pow_pos.
  assert (HB : 0 < 2 ^ ld) by apply two_pow_pos.
  assert (HnA : 2 ^ ln <= inject_Z n)
    by (rewrite <- inject_two_pow by done; by rewrite <- Zle_Qle).
  assert (HnA' : inject_Z n < 2 * 2 ^ ln).
  { rewrite <- two_pow_succ, <- inject_two_pow by lia.
    rewrite <- Zlt_Qlt. by rewrite Z.add_1_r. }
  assert (HdB : 2 ^ ld <= inject_Z (Z.pos d))
    by (rewrite <- inject_two_pow by done; by rewrite <- Zle_Qle).
  assert (HdB' : inject_Z (Z.pos d) < 2 * 2 ^ ld).
  { rewrite <- two_pow_succ, <- inject_two_pow by lia.
    rewrite <- Zlt_Qlt. by rewrite Z.add_1_r. }
  assert (Hk : 2 ^ (ln - ld) * 2 ^ ld == 2 ^ ln).
  { rewrite <- Qpower_plus by discriminate.
    by replace (ln - ld + ld)%Z with ln by lia. }
  pose proof (two_pow_pos (ln - ld)) as Hp.
  set (p := 2 ^ (ln - ld)) in *. set (A := 2 ^ ln) in *.
  set (B := 2 ^ ld) in *. set (D := inject_Z (Z.pos d)) in *.
  set (N := inject_Z n) in *.
  destruct (Qle_bool p x) eqn:Hle.
  - apply Qle_bool_iff in Hle. split; [done|].
    rewrite two_pow_succ. fold p.
    apply Qnot_le_lt. intros Hc. nra.
  - assert (Hlt : x < p).
    { apply Qnot_le_lt. intros Hc. apply Qle_bool_iff in Hc. congruence. }
    replace (ln - ld - 1 + 1)%Z with (ln - ld)%Z by lia. fold p.
    split; [|done].
    pose proof (two_pow_pred (ln - ld)) as Hpred. fold p in Hpred.
    pose proof (two_pow_pos (ln - ld - 1)) as Hq.
    set (q := 2 ^ (ln - ld - 1)) in *.
    apply Qnot_lt_le. intros Hc. nra.
Qed.

Lemma Qlog2_unique (x : Q) (k : Z) :
  2 ^ k <= x -> x < 2 ^ (k + 1) -> Qlog2 x = k.
Proof.
  intros H1 H2.
  assert (Hx : 0 < x) by (pose proof (two_pow_pos k); lra).
  destruct (Qlog2_spec x Hx) as [S1 S2].
  assert (Ha : (Qlog2 x < k + 1)%Z).
  { apply (Qpower_lt_compat_l_inv 2); [|reflexivity]. lra. }
  assert (Hb : (k < Qlog2 x + 1)%Z).
  { apply (Qpower_lt_compat_l_inv 2); [|reflexivity]. lra. }
  lia.
Qed.

Lemma round_half_even_inject (x : Q) (z : Z) :
  x == inject_Z z -> round_half_even x = z.
Proof.
  intros H. unfold round_half_even.
  assert (Hf : Qfloor x = z) by (rewrite H; apply Qfloor_Z).
  rewrite Hf.
  assert (Hlt : x - inject_Z z < 1 # 2) by (rewrite H; lra).
  assert (Hc : Qcompare (x - inject_Z z) (1 # 2) = Lt) by (by apply Qlt_alt).
  by rewrite Hc.
Qed.

Lemma round_half_even_nonneg (x : Q) : 0 <= x -> (0 <= round_half_even x)%Z.
Proof.
  intros H. unfold round_half_even.
  assert (Hf : (0 <= Qfloor x)%Z).
  { change 0%Z with (Qfloor 0). by apply Qfloor_resp_le. }
  destruct (Qcompare _ _); [destruct (Z.even _)|..]; lia.
Qed.

Lemma b64_round_pos_exact (m e : Z) (x : Q) :
  (0 < m < 2 ^ 53)%Z -> (-1074 <= e)%Z -> x == inject_Z m * 2 ^ e ->
  b64_round_pos x == x.
Proof.
  intros [Hm0 Hm] He Hx. unfold b64_round_pos.
  destruct (Z.log2_spec m Hm0) as [L1 L2].
  assert (HL : (0 <= Z.log2 m < 53)%Z).
  { split; [apply Z.log2_nonneg|]. by apply Z.log2_lt_pow2. }
  assert (Hlog : Qlog2 x = (Z.log2 m + e)%Z).
  { apply Qlog2_unique; rewrite Hx.
    - rewrite Qpower_plus by discriminate.
      apply Qmult_le_compat_r; [|apply Qlt_le_weak, two_pow_pos].
      rewrite <- inject_two_pow by lia. by rewrite <- Zle_Qle.
    - replace (Z.log2 m + e + 1)%Z with (Z.succ (Z.log2 m) + e)%Z by lia.
      rewrite Qpower_plus by discriminate.
      apply Qmult_lt_compat_r; [apply two_pow_pos|].
      rewrite <- inject_two_pow by lia. by rewrite <- Zlt_Qlt. }
  rewrite Hlog.
  set (ex := Z.max (Z.log2 m + e - 52) (-1074)).
  assert (Hex : (ex <= e)%Z) by lia.
  assert (Hdiv : x / 2 ^ ex == inject_Z (m * 2 ^ (e - ex))).
  { rewrite Hx, inject_Z_mult, inject_two_pow by lia.
    rewrite Qpower_minus by discriminate. field.
    apply Qpower_not_0. discriminate. }
  rewrite (round_half_even_inject _ _ Hdiv).
  rewrite Hx, inject_Z_mult, inject_two_pow by lia.
  rewrite Qpower_minus by discriminate. field.
  apply Qpower_not_0. discriminate.
Qed.

Lemma b64_round_exact (m e : Z) (x : Q) :
  (Z.abs m < 2 ^ 53)%Z -> (-1074 <= e)%Z -> x == inject_Z m * 2 ^ e ->
  b64_round x == x.
Proof.
  intros Hm He Hx. unfold b64_round.
  pose proof (two_pow_pos e) as Hp.
  destruct (Z.lt_trichotomy m 0) as [Hneg|[->|Hpos]].
  - assert (Hlt : x < 0).
    { rewrite Hx. assert (inject_Z m < 0) by (by rewrite Zlt_Qlt in Hneg).
      nra. }
    assert (Hc : Qcompare x 0 = Lt) by (by apply Qlt_alt). rewrite Hc.
    rewrite (b64_round_pos_exact (- m) e); [ring|lia|done|].
    rewrite Hx, inject_Z_opp. ring.
  - assert (H0 : x == 0) by (rewrite Hx; ring).
    assert (Hc : Qcompare x 0 = Eq) by (by apply Qeq_alt). rewrite Hc.
    by symmetry.
  - assert (Hgt : 0 < x).
    { rewrite Hx. assert (0 < inject_Z m) by (by rewrite Zlt_Qlt in Hpos).
      nra. }
    assert (Hc : Qcompare x 0 = Gt) by (by apply Qgt_alt). rewrite Hc.
    apply (b64_round_pos_exact m e); [lia|done|done].
Qed.

Lemma b64_round_nonneg (x : Q) : 0 <= x -> 0 <= b64_round x.
Proof.
  intros H. unfold b64_round.
  destruct (Qcompare x 0) eqn:Hc.
  - apply Qle_refl.
  - assert (Hlt : x < 0) by (by apply Qlt_alt). lra.
  - assert (Hgt : 0 < x) by (by apply Qgt_alt). unfold b64_round_pos.
    set (ulp := 2 ^ _).
    assert (Hu : 0 < ulp) by apply two_pow_pos.
    assert (Hr : (0 <= round_half_even (x / ulp))%Z).
    { apply round_half_even_nonneg. apply Qle_shift_div_l; [done|]. lra. }
    rewrite Zle_Qle in Hr. change (inject_Z 0) with 0 in Hr.
    apply Qmult_le_0_compat; [done | by apply Qlt_le_weak].
Qed.

End FloatFacts.

(** ** The LED renderer *)

Section LedFacts.
Variable MASTER_DIM : Q.

Lemma py_int_floor (x : Q) : (0 <= x)%Q -> py_int x = Qfloor x.
Proof.
  destruct x as [n d]. unfold Qle, py_int, Qfloor. simpl. intros Hn.
  apply Z.quot_div_nonneg; lia.
Qed.

Lemma set_state_toggle_pos r steady blink toggle_sec w r' T :
  (forall r0 T0, _toggle w !! r0 = Some T0 -> (0 < T0)%Q) ->
  _toggle (set_state r steady blink toggle_sec w) !! r' = Some T -> (0 < T)%Q.
Proof.
  intros Hinv. unfold set_state. simpl.
  destruct (decide (r = r')) as [->|Hne].
  - rewrite lookup_insert_eq. intros [= <-].
    apply Qlt_le_trans with float_0_05; [done | apply Q.le_max_l].
  - rewrite lookup_insert_ne by done. apply Hinv.
Qed.

Lemma blink_on_even (now T : Q) :
  (0 <= now)%Q -> (0 < T)%Q ->
  _blink_on now T = Z.even (Qfloor (float_div now T)).
Proof.
  intros Hnow HT. unfold _blink_on. rewrite py_int_floor.
  - by rewrite <- Zeven_mod.
  - apply b64_round_nonneg. apply Qle_shift_div_l; [done|].
    by rewrite Qmult_0_l.
Qed.

(** The quotient by a power of two that is 1 at most is exact. *)
Lemma float_div_pow2 (now T : Q) (k : Z) :
  binary64 now -> (k <= 0)%Z -> (T == 2 ^ k)%Q ->
  (float_div now T == now / T)%Q.
Proof.
  intros (m & e & Hm & [He _] & Hnow) Hk HT. unfold float_div.
  apply (b64_round_exact m (e - k)); [done | lia |].
  rewrite Hnow, HT, Qpower_minus by discriminate. field.
  apply Qpower_not_0. discriminate.
Qed.

(** C9. At a monotonic time [now], not negative, for a pixel whose blink
    half-period is [T], the quotient [now / T] being below [2^1023]: with
    blink enabled, the target colour is the steady colour when the integer
    part of the float [now / T] is even and the off colour when it is odd,
    the float being the exact quotient rounded to the nearest binary64
    number.  When [T] is a power of two that is 1 at most, as the three
    half-periods in use are, and [now] is a float, the quotient is exact:
    the target is the steady colour when [floor (now / T)] is even and the
    off colour when it is odd.  With blink disabled the target is the
    steady colour.  Outside a flash and a fade the target is the colour
    rendered. *)
Theorem led_target_blink now r (w : LEDWorker) T :
  (0 <= now)%Q -> (0 < T)%Q -> (now / T < 2 ^ 1023)%Q ->
  _toggle w !! r = Some T ->
  let steady := default (dim MASTER_DIM C_OFF) (_steady w !! r) in
  (_blink w !! r = Some true ->
   target_color MASTER_DIM now r w =
   if Z.even (Qfloor (float_div now T)) then steady
   else dim MASTER_DIM C_OFF) /\
  (_blink w !! r = Some true ->
   forall k, (k <= 0)%Z -> (T == 2 ^ k)%Q -> binary64 now ->
   target_color MASTER_DIM now r w =
   if Z.even (Qfloor (now / T)) then steady else dim MASTER_DIM C_OFF) /\
  (default false (_blink w !! r) = false ->
   target_color MASTER_DIM now r w = steady) /\
  (Qltb now (default 0%Q (_flash_until w !! r)) = false ->
   default false (_flash_active w !! r) = false ->
   Qltb 0 (default 0%Q (_fade_start w !! r)) = false ->
   snd (render_role MASTER_DIM now r w) = target_color MASTER_DIM now r w).
Proof.
  intros Hnow HT Hfin Htog steady.
  assert (Hon : _blink w !! r = Some true ->
                target_color MASTER_DIM now r w =
                if Z.even (Qfloor (float_div now T)) then steady
                else dim MASTER_DIM C_OFF).
  { intros Hblink. unfold target_color. rewrite Hblink, Htog. simpl.
    rewrite blink_on_even by done. fold steady. by destruct (Z.even _). }
  split; [exact Hon|]. split; [|split].
  - intros Hblink k Hk Hpow Hb. rewrite (Hon Hblink).
    by rewrite (float_div_pow2 now T k Hb Hk Hpow).
  - intros Hblink. unfold target_color. by rewrite Hblink.
  - intros Hflash Hactive Hfade. unfold render_role.
    by rewrite Hflash, Hactive, Hfade.
Qed.

End LedFacts.

Lemma led_target_blink_witness :
  target_color (18 # 100) (7 # 4) "main"
    (set_state "main" (dim (18 # 100) C_RED) true (1 # 2)
       (LEDWorker_init (18 # 100))) = (0, 0, 0)%Z.
Proof.
  pose proof (led_target_blink (18 # 100) (7 # 4) "main"
                (set_state "main" (dim (18 # 100) C_RED) true (1 # 2)
                   (LEDWorker_init (18 # 100))) (1 # 2)) as H.
  destruct H as (_ & Hon & _);
    [done | done | reflexivity | vm_compute; reflexivity |].
  rewrite (Hon ltac:(vm_compute; reflexivity) (-1)%Z);
    [vm_compute; reflexivity | lia | reflexivity |].
  exists 7%Z, (-2)%Z. split; [reflexivity|]. split; [lia | reflexivity].
Defined.

(** C9, as stated, fails for a half-period that is no power of two.  At
    [now = 0.85] and [T = 0.05], the least half-period [set_state] keeps,
    the exact quotient of the two floats is below 17, so that its floor, 16,
    is even; the quotient the renderer computes is the float 17.0, and the
    target colour of the blinking pixel is the off colour, not its steady
    red. *)
Lemma led_target_blink_rounding :
  ~ (forall MASTER_DIM now r (w : LEDWorker) T,
       binary64 now -> binary64 T ->
       (0 <= now)%Q -> (0 < T)%Q -> _toggle w !! r = Some T ->
       _blink w !! r = Some true ->
       target_color MASTER_DIM now r w =
       if Z.even (Qfloor (now / T))
       then default (dim MASTER_DIM C_OFF) (_steady w !! r)
       else dim MASTER_DIM C_OFF).
Proof.
  intros Hclaim.
  specialize (Hclaim 1%Q float_0_85 "main"
                (set_state "main" (dim 1 C_RED) true float_0_05
                   (LEDWorker_init 1)) float_0_05).
  assert (H : (0, 0, 0)%Z = (255, 0, 0)%Z); [|discriminate H].
  change (0, 0, 0)%Z
    with (target_color 1 float_0_85 "main"
            (set_state "main" (dim 1 C_RED) true float_0_05
               (LEDWorker_init 1))).
  rewrite Hclaim.
  - vm_compute. reflexivity.
  - exists 7656119366529843%Z, (-53)%Z.
    split; [reflexivity|]. split; [lia | reflexivity].
  - exists 3602879701896397%Z, (-56)%Z.
    split; [reflexivity|]. split; [lia | reflexivity].
  - discriminate.
  - reflexivity.
  - vm_compute. reflexivity.
  - vm_compute. reflexivity.
Qed.

(** ** The heartbeat *)


Section DaemonFacts.
Variable cfg : Config.

Lemma liftN_frame {A : Type} (m : M A) e y a y' :
  liftN m e y = (a, y') -> globals y' = globals y /\ store y' = store y.
Proof.
  unfold liftN. destruct (m e (net y)) as [a0 n]. intros [= <- <-]. done.
Qed.

Lemma Qltb_false x y : Qltb x y = false -> (y <= x)%Q.
Proof.
  unfold Qltb. intros H. apply negb_false_iff in H. by apply Qle_bool_iff.
Qed.

Lemma Qltb_true x y : Qltb x y = true -> (x < y)%Q.
Proof.
  unfold Qltb. intros H. apply negb_true_iff in H.
  apply Qnot_le_lt. intros Hle. apply Qle_bool_iff in Hle. congruence.
Qed.

Lemma thump_fire_spec ep e y o y' :
  thump_fire cfg ep e y = (o, y') ->
  match o with
  | ThumpSent now =>
      _last_thump_sent (globals y') =
        <[thump_key ep := now]> (_last_thump_sent (globals y)) /\
      (HEARTBEAT_INTERVAL <= now - last_thump y (thump_key ep))%Q
  | _ => _last_thump_sent (globals y') = _last_thump_sent (globals y)
  end.
Proof.
  unfold thump_fire, thump_key, last_thump.
  destruct (usable_id ep) as [wsid|]; [|by intros [= <- <-]].
  unfold dbind.
  destruct (liftN (ensure_app_flags cfg (ip ep) false) e y) as [[] y1] eqn:H1.
  destruct (liftN (ensure_connected cfg ep false) e y1) as [[] y2] eqn:H2.
  destruct (liftN mono e y2) as [now y3] eqn:H3.
  apply liftN_frame in H1 as [G1 _], H2 as [G2 _], H3 as [G3 _].
  unfold getG. simpl.
  destruct (Qltb _ _) eqn:Hlt.
  - intros [= <- <-]. congruence.
  - intros [= <- <-]. simpl. rewrite G3, G2, G1 in *. split; [done|].
    by apply Qltb_false.
Qed.

Lemma liftN_mono_spec e y :
  liftN mono e y =
  (clock e (ticks (net y)), set_net (set_ticks (S (ticks (net y))) (net y)) y).
Proof. by destruct y. Qed.

(** A call that ends by [ThumpSent] has, as its last step, handed the
    [/thump] message of the endpoint to the send worker. *)
Lemma thump_fire_sent_enqueues ep e y now y' :
  thump_fire cfg ep e y = (ThumpSent now, y') ->
  exists wsid n1,
    usable_id ep = Some wsid /\ now = clock e (ticks n1) /\
    net y' = snd (send_ws (ip ep) wsid "thump" [] e
                    (set_ticks (S (ticks n1)) n1)).
Proof.
  unfold thump_fire.
  destruct (usable_id ep) as [wsid|]; [|by intros [=]].
  unfold dbind.
  destruct (liftN (ensure_app_flags cfg (ip ep) false) e y) as [[] y1].
  destruct (liftN (ensure_connected cfg ep false) e y1) as [[] y2].
  rewrite liftN_mono_spec. unfold getG. simpl.
  destruct (Qltb _ _); [by intros [=]|].
  intros [= <- <-]. exists wsid, (net y2). by destruct y2.
Qed.

Lemma thump_fire_mono ep e y o y' k :
  thump_fire cfg ep e y = (o, y') -> (last_thump y k <= last_thump y' k)%Q.
Proof.
  intros H. apply thump_fire_spec in H. unfold last_thump in *.
  destruct o as [| |now]; try (rewrite H; apply Qle_refl).
  destruct H as [-> Hgap].
  destruct (decide (thump_key ep = k)) as [<-|Hne].
  - rewrite lookup_insert_eq. simpl. unfold HEARTBEAT_INTERVAL in Hgap. lra.
  - rewrite lookup_insert_ne by done. apply Qle_refl.
Qed.

End DaemonFacts.

(** ** The inbound dispatcher *)

Lemma endswith_last_char s suf c :
  endswith s suf = true ->
  String.get (String.length suf - 1) suf = Some c ->
  String.get (String.length s - 1) s = Some c.
Proof.
  unfold endswith. intros H Hc. apply andb_true_iff in H as [Hle Heq].
  apply Nat.leb_le in Hle. apply String.eqb_eq in Heq.
  destruct (String.length suf) as [|k] eqn:Hk.
  - destruct suf; [done | discriminate Hk].
  - rewrite <- Heq in Hc.
    rewrite substring_correct1 in Hc by lia.
    replace (S k - 1 + (String.length s - S k))%nat
      with (String.length s - 1)%nat in Hc by lia.
    exact Hc.
Qed.

Lemma endswith_thump_not_connect a :
  endswith a "/thump" = true -> endswith a "/connect" = false.
Proof.
  intros Ht. destruct (endswith a "/connect") eqn:Hc; [|done].
  pose proof (endswith_last_char a "/thump" "p" Ht eq_refl) as H1.
  pose proof (endswith_last_char a "/connect" "t" Hc eq_refl) as H2.
  congruence.
Qed.

Lemma endswith_thump_not_workspaces a :
  endswith a "/thump" = true -> String.eqb a "/workspaces" = false.
Proof.
  intros Ht. destruct (String.eqb_spec a "/workspaces") as [->|]; [|done].
  vm_compute in Ht. discriminate Ht.
Qed.

(** C5, as the code has it.  A message whose argument decodes to a JSON
    object, whose OSC address does not start with [/reply/workspaces], whose
    inner address ends with [/thump], whose workspace identifier is a
    non-empty string and whose status is ["ok"]: the handler records the
    clock value it reads as the last-seen time of the source address, and
    changes nothing else but the count of clock reads. *)
Theorem thump_reply_marks_seen e w client address args payload j a id :
  head args = Some (ArgStr payload) \/ head args = Some (ArgBytes payload) ->
  (N.of_nat (String.length payload) <= 200000)%N ->
  json_loads e payload = Some (VDict j) ->
  startswith address "/reply/workspaces" = false ->
  dict_get "address" j = Some (VStr a) -> endswith a "/thump" = true ->
  nonempty_str (vget "workspace_id" j) = Some id ->
  vget "status" j = VStr "ok" ->
  snd (_osc_handler client address args e w) =
  set_LAST_SEEN_BY_IP
    (<[default "0.0.0.0" client := clock e (ticks w)]> (LAST_SEEN_BY_IP w))
    (set_ticks (S (ticks w)) w).
Proof.
  intros Hargs Hlen Hjson Haddr Ha Hend Hid Hst.
  assert (Hroute : snd (route (default "0.0.0.0" client) address j e w) =
    set_LAST_SEEN_BY_IP
      (<[default "0.0.0.0" client := clock e (ticks w)]> (LAST_SEEN_BY_IP w))
      (set_ticks (S (ticks w)) w)).
  { unfold route. rewrite Ha, Haddr, Hst.
    change (default (VStr "") (Some (VStr a))) with (VStr a).
    cbn [eq_str str_endswith orb].
    rewrite (endswith_thump_not_workspaces a Hend).
    rewrite (endswith_thump_not_connect a Hend), Hend.
    unfold nonempty. rewrite Hid. reflexivity. }
  unfold _osc_handler.
  assert (Hlt : (200000 <? N.of_nat (String.length payload))%N = false)
    by (apply N.ltb_ge; exact Hlen).
  destruct Hargs as [-> | ->]; rewrite Hlt; unfold bind, ask;
    rewrite Hjson; exact Hroute.
Qed.

Lemma thump_reply_marks_seen_witness :
  LAST_SEEN_BY_IP
    (snd (_osc_handler (Some "10.0.0.1") "/reply/workspace/W1/thump"
            [ArgStr "{...}"]
            (sample_env_reply [("address", VStr "/workspace/W1/thump");
                              ("workspace_id", VStr "W1");
                              ("status", VStr "ok")])
            Net_init)) !! "10.0.0.1" = Some (100 : Q).
Proof.
  rewrite (thump_reply_marks_seen _ _ _ _ _ "{...}"
             [("address", VStr "/workspace/W1/thump");
              ("workspace_id", VStr "W1"); ("status", VStr "ok")]
             "/workspace/W1/thump" "W1").
  - vm_compute. reflexivity.
  - by left.
  - vm_compute. discriminate.
  - reflexivity.
  - reflexivity.
  - reflexivity.
  - reflexivity.
  - reflexivity.
  - reflexivity.
Defined.

(** C5, as stated, fails: without a workspace identifier in the reply, the
    handler leaves the last-seen time of the source address as it was. *)
Lemma thump_reply_without_workspace_id :
  ~ (forall e w client address args payload j a,
       head args = Some (ArgStr payload) ->
       (N.of_nat (String.length payload) <= 200000)%N ->
       json_loads e payload = Some (VDict j) ->
       dict_get "address" j = Some (VStr a) -> endswith a "/thump" = true ->
       vget "status" j = VStr "ok" ->
       LAST_SEEN_BY_IP (snd (_osc_handler client address args e w))
         !! default "0.0.0.0" client = Some (clock e (ticks w))).
Proof.
  intros Hclaim.
  specialize (Hclaim
    (sample_env_reply [("address", VStr "/workspace/W1/thump");
                      ("status", VStr "ok")])
    Net_init (Some "10.0.0.1") "/reply/workspace/W1/thump"
    [ArgStr "{...}"] "{...}"
    [("address", VStr "/workspace/W1/thump"); ("status", VStr "ok")]
    "/workspace/W1/thump").
  vm_compute in Hclaim.
  assert (H : None = Some (100 # 1)%Q); [|discriminate H].
  apply Hclaim; try reflexivity. discriminate.
Qed.

(** ** Reconcile: throttle and offline backoff *)

Section ReconcileFacts.
Variable cfg : Config.

Lemma bump_offline_backoff_spec r e y :
  bump_offline_backoff r e y =
  (tt, set_globals (bumped r (clock e (ticks (net y))) (globals y))
         (set_net (set_ticks (S (ticks (net y))) (net y)) y)).
Proof. destruct y as [g s n]. reflexivity. Qed.

Lemma reset_offline_backoff_spec r e y :
  reset_offline_backoff r e y = (tt, set_globals (reset r (globals y)) y).
Proof. reflexivity. Qed.

Lemma reconcile_fail_spec r ep now e y o ep' y' :
  reconcile_fail r ep now e y = ((o, ep'), y') ->
  o = Failed now /\ ep' = ep /\ store y' = store y /\
  globals y' = bumped r (clock e (ticks (net y))) (globals y).
Proof.
  unfold reconcile_fail, dbind. rewrite bump_offline_backoff_spec.
  intros [= <- <- <-]. by destruct y.
Qed.

Lemma reconcile_finish_spec r now changed ep e y o ep' y' :
  reconcile_finish cfg r now changed ep e y = ((o, ep'), y') ->
  o = Reconciled now changed /\ ep' = ep /\ store y' = store y /\
  globals y' = reset r (globals y).
Proof.
  unfold reconcile_finish, dbind.
  destruct (liftN (ensure_connected cfg ep true) e y) as [[] y1] eqn:H1.
  destruct (liftN (ensure_app_flags cfg (ip ep) true) e y1) as [[] y2] eqn:H2.
  apply liftN_frame in H1 as [G1 S1], H2 as [G2 S2].
  rewrite reset_offline_backoff_spec. intros [= <- <- <-].
  destruct y2. simpl in *. rewrite G2, G1, S2, S1. done.
Qed.

Lemma STATE_save_d_spec st e y :
  STATE_save_d st e y =
  (tt, set_store (STATE_save (fs_mtime e (saves (store y))) st (store y)) y).
Proof. reflexivity. Qed.

Lemma reconcile_persist_spec r now new_id desired ep e y o ep' y' :
  reconcile_persist cfg r now new_id desired ep e y = ((o, ep'), y') ->
  ep' = ep /\
  match set_endpoint_ws r new_id desired (fst (STATE_load (store y))) with
  | None =>
      o = Raised now /\ globals y' = globals y /\
      store y' = snd (STATE_load (store y))
  | Some st' =>
      o = Reconciled now true /\ globals y' = reset r (globals y) /\
      store y' = STATE_save (fs_mtime e (saves (store y))) st'
                   (snd (STATE_load (store y)))
  end.
Proof.
  unfold reconcile_persist, dbind, STATE_load_d.
  destruct (STATE_load (store y)) as [st s1] eqn:Hload. simpl.
  assert (Hsaves : saves s1 = saves (store y)).
  { unfold STATE_load in Hload. injection Hload as _ <-.
    by destruct (negb _). }
  destruct (set_endpoint_ws r new_id desired st) as [st'|].
  - intros H. apply reconcile_finish_spec in H as (-> & -> & S3 & G3).
    split; [done|]. split; [done|]. rewrite G3, S3.
    destruct y. simpl in *. by rewrite Hsaves.
  - intros [= <- <- <-]. by destruct y.
Qed.



Lemma offline_gate_spec r e y :
  offline_gate r e y =
  (Qle_bool (next_try_of (globals y) r) (clock e (ticks (net y))),
   set_net (set_ticks (S (ticks (net y))) (net y)) y).
Proof. by destruct y. Qed.


Hypothesis every_nonneg : (0 <= RECONCILE_EVERY cfg)%Q.


End ReconcileFacts.


(** ** Reconcile: the persisted record *)

Lemma Store_init_coherent : coherent Store_init.
Proof. by intros _. Qed.

Lemma STATE_load_persisted s :
  coherent s ->
  fst (STATE_load s) = persisted s /\
  persisted (snd (STATE_load s)) = persisted s /\
  coherent (snd (STATE_load s)).
Proof.
  unfold STATE_load, coherent, persisted, _read_file. intros Hc. simpl.
  destruct (Qeq_bool _ (_mtime s)) eqn:Hm; simpl.
  - split; [by apply Hc|]. split; [done|]. intros _. by apply Hc.
  - split; [done|]. split; [done|]. by intros _.
Qed.

Lemma STATE_save_persisted mtime st s :
  persisted (STATE_save mtime st s) = st /\ coherent (STATE_save mtime st s).
Proof. split; [done | by intros _]. Qed.

Lemma set_endpoint_ws_spec r new_id desired st st' :
  set_endpoint_ws r new_id desired st = Some st' ->
  (forall k, k <> "endpoints" -> dict_get k st' = dict_get k st) /\
  (forall r', r' <> r ->
     dict_get r' (endpoints_of st') = dict_get r' (endpoints_of st)) /\
  dict_get "workspace_id" (entry_of_role st' r) = Some (VStr new_id) /\
  dict_get "workspace_name" (entry_of_role st' r) = Some (VStr desired) /\
  (forall f, f <> "workspace_id" -> f <> "workspace_name" ->
     dict_get f (entry_of_role st' r) = dict_get f (entry_of_role st r)).
Proof.
  unfold set_endpoint_ws. rewrite dict_get_setdefault_same.
  change (default (VDict []) (dict_get "endpoints" st))
    with (match dict_get "endpoints" st with Some v => v | None => VDict [] end).
  intros H.
  assert (Heps : exists eps,
    match dict_get "endpoints" st with Some v => v | None => VDict [] end
    = VDict eps /\ endpoints_of st = eps).
  { unfold endpoints_of. destruct (dict_get "endpoints" st) as [v|].
    - destruct v; try done. by eexists.
    - by eexists. }
  destruct Heps as (eps & Heq & Heps). cbn [Datatypes.id] in *.
  rewrite Heq in H. rewrite dict_get_setdefault_same in H.
  change (default (VDict []) (dict_get r eps))
    with (match dict_get r eps with Some v => v | None => VDict [] end) in H.
  assert (Hentry : exists entry,
    match dict_get r eps with Some v => v | None => VDict [] end
    = VDict entry /\ entry_of_role st r = entry).
  { unfold entry_of_role. rewrite Heps. destruct (dict_get r eps) as [v|].
    - destruct v; try done. by eexists.
    - by eexists. }
  destruct Hentry as (entry & Heq2 & Hentry).
  rewrite Heq2 in H. injection H as <-.
  assert (Hends : endpoints_of
    (dict_set "endpoints"
       (VDict (dict_set r
          (VDict (dict_set "workspace_name" (VStr desired)
                    (dict_set "workspace_id" (VStr new_id) entry)))
          (dict_setdefault r (VDict []) eps)))
       (dict_setdefault "endpoints" (VDict []) st)) =
    dict_set r
      (VDict (dict_set "workspace_name" (VStr desired)
                (dict_set "workspace_id" (VStr new_id) entry)))
      (dict_setdefault r (VDict []) eps)).
  { unfold endpoints_of. by rewrite dict_get_set_same. }
  split; [|split; [|split; [|split]]].
  - intros k Hk.
    by rewrite dict_get_set_other, dict_get_setdefault_other.
  - intros r' Hr'. rewrite Hends, Heps.
    by rewrite dict_get_set_other, dict_get_setdefault_other.
  - unfold entry_of_role. rewrite Hends, dict_get_set_same.
    rewrite dict_get_set_other by done. apply dict_get_set_same.
  - unfold entry_of_role. rewrite Hends, dict_get_set_same.
    apply dict_get_set_same.
  - intros f Hf1 Hf2. unfold entry_of_role at 1.
    rewrite Hends, dict_get_set_same, Hentry.
    by rewrite !dict_get_set_other.
Qed.

Lemma set_endpoint_ws_total r new_id desired st :
  well_shaped r st -> is_Some (set_endpoint_ws r new_id desired st).
Proof.
  unfold well_shaped, set_endpoint_ws. rewrite dict_get_setdefault_same.
  destruct (dict_get "endpoints" st) as [v|]; cbn [from_option id].
  - destruct v as [| | | | |eps]; try done.
    rewrite dict_get_setdefault_same.
    destruct (dict_get r eps) as [v|]; cbn [from_option id]; [|done].
    by destruct v.
  - intros _. by rewrite dict_get_setdefault_same.
Qed.

Section PersistFacts.
Variable cfg : Config.

Lemma reconcile_persist_rewritten r now new_id desired ep e y ep' y' n c :
  coherent (store y) ->
  reconcile_persist cfg r now new_id desired ep e y
    = ((Reconciled n c, ep'), y') ->
  ep' = ep /\ c = true /\
  (exists mt, state_file (store y')
              = Some (mt, Some (VDict (persisted (store y'))))) /\
  rewritten r new_id desired (persisted (store y)) (persisted (store y')).
Proof.
  intros Hco H. apply reconcile_persist_spec in H as [-> H].
  destruct (STATE_load_persisted _ Hco) as (Hload & _ & _).
  rewrite Hload in H.
  destruct (set_endpoint_ws r new_id desired (persisted (store y)))
    as [st'|] eqn:Hset.
  - destruct H as ([= _ <-] & _ & ->). split; [done|]. split; [done|].
    split; [by eexists|].
    apply set_endpoint_ws_spec in Hset as (Hk & Hr & Hid & Hname & Hf).
    by repeat split.
  - by destruct H as ([=] & _).
Qed.

Lemma parse_workspaces_nil_get (desired : string) :
  dict_get desired (parse_workspaces (VDict [])) = None.
Proof. reflexivity. Qed.

Lemma reconcile_reply_changed r ep now reply e y n ep' y' :
  reconcile_reply cfg r ep now reply e y = ((Reconciled n true, ep'), y') ->
  exists rj desired new_id,
    reply = Some rj /\ workspace_name ep = Some desired /\
    dict_get desired (parse_workspaces (VDict rj)) = Some new_id /\
    Some new_id <> workspace_id ep /\
    reconcile_persist cfg r now new_id desired (with_workspace_id new_id ep) e y
      = ((Reconciled n true, ep'), y').
Proof.
  unfold reconcile_reply. intros H.
  destruct reply as [rj|];
    [|by apply reconcile_fail_spec in H as ([=] & _)].
  destruct rj as [|item rj];
    [by apply reconcile_fail_spec in H as ([=] & _)|].
  destruct (parse_workspaces (VDict (item :: rj))) as [|w ws] eqn:Hws;
    [by apply reconcile_fail_spec in H as ([=] & _)|].
  destruct (workspace_name ep) as [desired|];
    [|by apply reconcile_fail_spec in H as ([=] & _)].
  destruct (String.eqb desired "");
    [by apply reconcile_fail_spec in H as ([=] & _)|].
  destruct (dict_get desired (w :: ws)) as [new_id|] eqn:Hget;
    [|by apply reconcile_fail_spec in H as ([=] & _)].
  destruct (String.eqb new_id "");
    [by apply reconcile_fail_spec in H as ([=] & _)|].
  destruct (bool_decide (Some new_id = workspace_id ep)) eqn:Hsame.
  - by apply reconcile_finish_spec in H as ([=] & _).
  - apply bool_decide_eq_false in Hsame.
    exists (item :: rj), desired, new_id. rewrite Hws. done.
Qed.

(** C4.  When a call of [reconcile_endpoint] returns [True], it has found
    the workspace name of the endpoint in the reply under an identifier
    other than the endpoint's; the endpoint then carries this identifier,
    and the record in the state file is the one persisted before with this
    identifier and the unchanged name written in the entry of the role:
    the other fields of the entry (the address among them), the entries of
    the other roles and the other fields of the record are as before.  From
    the reply on, this is what happens whenever the name is in the reply
    under a new, non-empty identifier and the record has the shape that
    pairing gives it. *)
Theorem reconcile_persists_new_id r ep e y :
  coherent (store y) ->
  (forall now ep' y',
      reconcile_endpoint cfg r ep e y = ((Reconciled now true, ep'), y') ->
      exists rj desired new_id mt,
        workspace_name ep = Some desired /\
        dict_get desired (parse_workspaces (VDict rj)) = Some new_id /\
        Some new_id <> workspace_id ep /\
        ep' = with_workspace_id new_id ep /\
        state_file (store y')
          = Some (mt, Some (VDict (persisted (store y')))) /\
        rewritten r new_id desired (persisted (store y))
          (persisted (store y'))) /\
  (forall now rj desired new_id,
      workspace_name ep = Some desired -> desired <> "" ->
      dict_get desired (parse_workspaces (VDict rj)) = Some new_id ->
      new_id <> "" -> Some new_id <> workspace_id ep ->
      well_shaped r (persisted (store y)) ->
      exists y' mt,
        reconcile_reply cfg r ep now (Some rj) e y
          = ((Reconciled now true, with_workspace_id new_id ep), y') /\
        state_file (store y')
          = Some (mt, Some (VDict (persisted (store y')))) /\
        rewritten r new_id desired (persisted (store y))
          (persisted (store y'))).
Proof.
  intros Hco. split.
  - intros now ep' y'. unfold reconcile_endpoint, dbind.
    rewrite offline_gate_spec.
    destruct (Qle_bool _ _); cbn [negb]; [|by intros [=]].
    rewrite liftN_mono_spec. unfold getG, modifyG.
    destruct (Qltb _ (RECONCILE_EVERY cfg)); [by intros [=]|].
    match goal with
    | |- context [liftN ?m e ?z] => destruct (liftN m e z) as [[] y1] eqn:H1
    end.
    match goal with
    | |- context [liftN ?m e ?z] => destruct (liftN m e z) as [reply y2] eqn:H2
    end.
    apply liftN_frame in H1 as [_ S1], H2 as [_ S2].
    assert (Hs : store y2 = store y).
    { rewrite S2, S1. by destruct y. }
    intros H.
    apply reconcile_reply_changed in H
      as (rj & desired & new_id & _ & Hname & Hget & Hne & H).
    apply reconcile_persist_rewritten in H as (-> & _ & [mt Hfile] & Hrw);
      [|by rewrite Hs].
    rewrite Hs in Hrw. by exists rj, desired, new_id, mt.
  - intros now rj desired new_id Hname Hd Hget Hid Hne Hshape.
    destruct (STATE_load_persisted _ Hco) as (Hload & _ & _).
    destruct (set_endpoint_ws_total r new_id desired _ Hshape) as [st' Hset].
    destruct (reconcile_reply cfg r ep now (Some rj) e y)
      as [[o ep'] y'] eqn:H.
    assert (Ho : o = Reconciled now true /\
                 reconcile_persist cfg r now new_id desired
                   (with_workspace_id new_id ep) e y = ((o, ep'), y')).
    { unfold reconcile_reply in H.
      destruct rj as [|item rj]; [by rewrite parse_workspaces_nil_get in Hget|].
      destruct (parse_workspaces (VDict (item :: rj))) as [|w ws]; [done|].
      rewrite Hname in H.
      apply String.eqb_neq in Hd, Hid. rewrite Hd, Hget, Hid in H.
      rewrite bool_decide_eq_false_2 in H by done.
      split; [|done].
      apply reconcile_persist_spec in H as [_ H].
      rewrite Hload, Hset in H. by destruct H as [-> _]. }
    destruct Ho as [-> Hp].
    apply reconcile_persist_rewritten in Hp as (-> & _ & [mt Hfile] & Hrw);
      [|done].
    by exists y', mt.
Qed.

End PersistFacts.

Lemma reconcile_persists_new_id_witness :
  (dict_get "workspace_id"
     (entry_of_role (persisted (store sample_sys_reconciled)) "main")
     = Some (VStr "W2") /\
   dict_get "ip"
     (entry_of_role (persisted (store sample_sys_reconciled)) "main")
     = Some (VStr "10.0.0.1") /\
   dict_get "backup" (endpoints_of (persisted (store sample_sys_reconciled)))
     = dict_get "backup" (endpoints_of sample_record)) /\
  (exists y' mt,
     reconcile_reply user_config "main" sample_endpoint 20
       (Some sample_listing) sample_env_listing sample_sys
     = ((Reconciled 20 true, with_workspace_id "W2" sample_endpoint), y') /\
     state_file (store y') = Some (mt, Some (VDict (persisted (store y')))) /\
     rewritten "main" "W2" "gala_main" (persisted (store sample_sys))
       (persisted (store y'))).
Proof.
  assert (Hco : coherent (store sample_sys)) by (intros H; discriminate H).
  split;
    [|apply (proj2 (reconcile_persists_new_id user_config "main"
                      sample_endpoint sample_env_listing sample_sys Hco)
                20%Q sample_listing "gala_main" "W2");
      [reflexivity | discriminate | reflexivity | discriminate | discriminate
      | exact I]].
  set (y' := sample_sys_reconciled).
  destruct (proj1 (reconcile_persists_new_id user_config "main"
                     sample_endpoint sample_env_listing sample_sys
                     Hco)
              20%Q (with_workspace_id "W2" sample_endpoint) y')
    as (rj & desired & new_id & mt & _ & _ & _ & Hep & _ & Hrw).
  - vm_compute. reflexivity.
  - injection Hep as <-.
    destruct Hrw as (Hid & _ & Hf & Hr & _).
    split; [exact Hid|]. split.
    + rewrite Hf by discriminate. reflexivity.
    + rewrite Hr by discriminate. reflexivity.
Defined.

(** ** Role decision: what an assignment is made of *)

Section RolesSound.
Variable cfg : Config.

(** A completed grouping loop has met no key twice. *)
Lemma group_by_base_NoDup cs bb0 bb :
  group_by_base cs bb0 = inr bb ->
  NoDup (map cand_key (filter (fun c => main_or_backup c = true) cs)) /\
  (forall c, In c cs -> main_or_backup c = true ->
             lookup2 (base c) (c_kind c) bb0 = None).
Proof.
  revert bb0. induction cs as [|c cs IH]; intros bb0 Hg.
  - split; [constructor | intros ? []].
  - destruct (main_or_backup c) eqn:Hc.
    + destruct (lookup2 (base c) (c_kind c) bb0) as [c'|] eqn:Hl.
      { by rewrite (group_by_base_duplicate c c') in Hg. }
      rewrite group_by_base_fresh in Hg by done.
      destruct (IH _ Hg) as [Hnd Hfresh].
      assert (Hother : forall c1, In c1 cs -> main_or_backup c1 = true ->
                cand_key c <> cand_key c1 /\
                lookup2 (base c1) (c_kind c1) bb0 = None).
      { intros c1 Hin Hc1. pose proof (Hfresh c1 Hin Hc1) as H1.
        rewrite lookup2_add in H1.
        destruct (decide (cand_key c = (c_kind c1, base c1))); [done|].
        split; done. }
      split.
      * rewrite filter_cons_True by done. simpl. apply NoDup_cons.
        split; [|done]. intros Hin.
        apply list_elem_of_In, in_map_iff in Hin as (c1 & Hk & Hin).
        apply list_elem_of_In, list_elem_of_filter in Hin as [Hc1 Hin].
        apply list_elem_of_In in Hin.
        destruct (Hother c1 Hin Hc1) as [Hne _]. congruence.
      * intros c1 [<-|Hin] Hc1; [done|]. by apply Hother.
    + rewrite group_by_base_skip in Hg by done.
      destruct (IH _ Hg) as [Hnd Hfresh]. split.
      * by rewrite filter_cons_False by (by rewrite Hc).
      * intros c1 [<-|Hin] Hc1; [congruence|]. by apply Hfresh.
Qed.

(** The grouping of a completed loop, read back. *)
Lemma group_by_base_lookup2 cs bb b k c :
  group_by_base cs [] = inr bb ->
  lookup2 b k bb = Some c <->
  In c cs /\ main_or_backup c = true /\ cand_key c = (k, b).
Proof.
  intros Hg.
  destruct (group_by_base_spec cs [] bb NoDup_nil_2 Hg) as (_ & Ha & Hb & _).
  split.
  - intros Hl. by destruct (Hb _ _ _ Hl) as [Hnil|H].
  - intros (Hin & Hmb & Hkey). unfold cand_key in Hkey.
    injection Hkey as <- <-. by apply Ha.
Qed.

Lemma assign_main_backup_inv cs bb sel mb :
  assign_main_backup cs bb sel = inr mb ->
  (exists sb m, sel = Some sb /\ lookup2 sb KMain bb = Some m /\
     mb = ("main", endpoint_of "main" m) ::
          match lookup2 sb KBackup bb with
          | Some b => [("backup", endpoint_of "backup" b)]
          | None => []
          end) \/
  (exists p, sel = None /\
     filter (fun c => is_kind KPlain c = true) cs = [p] /\
     mb = [("main", endpoint_of "main" p)]).
Proof.
  unfold assign_main_backup. destruct sel as [sb|].
  - change (dict_get ?k (default [] (dict_get sb bb))) with (lookup2 sb k bb).
    destruct (lookup2 sb KMain bb) as [m|] eqn:Hm; [|done].
    intros Hmb. left. exists sb, m. split; [done|]. split; [done|].
    destruct (lookup2 sb KBackup bb) as [b|]; by injection Hmb as <-.
  - destruct (filter (fun c => is_kind KPlain c = true) cs) as [|p [|p' ps]];
      [done| |done].
    intros [= <-]. right. by exists p.
Qed.

Lemma select_base_Some bb sb :
  NoDup (dict_keys bb) -> select_base bb = inr (Some sb) ->
  is_Some (lookup2 sb KMain bb).
Proof.
  intros Hnd. unfold select_base. fold complete.
  destruct (sort (bases_with complete bb)) as [|b r] eqn:Hs.
  - destruct (bases_with (fun mm => dict_mem KMain mm) bb) as [|b [|b' bs]] eqn:Hm;
      [done| |done].
    intros [= <-].
    assert (Hin : In b (bases_with (fun mm => dict_mem KMain mm) bb))
      by (rewrite Hm; by left).
    apply bases_with_In in Hin as (mm & Hg & Hp); [|done].
    unfold lookup2. rewrite Hg. simpl. unfold dict_mem in Hp.
    by destruct (dict_get KMain mm).
  - intros [= <-].
    assert (Hin : In b (bases_with complete bb)).
    { apply sort_In. rewrite Hs. by left. }
    apply bases_with_In in Hin; [|done].
    by apply complete_lookup2 in Hin as [? _].
Qed.

(** The shape of every assignment: the grouping it was read from, a primary
    and, from the same base, the backup if there is one; or the single plain
    workspace; then the auxiliary if there is one. *)
Lemma decide_candidates_inv cs assigned :
  decide_candidates cs = inr assigned ->
  exists m,
    In m cs /\
    ((c_kind m = KMain /\ exists bb,
        group_by_base cs [] = inr bb /\ select_base bb = inr (Some (base m)) /\
        assigned =
        ("main", endpoint_of "main" m) ::
        match lookup2 (base m) KBackup bb with
        | Some b => [("backup", endpoint_of "backup" b)]
        | None => []
        end ++
        match filter (fun c => is_kind KAux c = true) cs with
        | [a] => [("aux", endpoint_of "aux" a)]
        | _ => []
        end) \/
     (c_kind m = KPlain /\
      filter (fun c => is_kind KPlain c = true) cs = [m] /\
      assigned =
      ("main", endpoint_of "main" m) ::
      match filter (fun c => is_kind KAux c = true) cs with
      | [a] => [("aux", endpoint_of "aux" a)]
      | _ => []
      end)).
Proof.
  unfold decide_candidates. destruct cs as [|c0 cs']; [done|].
  set (cs := c0 :: cs') in *.
  destruct (group_by_base cs []) as [e|bb] eqn:Hg.
  { by destruct (filter (fun c => is_kind KAux c = true) cs) as [|a [|a' l]]. }
  destruct (select_base bb) as [e|sel] eqn:Hsel.
  { by destruct (filter (fun c => is_kind KAux c = true) cs) as [|a [|a' l]]. }
  destruct (assign_main_backup cs bb sel) as [e|mb] eqn:Hmb.
  { by destruct (filter (fun c => is_kind KAux c = true) cs) as [|a [|a' l]]. }
  intros Hres.
  assert (Hassigned : assigned =
            mb ++ match filter (fun c => is_kind KAux c = true) cs with
                  | [a] => [("aux", endpoint_of "aux" a)]
                  | _ => []
                  end).
  { apply assign_main_backup_inv in Hmb
      as [(sb & m & -> & Hm & ->)|(p & -> & Hp & ->)].
    - destruct (filter (fun c => is_kind KAux c = true) cs) as [|a [|a' l]];
        [| |done]; simpl in Hres; injection Hres as <-;
        destruct (lookup2 sb KBackup bb); reflexivity.
    - destruct (filter (fun c => is_kind KAux c = true) cs) as [|a [|a' l]];
        [| |done]; simpl in Hres; injection Hres as <-; reflexivity. }
  clear Hres.
  destruct (group_by_base_spec cs [] bb NoDup_nil_2 Hg) as (Hnd & _).
  apply assign_main_backup_inv in Hmb
    as [(sb & m & -> & Hm & ->)|(p & -> & Hp & ->)].
  - pose proof (proj1 (group_by_base_lookup2 cs bb sb KMain m Hg) Hm)
      as (Hin & _ & Hkey).
    unfold cand_key in Hkey. injection Hkey as Hk Hb. subst sb.
    exists m. split; [done|]. left. split; [done|]. exists bb.
    split; [done|]. split; [done|]. rewrite Hassigned.
    by destruct (lookup2 (base m) KBackup bb).
  - assert (Hin : In p (filter (fun c => is_kind KPlain c = true) cs))
      by (rewrite Hp; by left).
    apply list_elem_of_In, list_elem_of_filter in Hin as [Hk Hin].
    apply list_elem_of_In in Hin. unfold is_kind in Hk.
    apply bool_decide_eq_true_1 in Hk.
    exists p. split; [done|]. right. by rewrite Hassigned.
Qed.

End RolesSound.

Lemma decide_roles_inv (cfg : Config) rs assigned :
  decide_roles cfg rs = inr assigned ->
  decide_candidates (candidates cfg rs) = inr assigned.
Proof. destruct rs; [done|]. done. Qed.

Lemma candidate_endpoint (cfg : Config) rs c r :
  In c (candidates cfg rs) ->
  exists ws n v wid,
    In (c_ip c, ws) rs /\ In (n, v) ws /\ nonempty_str v = Some wid /\
    endpoint_of r c = mkEndpoint (c_ip c) r n wid /\
    c_kind c = fst (_classify cfg n) /\ base c = snd (_classify cfg n) /\
    ws_name c = n.
Proof.
  intros Hin.
  apply candidates_In in Hin as (addr & ws & n & v & wid & Hr & Hi & Hv & ->).
  by exists ws, n, v, wid.
Qed.

(** X1. Every endpoint of an assignment is a workspace of the discovery
    input: its address is a responder's, its name and identifier are those of
    a workspace this responder listed with a non-empty string identifier,
    its role is the key it is assigned under, and the kind of the name fits
    the role (the primary is tagged as primary or is a plain workspace, the
    backup is tagged as backup, the auxiliary as auxiliary). *)
Theorem decide_roles_assigns_discovered (cfg : Config) rs assigned r ep :
  decide_roles cfg rs = inr assigned -> In (r, ep) assigned ->
  exists ws n v wid,
    In (ip ep, ws) rs /\ In (n, v) ws /\ nonempty_str v = Some wid /\
    ep = mkEndpoint (ip ep) r n wid /\
    kind_fits r (fst (_classify cfg n)).
Proof.
  intros Hd Hin. apply decide_roles_inv in Hd.
  apply decide_candidates_inv in Hd as (m & Hm & Hcase).
  assert (Hfrom : forall c, In c (candidates cfg rs) ->
            ep = endpoint_of r c -> kind_fits r (c_kind c) ->
            exists ws n v wid,
              In (ip ep, ws) rs /\ In (n, v) ws /\ nonempty_str v = Some wid /\
              ep = mkEndpoint (ip ep) r n wid /\
              kind_fits r (fst (_classify cfg n))).
  { intros c Hc -> Hfit.
    destruct (candidate_endpoint cfg rs c r Hc)
      as (ws & n & v & wid & Hr & Hi & Hv & He & Hk & _).
    exists ws, n, v, wid. rewrite <- Hk. by rewrite He. }
  assert (Haux : In (r, ep)
            match filter (fun c => is_kind KAux c = true) (candidates cfg rs) with
            | [a] => [("aux", endpoint_of "aux" a)]
            | _ => []
            end ->
            exists a, In a (candidates cfg rs) /\ c_kind a = KAux /\
                      r = "aux" /\ ep = endpoint_of "aux" a).
  { destruct (filter (fun c => is_kind KAux c = true) (candidates cfg rs))
      as [|a [|a' l]] eqn:Hf; try done.
    intros [[= <- <-]|[]].
    assert (Ha : In a (filter (fun c => is_kind KAux c = true)
                         (candidates cfg rs))) by (rewrite Hf; by left).
    apply list_elem_of_In, list_elem_of_filter in Ha as [Hk Ha].
    apply list_elem_of_In in Ha. unfold is_kind in Hk.
    apply bool_decide_eq_true_1 in Hk. by exists a. }
  destruct Hcase as [(Hk & bb & Hg & _ & ->)|(Hk & _ & ->)].
  - destruct Hin as [[= <- <-]|Hin].
    { apply (Hfrom m); [done|done|]. left. split; [done|]. by left. }
    apply in_app_or in Hin as [Hin|Hin].
    + destruct (lookup2 (base m) KBackup bb) as [b|] eqn:Hb; [|done].
      destruct Hin as [[= <- <-]|[]].
      apply (group_by_base_lookup2 _ _ _ _ _ Hg) in Hb as (Hb & _ & Hkey).
      unfold cand_key in Hkey. injection Hkey as Hkb _.
      apply (Hfrom b); [done|done|]. right. left. done.
    + destruct (Haux Hin) as (a & Ha & Hka & -> & ->).
      apply (Hfrom a); [done|done|]. right. right. done.
  - destruct Hin as [[= <- <-]|Hin].
    { apply (Hfrom m); [done|done|]. left. split; [done|]. by right. }
    destruct (Haux Hin) as (a & Ha & Hka & -> & ->).
    apply (Hfrom a); [done|done|]. right. right. done.
Qed.

Lemma decide_roles_assigns_discovered_witness :
  exists ws n v wid,
    In ("10.0.0.2", ws)
       [("10.0.0.1", [("gala_main", VStr "W1")]);
        ("10.0.0.2", [("gala_backup", VStr "B1"); ("notes", VStr "N1")])] /\
    In (n, v) ws /\ nonempty_str v = Some wid /\
    mkEndpoint "10.0.0.2" "backup" "gala_backup" "B1" =
    mkEndpoint "10.0.0.2" "backup" n wid /\
    kind_fits "backup" (fst (_classify user_config n)).
Proof.
  apply (decide_roles_assigns_discovered user_config
           [("10.0.0.1", [("gala_main", VStr "W1")]);
            ("10.0.0.2", [("gala_backup", VStr "B1"); ("notes", VStr "N1")])]
           [("main", mkEndpoint "10.0.0.1" "main" "gala_main" "W1");
            ("backup", mkEndpoint "10.0.0.2" "backup" "gala_backup" "B1")]
           "backup" (mkEndpoint "10.0.0.2" "backup" "gala_backup" "B1")).
  - vm_compute. reflexivity.
  - right. left. reflexivity.
Defined.

(** X2. An assignment always names a primary: its roles are, in this order,
    the primary, then the backup and the auxiliary when there are any.  A
    backup or an auxiliary alone is never an assignment. *)
Theorem decide_roles_always_main (cfg : Config) rs assigned :
  decide_roles cfg rs = inr assigned ->
  is_Some (dict_get "main" assigned) /\
  In (dict_keys assigned)
     [["main"]; ["main"; "backup"]; ["main"; "aux"];
      ["main"; "backup"; "aux"]].
Proof.
  intros Hd. apply decide_roles_inv in Hd.
  apply decide_candidates_inv in Hd as (m & Hm & Hcase).
  destruct Hcase as [(Hk & bb & Hg & _ & ->)|(Hk & _ & ->)].
  - split; [by eexists|].
    destruct (lookup2 (base m) KBackup bb) as [b|];
      destruct (filter (fun c => is_kind KAux c = true) (candidates cfg rs))
        as [|a [|a' l]]; simpl; tauto.
  - split; [by eexists|].
    destruct (filter (fun c => is_kind KAux c = true) (candidates cfg rs))
      as [|a [|a' l]]; simpl; tauto.
Qed.

Lemma decide_roles_always_main_witness :
  is_Some (dict_get "main"
             [("main", mkEndpoint "10.0.0.1" "main" "gala_main" "W1");
              ("aux", mkEndpoint "10.0.0.3" "aux" "gala_aux1" "A1")]) /\
  In (dict_keys [("main", mkEndpoint "10.0.0.1" "main" "gala_main" "W1");
                 ("aux", mkEndpoint "10.0.0.3" "aux" "gala_aux1" "A1")])
     [["main"]; ["main"; "backup"]; ["main"; "aux"];
      ["main"; "backup"; "aux"]].
Proof.
  apply (decide_roles_always_main user_config
           [("10.0.0.3", [("gala_aux1", VStr "A1")]);
            ("10.0.0.1", [("gala_main", VStr "W1")])]).
  vm_compute. reflexivity.
Defined.

(** X3. A backup is assigned only beside a primary of the same base: both
    names are tagged, the primary's as primary and the backup's as backup,
    and what is left of the two names without their tags is the same. *)
Theorem decide_roles_backup_same_base (cfg : Config) rs assigned bk :
  decide_roles cfg rs = inr assigned ->
  dict_get "backup" assigned = Some bk ->
  exists m nm nb b,
    dict_get "main" assigned = Some m /\
    workspace_name m = Some nm /\ workspace_name bk = Some nb /\
    _classify cfg nm = (KMain, b) /\ _classify cfg nb = (KBackup, b).
Proof.
  intros Hd Hbk. apply decide_roles_inv in Hd.
  apply decide_candidates_inv in Hd as (m & Hm & Hcase).
  destruct Hcase as [(Hk & bb & Hg & _ & ->)|(Hk & _ & ->)].
  - destruct (lookup2 (base m) KBackup bb) as [b|] eqn:Hb.
    + apply (group_by_base_lookup2 _ _ _ _ _ Hg) in Hb as (Hb & _ & Hkey).
      unfold cand_key in Hkey. injection Hkey as Hkb Hbb.
      simpl in Hbk. injection Hbk as <-.
      destruct (candidate_endpoint cfg rs m "main" Hm)
        as (_ & nm & _ & _ & _ & _ & _ & _ & Hkm & Hbm & Hnm).
      destruct (candidate_endpoint cfg rs b "backup" Hb)
        as (_ & nb & _ & _ & _ & _ & _ & _ & Hkb' & Hbb' & Hnb).
      exists (endpoint_of "main" m), nm, nb, (base m).
      split; [done|]. simpl. rewrite Hnm, Hnb.
      split; [done|]. split; [done|]. split.
      * destruct (_classify cfg nm) as [k0 b0]. simpl in *. congruence.
      * destruct (_classify cfg nb) as [k0 b0]. simpl in *. congruence.
    + exfalso. simpl in Hbk.
      by destruct (filter (fun c => is_kind KAux c = true) (candidates cfg rs))
        as [|a [|a' l]].
  - exfalso. simpl in Hbk.
    by destruct (filter (fun c => is_kind KAux c = true) (candidates cfg rs))
      as [|a [|a' l]].
Qed.

Lemma decide_roles_backup_same_base_witness :
  exists m nm nb b,
    dict_get "main"
      [("main", mkEndpoint "10.0.0.1" "main" "gala_main" "W1");
       ("backup", mkEndpoint "10.0.0.2" "backup" "gala_backup" "B1")]
    = Some m /\
    workspace_name m = Some nm /\
    workspace_name (mkEndpoint "10.0.0.2" "backup" "gala_backup" "B1")
    = Some nb /\
    _classify user_config nm = (KMain, b) /\
    _classify user_config nb = (KBackup, b).
Proof.
  apply (decide_roles_backup_same_base user_config
           [("10.0.0.1", [("gala_main", VStr "W1"); ("tour_main", VStr "T1")]);
            ("10.0.0.2", [("gala_backup", VStr "B1")])]).
  - vm_compute. reflexivity.
  - reflexivity.
Defined.

(** ** Role decision: the order of the answers *)

Lemma insert_sorted_Permutation x l : insert_sorted x l ≡ₚ x :: l.
Proof.
  induction l as [|y l IH]; simpl; [done|].
  destruct (String.leb x y); [done|]. rewrite IH. apply perm_swap.
Qed.

Lemma sort_Permutation l : sort l ≡ₚ l.
Proof.
  induction l as [|x l IH]; simpl; [done|].
  by rewrite insert_sorted_Permutation, IH.
Qed.

Lemma insert_sorted_StronglySorted x l :
  StronglySorted (fun a b => String.leb a b = true) l ->
  StronglySorted (fun a b => String.leb a b = true) (insert_sorted x l).
Proof.
  induction l as [|y l IH]; simpl; intros Hs.
  - repeat constructor.
  - apply StronglySorted_inv in Hs as [Hs Hall].
    destruct (String.leb x y) eqn:Hxy.
    + constructor; [by constructor|]. constructor; [done|].
      eapply Forall_impl; [exact Hall|]. simpl. intros z Hz.
      by apply (string_leb_trans _ y).
    + constructor; [by apply IH|].
      apply Forall_forall. intros z Hz. apply list_elem_of_In in Hz.
      apply insert_sorted_In in Hz as [->|Hz].
      * destruct (String.leb_total x y) as [Hc|Hc]; congruence.
      * rewrite Forall_forall in Hall. apply Hall. by apply list_elem_of_In.
Qed.

Lemma sort_StronglySorted l :
  StronglySorted (fun a b => String.leb a b = true) (sort l).
Proof.
  induction l as [|x l IH]; simpl; [constructor|].
  by apply insert_sorted_StronglySorted.
Qed.

(** [sort] does not depend on the order of its argument. *)
Lemma sort_perm_eq l l' : l ≡ₚ l' -> sort l = sort l'.
Proof.
  intros Hp.
  apply (StronglySorted_unique_strong (fun a b => String.leb a b = true)).
  - intros x y _ _ Hxy Hyx. by apply String.leb_antisym.
  - apply sort_StronglySorted.
  - apply sort_StronglySorted.
  - by rewrite !sort_Permutation.
Qed.

Section OrderFacts.
Variable cfg : Config.

Lemma bases_with_NoDup p (bb : dict string (dict kind Candidate)) :
  NoDup (dict_keys bb) -> NoDup (bases_with p bb).
Proof.
  unfold bases_with, dict_keys. induction bb as [|[b mm] bb IH]; [done|].
  simpl. intros Hnd. apply NoDup_cons in Hnd as [Hnotin Hnd].
  destruct (decide (p mm = true)) as [Hp|Hp].
  - rewrite filter_cons_True by done. simpl. apply NoDup_cons.
    split; [|by apply IH]. intros Hin. apply Hnotin.
    apply list_elem_of_In, in_map_iff in Hin as ([b' mm'] & <- & Hin).
    apply list_elem_of_In, list_elem_of_filter in Hin as [_ Hin].
    apply list_elem_of_In. apply in_map_iff. exists (b', mm').
    split; [done|]. by apply list_elem_of_In.
  - rewrite filter_cons_False by done. by apply IH.
Qed.

Lemma bases_with_ext p (bb bb' : dict string (dict kind Candidate)) :
  NoDup (dict_keys bb) -> NoDup (dict_keys bb') ->
  (forall b, (exists mm, dict_get b bb = Some mm /\ p mm = true) <->
             (exists mm, dict_get b bb' = Some mm /\ p mm = true)) ->
  bases_with p bb ≡ₚ bases_with p bb'.
Proof.
  intros Hnd Hnd' Hext. apply NoDup_Permutation.
  - by apply bases_with_NoDup.
  - by apply bases_with_NoDup.
  - intros b. rewrite !list_elem_of_In, !bases_with_In by done. apply Hext.
Qed.

Lemma main_lookup2 (bb : dict string (dict kind Candidate)) b :
  (exists mm, dict_get b bb = Some mm /\ dict_mem KMain mm = true) <->
  is_Some (lookup2 b KMain bb).
Proof.
  unfold lookup2, dict_mem. split.
  - intros (mm & -> & Hc). simpl. by destruct (dict_get KMain mm).
  - intros [m Hm]. destruct (dict_get b bb) as [mm|]; [|done].
    exists mm. split; [done|]. simpl in Hm. by rewrite Hm.
Qed.

(** The selection reads the grouping through its lookups only. *)
Lemma select_base_ext (bb bb' : dict string (dict kind Candidate)) :
  NoDup (dict_keys bb) -> NoDup (dict_keys bb') ->
  (forall b k, lookup2 b k bb = lookup2 b k bb') ->
  select_base bb = select_base bb'.
Proof.
  intros Hnd Hnd' Hext. unfold select_base. fold complete.
  assert (Hc : bases_with complete bb ≡ₚ bases_with complete bb').
  { apply bases_with_ext; [done|done|]. intros b.
    rewrite !complete_lookup2. by rewrite !Hext. }
  assert (Hm : bases_with (fun mm => dict_mem KMain mm) bb ≡ₚ
               bases_with (fun mm => dict_mem KMain mm) bb').
  { apply bases_with_ext; [done|done|]. intros b.
    rewrite !main_lookup2. by rewrite Hext. }
  rewrite (sort_perm_eq _ _ Hc).
  destruct (sort (bases_with complete bb')); [|done].
  destruct (bases_with (fun mm => dict_mem KMain mm) bb) as [|b [|b1 l]] eqn:E.
  - apply Permutation_nil in Hm. by rewrite Hm.
  - apply Permutation_singleton_l in Hm. by rewrite <- Hm.
  - pose proof (Permutation_length Hm) as Hlen.
    rewrite (sort_perm_eq _ _ Hm).
    destruct (bases_with (fun mm => dict_mem KMain mm) bb') as [|b' [|b1' l']];
      [done|done|done].
Qed.

Lemma assign_main_backup_ext cs cs' (bb bb' : dict string (dict kind Candidate))
    sel :
  cs ≡ₚ cs' -> (forall b k, lookup2 b k bb = lookup2 b k bb') ->
  assign_main_backup cs bb sel = assign_main_backup cs' bb' sel.
Proof.
  intros Hp Hext. unfold assign_main_backup. destruct sel as [sb|].
  - change (dict_get ?k (default [] (dict_get sb bb))) with (lookup2 sb k bb).
    change (dict_get ?k (default [] (dict_get sb bb'))) with (lookup2 sb k bb').
    by rewrite !Hext.
  - assert (Hf : filter (fun c => is_kind KPlain c = true) cs ≡ₚ
                 filter (fun c => is_kind KPlain c = true) cs')
      by (by rewrite Hp).
    destruct (filter (fun c => is_kind KPlain c = true) cs) as [|p [|p1 l]] eqn:E.
    + apply Permutation_nil in Hf. by rewrite Hf.
    + apply Permutation_singleton_l in Hf. by rewrite <- Hf.
    + pose proof (Permutation_length Hf) as Hlen.
      assert (Hs : sort (remove_dups (map ws_name (p :: p1 :: l))) =
                   sort (remove_dups (map ws_name
                      (filter (fun c => is_kind KPlain c = true) cs')))).
      { apply sort_perm_eq. apply NoDup_Permutation.
        - apply NoDup_remove_dups.
        - apply NoDup_remove_dups.
        - intros x. rewrite !elem_of_remove_dups.
          rewrite !list_elem_of_In. split; intros Hin.
          + eapply Permutation_in; [|exact Hin]. by apply Permutation_map.
          + eapply Permutation_in; [|exact Hin]. symmetry.
            by apply Permutation_map. }
      rewrite Hs.
      destruct (filter (fun c => is_kind KPlain c = true) cs') as [|p' [|p1' l']];
        [done|done|done].
Qed.

Lemma group_by_base_perm cs cs' bb :
  cs ≡ₚ cs' -> group_by_base cs [] = inr bb ->
  exists bb', group_by_base cs' [] = inr bb' /\
    NoDup (dict_keys bb) /\ NoDup (dict_keys bb') /\
    forall b k, lookup2 b k bb = lookup2 b k bb'.
Proof.
  intros Hp Hg.
  destruct (group_by_base_NoDup cs [] bb Hg) as [Hnd _].
  destruct (group_by_base_total cs' []) as [bb' Hg']; [|done|].
  { assert (Hq : map cand_key (filter (fun c => main_or_backup c = true) cs) ≡ₚ
                 map cand_key (filter (fun c => main_or_backup c = true) cs'))
      by (apply Permutation_map; by rewrite Hp).
    by rewrite <- Hq. }
  exists bb'. split; [done|].
  destruct (group_by_base_spec cs [] bb NoDup_nil_2 Hg) as (Hn & _).
  destruct (group_by_base_spec cs' [] bb' NoDup_nil_2 Hg') as (Hn' & _).
  split; [done|]. split; [done|]. intros b k.
  assert (Hone : forall l l' g g', l ≡ₚ l' ->
            group_by_base l [] = inr g -> group_by_base l' [] = inr g' ->
            forall c, lookup2 b k g = Some c -> lookup2 b k g' = Some c).
  { intros l l' g g' Hll Hgl Hgl' c Hc.
    apply (group_by_base_lookup2 _ _ _ _ _ Hgl) in Hc as (Hin & Hmb & Hkey).
    apply (group_by_base_lookup2 _ _ _ _ _ Hgl'). split; [|done].
    eapply Permutation_in; [exact Hll | exact Hin]. }
  destruct (lookup2 b k bb) as [c|] eqn:Hl.
  - symmetry. by apply (Hone cs cs' bb bb').
  - destruct (lookup2 b k bb') as [c|] eqn:Hl'; [|done].
    apply (Hone cs' cs bb' bb) in Hl'; [congruence| by symmetry |done|done].
Qed.

(** The decision on the candidates in another order. *)
Lemma decide_candidates_perm cs cs' :
  cs ≡ₚ cs' ->
  decide_candidates cs' = decide_candidates cs \/
  exists b k b' k',
    decide_candidates cs = inl (ConflictError (DuplicateCandidate b k)) /\
    decide_candidates cs' = inl (ConflictError (DuplicateCandidate b' k')).
Proof.
  intros Hp.
  destruct cs as [|c0 cs0].
  { apply Permutation_nil in Hp. rewrite Hp. by left. }
  destruct cs' as [|c0' cs0'].
  { symmetry in Hp. by apply Permutation_nil in Hp. }
  unfold decide_candidates.
  set (cs := c0 :: cs0) in *. set (cs' := c0' :: cs0') in *.
  assert (Hf : filter (fun c => is_kind KAux c = true) cs ≡ₚ
               filter (fun c => is_kind KAux c = true) cs') by (by rewrite Hp).
  destruct (filter (fun c => is_kind KAux c = true) cs) as [|a [|a1 l]] eqn:E.
  - apply Permutation_nil in Hf. rewrite Hf. cbn [head option_map].
    destruct (group_by_base cs []) as [e|bb] eqn:Hg.
    + destruct (group_by_base cs' []) as [e'|bb'] eqn:Hg'.
      * apply group_by_base_error in Hg as (b & k & ->).
        apply group_by_base_error in Hg' as (b' & k' & ->).
        right. by exists b, k, b', k'.
      * destruct (group_by_base_perm cs' cs bb') as (bb & Hgb & _);
          [by symmetry | done | congruence].
    + destruct (group_by_base_perm cs cs' bb Hp Hg)
        as (bb' & -> & Hn & Hn' & Hext).
      left. rewrite (select_base_ext bb bb' Hn Hn' Hext).
      destruct (select_base bb') as [e|sel]; [done|].
      by rewrite (assign_main_backup_ext cs cs' bb bb' sel Hp Hext).
  - apply Permutation_singleton_l in Hf. rewrite <- Hf. cbn [head option_map].
    destruct (group_by_base cs []) as [e|bb] eqn:Hg.
    + destruct (group_by_base cs' []) as [e'|bb'] eqn:Hg'.
      * apply group_by_base_error in Hg as (b & k & ->).
        apply group_by_base_error in Hg' as (b' & k' & ->).
        right. by exists b, k, b', k'.
      * destruct (group_by_base_perm cs' cs bb') as (bb & Hgb & _);
          [by symmetry | done | congruence].
    + destruct (group_by_base_perm cs cs' bb Hp Hg)
        as (bb' & -> & Hn & Hn' & Hext).
      left. rewrite (select_base_ext bb bb' Hn Hn' Hext).
      destruct (select_base bb') as [e|sel]; [done|].
      by rewrite (assign_main_backup_ext cs cs' bb bb' sel Hp Hext).
  - pose proof (Permutation_length Hf) as Hlen. left.
    by destruct (filter (fun c => is_kind KAux c = true) cs') as [|a' [|a1' l']].
Qed.

Lemma candidates_reordered rs rs' :
  reordered rs rs' -> candidates cfg rs ≡ₚ candidates cfg rs'.
Proof.
  intros (rs1 & Hp & Hall). unfold candidates.
  transitivity (flat_map (fun r => flat_map (candidate_of cfg (fst r)) (snd r))
                  rs1).
  - by apply Permutation_flat_map.
  - clear Hp. induction Hall as [|[a ws] [a' ws'] l l' [Ha Hws] _ IH]; [done|].
    simpl in *. subst a'. apply Permutation_app; [|done].
    by apply Permutation_flat_map.
Qed.

End OrderFacts.

(** X4. The decision does not depend on the order of the answers: with the
    responders permuted, and the workspaces of each responder permuted, the
    same roles are assigned to the same endpoints, or the same exception is
    raised with the same message.  The one exception: when several tagged
    names occur twice, the duplicate the conflict names may be another one. *)
Theorem decide_roles_order_independent (cfg : Config) rs rs' :
  reordered rs rs' ->
  decide_roles cfg rs' = decide_roles cfg rs \/
  exists b k b' k',
    decide_roles cfg rs = inl (ConflictError (DuplicateCandidate b k)) /\
    decide_roles cfg rs' = inl (ConflictError (DuplicateCandidate b' k')).
Proof.
  intros Hre. pose proof (candidates_reordered cfg rs rs' Hre) as Hc.
  destruct Hre as (rs1 & Hp & Hall).
  destruct rs as [|r rs0].
  - apply Permutation_nil in Hp. subst rs1. inversion Hall. by left.
  - destruct rs' as [|r' rs0'].
    + inversion Hall; subst. symmetry in Hp. by apply Permutation_nil in Hp.
    + unfold decide_roles. by apply decide_candidates_perm.
Qed.

Lemma decide_roles_order_independent_witness :
  decide_roles user_config
    [("10.0.0.2", [("notes", VStr "N1"); ("gala_backup", VStr "B1")]);
     ("10.0.0.1", [("gala_main", VStr "W1")])] =
  decide_roles user_config
    [("10.0.0.1", [("gala_main", VStr "W1")]);
     ("10.0.0.2", [("gala_backup", VStr "B1"); ("notes", VStr "N1")])] \/
  exists b k b' k',
    decide_roles user_config
      [("10.0.0.1", [("gala_main", VStr "W1")]);
       ("10.0.0.2", [("gala_backup", VStr "B1"); ("notes", VStr "N1")])] =
    inl (ConflictError (DuplicateCandidate b k)) /\
    decide_roles user_config
      [("10.0.0.2", [("notes", VStr "N1"); ("gala_backup", VStr "B1")]);
       ("10.0.0.1", [("gala_main", VStr "W1")])] =
    inl (ConflictError (DuplicateCandidate b' k')).
Proof.
  apply (decide_roles_order_independent user_config).
  exists [("10.0.0.2", [("gala_backup", VStr "B1"); ("notes", VStr "N1")]);
          ("10.0.0.1", [("gala_main", VStr "W1")])].
  split; [apply perm_swap|].
  repeat constructor.
Defined.

(** ** The LED renderer: dimming, flash and fade *)

Lemma py_int_between (lo hi : Z) (x : Q) :
  (inject_Z lo <= x)%Q -> (x <= inject_Z hi)%Q -> (lo <= py_int x <= hi)%Z.
Proof.
  destruct x as [n d]. unfold Qle, py_int. simpl. intros Hlo Hhi.
  destruct (Z_le_gt_dec 0 n) as [Hn|Hn].
  - rewrite Z.quot_div_nonneg by lia. split.
    + apply Z.div_le_lower_bound; lia.
    + apply Z.div_le_upper_bound; lia.
  - replace n with (- (- n))%Z by lia. rewrite Z.quot_opp_l by lia.
    rewrite Z.quot_div_nonneg by lia.
    assert (H1 : (- n / Z.pos d <= - lo)%Z)
      by (apply Z.div_le_upper_bound; lia).
    assert (H2 : (- hi <= - n / Z.pos d)%Z)
      by (apply Z.div_le_lower_bound; lia).
    lia.
Qed.

Lemma py_int_inject (z : Z) (x : Q) : (x == inject_Z z)%Q -> py_int x = z.
Proof.
  intros Hx.
  assert (H : (z <= py_int x <= z)%Z); [|lia].
  apply py_int_between; rewrite Hx; apply Qle_refl.
Qed.

Lemma inject_Z_sub (a b : Z) : (inject_Z (b - a) == inject_Z b - inject_Z a)%Q.
Proof. unfold Qeq. simpl. lia. Qed.

Lemma clamp_unit (t : Q) : (0 <= Qmax 0 (Qmin 1 t) <= 1)%Q.
Proof.
  split; [apply Q.le_max_l|].
  apply Q.max_lub; [done | apply Q.le_min_l].
Qed.

(** A value between two integers, as [a + (b - a) * t] is for [t] in the
    unit interval. *)
Lemma lerp_channel_between (a b : Z) (t : Q) :
  (0 <= t)%Q -> (t <= 1)%Q ->
  (Z.min a b <= py_int (inject_Z a + inject_Z (b - a) * t) <= Z.max a b)%Z.
Proof.
  intros H0 H1. apply py_int_between.
  - destruct (Z_le_gt_dec a b) as [Hab|Hab].
    + rewrite Z.min_l by lia.
      assert (Hd : (0 <= inject_Z (b - a))%Q)
        by (change 0%Q with (inject_Z 0); rewrite <- Zle_Qle; lia).
      assert (Hm : (0 <= inject_Z (b - a) * t)%Q) by (by apply Qmult_le_0_compat).
      lra.
    + rewrite Z.min_r by lia.
      assert (Hd : (inject_Z (b - a) <= 0)%Q)
        by (change 0%Q with (inject_Z 0); rewrite <- Zle_Qle; lia).
      assert (He : (inject_Z b == inject_Z a + inject_Z (b - a))%Q).
      { rewrite <- inject_Z_plus. f_equiv. lia. }
      assert (Hm : (0 <= (- inject_Z (b - a)) * (1 - t))%Q)
        by (apply Qmult_le_0_compat; lra).
      lra.
  - destruct (Z_le_gt_dec a b) as [Hab|Hab].
    + rewrite Z.max_r by lia.
      assert (Hd : (0 <= inject_Z (b - a))%Q)
        by (change 0%Q with (inject_Z 0); rewrite <- Zle_Qle; lia).
      assert (He : (inject_Z b == inject_Z a + inject_Z (b - a))%Q).
      { rewrite <- inject_Z_plus. f_equiv. lia. }
      assert (Hm : (0 <= inject_Z (b - a) * (1 - t))%Q)
        by (apply Qmult_le_0_compat; lra).
      lra.
    + rewrite Z.max_l by lia.
      assert (Hd : (inject_Z (b - a) <= 0)%Q)
        by (change 0%Q with (inject_Z 0); rewrite <- Zle_Qle; lia).
      assert (Hm : (0 <= (- inject_Z (b - a)) * t)%Q)
        by (apply Qmult_le_0_compat; lra).
      lra.
Qed.

Lemma lerp_rgb_between (a b : color) (t : Q) : within a b (_lerp_rgb a b t).
Proof.
  destruct a as [[a0 a1] a2], b as [[b0 b1] b2].
  destruct (clamp_unit t) as [H0 H1]. unfold within, _lerp_rgb.
  repeat split; by apply lerp_channel_between.
Qed.

Lemma lerp_rgb_start (a b : color) (t : Q) : (t <= 0)%Q -> _lerp_rgb a b t = a.
Proof.
  destruct a as [[a0 a1] a2], b as [[b0 b1] b2].
  destruct (clamp_unit t) as [H0 H1]. intros Ht. unfold _lerp_rgb.
  assert (Hc : (Qmax 0 (Qmin 1 t) == 0)%Q).
  { apply Qle_antisym; [|done]. apply Q.max_lub; [done|].
    eapply Qle_trans; [apply Q.le_min_r | done]. }
  rewrite (py_int_inject a0), (py_int_inject a1), (py_int_inject a2);
    [done|..]; rewrite Hc; ring.
Qed.

Lemma lerp_rgb_end (a b : color) (t : Q) : (1 <= t)%Q -> _lerp_rgb a b t = b.
Proof.
  destruct a as [[a0 a1] a2], b as [[b0 b1] b2].
  destruct (clamp_unit t) as [H0 H1]. intros Ht. unfold _lerp_rgb.
  assert (Hc : (Qmax 0 (Qmin 1 t) == 1)%Q).
  { apply Qle_antisym; [done|].
    eapply Qle_trans; [|apply Q.le_max_r]. by apply Q.min_glb. }
  rewrite (py_int_inject b0), (py_int_inject b1), (py_int_inject b2);
    [done|..]; rewrite Hc, inject_Z_sub; ring.
Qed.

(** X5. The fade never overshoots: whatever [t] is, every channel of
    [_lerp_rgb a b t] lies between the channel of [a] and the channel of
    [b]; for [t <= 0] the result is [a] and for [t >= 1] it is [b]. *)
Theorem lerp_rgb_within (a b : color) (t : Q) :
  within a b (_lerp_rgb a b t) /\
  ((t <= 0)%Q -> _lerp_rgb a b t = a) /\
  ((1 <= t)%Q -> _lerp_rgb a b t = b).
Proof.
  split; [apply lerp_rgb_between|].
  split; [apply lerp_rgb_start | apply lerp_rgb_end].
Qed.

Lemma lerp_rgb_within_witness :
  _lerp_rgb (0, 0, 45)%Z (0, 45, 0)%Z (5 # 4) = (0, 45, 0)%Z.
Proof.
  apply (proj2 (proj2 (lerp_rgb_within (0, 0, 45)%Z (0, 45, 0)%Z (5 # 4)))).
  vm_compute. discriminate.
Defined.

Lemma scale_channel_between (r : Z) (f : Q) :
  (0 <= f)%Q -> (f <= 1)%Q ->
  (Z.min 0 r <= py_int (inject_Z r * f) <= Z.max 0 r)%Z.
Proof.
  intros H0 H1.
  destruct (Z_le_gt_dec 0 r) as [Hr|Hr].
  - assert (Hq : (0 <= inject_Z r)%Q)
      by (change 0%Q with (inject_Z 0); rewrite <- Zle_Qle; lia).
    assert (Hm : (0 <= inject_Z r * f)%Q) by (by apply Qmult_le_0_compat).
    assert (Hm' : (0 <= inject_Z r * (1 - f))%Q)
      by (apply Qmult_le_0_compat; lra).
    rewrite Z.min_l, Z.max_r by lia. apply py_int_between.
    + by change (inject_Z 0) with 0%Q.
    + lra.
  - assert (Hq : (0 <= - inject_Z r)%Q).
    { assert (inject_Z r <= 0)%Q; [|lra].
      change 0%Q with (inject_Z 0). rewrite <- Zle_Qle. lia. }
    assert (Hm : (0 <= (- inject_Z r) * f)%Q) by (by apply Qmult_le_0_compat).
    assert (Hm' : (0 <= (- inject_Z r) * (1 - f))%Q)
      by (apply Qmult_le_0_compat; lra).
    rewrite Z.min_r, Z.max_l by lia. apply py_int_between.
    + lra.
    + change (inject_Z 0) with 0%Q. lra.
Qed.

(** X6. Dimming never brightens and never leaves the range of a channel:
    whatever [MASTER_DIM] is configured, every channel of [dim c] lies
    between 0 and the channel of [c]; a factor of 1 or more leaves the
    colour as it is, a factor of 0 or less switches it off. *)
Theorem dim_within (MASTER_DIM : Q) (c : color) :
  within C_OFF c (dim MASTER_DIM c) /\
  ((1 <= MASTER_DIM)%Q -> dim MASTER_DIM c = c) /\
  ((MASTER_DIM <= 0)%Q -> dim MASTER_DIM c = C_OFF).
Proof.
  destruct c as [[r g] b]. destruct (clamp_unit MASTER_DIM) as [H0 H1].
  split; [|split].
  - unfold within, dim, C_OFF. repeat split; by apply scale_channel_between.
  - intros Hd. unfold dim.
    assert (Hc : (Qmax 0 (Qmin 1 MASTER_DIM) == 1)%Q).
    { apply Qle_antisym; [done|].
      eapply Qle_trans; [|apply Q.le_max_r]. by apply Q.min_glb. }
    rewrite (py_int_inject r), (py_int_inject g), (py_int_inject b);
      [done|..]; rewrite Hc; ring.
  - intros Hd. unfold dim, C_OFF.
    assert (Hc : (Qmax 0 (Qmin 1 MASTER_DIM) == 0)%Q).
    { apply Qle_antisym; [|done]. apply Q.max_lub; [done|].
      eapply Qle_trans; [apply Q.le_min_r | done]. }
    rewrite !(py_int_inject 0); [done|..]; rewrite Hc;
      change (inject_Z 0) with 0%Q; ring.
Qed.

Lemma dim_within_witness : dim 18 C_VIOLET = C_VIOLET.
Proof.
  apply (proj1 (proj2 (dim_within 18 C_VIOLET))). vm_compute. discriminate.
Defined.

Lemma Qltb_intro_true x y : (x < y)%Q -> Qltb x y = true.
Proof.
  intros H. destruct (Qltb x y) eqn:E; [done|]. apply Qltb_false in E. lra.
Qed.

Lemma Qltb_intro_false x y : (y <= x)%Q -> Qltb x y = false.
Proof.
  intros H. destruct (Qltb x y) eqn:E; [|done]. apply Qltb_true in E. lra.
Qed.

(** X7. The acknowledgement flash and the fade after it.  While the flash
    lasts the pixel shows the dimmed blue, whatever its steady state.  The
    first frame after the flash shows the colour of the last frame again
    and starts the fade from it (at a positive clock value); during the
    quarter of a second of the fade every channel lies between the colour
    the fade started from and the target; after it the target is shown and
    the fade is over. *)
Theorem render_role_flash_then_fade (MASTER_DIM now : Q) (r : string)
    (w : LEDWorker) :
  let out := render_role MASTER_DIM now r w in
  (Qltb now (default 0%Q (_flash_until w !! r)) = true ->
   snd out = dim MASTER_DIM C_BLUE /\
   _flash_active (fst out) !! r = Some true /\
   _last_rendered (fst out) !! r = Some (dim MASTER_DIM C_BLUE)) /\
  (forall c0,
     Qltb now (default 0%Q (_flash_until w !! r)) = false ->
     _flash_active w !! r = Some true ->
     _last_rendered w !! r = Some c0 -> (0 < now)%Q ->
     snd out = c0 /\
     _flash_active (fst out) !! r = Some false /\
     _fade_start (fst out) !! r = Some now /\
     _fade_from (fst out) !! r = Some c0) /\
  (forall t0,
     Qltb now (default 0%Q (_flash_until w !! r)) = false ->
     default false (_flash_active w !! r) = false ->
     _fade_start w !! r = Some t0 -> (0 < t0)%Q ->
     ((now - t0 < ACK_RETURN_FADE_SEC)%Q ->
      within (default (dim MASTER_DIM C_BLUE) (_fade_from w !! r))
             (target_color MASTER_DIM now r w) (snd out) /\
      _fade_start (fst out) !! r = Some t0) /\
     ((ACK_RETURN_FADE_SEC <= now - t0)%Q ->
      snd out = target_color MASTER_DIM now r w /\
      _fade_start (fst out) !! r = Some 0%Q)).
Proof.
  intros out. subst out. split; [|split].
  - intros Hf. unfold render_role. rewrite Hf. simpl.
    by rewrite !lookup_insert_eq.
  - intros c0 Hf Ha Hl Hnow. unfold render_role. rewrite Hf, Ha.
    cbn [default from_option id].
    set (w1 := with_flash_end MASTER_DIM now r w).
    assert (Hfs : _fade_start w1 !! r = Some now)
      by (apply lookup_insert_eq).
    assert (Hff : _fade_from w1 !! r = Some c0).
    { unfold w1, with_flash_end. cbn [_fade_from]. rewrite lookup_insert_eq.
      by rewrite Hl. }
    assert (Hfa : _flash_active w1 !! r = Some false)
      by (apply lookup_insert_eq).
    rewrite Hfs, Hff. cbn [default from_option id].
    rewrite (Qltb_intro_true 0 now Hnow).
    rewrite (Qltb_intro_true (now - now) ACK_RETURN_FADE_SEC)
      by (unfold ACK_RETURN_FADE_SEC; lra).
    cbn [fst snd with_rendered _flash_active _fade_start _fade_from].
    split; [|done].
    apply lerp_rgb_start. unfold ACK_RETURN_FADE_SEC.
    assert (He : ((now - now) / (1 # 4) == 0)%Q) by (field).
    rewrite He. apply Qle_refl.
  - intros t0 Hf Ha Hs Ht0. unfold render_role. rewrite Hf, Ha, Hs.
    cbn [default from_option id]. rewrite (Qltb_intro_true 0 t0 Ht0).
    split.
    + intros Hdt. rewrite (Qltb_intro_true _ _ Hdt).
      cbn [fst snd with_rendered _fade_start]. split; [|done].
      apply lerp_rgb_between.
    + intros Hdt. rewrite (Qltb_intro_false _ _ Hdt).
      cbn [fst snd with_rendered _fade_start]. split; [done|].
      apply lookup_insert_eq.
Qed.

Lemma render_role_flash_then_fade_witness :
  snd (render_role (18 # 100) 10 "main"
         (flash_ack 10 "main" ACK_FLASH_SEC (LEDWorker_init (18 # 100)))) =
  dim (18 # 100) C_BLUE.
Proof.
  apply (proj1 (render_role_flash_then_fade (18 # 100) 10 "main"
                  (flash_ack 10 "main" ACK_FLASH_SEC
                     (LEDWorker_init (18 # 100))))).
  vm_compute. reflexivity.
Defined.

(** ** The inbound dispatcher: what a datagram can change *)

Lemma handler_frame_refl src w : handler_frame src w w.
Proof. unfold handler_frame. repeat split; auto. Qed.

Lemma WAITERS_set_frame src key payload e w :
  handler_frame src w (snd (WAITERS_set key payload e w)).
Proof.
  unfold WAITERS_set, modify. cbn [snd].
  cbn [_events set__payloads].
  destruct (_events w !! key) as [b|] eqn:Hk.
  - unfold handler_frame. cbn. repeat split; auto.
    + destruct (decide (k = key)) as [->|Hne].
      * intros _. by rewrite Hk.
      * by rewrite lookup_insert_ne.
    + destruct (decide (k = key)) as [->|Hne].
      * intros _. rewrite lookup_insert_eq. by eexists.
      * by rewrite lookup_insert_ne.
  - unfold handler_frame. cbn. repeat split; auto.
Qed.

Lemma handler_frame_trans src w w1 w2 :
  handler_frame src w w1 -> acks w1 = acks w -> handler_frame src w1 w2 ->
  handler_frame src w w2.
Proof.
  intros (Hq & Hw & Hr & Hf & Hc & Hwa & Ho & He & Ha & _) Hacks
         (Hq' & Hw' & Hr' & Hf' & Hc' & Hwa' & Ho' & He' & Ha' & Hk').
  unfold handler_frame. repeat split; try congruence.
  - intros Hs. by apply He, He'.
  - intros Hs. by apply He', He.
  - destruct (Ha a H), (Ha' a H). congruence.
  - destruct (Ha a H), (Ha' a H). congruence.
  - rewrite Hacks, Hr in Hk'. exact Hk'.
Qed.

Lemma WAITERS_set_acks key payload e w :
  acks (snd (WAITERS_set key payload e w)) = acks w.
Proof.
  unfold WAITERS_set, modify. cbn [snd]. cbn [_events set__payloads].
  by destruct (_events w !! key).
Qed.

Lemma DISCOVERY_add_frame src payload e w :
  handler_frame src w (snd (DISCOVERY_add src payload e w)).
Proof.
  unfold DISCOVERY_add, modify, handler_frame. cbn. repeat split; auto.
  by rewrite lookup_insert_ne.
Qed.

Lemma mark_seen_frame src e w :
  handler_frame src w (snd (mark_seen src e w)) /\
  acks (snd (mark_seen src e w)) = acks w.
Proof.
  unfold mark_seen, mono, modify, bind, handler_frame. cbn.
  repeat split; auto. by rewrite lookup_insert_ne.
Qed.

Lemma route_frame src address j e w :
  handler_frame src w (snd (route src address j e w)).
Proof.
  unfold route.
  destruct (startswith address "/reply/workspaces" ||
            eq_str (default (VStr "") (dict_get "address" j)) "/workspaces").
  { unfold bind.
    destruct (WAITERS_set ("workspaces:" ++ src)%string (VDict j) e w)
      as [[] w1] eqn:H1.
    apply (handler_frame_trans src w w1).
    - pose proof (WAITERS_set_frame src ("workspaces:" ++ src)%string
                    (VDict j) e w) as H. by rewrite H1 in H.
    - pose proof (WAITERS_set_acks ("workspaces:" ++ src)%string
                    (VDict j) e w) as H. by rewrite H1 in H.
    - apply DISCOVERY_add_frame. }
  destruct (str_endswith (default (VStr "") (dict_get "address" j)) "/connect"
            && nonempty (vget "workspace_id" j)).
  { unfold bind.
    destruct (WAITERS_set _ (VDict j) e w) as [[] w1] eqn:H1.
    apply (handler_frame_trans src w w1).
    - pose proof (WAITERS_set_frame src
                    ("connect:" ++ src ++ ":" ++
                     text_of (vget "workspace_id" j))%string
                    (VDict j) e w) as H.
      by rewrite H1 in H.
    - pose proof (WAITERS_set_acks
                    ("connect:" ++ src ++ ":" ++
                     text_of (vget "workspace_id" j))%string
                    (VDict j) e w) as H.
      by rewrite H1 in H.
    - destruct (eq_str (vget "status" j) "ok");
        [apply mark_seen_frame | apply handler_frame_refl]. }
  destruct (str_endswith (default (VStr "") (dict_get "address" j)) "/thump"
            && nonempty (vget "workspace_id" j)).
  { destruct (eq_str (vget "status" j) "ok");
      [apply mark_seen_frame | apply handler_frame_refl]. }
  destruct (eq_str (vget "status" j) "ok" && nonempty (vget "workspace_id" j) &&
            (if as_str (default (VStr "") (dict_get "address" j)) is Some _
             then true else false));
    [|apply handler_frame_refl].
  destruct (existsb _ ACK_SUFFIXES); [|apply handler_frame_refl].
  unfold bind. destruct (mark_seen src e w) as [[] w1] eqn:H1.
  destruct (mark_seen_frame src e w) as [Hfr Hacks]. rewrite H1 in Hfr, Hacks.
  apply (handler_frame_trans src w w1 _ Hfr Hacks).
  unfold role_from_ip, get, bind, ret. cbn [fst snd].
  destruct (ROLE_BY_IP w1 !! src) as [rl|] eqn:Hrl;
    [|apply handler_frame_refl].
  destruct (negb (String.eqb rl "") && _on_ack w1);
    [|apply handler_frame_refl].
  unfold modify, handler_frame. cbn. repeat split; auto.
  right. by exists rl.
Qed.

(** X8. What a datagram can never do.  Whatever it carries, a call of the
    handler for a datagram from the address [src] sends nothing, leaves the
    role map and the throttles of the protocol helpers as they are, arms and
    disarms no waiter, and changes the last-seen time and the discovery
    entry of no address but [src]; the acknowledgement callback is called at
    most once, for [src] and the role the map gives it. *)
Theorem osc_handler_frame client address args e w :
  handler_frame (default "0.0.0.0" client) w
    (snd (_osc_handler client address args e w)).
Proof.
  unfold _osc_handler.
  destruct (head args) as [[payload|payload|]|]; try apply handler_frame_refl.
  - destruct (200000 <? N.of_nat (String.length payload))%N;
      [apply handler_frame_refl|].
    unfold bind, ask.
    destruct (json_loads e payload) as [[| | | | |j]|];
      try apply handler_frame_refl.
    apply route_frame.
  - destruct (200000 <? N.of_nat (String.length payload))%N;
      [apply handler_frame_refl|].
    unfold bind, ask.
    destruct (json_loads e payload) as [[| | | | |j]|];
      try apply handler_frame_refl.
    apply route_frame.
Qed.

Lemma eq_str_true v s : eq_str v s = true -> v = VStr s.
Proof.
  destruct v as [| | |x| |]; simpl; try done.
  intros H. apply String.eqb_eq in H. by subst.
Qed.

Lemma nonempty_true v : nonempty v = true -> exists id, nonempty_str v = Some id.
Proof. unfold nonempty. destruct (nonempty_str v) as [id|]; [eauto|done]. Qed.

Lemma invoked_endswith (j : dict string value) suf :
  endswith "" suf = false ->
  str_endswith (default (VStr "") (dict_get "address" j)) suf = true ->
  exists a, dict_get "address" j = Some (VStr a) /\ endswith a suf = true.
Proof.
  intros Hne. destruct (dict_get "address" j) as [[| | |a| |]|]; simpl;
    try done; [by exists a | congruence].
Qed.

Lemma existsb_endswith (j : dict string value) :
  existsb (str_endswith (default (VStr "") (dict_get "address" j)))
    ACK_SUFFIXES = true ->
  exists a suffix, dict_get "address" j = Some (VStr a) /\
                   In suffix ACK_SUFFIXES /\ endswith a suffix = true.
Proof.
  intros H. apply existsb_exists in H as (suffix & Hin & Hs).
  destruct (invoked_endswith j suffix) as (a & Ha & He); [|done|by eauto].
  unfold ACK_SUFFIXES in Hin. simpl in Hin.
  destruct Hin as [<-|[<-|[<-|[<-|[<-|[<-|[<-|[]]]]]]]]; reflexivity.
Qed.

Lemma route_seen src address j e w :
  let w' := snd (route src address j e w) in
  (LAST_SEEN_BY_IP w' = LAST_SEEN_BY_IP w /\ ticks w' = ticks w /\
   acks w' = acks w) \/
  (exists id a,
     vget "status" j = VStr "ok" /\
     nonempty_str (vget "workspace_id" j) = Some id /\
     startswith address "/reply/workspaces" = false /\
     dict_get "address" j = Some (VStr a) /\ a <> "/workspaces" /\
     (endswith a "/connect" = true \/ endswith a "/thump" = true \/
      exists suffix, In suffix ACK_SUFFIXES /\ endswith a suffix = true) /\
     LAST_SEEN_BY_IP w' = <[src := clock e (ticks w)]> (LAST_SEEN_BY_IP w)).
Proof.
  intros w'. subst w'. unfold route.
  destruct (startswith address "/reply/workspaces") eqn:Hsw.
  { left. cbn [orb]. unfold bind.
    destruct (WAITERS_set ("workspaces:" ++ src)%string (VDict j) e w)
      as [[] w1] eqn:H1.
    unfold WAITERS_set, modify in H1. injection H1 as <-.
    cbn [_events set__payloads].
    by destruct (_events w !! ("workspaces:" ++ src)%string). }
  destruct (eq_str (default (VStr "") (dict_get "address" j)) "/workspaces")
    eqn:Hws.
  { left. cbn [orb]. unfold bind.
    destruct (WAITERS_set ("workspaces:" ++ src)%string (VDict j) e w)
      as [[] w1] eqn:H1.
    unfold WAITERS_set, modify in H1. injection H1 as <-.
    cbn [_events set__payloads].
    by destruct (_events w !! ("workspaces:" ++ src)%string). }
  cbn [orb].
  assert (Hnw : forall a, dict_get "address" j = Some (VStr a) ->
                          a <> "/workspaces").
  { intros a Ha ->. rewrite Ha in Hws. discriminate Hws. }
  destruct (str_endswith (default (VStr "") (dict_get "address" j)) "/connect")
    eqn:Hco;
    [destruct (nonempty (vget "workspace_id" j)) eqn:Hid|]; cbn [andb].
  - unfold bind.
    destruct (WAITERS_set _ (VDict j) e w) as [[] w1] eqn:H1.
    assert (Hw1 : LAST_SEEN_BY_IP w1 = LAST_SEEN_BY_IP w /\
                  ticks w1 = ticks w /\ acks w1 = acks w).
    { unfold WAITERS_set, modify in H1. injection H1 as <-.
      cbn [_events set__payloads].
      by destruct (_events w !! _). }
    destruct Hw1 as (Hl1 & Ht1 & Ha1).
    destruct (eq_str (vget "status" j) "ok") eqn:Hok; [|by left].
    right. apply eq_str_true in Hok. apply nonempty_true in Hid as [id Hid].
    apply invoked_endswith in Hco as (a & Ha & Hend); [|done].
    exists id, a. repeat split; auto.
    unfold mark_seen, mono, modify, bind. cbn. by rewrite Hl1, Ht1.
  - clear Hco.
    destruct (str_endswith (default (VStr "") (dict_get "address" j)) "/thump")
      eqn:Hth; cbn [andb]; rewrite andb_false_r; cbn [andb]; by left.
  - destruct (str_endswith (default (VStr "") (dict_get "address" j)) "/thump")
      eqn:Hth;
      [destruct (nonempty (vget "workspace_id" j)) eqn:Hid|]; cbn [andb].
    + destruct (eq_str (vget "status" j) "ok") eqn:Hok; [|by left].
      right. apply eq_str_true in Hok. apply nonempty_true in Hid as [id Hid].
      apply invoked_endswith in Hth as (a & Ha & Hend); [|done].
      exists id, a. repeat split; auto.
    + rewrite andb_false_r. cbn [andb]. by left.
    + destruct (eq_str (vget "status" j) "ok") eqn:Hok; [|by left].
      destruct (nonempty (vget "workspace_id" j)) eqn:Hid; [|by left].
      cbn [andb].
      destruct (as_str (default (VStr "") (dict_get "address" j))); [|by left].
      destruct (existsb _ ACK_SUFFIXES) eqn:Hex; [|by left].
      right. apply eq_str_true in Hok. apply nonempty_true in Hid as [id Hid].
      apply existsb_endswith in Hex as (a & suffix & Ha & Hin & Hend).
      exists id, a. repeat split; auto.
      { right. right. by exists suffix. }
      unfold bind. destruct (mark_seen src e w) as [[] w1] eqn:H1.
      unfold mark_seen, mono, modify, bind in H1. injection H1 as <-.
      unfold role_from_ip, get, bind, ret. cbn [fst snd].
      cbn [ROLE_BY_IP set_LAST_SEEN_BY_IP set_ticks].
      destruct (ROLE_BY_IP w !! src) as [rl|]; [|done].
      by destruct (negb (String.eqb rl "") && _on_ack _).
Qed.

(** X9. A sign of life needs an answer that succeeded.  The handler records
    a last-seen time only for a datagram that decodes to a JSON object whose
    status is ["ok"] and whose workspace identifier is a non-empty string,
    and that is no answer to [/workspaces]: its inner address is a string
    that ends with [/connect], with [/thump] or with the suffix of an
    action.  The time recorded is then the clock's, for the source of the
    datagram.  For every other datagram the last-seen times stay as they
    are, the clock is not read and the acknowledgement callback is not
    called. *)
Theorem osc_handler_seen_only_ok client address args e w :
  let w' := snd (_osc_handler client address args e w) in
  (LAST_SEEN_BY_IP w' = LAST_SEEN_BY_IP w /\ ticks w' = ticks w /\
   acks w' = acks w) \/
  (exists payload j id a,
     (head args = Some (ArgStr payload) \/
      head args = Some (ArgBytes payload)) /\
     json_loads e payload = Some (VDict j) /\
     vget "status" j = VStr "ok" /\
     nonempty_str (vget "workspace_id" j) = Some id /\
     startswith address "/reply/workspaces" = false /\
     dict_get "address" j = Some (VStr a) /\ a <> "/workspaces" /\
     (endswith a "/connect" = true \/ endswith a "/thump" = true \/
      exists suffix, In suffix ACK_SUFFIXES /\ endswith a suffix = true) /\
     LAST_SEEN_BY_IP w' =
     <[default "0.0.0.0" client := clock e (ticks w)]> (LAST_SEEN_BY_IP w)).
Proof.
  intros w'. subst w'. unfold _osc_handler.
  destruct (head args) as [[payload|payload|]|] eqn:Hargs; try by left.
  - destruct (200000 <? N.of_nat (String.length payload))%N; [by left|].
    unfold bind, ask.
    destruct (json_loads e payload) as [[| | | | |j]|] eqn:Hj; try by left.
    destruct (route_seen (default "0.0.0.0" client) address j e w)
      as [H|(id & a & H)]; [by left|].
    right. exists payload, j, id, a. split; [by left|]. by split.
  - destruct (200000 <? N.of_nat (String.length payload))%N; [by left|].
    unfold bind, ask.
    destruct (json_loads e payload) as [[| | | | |j]|] eqn:Hj; try by left.
    destruct (route_seen (default "0.0.0.0" client) address j e w)
      as [H|(id & a & H)]; [by left|].
    right. exists payload, j, id, a. split; [by right|]. by split.
Qed.

(** ** Requests that wait for an answer *)

Lemma WAITERS_set_other key payload e w k :
  k <> key ->
  _events (snd (WAITERS_set key payload e w)) !! k = _events w !! k /\
  _payloads (snd (WAITERS_set key payload e w)) !! k = _payloads w !! k.
Proof.
  intros Hne. unfold WAITERS_set, modify. cbn [snd].
  cbn [_events set__payloads].
  destruct (_events w !! key); cbn; rewrite ?lookup_insert_ne by done; done.
Qed.

Lemma mark_seen_waiters src e w :
  _events (snd (mark_seen src e w)) = _events w /\
  _payloads (snd (mark_seen src e w)) = _payloads w.
Proof. done. Qed.

(** The handler writes under the keys of the source of the datagram only. *)
Lemma route_waiters_other src address j e w k :
  k <> ("workspaces:" ++ src)%string ->
  (forall id, k <> ("connect:" ++ src ++ ":" ++ id)%string) ->
  _events (snd (route src address j e w)) !! k = _events w !! k /\
  _payloads (snd (route src address j e w)) !! k = _payloads w !! k.
Proof.
  intros Hw Hc. unfold route.
  destruct (startswith address "/reply/workspaces" ||
            eq_str (default (VStr "") (dict_get "address" j)) "/workspaces").
  { unfold bind.
    destruct (WAITERS_set ("workspaces:" ++ src)%string (VDict j) e w)
      as [[] w1] eqn:H1.
    pose proof (WAITERS_set_other ("workspaces:" ++ src)%string (VDict j) e w
                  k Hw) as H.
    rewrite H1 in H. exact H. }
  destruct (str_endswith (default (VStr "") (dict_get "address" j)) "/connect"
            && nonempty (vget "workspace_id" j)).
  { unfold bind.
    destruct (WAITERS_set _ (VDict j) e w) as [[] w1] eqn:H1.
    pose proof (WAITERS_set_other
                  ("connect:" ++ src ++ ":" ++
                   text_of (vget "workspace_id" j))%string (VDict j) e w
                  k (Hc _)) as H.
    rewrite H1 in H. cbn [snd] in H.
    by destruct (eq_str (vget "status" j) "ok"). }
  destruct (str_endswith (default (VStr "") (dict_get "address" j)) "/thump"
            && nonempty (vget "workspace_id" j)).
  { by destruct (eq_str (vget "status" j) "ok"). }
  destruct (eq_str (vget "status" j) "ok" && nonempty (vget "workspace_id" j) &&
            (if as_str (default (VStr "") (dict_get "address" j)) is Some _
             then true else false)); [|done].
  destruct (existsb _ ACK_SUFFIXES); [|done].
  unfold bind. destruct (mark_seen src e w) as [[] w1] eqn:H1.
  unfold mark_seen, mono, modify, bind in H1. injection H1 as <-.
  unfold role_from_ip, get, bind, ret. cbn [fst snd].
  destruct (ROLE_BY_IP _ !! src) as [rl0|]; [|done].
  by destruct (negb (String.eqb rl0 "") && _on_ack _).
Qed.

Lemma osc_handler_waiters_other client address args e w k :
  k <> ("workspaces:" ++ default "0.0.0.0" client)%string ->
  (forall id, k <> ("connect:" ++ default "0.0.0.0" client ++ ":" ++ id)%string) ->
  _events (snd (_osc_handler client address args e w)) !! k = _events w !! k /\
  _payloads (snd (_osc_handler client address args e w)) !! k =
  _payloads w !! k.
Proof.
  intros Hw Hc. unfold _osc_handler.
  destruct (head args) as [[payload|payload|]|]; try done.
  - destruct (200000 <? N.of_nat (String.length payload))%N; [done|].
    unfold bind, ask.
    destruct (json_loads e payload) as [[| | | | |j]|]; try done.
    by apply route_waiters_other.
  - destruct (200000 <? N.of_nat (String.length payload))%N; [done|].
    unfold bind, ask.
    destruct (json_loads e payload) as [[| | | | |j]|]; try done.
    by apply route_waiters_other.
Qed.

Lemma string_app_inv_head (p s t : string) :
  (p ++ s)%string = (p ++ t)%string -> s = t.
Proof.
  induction p as [|c p IH]; [done|].
  change (String c (p ++ s)%string = String c (p ++ t)%string -> s = t).
  intros [= H]. by apply IH.
Qed.

(** Steps of the other threads among which no datagram comes from [addr]
    leave the waiter for the workspaces of [addr] as it is. *)
Lemma bg_run_all_workspaces_waiter addr steps e w :
  Forall (fun s => ~ datagram_from addr s) steps ->
  _events (snd (bg_run_all steps e w)) !! ("workspaces:" ++ addr)%string =
  _events w !! ("workspaces:" ++ addr)%string /\
  _payloads (snd (bg_run_all steps e w)) !! ("workspaces:" ++ addr)%string =
  _payloads w !! ("workspaces:" ++ addr)%string.
Proof.
  intros Hall. revert w. induction Hall as [|s steps Hs _ IH]; intros w; [done|].
  cbn [bg_run_all]. unfold bind.
  destruct (bg_run s e w) as [[] w1] eqn:H1.
  destruct (IH w1) as [He Hp]. rewrite He, Hp.
  destruct s as [c a args|]; cbn [bg_run] in H1.
  - pose proof (osc_handler_waiters_other c a args e w
                  ("workspaces:" ++ addr)%string) as H.
    rewrite H1 in H. apply H.
    + intros Heq. apply string_app_inv_head in Heq. apply Hs. by simpl.
    + intros id Heq. discriminate Heq.
  - unfold SENDW_run_once, modify in H1. injection H1 as <-.
    by destruct (SENDW_q w).
Qed.

(** X10. [request_workspaces] leaves no waiter behind, whether an answer
    came or not; and it returns an answer only if a datagram from the very
    address it asked arrived while it was waiting: what had been received
    before the call, or comes from another address, is never returned. *)
Theorem request_workspaces_answer addr e w :
  let key := ("workspaces:" ++ addr)%string in
  let out := request_workspaces addr e w in
  _events (snd out) !! key = None /\ _payloads (snd out) !! key = None /\
  (is_Some (fst out) -> Exists (datagram_from addr) (background e (waits w))).
Proof.
  intros key out. subst out. unfold request_workspaces. fold key.
  unfold bind.
  destruct (WAITERS_arm key e w) as [[] w1] eqn:H1.
  destruct (send_app addr P_WORKSPACES [] e w1) as [[] w2] eqn:H2.
  assert (Hev : _events w2 !! key = Some false /\ waits w2 = waits w).
  { unfold WAITERS_arm, modify in H1. injection H1 as <-.
    unfold send_app, SENDW_send, modify in H2. injection H2 as <-.
    destruct (length _ <? 1000)%nat; cbn; by rewrite lookup_insert_eq. }
  destruct Hev as (Hev & Hwaits).
  destruct (Event_wait key e w2) as [woken w3] eqn:Hwait.
  assert (Hsteps : woken = true ->
            Exists (datagram_from addr) (background e (waits w))).
  { intros ->. unfold Event_wait, bind, ask, get, modify, ret in Hwait.
    cbn [fst snd] in Hwait.
    destruct (bg_run_all (background e (waits w2)) e
                (set_waits (S (waits w2)) w2)) as [[] w4] eqn:Hbg.
    injection Hwait as Hflag <-. rewrite Hwaits in Hbg.
    destruct (decide (Exists (datagram_from addr) (background e (waits w))))
      as [Hex|Hnex]; [done|].
    apply not_Exists_Forall in Hnex; [|apply _].
    pose proof (bg_run_all_workspaces_waiter addr _ e
                  (set_waits (S (waits w)) w2) Hnex) as [He _].
    rewrite Hbg in He. cbn [snd] in He. fold key in He.
    change (_events (set_waits (S (waits w)) w2)) with (_events w2) in He.
    rewrite He, Hev in Hflag. discriminate Hflag. }
  destruct woken; cbn [negb].
  - unfold WAITERS_pop, get, modify, ret. cbn.
    rewrite !lookup_delete_eq. split; [done|]. split; [done|].
    intros _. by apply Hsteps.
  - unfold WAITERS_cleanup, modify, ret. cbn.
    rewrite !lookup_delete_eq. split; [done|]. split; [done|].
    intros [? [=]].
Qed.

(** ** The send worker *)

(** X11. The send worker is a bounded FIFO.  Through any sequence of calls
    of [send] and iterations of [run], never more than 1000 messages are
    pending; what has gone out followed by what is pending is what was there
    before followed by the accepted messages, which are the messages handed
    to [send], in the order of the calls, without those dropped; and none is
    dropped as long as the pending ones and the new ones together are no
    more than 1000. *)
Theorem sendw_bounded_fifo us e w :
  length (SENDW_q w) <= 1000 ->
  let w' := snd (sendw_run us e w) in
  length (SENDW_q w') <= 1000 /\
  exists accepted,
    accepted `sublist_of` puts us /\
    wire w' ++ SENDW_q w' = wire w ++ SENDW_q w ++ accepted /\
    (length (SENDW_q w) + length (puts us) <= 1000 -> accepted = puts us).
Proof.
  revert w. induction us as [|u us IH]; intros w Hlen.
  - cbn. split; [done|]. exists []. rewrite app_nil_r. done.
  - cbn [sendw_run]. unfold bind.
    destruct (sendw_step u e w) as [[] w1] eqn:H1.
    destruct u as [addr path arg|]; cbn [sendw_step] in H1.
    + unfold SENDW_send, modify in H1. injection H1 as <-.
      destruct (length (SENDW_q w) <? 1000)%nat eqn:Hroom.
      * apply Nat.ltb_lt in Hroom.
        destruct (IH (set_SENDW_q (SENDW_q w ++ [(addr, path, arg)]) w))
          as (Hb & acc & Hsub & Heq & Hall).
        { cbn. rewrite length_app. simpl. lia. }
        split; [done|]. exists ((addr, path, arg) :: acc).
        split; [by apply sublist_skip|]. split.
        -- rewrite Heq. cbn. by rewrite <- !app_assoc.
        -- intros Hfit.
           change (puts (Put addr path arg :: us))
             with ((addr, path, arg) :: puts us) in *.
           cbn [length] in Hfit. f_equal. apply Hall.
           cbn [SENDW_q set_SENDW_q]. rewrite length_app. simpl. lia.
      * apply Nat.ltb_ge in Hroom.
        destruct (IH w Hlen) as (Hb & acc & Hsub & Heq & Hall).
        split; [done|]. exists acc.
        split; [by apply sublist_cons|]. split; [done|].
        intros Hfit.
        change (puts (Put addr path arg :: us))
          with ((addr, path, arg) :: puts us) in Hfit.
        cbn [length] in Hfit. lia.
    + unfold SENDW_run_once, modify in H1. injection H1 as <-.
      destruct (SENDW_q w) as [|m q] eqn:Hq.
      * rewrite <- Hq in Hlen.
        destruct (IH w Hlen) as (Hb & acc & Hsub & Heq & Hall).
        rewrite Hq in Heq, Hall. split; [done|]. by exists acc.
      * destruct (IH (set_wire (wire w ++ [m]) (set_SENDW_q q w)))
          as (Hb & acc & Hsub & Heq & Hall).
        { cbn. simpl in Hlen. lia. }
        split; [done|]. exists acc. split; [done|]. split.
        -- rewrite Heq. cbn. by rewrite <- !app_assoc.
        -- intros Hfit. apply Hall.
           change (puts (Take :: us)) with (puts us) in Hfit.
           cbn [SENDW_q set_SENDW_q set_wire]. cbn [length] in Hfit. lia.
Qed.


Lemma sendw_bounded_fifo_witness :
  let w' := snd (sendw_run [Put "10.0.0.1" "/a" VNone; Take;
                            Put "10.0.0.1" "/b" VNone]
                   sample_env_idle Net_init) in
  length (SENDW_q w') <= 1000 /\
  exists accepted,
    accepted `sublist_of` puts [Put "10.0.0.1" "/a" VNone; Take;
                                Put "10.0.0.1" "/b" VNone] /\
    wire w' ++ SENDW_q w' = wire Net_init ++ SENDW_q Net_init ++ accepted /\
    (length (SENDW_q Net_init) +
     length (puts [Put "10.0.0.1" "/a" VNone; Take;
                   Put "10.0.0.1" "/b" VNone]) <= 1000 ->
     accepted = puts [Put "10.0.0.1" "/a" VNone; Take;
                      Put "10.0.0.1" "/b" VNone]).
Proof.
  apply (sendw_bounded_fifo [Put "10.0.0.1" "/a" VNone; Take;
                             Put "10.0.0.1" "/b" VNone]
           sample_env_idle Net_init).
  simpl. lia.
Defined.

(** ** The role map *)

(** X12. The role map is keyed by address, and the roles are filed in the
    order main, backup, aux: an address on file for several roles answers
    to the last of them, so that an address is given the role aux if it is
    the auxiliary's, else backup if it is the backup's, else main if it is
    the primary's, and no role otherwise. *)
Theorem role_map_last_role_wins (st : dict string value) (a : string) :
  role_map_of st !! a =
  if decide (role_ip st "aux" = Some a) then Some "aux"
  else if decide (role_ip st "backup" = Some a) then Some "backup"
  else if decide (role_ip st "main" = Some a) then Some "main"
  else None.
Proof.
  unfold role_map_of, role_ip, endpoints_of.
  destruct (dict_get "endpoints" st) as [[| | | | |eps]|]; try done.
  unfold ROLES. cbn [fold_left].
  set (ipof := fun r => match dict_get r eps with
                        | Some (VDict e) => nonempty_str (vget "ip" e)
                        | _ => None
                        end).
  assert (Hstep : forall r (m : gmap string string),
            match dict_get r eps with
            | Some (VDict e) =>
                match nonempty_str (vget "ip" e) with
                | Some addr => <[addr := r]> m
                | None => m
                end
            | _ => m
            end !! a =
            if decide (ipof r = Some a) then Some r else m !! a).
  { intros r m. unfold ipof.
    destruct (dict_get r eps) as [[| | | | |e]|];
      try (by rewrite decide_False).
    destruct (nonempty_str (vget "ip" e)) as [addr|];
      [|by rewrite decide_False].
    destruct (decide (addr = a)) as [->|Hne].
    - by rewrite decide_True, lookup_insert_eq.
    - rewrite decide_False by congruence. by rewrite lookup_insert_ne. }
  rewrite !Hstep. fold (ipof "aux") (ipof "backup") (ipof "main").
  by rewrite lookup_empty.
Qed.

(** ** Classification of the names *)

Lemma substring_split (s : string) (m : nat) :
  m <= String.length s ->
  s = (substring 0 m s ++ substring m (String.length s - m) s)%string.
Proof.
  revert m. induction s as [|c s IH]; intros m Hm.
  - simpl in Hm. assert (m = 0) as -> by lia. done.
  - destruct m as [|m].
    + cbn [substring]. change ("" ++ ?x)%string with x.
      simpl String.length. rewrite Nat.sub_0_r.
      change (String c s = String c (substring 0 (String.length s) s)).
      f_equal. clear. induction s as [|d s IH]; [done|].
      simpl. by rewrite <- IH.
    + simpl in Hm. cbn [substring String.length].
      change (String c ?x ++ ?y)%string with (String c (x ++ y)%string).
      rewrite Nat.sub_succ. f_equal. apply IH. lia.
Qed.

Lemma endswith_split (s suf : string) :
  endswith s suf = true -> suf <> "" ->
  s = (slice_to_neg s (String.length suf) ++ suf)%string.
Proof.
  unfold endswith. intros H Hne. apply andb_true_iff in H as [Hle Heq].
  apply Nat.leb_le in Hle. apply String.eqb_eq in Heq.
  unfold slice_to_neg. destruct (String.length suf) as [|k] eqn:Hk.
  { destruct suf; [done | discriminate Hk]. }
  rewrite <- Heq.
  rewrite (substring_split s (String.length s - S k)) at 1 by lia.
  do 2 f_equal. lia.
Qed.

(** X13. What the classification returns for a name that is none of the two
    historical names, the three suffixes being non-empty.  A name tagged as
    primary is its base followed by the primary suffix; a name tagged as
    backup is its base followed by the backup suffix and does not end with
    the primary suffix; a name tagged as auxiliary is its base followed by
    the auxiliary suffix and ends with neither of the other two; a plain
    name is its own base and ends with none of the three. *)
Theorem classify_base_and_suffix (cfg : Config) (n : string) k b :
  _classify cfg n = (k, b) ->
  n <> EXPECTED_WS_MAIN cfg -> n <> EXPECTED_WS_BACKUP cfg ->
  SUFFIX_MAIN cfg <> "" -> SUFFIX_BACKUP cfg <> "" -> SUFFIX_AUX1 cfg <> "" ->
  match k with
  | KMain => n = (b ++ SUFFIX_MAIN cfg)%string
  | KBackup => n = (b ++ SUFFIX_BACKUP cfg)%string /\
               endswith n (SUFFIX_MAIN cfg) = false
  | KAux => n = (b ++ SUFFIX_AUX1 cfg)%string /\
            endswith n (SUFFIX_MAIN cfg) = false /\
            endswith n (SUFFIX_BACKUP cfg) = false
  | KPlain => b = n /\
              endswith n (SUFFIX_MAIN cfg) = false /\
              endswith n (SUFFIX_BACKUP cfg) = false /\
              endswith n (SUFFIX_AUX1 cfg) = false
  end.
Proof.
  intros Hc Hm Hb Hsm Hsb Hsa. unfold _classify in Hc.
  destruct (String.eqb_spec n (EXPECTED_WS_MAIN cfg)); [done|].
  destruct (String.eqb_spec n (EXPECTED_WS_BACKUP cfg)); [done|].
  destruct (endswith n (SUFFIX_MAIN cfg)) eqn:E1.
  { injection Hc as <- <-. by apply endswith_split. }
  destruct (endswith n (SUFFIX_BACKUP cfg)) eqn:E2.
  { injection Hc as <- <-. split; [by apply endswith_split | done]. }
  destruct (endswith n (SUFFIX_AUX1 cfg)) eqn:E3.
  { injection Hc as <- <-. split; [by apply endswith_split | done]. }
  injection Hc as <- <-. done.
Qed.

Lemma classify_base_and_suffix_witness :
  "gala_backup" = ("gala" ++ SUFFIX_BACKUP user_config)%string /\
  endswith "gala_backup" (SUFFIX_MAIN user_config) = false.
Proof.
  apply (classify_base_and_suffix user_config "gala_backup" KBackup "gala");
    [reflexivity | discriminate..].
Defined.

(** ** The pairing record: written, then read back *)

Lemma STATE_load_after_save mt st s :
  STATE_load (STATE_save mt st s) = (st, STATE_save mt st s).
Proof.
  unfold STATE_load, STATE_save. cbn.
  assert (H : Qeq_bool mt mt = true) by (apply Qeq_bool_iff; reflexivity).
  by rewrite H.
Qed.

Lemma save_paired_state_spec cfg port paired_at assigned e y :
  let old := fst (STATE_load (store y)) in
  let st := paired_record cfg port paired_at assigned old in
  save_paired_state cfg port paired_at assigned e y =
  (tt, {| globals := globals y;
          store := STATE_save (fs_mtime e (saves (snd (STATE_load (store y)))))
                     st (snd (STATE_load (store y)));
          net := set_ROLE_BY_IP (role_map_of st) (net y) |}).
Proof.
  unfold save_paired_state, dbind, STATE_load_d, STATE_save_d, liftN,
    refresh_role_map_from_state, modify.
  destruct (STATE_load (store y)) as [old s1]. reflexivity.
Qed.

Lemma load_paired_endpoints_saved cfg port paired_at assigned old mt s e y :
  store y = STATE_save mt (paired_record cfg port paired_at assigned old) s ->
  fst (load_paired_endpoints e y) =
  Some (fold_left (load_role (endpoint_entries assigned)) ROLES []).
Proof.
  intros Hs. unfold load_paired_endpoints, dbind, STATE_load_d.
  rewrite Hs, STATE_load_after_save. reflexivity.
Qed.

(** The shapes of an assignment. *)
Lemma decide_roles_shape (cfg : Config) rs assigned :
  decide_roles cfg rs = inr assigned ->
  exists m bk ax,
    assigned =
    ("main", endpoint_of "main" m) ::
    match bk with Some b => [("backup", endpoint_of "backup" b)] | None => [] end
    ++ match ax with Some a => [("aux", endpoint_of "aux" a)] | None => [] end.
Proof.
  intros Hd. apply decide_roles_inv in Hd.
  apply decide_candidates_inv in Hd as (m & Hm & Hcase).
  destruct Hcase as [(Hk & bb & Hg & _ & ->)|(Hk & _ & ->)].
  - exists m, (lookup2 (base m) KBackup bb).
    destruct (filter (fun c => is_kind KAux c = true) (candidates cfg rs))
      as [|a [|a' l]]; [by exists None | by exists (Some a) | by exists None].
  - exists m, None.
    destruct (filter (fun c => is_kind KAux c = true) (candidates cfg rs))
      as [|a [|a' l]]; [by exists None | by exists (Some a) | by exists None].
Qed.

(** X14. A pairing that succeeds is on file as decided.  When [pair_auto]
    returns an assignment, it is the one [decide_roles] made for the
    responders; the state file then holds the pairing record of this
    assignment, with the pause flag of the record on file before, and the
    role map is the one of this record; and
    [load_paired_endpoints], called next, returns the same roles in the same
    order, each built from the address, the name and the identifier of the
    endpoint assigned. *)
Theorem pair_auto_persists_assignment (cfg : Config) (port : Z) paired_at rs
    e y assigned y' :
  pair_auto_from cfg port paired_at rs e y = (inr assigned, y') ->
  decide_roles cfg (as_responders rs) = inr assigned /\
  (let st := paired_record cfg port paired_at assigned
               (fst (STATE_load (store y))) in
   (exists mt, state_file (store y') = Some (mt, Some (VDict st))) /\
   ROLE_BY_IP (net y') = role_map_of st) /\
  forall e',
    exists loaded,
      fst (load_paired_endpoints e' y') = Some loaded /\
      dict_keys loaded = dict_keys assigned /\
      forall r ep, dict_get r assigned = Some ep ->
        exists args, dict_get r loaded = Some args /\
                     as_endpoint r args = Some ep.
Proof.
  unfold pair_auto_from. destruct rs as [|r0 rs0]; [done|].
  set (rs := r0 :: rs0).
  destruct (decide_roles cfg (as_responders rs)) as [err|a] eqn:Hd; [done|].
  unfold dbind.
  destruct (liftN (pair_lock cfg a) e y) as [[] y1] eqn:H1.
  rewrite save_paired_state_spec. cbn zeta. intros [= <- <-].
  apply liftN_frame in H1 as [_ Hst]. rewrite Hst.
  split; [done|]. split.
  { split; [by eexists | reflexivity]. }
  intros e'. eexists. split.
  { eapply load_paired_endpoints_saved. reflexivity. }
  apply decide_roles_shape in Hd as (m & bk & ax & ->).
  destruct bk as [b|], ax as [x|]; (split; [reflexivity|]);
    intros r ep Hget; cbn in Hget;
    repeat match type of Hget with
           | context [decide (?a = r)] => destruct (decide (a = r)) as [<-|?]
           end;
    try discriminate Hget; injection Hget as <-;
    eexists; (split; [reflexivity|]); reflexivity.
Qed.

Lemma pair_auto_persists_assignment_witness :
  decide_roles user_config
    (as_responders [("10.0.0.1", [("gala_main", "W1")]);
                    ("10.0.0.2", [("gala_backup", "B1")])]) =
  inr [("main", mkEndpoint "10.0.0.1" "main" "gala_main" "W1");
       ("backup", mkEndpoint "10.0.0.2" "backup" "gala_backup" "B1")].
Proof.
  refine (proj1 (pair_auto_persists_assignment user_config 53000 1700000000
                  [("10.0.0.1", [("gala_main", "W1")]);
                   ("10.0.0.2", [("gala_backup", "B1")])]
                  sample_env_silent sys_init
                  [("main", mkEndpoint "10.0.0.1" "main" "gala_main" "W1");
                   ("backup",
                    mkEndpoint "10.0.0.2" "backup" "gala_backup" "B1")]
                  (snd (pair_auto_from user_config 53000 1700000000
                          [("10.0.0.1", [("gala_main", "W1")]);
                           ("10.0.0.2", [("gala_backup", "B1")])]
                          sample_env_silent sys_init)) _)).
  vm_compute. reflexivity.
Defined.

(** ** Actions: pause and resume *)

Lemma send_role_spec eps suffix r e w :
  length (SENDW_q w) + length (action_message eps suffix r) <= 1000 ->
  snd (send_role eps suffix r e w) =
  set_SENDW_q (SENDW_q w ++ action_message eps suffix r) w.
Proof.
  unfold send_role, action_message.
  assert (Hid : set_SENDW_q (SENDW_q w ++ []) w = w)
    by (rewrite app_nil_r; by destruct w).
  destruct (dict_get r eps) as [ep|]; [|by rewrite Hid].
  destruct (usable_id ep) as [wsid|]; [|by rewrite Hid].
  cbn [length]. intros Hroom.
  unfold send_ws_fast, SENDW_send, modify, bind, ret. cbn [snd].
  assert (Hlt : (length (SENDW_q w) <? 1000)%nat = true)
    by (apply Nat.ltb_lt; lia).
  by rewrite Hlt.
Qed.

Lemma send_action_spec eps suffix e w :
  length (SENDW_q w) + 3 <= 1000 ->
  snd (send_action eps suffix e w) =
  set_SENDW_q (SENDW_q w ++ action_messages eps suffix) w.
Proof.
  intros Hroom.
  assert (Hlen : forall r, length (action_message eps suffix r) <= 1).
  { intros r. unfold action_message.
    destruct (dict_get r eps) as [ep|]; [|simpl; lia].
    destruct (usable_id ep); simpl; lia. }
  pose proof (Hlen "main") as Lm. pose proof (Hlen "backup") as Lb.
  pose proof (Hlen "aux") as La.
  unfold send_action, bind.
  pose proof (send_role_spec eps suffix "main" e w) as S1.
  destruct (send_role eps suffix "main" e w) as [[] w1].
  cbn [snd] in S1. rewrite S1 by lia. clear S1.
  pose proof (send_role_spec eps suffix "backup" e
                (set_SENDW_q (SENDW_q w ++ action_message eps suffix "main") w))
    as S2.
  destruct (send_role eps suffix "backup" e _) as [[] w2].
  cbn [snd] in S2. rewrite S2 by (cbn; rewrite length_app; lia). clear S2.
  rewrite send_role_spec by (cbn; rewrite !length_app; lia).
  cbn. unfold action_messages. by rewrite <- !app_assoc.
Qed.

(** X15. [pause_toggle] reads the pause flag of the record [STATE.load]
    returns, a missing flag counting as false.  It hands to the send worker,
    for every role among main, backup and aux, in this order, whose endpoint
    has a workspace identifier, the message [/workspace/<id>/pause], or
    [/workspace/<id>/resume] when the flag was set; it then saves the record
    with the flag flipped and every other key as it was.  Nothing else
    changes, the queue having room for three messages. *)
Theorem pause_toggle_flips (eps : dict string Endpoint) e y :
  length (SENDW_q (net y)) + 3 <= 1000 ->
  let st := fst (STATE_load (store y)) in
  let paused := truthy (default (VBool false) (dict_get "paused" st)) in
  let y' := snd (pause_toggle eps e y) in
  SENDW_q (net y') =
    SENDW_q (net y) ++
    action_messages eps (if paused then "resume" else "pause") /\
  net y' = set_SENDW_q (SENDW_q (net y')) (net y) /\
  globals y' = globals y /\
  (exists mt st',
     state_file (store y') = Some (mt, Some (VDict st')) /\
     dict_get "paused" st' = Some (VBool (negb paused)) /\
     forall k, k <> "paused" -> dict_get k st' = dict_get k st).
Proof.
  intros Hroom st paused y'. subst y'.
  unfold pause_toggle, dbind, STATE_load_d.
  destruct (STATE_load (store y)) as [st0 s1] eqn:Hload.
  cbn [fst] in st. subst st. fold paused.
  assert (Hsend : forall suffix,
            liftN (send_action eps suffix) e (set_store s1 y) =
            (tt, set_net (set_SENDW_q (SENDW_q (net y) ++
                                       action_messages eps suffix) (net y))
                   (set_store s1 y))).
  { intros suffix. unfold liftN. cbn [net set_store].
    pose proof (send_action_spec eps suffix e (net y) Hroom) as H.
    destruct (send_action eps suffix e (net y)) as [[] n]. cbn [snd] in H.
    by rewrite H. }
  destruct paused; rewrite Hsend; cbn.
  - repeat split; auto. eexists _, _. split; [reflexivity|].
    split; [apply dict_get_set_same|].
    intros k Hk. by apply dict_get_set_other.
  - repeat split; auto. eexists _, _. split; [reflexivity|].
    split; [apply dict_get_set_same|].
    intros k Hk. by apply dict_get_set_other.
Qed.

Lemma pause_toggle_flips_witness :
  SENDW_q (net (snd (pause_toggle
                       [("main", sample_endpoint)] sample_env_idle sample_sys)))
  = [("10.0.0.1", "/workspace/W1/pause", VList [])].
Proof.
  refine (proj1 (pause_toggle_flips [("main", sample_endpoint)]
                   sample_env_idle sample_sys _)).
  simpl. lia.
Defined.

(** ** Unpairing *)

Lemma dict_get_pop_same (k : string) (d : dict string value) :
  NoDup (dict_keys d) -> dict_get k (dict_pop k d) = None.
Proof.
  induction d as [|[k' v] d IH]; [done|].
  cbn [dict_keys map fst]. intros Hnd. apply NoDup_cons in Hnd as [Hnotin Hnd].
  cbn [dict_pop]. destruct (decide (k' = k)) as [->|Hne].
  - destruct (dict_get k d) as [v'|] eqn:Hg; [|done].
    exfalso. apply Hnotin. apply list_elem_of_In.
    apply dict_get_In in Hg. change k with (fst (k, v')). by apply in_map.
  - cbn [dict_get]. rewrite decide_False by done. by apply IH.
Qed.

Lemma dict_get_pop_other (k k' : string) (d : dict string value) :
  k <> k' -> dict_get k' (dict_pop k d) = dict_get k' d.
Proof.
  intros Hne. induction d as [|[k0 v] d IH]; [done|].
  cbn [dict_pop]. destruct (decide (k0 = k)) as [->|Hk0].
  - cbn [dict_get]. by rewrite decide_False.
  - cbn [dict_get]. destruct (decide (k0 = k')); [done | apply IH].
Qed.

Lemma dict_pop_NoDup (k : string) (d : dict string value) :
  NoDup (dict_keys d) -> NoDup (dict_keys (dict_pop k d)).
Proof.
  induction d as [|[k' v] d IH]; [done|].
  cbn [dict_keys map fst]. intros Hnd. apply NoDup_cons in Hnd as [Hnotin Hnd].
  cbn [dict_pop]. destruct (decide (k' = k)) as [->|Hne]; [done|].
  cbn [dict_keys map fst]. apply NoDup_cons. split; [|by apply IH].
  intros Hin. apply Hnotin.
  apply list_elem_of_In, in_map_iff in Hin as ([k1 v1] & Hk1 & Hin).
  simpl in Hk1. subst k1.
  apply list_elem_of_In. apply in_map_iff. exists (k', v1). split; [done|].
  clear -Hin. induction d as [|[k0 v0] d IH]; [done|].
  cbn [dict_pop] in Hin. destruct (decide (k0 = k)).
  - by right.
  - destruct Hin as [Heq|Hin]; [by left | right; by apply IH].
Qed.

Lemma unpaired_get (st : dict string value) k :
  NoDup (dict_keys st) ->
  dict_get k (unpaired st) =
  if bool_decide (k ∈ ["paired"; "endpoints"; "paused"]) then None
  else dict_get k st.
Proof.
  intros Hnd. unfold unpaired.
  pose proof (dict_pop_NoDup "paired" st Hnd) as Hnd1.
  pose proof (dict_pop_NoDup "endpoints" _ Hnd1) as Hnd2.
  destruct (decide (k = "paused")) as [->|H1].
  { rewrite bool_decide_eq_true_2 by (repeat constructor).
    by apply dict_get_pop_same. }
  rewrite dict_get_pop_other by done.
  destruct (decide (k = "endpoints")) as [->|H2].
  { rewrite bool_decide_eq_true_2 by (repeat constructor).
    by apply dict_get_pop_same. }
  rewrite dict_get_pop_other by done.
  destruct (decide (k = "paired")) as [->|H3].
  { rewrite bool_decide_eq_true_2 by (repeat constructor).
    by apply dict_get_pop_same. }
  rewrite dict_get_pop_other by done.
  rewrite bool_decide_eq_false_2; [done|].
  intros Hin. apply list_elem_of_In in Hin. simpl in Hin. intuition congruence.
Qed.

Lemma load_paired_endpoints_unpaired mt st s e y :
  store y = STATE_save mt st s -> truthy (vget "paired" st) = false ->
  fst (load_paired_endpoints e y) = None.
Proof.
  intros Hs Hp. unfold load_paired_endpoints, dbind, STATE_load_d.
  rewrite Hs, STATE_load_after_save. by rewrite Hp.
Qed.

(** X16. [force_unpair_state] purges the pairing and nothing else.  The
    record it saves is the one [STATE.load] returned without the keys
    [paired], [endpoints] and [paused], every other key keeping its value;
    the role map is empty afterwards, the two pairing flags are cleared, and
    [load_paired_endpoints], called next, raises.  (The record loaded is a
    dictionary: its keys are distinct.) *)
Theorem force_unpair_state_purges e (p : Panel) :
  let st := fst (STATE_load (store (sys p))) in
  let p' := snd (force_unpair_state e p) in
  NoDup (dict_keys st) ->
  (exists mt st',
     state_file (store (sys p')) = Some (mt, Some (VDict st')) /\
     forall k, dict_get k st' =
               if bool_decide (k ∈ ["paired"; "endpoints"; "paused"])
               then None else dict_get k st) /\
  ROLE_BY_IP (net (sys p')) = ∅ /\
  _PAIR_FATAL_FAIL p' = false /\ _PAIR_CONFLICT p' = false /\
  (forall e', fst (load_paired_endpoints e' (sys p')) = None).
Proof.
  intros st p' Hnd. subst p'.
  unfold force_unpair_state, pbind, liftD, STATE_load_d, STATE_save_d, liftN,
    refresh_role_map_from_state, modify, modifyP.
  destruct (STATE_load (store (sys p))) as [st0 s1] eqn:Hload.
  cbn [fst] in st. subst st. cbn -[load_paired_endpoints].
  split; [|split; [|split; [|split]]]; try done.
  - eexists _, _. split; [reflexivity|]. intros k. by apply unpaired_get.
  - unfold role_map_of. by rewrite unpaired_get.
  - intros e'. eapply load_paired_endpoints_unpaired; [reflexivity|].
    unfold vget. by rewrite unpaired_get.
Qed.

Lemma force_unpair_state_purges_witness :
  fst (load_paired_endpoints sample_env_idle
         (sys (snd (force_unpair_state sample_env_idle
                      (set_sys sample_sys (Panel_init (18 # 100))))))) = None.
Proof.
  refine (proj2 (proj2 (proj2 (proj2
            (force_unpair_state_purges sample_env_idle
               (set_sys sample_sys (Panel_init (18 # 100))) _))))
            sample_env_idle).
  vm_compute. repeat constructor; intros Hin; apply list_elem_of_In in Hin;
    simpl in Hin; intuition discriminate.
Defined.

(** ** Buttons: the edge guard *)

Lemma edge_guard_spec key min_dt e p b p' :
  edge_guard key min_dt e p = (b, p') ->
  let now := clock e (ticks (net (sys p))) in
  if b then
    (min_dt <= now - last_fire_of p key)%Q /\
    _last_fire p' = <[key := now]> (_last_fire p)
  else _last_fire p' = _last_fire p.
Proof.
  unfold edge_guard, pbind, liftD, liftN, mono, getP, modifyP, pret,
    last_fire_of. cbn.
  destruct (Qltb _ min_dt) eqn:Hlt; intros [= <- <-]; cbn; [done|].
  split; [|done]. by apply Qltb_false in Hlt.
Qed.

Lemma edge_guard_mono key min_dt e p b p' k :
  (0 <= min_dt)%Q ->
  edge_guard key min_dt e p = (b, p') ->
  (last_fire_of p k <= last_fire_of p' k)%Q.
Proof.
  intros Hpos H. apply edge_guard_spec in H. cbn zeta in H.
  unfold last_fire_of in *. destruct b.
  - destruct H as [Hgap ->].
    destruct (decide (key = k)) as [<-|Hne].
    + rewrite lookup_insert_eq. simpl. lra.
    + rewrite lookup_insert_ne by done. apply Qle_refl.
  - rewrite H. apply Qle_refl.
Qed.

Lemma edge_run_mono calls e p os p' k :
  Forall (fun c => (0 <= snd c)%Q) calls ->
  edge_run calls e p = (os, p') ->
  (last_fire_of p k <= last_fire_of p' k)%Q.
Proof.
  intros Hall. revert p os.
  induction Hall as [|[key dt] rest Hdt _ IH]; intros p os.
  - intros [= <- <-]. apply Qle_refl.
  - cbn [edge_run].
    destruct (edge_guard key dt e p) as [b p1] eqn:H1.
    destruct (edge_run rest e p1) as [os1 p2] eqn:H2.
    intros [= <- <-].
    apply Qle_trans with (last_fire_of p1 k).
    + by eapply edge_guard_mono.
    + by eapply IH.
Qed.

Lemma edge_run_accepted calls e p os p' i key dt t :
  Forall (fun c => (0 <= snd c)%Q) calls ->
  edge_run calls e p = (os, p') ->
  calls !! i = Some (key, dt) -> os !! i = Some (true, t) ->
  (dt <= t - last_fire_of p key)%Q.
Proof.
  intros Hall. revert p os i.
  induction Hall as [|[key0 dt0] rest Hdt _ IH]; intros p os i; [done|].
  cbn [edge_run].
  destruct (edge_guard key0 dt0 e p) as [b p1] eqn:H1.
  destruct (edge_run rest e p1) as [os1 p2] eqn:H2.
  intros [= <- <-]. destruct i as [|i]; simpl.
  - intros [= -> ->] [= -> <-]. by apply edge_guard_spec in H1 as [Hgap _].
  - intros Hc Ho. pose proof (IH _ _ _ H2 Hc Ho) as Hgap.
    pose proof (edge_guard_mono _ _ _ _ _ _ key Hdt H1). lra.
Qed.

(** X17. The edge guard spaces the presses it lets through.  In any
    sequence of calls of [edge_guard] with intervals that are not negative,
    two calls for the same key that both return [True] read clock values
    that are apart by the interval of the later call at least. *)
Theorem edge_guard_rate calls e p i j key dti dtj ti tj :
  Forall (fun c => (0 <= snd c)%Q) calls ->
  (i < j)%nat ->
  calls !! i = Some (key, dti) -> calls !! j = Some (key, dtj) ->
  fst (edge_run calls e p) !! i = Some (true, ti) ->
  fst (edge_run calls e p) !! j = Some (true, tj) ->
  (dtj <= tj - ti)%Q.
Proof.
  intros Hall. revert p i j.
  induction Hall as [|[key0 dt0] rest Hdt Hall IH]; intros p i j Hij Hi Hj;
    [done|].
  cbn [edge_run].
  destruct (edge_guard key0 dt0 e p) as [b p1] eqn:H1.
  destruct (edge_run rest e p1) as [os1 p2] eqn:H2. simpl.
  destruct j as [|j]; [lia|]. destruct i as [|i]; simpl in *.
  - injection Hi as -> ->. intros [= -> <-] Ho.
    pose proof (edge_run_accepted _ _ _ _ _ _ _ _ _ Hall H2 Hj Ho) as Hgap.
    apply edge_guard_spec in H1 as [_ Hset]. cbn zeta in Hset.
    unfold last_fire_of in Hgap. rewrite Hset, lookup_insert_eq in Hgap.
    exact Hgap.
  - intros Hoi Hoj. apply (IH p1 i j); [lia|done|done| |].
    + by rewrite H2.
    + by rewrite H2.
Qed.

Lemma edge_guard_rate_witness :
  fst (edge_run [("go", 2); ("go", 2); ("go", 2)]%Q
         (sample_env_reply []) (Panel_init (18 # 100))) =
  [(true, 100); (false, 101); (true, 102)]%Q /\
  (2 <= 102 - 100)%Q.
Proof.
  split; [vm_compute; reflexivity|].
  apply (edge_guard_rate [("go", 2); ("go", 2); ("go", 2)]%Q
           (sample_env_reply []) (Panel_init (18 # 100)) 0 2 "go" 2 2).
  - repeat constructor; simpl; discriminate.
  - lia.
  - reflexivity.
  - reflexivity.
  - vm_compute. reflexivity.
  - vm_compute. reflexivity.
Defined.

(** ** LED states: a role that is missing *)



(** ** The rotary encoder *)

(** X19. What lets a rotation through.  An iteration of the loop calls a
    callback exactly when the clock level has changed and the cooldown has
    passed since the last rotation let through; it then records the clock
    value read and the direction.  As long as [ENCODER_DIR_GLITCH_SEC] is
    not more than [ENCODER_EVENT_COOLDOWN], as the configured values are,
    the test for a reversed direction changes nothing: the iteration does
    the same for every such value. *)
Theorem encoder_step_cooldown_only (event_cooldown g g' : Q) clk dt enc e w :
  (g <= event_cooldown)%Q -> (g' <= event_cooldown)%Q ->
  let out := encoder_step event_cooldown g clk dt enc e w in
  let now := clock e (ticks w) in
  out = encoder_step event_cooldown g' clk dt enc e w /\
  (is_Some (fst (fst out)) <->
   clk <> last_clk enc /\ (event_cooldown <= now - _last_emit_mono enc)%Q) /\
  (is_Some (fst (fst out)) ->
   _last_emit_mono (snd (fst out)) = now /\
   _last_dir (snd (fst out)) = if (dt =? clk)%Z then (-1)%Z else 1%Z) /\
  (fst (fst out) = None ->
   _last_emit_mono (snd (fst out)) = _last_emit_mono enc /\
   _last_dir (snd (fst out)) = _last_dir enc) /\
  last_clk (snd (fst out)) = clk.
Proof.
  intros Hg Hg' out now. subst out.
  assert (Hidle : forall x,
            (x <= event_cooldown)%Q ->
            Qltb (now - _last_emit_mono enc) event_cooldown = false ->
            Qltb (now - _last_emit_mono enc) x = false).
  { intros x Hx Hs. apply Qltb_false in Hs. apply Qltb_intro_false. lra. }
  unfold encoder_step. destruct (Z.eqb_spec clk (last_clk enc)) as [Heq|Hne];
    cbn [negb].
  - unfold ret. cbn. split; [done|]. split.
    + split; [by intros [? [=]] | by intros [? _]].
    + split; [by intros [? [=]]|]. done.
  - unfold bind, mono, ret. fold now.
    destruct (Qltb (now - _last_emit_mono enc) event_cooldown) eqn:Hs;
      cbn [negb andb].
    + cbn. split; [done|]. split.
      * split; [by intros [? [=]]|]. intros [_ Hle].
        apply Qltb_true in Hs. lra.
      * split; [by intros [? [=]]|]. done.
    + rewrite (Hidle g Hg eq_refl), (Hidle g' Hg' eq_refl).
      rewrite !andb_false_r. cbn [negb andb fst snd].
      split; [done|]. split.
      * split; [|by eexists]. intros _. split; [done|].
        by apply Qltb_false in Hs.
      * split; [|split; [by intros [=]|done]].
        intros _. cbn. split; [done|]. by destruct (dt =? clk)%Z.
Qed.

Lemma encoder_step_cooldown_only_witness :
  encoder_step (12 # 100) (3 # 100) 1 0
    {| last_clk := 0; _last_emit_mono := 0; _last_dir := (-1) |}
    (sample_env_reply []) Net_init =
  encoder_step (12 # 100) 0 1 0
    {| last_clk := 0; _last_emit_mono := 0; _last_dir := (-1) |}
    (sample_env_reply []) Net_init.
Proof.
  refine (proj1 (encoder_step_cooldown_only (12 # 100) (3 # 100) 0 1 0
                   {| last_clk := 0; _last_emit_mono := 0;
                      _last_dir := (-1) |}
                   (sample_env_reply []) Net_init _ _)).
  - vm_compute. discriminate.
  - vm_compute. discriminate.
Defined.

(** ** Liveness of an endpoint *)

Lemma Qmax_zero_pos (ts : Q) : (0 < ts)%Q -> Qmax 0 ts = ts.
Proof.
  intros H. unfold Qmax, GenericMinMax.gmax.
  assert (Hc : (0 ?= ts)%Q = Lt) by (by apply Qlt_alt).
  by rewrite Hc.
Qed.

Lemma Qmax_zero_neg (ts : Q) : (ts < 0)%Q -> Qmax 0 ts = 0%Q.
Proof.
  intros H. unfold Qmax, GenericMinMax.gmax.
  assert (Hc : (0 ?= ts)%Q = Gt) by (by apply Qgt_alt).
  by rewrite Hc.
Qed.

(** X20. An endpoint is online exactly while its address has answered less
    than eight seconds ago.  For an endpoint as [load_paired_endpoints]
    builds it, whose last-seen time is 0, after [_inject_last_seen] the
    property [online] holds if and only if a positive last-seen time [ts] is
    on record for its address and the clock value read is less than
    [ts + 8]: an address that has never answered is offline.  The clock is
    read only when such a time is on record. *)
Theorem online_after_inject (ep : Endpoint) e w :
  last_seen_mono ep = 0%Q ->
  let ep' := inject_one (LAST_SEEN_BY_IP w) ep in
  let out := online ep' e w in
  (fst out = true <->
   exists ts, LAST_SEEN_BY_IP w !! ip ep = Some ts /\ (0 < ts)%Q /\
              (clock e (ticks w) - ts < OFFLINE_AFTER)%Q) /\
  (ticks (snd out) = ticks w \/
   exists ts, LAST_SEEN_BY_IP w !! ip ep = Some ts /\ (0 < ts)%Q) /\
  ip ep' = ip ep /\ workspace_id ep' = workspace_id ep /\
  workspace_name ep' = workspace_name ep.
Proof.
  intros Hfresh ep' out. subst out ep'. unfold inject_one.
  destruct (LAST_SEEN_BY_IP w !! ip ep) as [ts|] eqn:Hseen.
  - destruct (Qeq_bool ts 0) eqn:Hz; cbn [negb].
    + apply Qeq_bool_iff in Hz. unfold online. rewrite Hfresh.
      change (Qltb 0 0) with false. cbn. split.
      * split; [done|]. intros (ts' & [= <-] & Hpos & _). lra.
      * split; [by left|done].
    + assert (Hnz : ~ (ts == 0)%Q).
      { intros H. apply Qeq_bool_iff in H. congruence. }
      unfold online, with_last_seen. cbn [last_seen_mono ip workspace_id
                                            workspace_name].
      rewrite Hfresh.
      destruct (Qlt_le_dec 0 ts) as [Hpos|Hneg].
      * rewrite (Qmax_zero_pos ts Hpos), (Qltb_intro_true 0 ts Hpos).
        unfold bind, mono, ret. cbn [fst snd]. split.
        -- split.
           ++ intros Hon. exists ts. split; [done|]. split; [done|].
              by apply Qltb_true.
           ++ intros (ts' & [= <-] & _ & Hlt). by apply Qltb_intro_true.
        -- split; [right; by exists ts | done].
      * assert (Hlt : (ts < 0)%Q).
        { apply Qle_lteq in Hneg as [H|H]; [done|]. by destruct Hnz. }
        rewrite (Qmax_zero_neg ts Hlt). change (Qltb 0 0) with false.
        cbn. split.
        -- split; [done|]. intros (ts' & [= <-] & Hpos & _). lra.
        -- split; [by left|done].
  - unfold online. rewrite Hfresh. change (Qltb 0 0) with false. cbn. split.
    + split; [done|]. by intros (ts' & [=] & _).
    + split; [by left|done].
Qed.

Lemma online_after_inject_witness :
  fst (online (inject_one (<["10.0.0.1" := 95%Q]> ∅) sample_endpoint)
         (sample_env_reply []) Net_init) = true.
Proof.
  pose proof (online_after_inject sample_endpoint (sample_env_reply [])
                (set_LAST_SEEN_BY_IP (<["10.0.0.1" := 95%Q]> ∅) Net_init)
                eq_refl) as H.
  cbn zeta in H. apply (proj2 (proj1 H)).
  exists 95%Q. split; [reflexivity|]. split; vm_compute; reflexivity.
Defined.

(** ** Connecting to a workspace *)

(** X21. How [connect_endpoint] ends.  Without a workspace identifier it
    returns [False] and does nothing.  Otherwise it leaves no waiter behind;
    it returns [True] only after recording the clock value it read last as
    the last-seen time of the address of the endpoint; and when the other
    threads take no step while it waits, it returns [False], having handed
    to the send worker nothing but the connect message, with the passcode
    when one is configured. *)
Theorem connect_endpoint_outcome (cfg : Config) (ep : Endpoint) e w :
  let out := connect_endpoint cfg ep e w in
  (usable_id ep = None -> out = (false, w)) /\
  (forall wsid, usable_id ep = Some wsid ->
     let key := ("connect:" ++ ip ep ++ ":" ++ wsid)%string in
     _events (snd out) !! key = None /\ _payloads (snd out) !! key = None /\
     (fst out = true ->
      exists n, ticks (snd out) = S n /\
                LAST_SEEN_BY_IP (snd out) !! ip ep = Some (clock e n)) /\
     (background e (waits w) = [] ->
      fst out = false /\
      SENDW_q (snd out) =
      if (length (SENDW_q w) <? 1000)%nat
      then SENDW_q w ++
           [(ip ep, ws_path wsid "connect",
             if String.eqb (OSC_PASSCODE cfg) "" then VList []
             else VStr (OSC_PASSCODE cfg))]
      else SENDW_q w)).
Proof.
  intros out. subst out. unfold connect_endpoint.
  destruct (usable_id ep) as [wsid|]; [|by split].
  split; [done|]. intros wsid' [= <-].
  set (key := ("connect:" ++ ip ep ++ ":" ++ wsid)%string).
  unfold bind.
  destruct (WAITERS_arm key e w) as [[] w1] eqn:H1.
  unfold WAITERS_arm, modify in H1. injection H1 as <-.
  set (arg := if String.eqb (OSC_PASSCODE cfg) "" then VList []
              else VStr (OSC_PASSCODE cfg)).
  set (w1 := set__payloads (delete key (_payloads w))
               (set__events (<[key := false]> (_events w)) w)).
  assert (Hsend : (if String.eqb (OSC_PASSCODE cfg) ""
                   then send_ws (ip ep) wsid "connect" []
                   else send_ws (ip ep) wsid "connect"
                          [VStr (OSC_PASSCODE cfg)]) e w1 =
                  (ws_path wsid "connect",
                   if (length (SENDW_q w) <? 1000)%nat
                   then set_SENDW_q
                          (SENDW_q w ++ [(ip ep, ws_path wsid "connect", arg)])
                          w1
                   else w1)).
  { unfold arg. destruct (String.eqb (OSC_PASSCODE cfg) "");
      unfold send_ws, SENDW_send, modify, bind, ret; cbn;
      by destruct (length (SENDW_q w) <? 1000)%nat. }
  rewrite Hsend. clear Hsend.
  set (w2 := if (length (SENDW_q w) <? 1000)%nat then _ else _).
  assert (Hw2 : _events w2 !! key = Some false /\ waits w2 = waits w /\
                SENDW_q w2 =
                if (length (SENDW_q w) <? 1000)%nat
                then SENDW_q w ++ [(ip ep, ws_path wsid "connect", arg)]
                else SENDW_q w).
  { unfold w2, w1. destruct (length (SENDW_q w) <? 1000)%nat; cbn;
      by rewrite lookup_insert_eq. }
  destruct Hw2 as (Hev & Hwaits & Hq).
  destruct (Event_wait key e w2) as [woken w3] eqn:Hwait.
  assert (Hidle : background e (waits w) = [] -> woken = false /\ w3 =
                    set_waits (S (waits w)) w2).
  { intros Hbg. unfold Event_wait, bind, ask, get, modify, ret in Hwait.
    cbn [fst snd] in Hwait. rewrite Hwaits, Hbg in Hwait.
    cbn [bg_run_all] in Hwait. unfold ret in Hwait.
    injection Hwait as <- <-.
    change (_events (set_waits (S (waits w)) w2)) with (_events w2).
    by rewrite Hev. }
  destruct woken; cbn [negb].
  - unfold WAITERS_pop, get, modify, ret, bind. cbn [fst snd].
    assert (Hclean : forall b : bool,
              b = false ->
              let w4 := set__payloads (delete key (_payloads w3))
                          (set__events (delete key (_events w3)) w3) in
              _events (b, w4).2 !! key = None /\
              _payloads (b, w4).2 !! key = None /\
              ((b, w4).1 = true ->
               exists n, ticks (b, w4).2 = S n /\
                         LAST_SEEN_BY_IP (b, w4).2 !! ip ep =
                         Some (clock e n)) /\
              (background e (waits w) = [] ->
               (b, w4).1 = false /\
               SENDW_q (b, w4).2 =
               if (length (SENDW_q w) <? 1000)%nat
               then SENDW_q w ++ [(ip ep, ws_path wsid "connect", arg)]
               else SENDW_q w)).
    { intros b -> w4. cbn [fst snd]. unfold w4.
      cbn [_events _payloads set__payloads set__events].
      rewrite !lookup_delete_eq.
      split; [done|]. split; [done|]. split; [by intros [=]|].
      intros Hbg. by destruct (Hidle Hbg). }
    destruct (_payloads w3 !! key) as [pl|]; [|by apply Hclean].
    destruct pl as [| | | | |d]; try by apply Hclean.
    destruct (eq_str (vget "status" d) "ok"); [|by apply Hclean].
    unfold mark_seen, mono, modify, bind, ret. cbn [fst snd].
    cbn [_events _payloads ticks LAST_SEEN_BY_IP set__payloads set__events
         set_LAST_SEEN_BY_IP set_ticks].
    rewrite !lookup_delete_eq, lookup_insert_eq.
    split; [done|]. split; [done|]. split; [intros _; by eexists|].
    intros Hbg. by destruct (Hidle Hbg).
  - unfold WAITERS_cleanup, modify, ret, bind. cbn [fst snd].
    cbn [_events _payloads SENDW_q set__payloads set__events].
    rewrite !lookup_delete_eq.
    split; [done|]. split; [done|]. split; [by intros [=]|].
    intros Hbg. destruct (Hidle Hbg) as [_ ->]. split; [done|]. exact Hq.
Qed.

Lemma connect_endpoint_outcome_witness :
  fst (connect_endpoint user_config sample_endpoint sample_env_idle Net_init) =
  false /\
  SENDW_q (snd (connect_endpoint user_config sample_endpoint sample_env_idle
                  Net_init)) =
  [("10.0.0.1", "/workspace/W1/connect", VStr "7777")].
Proof.
  refine (proj2 (proj2 (proj2
            (proj2 (connect_endpoint_outcome user_config sample_endpoint
                      sample_env_idle Net_init) "W1" _))) _);
    reflexivity.
Defined.

(** ** The state manager *)

(** X22. What [StateManager.load] returns.  Right after [save] it returns
    the record saved, from the cache, and leaves the manager as it is.
    Loading twice is loading once.  And whenever the modification time of
    the file differs from the one the manager remembers (a missing file
    counting as -1), the file is read again: the record returned is the
    object the file decodes to, and the empty record when the file is
    missing, cannot be decoded or decodes to something else. *)
Theorem state_manager_load (s : Store) :
  (forall mt st, STATE_load (STATE_save mt st s) = (st, STATE_save mt st s)) /\
  STATE_load (snd (STATE_load s)) = STATE_load s /\
  (Qeq_bool (match state_file s with Some (m, _) => m | None => (-1)%Q end)
            (_mtime s) = false ->
   fst (STATE_load s) =
   match state_file s with
   | Some (_, Some (VDict x)) => x
   | _ => []
   end).
Proof.
  split; [|split].
  - intros mt st. unfold STATE_load, STATE_save. cbn.
    assert (H : Qeq_bool mt mt = true) by (apply Qeq_bool_iff; reflexivity).
    by rewrite H.
  - unfold STATE_load.
    destruct (Qeq_bool _ (_mtime s)) eqn:Hm; cbn [negb].
    + cbn [snd]. by rewrite Hm.
    + cbn [snd state_file set__mtime set__cache _mtime _cache].
      set (m := match state_file s with Some (m, _) => m | None => (-1)%Q end).
      assert (H : Qeq_bool m m = true) by (apply Qeq_bool_iff; reflexivity).
      by rewrite H.
  - intros Hm. unfold STATE_load. rewrite Hm. reflexivity.
Qed.

Lemma state_manager_load_witness :
  fst (STATE_load (store sample_sys)) = sample_record.
Proof.
  refine (proj2 (proj2 (state_manager_load (store sample_sys))) _).
  reflexivity.
Defined.

(** ** Keeping the connection: what is sent *)

Lemma osc_handler_sendw client address args e w :
  SENDW_q (snd (_osc_handler client address args e w)) = SENDW_q w /\
  wire (snd (_osc_handler client address args e w)) = wire w /\
  connect_last (snd (_osc_handler client address args e w)) = connect_last w.
Proof.
  assert (Hr : forall src j, handler_frame src w (snd (route src address j e w)))
    by (intros; apply route_frame).
  unfold _osc_handler.
  destruct (head args) as [[payload|payload|]|]; try done.
  - destruct (200000 <? N.of_nat (String.length payload))%N; [done|].
    unfold bind, ask.
    destruct (json_loads e payload) as [[| | | | |j]|]; try done.
    by destruct (Hr (default "0.0.0.0" client) j) as (? & ? & _ & _ & ? & _).
  - destruct (200000 <? N.of_nat (String.length payload))%N; [done|].
    unfold bind, ask.
    destruct (json_loads e payload) as [[| | | | |j]|]; try done.
    by destruct (Hr (default "0.0.0.0" client) j) as (? & ? & _ & _ & ? & _).
Qed.

Lemma bg_run_all_handed steps e w :
  handed (snd (bg_run_all steps e w)) = handed w /\
  length (SENDW_q (snd (bg_run_all steps e w))) <= length (SENDW_q w) /\
  connect_last (snd (bg_run_all steps e w)) = connect_last w.
Proof.
  revert w. induction steps as [|s steps IH]; intros w; [done|].
  cbn [bg_run_all]. unfold bind.
  destruct (bg_run s e w) as [[] w1] eqn:H1.
  destruct (IH w1) as (Hh & Hl & Hc). rewrite Hh, Hc.
  assert (H : handed w1 = handed w /\
              length (SENDW_q w1) <= length (SENDW_q w) /\
              connect_last w1 = connect_last w).
  { destruct s as [c a args|]; cbn [bg_run] in H1.
    - pose proof (osc_handler_sendw c a args e w) as (Hq & Hw & Hcl).
      rewrite H1 in Hq, Hw, Hcl. cbn [snd] in Hq, Hw, Hcl. unfold handed.
      by rewrite Hq, Hw, Hcl.
    - unfold SENDW_run_once, modify in H1. injection H1 as <-.
      unfold handed. destruct (SENDW_q w) as [|m q] eqn:Hq.
      + rewrite Hq. split; [done|]. split; [lia|done].
      + cbn. rewrite <- app_assoc. split; [done|]. split; [lia|done]. }
  destruct H as (-> & Hl1 & ->). split; [done|]. split; [lia|done].
Qed.

Lemma Event_wait_handed key e w :
  handed (snd (Event_wait key e w)) = handed w /\
  length (SENDW_q (snd (Event_wait key e w))) <= length (SENDW_q w) /\
  connect_last (snd (Event_wait key e w)) = connect_last w.
Proof.
  unfold Event_wait, bind, ask, get, modify, ret. cbn [fst snd].
  pose proof (bg_run_all_handed (background e (waits w)) e
                (set_waits (S (waits w)) w)) as H.
  destruct (bg_run_all _ e (set_waits (S (waits w)) w)) as [[] w1].
  exact H.
Qed.

Lemma send_ws_room addr wsid suffix args e w :
  length (SENDW_q w) < 1000 ->
  send_ws addr wsid suffix args e w =
  (ws_path wsid suffix,
   set_SENDW_q (SENDW_q w ++ [(addr, ws_path wsid suffix, send_arg args)]) w).
Proof.
  intros H. unfold send_ws, SENDW_send, modify, bind, ret.
  apply Nat.ltb_lt in H. by rewrite H.
Qed.

Lemma connect_endpoint_handed cfg ep wsid e w :
  usable_id ep = Some wsid -> length (SENDW_q w) < 1000 ->
  handed (snd (connect_endpoint cfg ep e w)) =
  handed w ++ [connect_message cfg ep wsid] /\
  length (SENDW_q (snd (connect_endpoint cfg ep e w))) <= S (length (SENDW_q w)) /\
  connect_last (snd (connect_endpoint cfg ep e w)) = connect_last w.
Proof.
  intros Hid Hroom. unfold connect_endpoint. rewrite Hid.
  set (key := ("connect:" ++ ip ep ++ ":" ++ wsid)%string).
  unfold bind.
  destruct (WAITERS_arm key e w) as [[] w1] eqn:H1.
  unfold WAITERS_arm, modify in H1. injection H1 as <-.
  set (w1 := set__payloads (delete key (_payloads w))
               (set__events (<[key := false]> (_events w)) w)).
  assert (Hsend : exists full w2,
            (if String.eqb (OSC_PASSCODE cfg) ""
             then send_ws (ip ep) wsid "connect" []
             else send_ws (ip ep) wsid "connect" [VStr (OSC_PASSCODE cfg)])
              e w1 = (full, w2) /\
            handed w2 = handed w ++ [connect_message cfg ep wsid] /\
            length (SENDW_q w2) = S (length (SENDW_q w)) /\
            connect_last w2 = connect_last w).
  { assert (Hany : forall args,
              send_arg args =
              (if String.eqb (OSC_PASSCODE cfg) "" then VList []
               else VStr (OSC_PASSCODE cfg)) ->
              exists full w2,
                send_ws (ip ep) wsid "connect" args e w1 = (full, w2) /\
                handed w2 = handed w ++ [connect_message cfg ep wsid] /\
                length (SENDW_q w2) = S (length (SENDW_q w)) /\
                connect_last w2 = connect_last w).
    { intros args Harg. rewrite send_ws_room by done. eexists _, _.
      split; [reflexivity|]. unfold handed, connect_message. rewrite Harg.
      cbn [wire SENDW_q connect_last set_SENDW_q w1 set__payloads set__events].
      rewrite length_app, app_assoc. split; [done|].
      split; [simpl; lia | done]. }
    destruct (String.eqb (OSC_PASSCODE cfg) "") eqn:Hp.
    - apply Hany. reflexivity.
    - apply Hany. reflexivity. }
  destruct Hsend as (full & w2 & -> & Hh2 & Hl2 & Hc2).
  pose proof (Event_wait_handed key e w2) as (Hh3 & Hl3 & Hc3).
  destruct (Event_wait key e w2) as [woken w3]. cbn [snd] in Hh3, Hl3, Hc3.
  rewrite <- Hh2, <- Hh3, <- Hl2, <- Hc2, <- Hc3.
  destruct woken; cbn [negb].
  - unfold WAITERS_pop, get, modify, ret, bind. cbn [fst snd].
    destruct (_payloads w3 !! key) as [[| | | | |d]|]; try (repeat split; done).
    destruct (eq_str (vget "status" d) "ok"); repeat split; done.
  - unfold WAITERS_cleanup, modify, ret, bind. repeat split; done.
Qed.

Lemma send_app_room addr path args e w :
  length (SENDW_q w) < 1000 ->
  send_app addr path args e w =
  (tt, set_SENDW_q (SENDW_q w ++ [(addr, path, send_arg args)]) w).
Proof.
  intros H. unfold send_app, SENDW_send, modify.
  apply Nat.ltb_lt in H. by rewrite H.
Qed.

Lemma ensure_app_flags_forced cfg addr e w :
  length (SENDW_q w) + 3 <= 1000 ->
  handed (snd (ensure_app_flags cfg addr true e w)) =
  handed w ++ flag_messages cfg addr /\
  length (SENDW_q (snd (ensure_app_flags cfg addr true e w))) =
  length (SENDW_q w) + 3 /\
  connect_last (snd (ensure_app_flags cfg addr true e w)) = connect_last w.
Proof.
  intros Hroom. unfold ensure_app_flags, bind, mono, get, modify.
  cbn [negb andb fst snd].
  rewrite send_app_room by (cbn [SENDW_q set_flags_last set_ticks]; lia).
  rewrite send_app_room
    by (cbn [SENDW_q set_SENDW_q]; rewrite length_app; simpl; lia).
  rewrite send_app_room
    by (cbn [SENDW_q set_SENDW_q]; rewrite !length_app; simpl; lia).
  unfold handed, flag_messages.
  cbn [snd wire SENDW_q connect_last set_SENDW_q set_flags_last set_ticks
       send_arg].
  rewrite !length_app. cbn [length]. rewrite <- !app_assoc. cbn [app].
  split; [done|]. split; [lia|done].
Qed.

Lemma ensure_connected_unfold cfg ep wsid force e w :
  usable_id ep = Some wsid ->
  ensure_connected cfg ep force e w =
  let now := clock e (ticks w) in
  if negb force &&
     Qltb (now - default 0%Q (connect_last w !! ip ep)) CONNECT_REFRESH_EVERY
  then (tt, set_ticks (S (ticks w)) w)
  else
    let w1 := set_connect_last (<[ip ep := now]> (connect_last w))
                (set_ticks (S (ticks w)) w) in
    let '(connected, w2) := connect_endpoint cfg ep e w1 in
    if connected then (tt, w2)
    else
      let '(_, w3) := ensure_app_flags cfg (ip ep) true e w2 in
      let '(_, w4) := connect_endpoint cfg ep e w3 in
      (tt, w4).
Proof.
  intros Hid. unfold ensure_connected. rewrite Hid.
  unfold bind, mono, get, modify, ret. cbn [connect_last set_ticks].
  destruct (negb force && Qltb _ CONNECT_REFRESH_EVERY); [done|].
  cbn zeta.
  destruct (connect_endpoint cfg ep e _) as [[] w2]; [done|].
  destruct (ensure_app_flags cfg (ip ep) true e w2) as [[] w3].
  by destruct (connect_endpoint cfg ep e w3) as [c4 w4].
Qed.

(** X23. What [ensure_connected] sends.  For an endpoint with a workspace
    identifier, the queue having room for five messages: a call that is not
    forced and comes less than six seconds after the last attempt for the
    address only reads the clock.  Any other call files the clock value as
    the time of the last attempt and hands to the send worker either the
    connect message alone, or the connect message, the three application
    flags and the connect message again: the connection is tried twice at
    most, the flags being sent again in between. *)
Theorem ensure_connected_attempts (cfg : Config) (ep : Endpoint) wsid force
    e w :
  usable_id ep = Some wsid -> length (SENDW_q w) + 5 <= 1000 ->
  let now := clock e (ticks w) in
  let w' := snd (ensure_connected cfg ep force e w) in
  if negb force &&
     Qltb (now - default 0%Q (connect_last w !! ip ep)) CONNECT_REFRESH_EVERY
  then w' = set_ticks (S (ticks w)) w
  else
    connect_last w' !! ip ep = Some now /\
    (handed w' = handed w ++ [connect_message cfg ep wsid] \/
     handed w' =
     handed w ++ [connect_message cfg ep wsid] ++ flag_messages cfg (ip ep) ++
     [connect_message cfg ep wsid]).
Proof.
  intros Hid Hroom now w'. subst w'.
  rewrite (ensure_connected_unfold cfg ep wsid force e w Hid).
  cbn zeta. fold now.
  destruct (negb force && Qltb _ CONNECT_REFRESH_EVERY); [done|].
  set (w1 := set_connect_last (<[ip ep := now]> (connect_last w))
               (set_ticks (S (ticks w)) w)).
  assert (Hw1 : handed w1 = handed w /\ SENDW_q w1 = SENDW_q w /\
                connect_last w1 !! ip ep = Some now).
  { unfold w1, handed. cbn. by rewrite lookup_insert_eq. }
  destruct Hw1 as (Hh1 & Hq1 & Hc1).
  pose proof (connect_endpoint_handed cfg ep wsid e w1 Hid) as Hconn.
  destruct (connect_endpoint cfg ep e w1) as [connected w2].
  cbn [snd] in Hconn.
  destruct Hconn as (Hh2 & Hl2 & Hc2); [rewrite Hq1; lia|].
  rewrite Hq1 in Hl2.
  destruct connected; cbn [snd].
  - split; [by rewrite Hc2|]. left. by rewrite Hh2, Hh1.
  - pose proof (ensure_app_flags_forced cfg (ip ep) e w2) as Hfl.
    destruct (ensure_app_flags cfg (ip ep) true e w2) as [[] w3].
    cbn [snd] in Hfl.
    destruct Hfl as (Hh3 & Hl3 & Hc3); [lia|].
    pose proof (connect_endpoint_handed cfg ep wsid e w3 Hid) as Hconn2.
    destruct (connect_endpoint cfg ep e w3) as [connected2 w4].
    cbn [snd] in Hconn2.
    destruct Hconn2 as (Hh4 & _ & Hc4); [lia|].
    cbn [snd]. split; [by rewrite Hc4, Hc3, Hc2|]. right.
    rewrite Hh4, Hh3, Hh2, Hh1. by rewrite <- !app_assoc.
Qed.

Lemma ensure_connected_attempts_witness :
  let w' := snd (ensure_connected user_config sample_endpoint true
                   sample_env_idle Net_init) in
  connect_last w' !! "10.0.0.1" = Some 0%Q /\
  (handed w' = handed Net_init ++
               [connect_message user_config sample_endpoint "W1"] \/
   handed w' =
   handed Net_init ++ [connect_message user_config sample_endpoint "W1"] ++
   flag_messages user_config "10.0.0.1" ++
   [connect_message user_config sample_endpoint "W1"]).
Proof.
  refine (ensure_connected_attempts user_config sample_endpoint "W1" true
            sample_env_idle Net_init _ _).
  - reflexivity.
  - simpl. lia.
Defined.

(** ** The address of a workspace message *)

Lemma replace_from_no_double_slash (s : string) :
  no_double_slash s = true -> replace_from "//" "/" 0 s = s.
Proof.
  induction s as [|c s IH]; [done|].
  cbn [no_double_slash]. intros H. apply andb_true_iff in H as [Hp Hs].
  apply negb_true_iff in Hp. cbn [replace_from]. rewrite Hp.
  by rewrite IH.
Qed.

Lemma no_double_slash_cons (c : ascii) (s : string) :
  no_double_slash (String c s) =
  negb (String.prefix "//" (String c s)) && no_double_slash s.
Proof. reflexivity. Qed.

Lemma no_double_slash_app_no_slash (a b : string) :
  no_slash a = true -> no_double_slash b = true ->
  no_double_slash (a ++ b)%string = true.
Proof.
  intros Ha Hb. induction a as [|c a IH]; [done|].
  cbn [no_slash] in Ha. apply andb_true_iff in Ha as [Hc Ha].
  change (String c a ++ b)%string with (String c (a ++ b)%string).
  cbn [no_double_slash]. rewrite IH by done. rewrite andb_true_r.
  apply negb_true_iff in Hc. apply negb_true_iff.
  cbn [String.prefix]. destruct (ascii_dec "/" c) as [<-|Hne]; [|done].
  discriminate Hc.
Qed.

(** X24. The address of a message to a workspace.  For an identifier that
    is not empty and holds no slash, and a suffix that does not start with
    a slash and holds no two slashes in a row, the address is
    [/workspace/<id>/<suffix>], character for character: replacing [//] by
    [/] changes nothing. *)
Theorem ws_path_plain (wsid suffix : string) :
  wsid <> "" -> no_slash wsid = true ->
  no_leading_slash suffix = true -> no_double_slash suffix = true ->
  ws_path wsid suffix = ("/workspace/" ++ wsid ++ "/" ++ suffix)%string.
Proof.
  intros Hne Hws Hlead Hsuf. unfold ws_path, replace.
  apply replace_from_no_double_slash.
  assert (Htail : no_double_slash (wsid ++ "/" ++ suffix)%string = true).
  { apply no_double_slash_app_no_slash; [done|].
    change ("/" ++ suffix)%string with (String "/" suffix).
    cbn [no_double_slash]. rewrite Hsuf, andb_true_r.
    unfold no_leading_slash in Hlead. apply negb_true_iff in Hlead.
    apply negb_true_iff. destruct suffix as [|c suffix]; [done|].
    cbn [String.prefix] in *. destruct (ascii_dec "/" "/"); [|done].
    destruct (ascii_dec "/" c); [|done]. by destruct suffix. }
  destruct wsid as [|c wsid]; [done|].
  cbn [no_slash] in Hws. apply andb_true_iff in Hws as [Hc _].
  apply negb_true_iff in Hc.
  change (String c wsid ++ ?x)%string with (String c (wsid ++ x)%string)
    in *.
  change ("/workspace/" ++ String c ?x)%string
    with (String "/" (String "w" (String "o" (String "r" (String "k"
           (String "s" (String "p" (String "a" (String "c" (String "e"
           (String "/" (String c x)))))))))))).
  do 11 rewrite no_double_slash_cons. rewrite Htail.
  cbn [String.prefix].
  destruct (ascii_dec "/" c) as [<-|Hnc]; [discriminate Hc|]. reflexivity.
Qed.

Lemma ws_path_plain_witness :
  ws_path "W1" "select/next" = "/workspace/W1/select/next".
Proof.
  apply (ws_path_plain "W1" "select/next"); [discriminate | reflexivity..].
Defined.

(** ** Discovery: the responders *)

Section SortByIp.
Context {V : Type}.
Implicit Types (x : string * V) (l : list (string * V)).

Lemma insert_by_ip_Permutation x l : insert_by_ip x l ≡ₚ x :: l.
Proof.
  induction l as [|y l IH]; simpl; [done|].
  destruct (String.leb (fst x) (fst y)); [done|]. rewrite IH. apply perm_swap.
Qed.

Lemma sort_by_ip_Permutation l : sort_by_ip l ≡ₚ l.
Proof.
  induction l as [|x l IH]; simpl; [done|].
  by rewrite insert_by_ip_Permutation, IH.
Qed.

Lemma insert_by_ip_sorted x l :
  StronglySorted (fun a b => String.leb (fst a) (fst b) = true) l ->
  StronglySorted (fun a b => String.leb (fst a) (fst b) = true)
    (insert_by_ip x l).
Proof.
  induction l as [|y l IH]; simpl; intros Hs.
  - repeat constructor.
  - apply StronglySorted_inv in Hs as [Hs Hall].
    destruct (String.leb (fst x) (fst y)) eqn:Hxy.
    + constructor; [by constructor|]. constructor; [done|].
      eapply Forall_impl; [exact Hall|]. simpl. intros z Hz.
      by apply (string_leb_trans _ (fst y)).
    + constructor; [by apply IH|].
      rewrite insert_by_ip_Permutation. constructor; [|done].
      destruct (String.leb_total (fst x) (fst y)) as [Hc|Hc]; congruence.
Qed.

Lemma sort_by_ip_sorted l :
  StronglySorted (fun a b => String.leb (fst a) (fst b) = true) (sort_by_ip l).
Proof.
  induction l as [|x l IH]; simpl; [constructor|].
  by apply insert_by_ip_sorted.
Qed.

Lemma sort_by_ip_get l a :
  NoDup (dict_keys l) -> dict_get a (sort_by_ip l) = dict_get a l.
Proof.
  intros Hnd.
  assert (Hnd' : NoDup (dict_keys (sort_by_ip l))).
  { unfold dict_keys.
    assert (Hp : map fst (sort_by_ip l) ≡ₚ map fst l)
      by (apply Permutation_map, sort_by_ip_Permutation).
    by rewrite Hp. }
  destruct (dict_get a l) as [v|] eqn:Hg.
  - apply dict_In_get; [done|].
    eapply Permutation_in; [symmetry; apply sort_by_ip_Permutation|].
    by apply dict_get_In.
  - destruct (dict_get a (sort_by_ip l)) as [v|] eqn:Hg'; [|done].
    apply dict_get_In in Hg'.
    eapply Permutation_in in Hg'; [|apply sort_by_ip_Permutation].
    apply (dict_In_get _ _ _ Hnd) in Hg'. congruence.
Qed.

Lemma fold_dict_set_get l (m : dict string V) a :
  NoDup (dict_keys l) ->
  dict_get a (fold_left (fun m r => dict_set (fst r) (snd r) m) l m) =
  match dict_get a l with Some v => Some v | None => dict_get a m end.
Proof.
  revert m. induction l as [|[k v] l IH]; intros m Hnd; [done|].
  cbn [dict_keys map fst] in Hnd. apply NoDup_cons in Hnd as [Hnotin Hnd].
  cbn [fold_left fst snd]. rewrite IH by done. cbn [dict_get].
  destruct (decide (k = a)) as [->|Hne].
  - destruct (dict_get a l) as [v'|] eqn:Hg.
    + exfalso. apply Hnotin. apply list_elem_of_In.
      apply dict_get_In in Hg. change a with (fst (a, v')). by apply in_map.
    + apply dict_get_set_same.
  - destruct (dict_get a l); [done|]. by apply dict_get_set_other.
Qed.

Lemma fold_dict_set_NoDup l (m : dict string V) :
  NoDup (dict_keys m) ->
  NoDup (dict_keys (fold_left (fun m r => dict_set (fst r) (snd r) m) l m)).
Proof.
  revert m. induction l as [|[k v] l IH]; intros m Hnd; [done|].
  cbn [fold_left]. apply IH. by apply dict_set_NoDup.
Qed.

End SortByIp.

Lemma parsed_entry_fst entry y : parsed_entry entry = Some y -> fst y = fst entry.
Proof.
  unfold parsed_entry. destruct (parse_workspaces (snd entry)); [done|].
  by intros [= <-].
Qed.

Lemma omap_parsed_entry_NoDup (m : list (string * value)) :
  NoDup (map fst m) -> NoDup (map fst (omap parsed_entry m)).
Proof.
  induction m as [|entry m IH]; [done|].
  cbn [map]. intros Hm. apply NoDup_cons in Hm as [Hnotin Hm].
  cbn [omap list_omap]. fold (omap parsed_entry m).
  destruct (parsed_entry entry) as [y|] eqn:Hp; [|by apply IH].
  cbn [map]. apply NoDup_cons. split; [|by apply IH].
  rewrite (parsed_entry_fst _ _ Hp). intros Hel. apply Hnotin.
  apply list_elem_of_In, in_map_iff in Hel as (y2 & Hy2 & Hel).
  apply list_elem_of_In, list_elem_of_omap in Hel as (e2 & Hel & Hp2).
  rewrite (parsed_entry_fst _ _ Hp2) in Hy2.
  apply list_elem_of_In. apply in_map_iff. exists e2.
  split; [done|]. by apply list_elem_of_In.
Qed.

Lemma snapshot_responders_spec (snap : gmap string value) :
  NoDup (dict_keys (snapshot_responders snap)) /\
  forall a, dict_get a (snapshot_responders snap) =
            match snap !! a with
            | Some payload =>
                match parse_workspaces payload with
                | [] => None
                | wsmap => Some wsmap
                end
            | None => None
            end.
Proof.
  unfold snapshot_responders.
  set (l := omap parsed_entry (map_to_list snap)).
  assert (Hin : forall a ws, In (a, ws) l <->
            exists payload, snap !! a = Some payload /\
                            parse_workspaces payload = ws /\ ws <> []).
  { intros a ws. unfold l. rewrite <- list_elem_of_In, list_elem_of_omap.
    split.
    - intros ([a' payload] & Hel & Hp). apply elem_of_map_to_list in Hel.
      unfold parsed_entry in Hp. simpl in Hp.
      destruct (parse_workspaces payload) as [|x ws'] eqn:Hpw; [done|].
      injection Hp as <- <-. exists payload. by rewrite Hpw.
    - intros (payload & Hs & Hpw & Hne). exists (a, payload).
      split; [by apply elem_of_map_to_list|].
      unfold parsed_entry. simpl. rewrite Hpw. by destruct ws. }
  assert (Hnd : NoDup (dict_keys l)).
  { unfold l, dict_keys. apply omap_parsed_entry_NoDup.
    apply (NoDup_fst_map_to_list snap). }
  split.
  { unfold dict_keys.
    assert (Hp : map fst (sort_by_ip l) ≡ₚ map fst l)
      by (apply Permutation_map, sort_by_ip_Permutation).
    by rewrite Hp. }
  intros a. rewrite sort_by_ip_get by done.
  destruct (dict_get a l) as [ws|] eqn:Hg.
  - apply dict_get_In, Hin in Hg as (payload & -> & <- & Hne).
    by destruct (parse_workspaces payload).
  - destruct (snap !! a) as [payload|] eqn:Hs; [|done].
    destruct (parse_workspaces payload) as [|x ws] eqn:Hpw; [done|].
    assert (In (a, x :: ws) l) as Hl
      by (apply Hin; exists payload; by rewrite Hpw).
    apply (dict_In_get _ _ _ Hnd) in Hl. congruence.
Qed.

(** X25. The responders of a discovery.  The list made from the snapshots
    of the two phases is sorted by address and holds an address once at
    most.  An address is in it with the workspaces parsed from its answer
    of the second phase when there are any; else with those parsed from its
    answer of the first phase when there are any; an address whose answers
    give no workspace in either phase is no responder. *)
Theorem discovery_responders (snap1 snap2 : gmap string value) :
  let rs := merge_responders (snapshot_responders snap1)
              (snapshot_responders snap2) in
  let parsed (snap : gmap string value) a :=
    match snap !! a with
    | Some payload =>
        match parse_workspaces payload with
        | [] => None
        | wsmap => Some wsmap
        end
    | None => None
    end in
  StronglySorted (fun x y => String.leb (fst x) (fst y) = true) rs /\
  NoDup (map fst rs) /\
  forall a, dict_get a rs =
            match parsed snap2 a with
            | Some wsmap => Some wsmap
            | None => parsed snap1 a
            end.
Proof.
  intros rs parsed. subst rs. unfold merge_responders.
  destruct (snapshot_responders_spec snap1) as [Hnd1 Hget1].
  destruct (snapshot_responders_spec snap2) as [Hnd2 Hget2].
  set (merged := fold_left _ (snapshot_responders snap2) _).
  assert (Hndm : NoDup (dict_keys merged)).
  { unfold merged. apply fold_dict_set_NoDup, fold_dict_set_NoDup.
    constructor. }
  split; [apply sort_by_ip_sorted|]. split.
  { assert (Hp : map fst (sort_by_ip merged) ≡ₚ map fst merged)
      by (apply Permutation_map, sort_by_ip_Permutation).
    rewrite Hp. exact Hndm. }
  intros a. rewrite sort_by_ip_get by done. unfold merged.
  rewrite fold_dict_set_get by done. rewrite fold_dict_set_get by done.
  rewrite Hget2, Hget1. fold (parsed snap2 a) (parsed snap1 a).
  by destruct (parsed snap2 a), (parsed snap1 a).
Qed.

(** ** Role decision: plain workspaces beside a tagged primary *)

Section PlainFacts.
Variable cfg : Config.

Lemma group_by_base_drop_plain cs bb :
  group_by_base (filter (fun c => is_kind KPlain c = false) cs) bb =
  group_by_base cs bb.
Proof.
  revert bb. induction cs as [|c cs IH]; intros bb; [done|].
  destruct (is_kind KPlain c) eqn:Hk.
  - rewrite filter_cons_False by (by rewrite Hk).
    rewrite (group_by_base_skip c); [apply IH|].
    unfold is_kind in Hk. apply bool_decide_eq_true_1 in Hk.
    unfold main_or_backup, is_kind. by rewrite Hk.
  - rewrite filter_cons_True by done.
    cbn [group_by_base]. destruct (main_or_backup c); [|apply IH].
    destruct (dict_mem (c_kind c) _); [done | apply IH].
Qed.

Lemma filter_aux_drop_plain (cs : list Candidate) :
  filter (fun c => is_kind KAux c = true)
    (filter (fun c => is_kind KPlain c = false) cs) =
  filter (fun c => is_kind KAux c = true) cs.
Proof.
  induction cs as [|c cs IH]; [done|].
  destruct (is_kind KPlain c) eqn:Hk.
  - rewrite filter_cons_False by (by rewrite Hk).
    rewrite (filter_cons_False (fun c => is_kind KAux c = true)); [done|].
    unfold is_kind in *. apply bool_decide_eq_true_1 in Hk.
    rewrite bool_decide_eq_false_2; [done | congruence].
  - rewrite filter_cons_True by done.
    destruct (is_kind KAux c) eqn:Ha.
    + rewrite !filter_cons_True by done. by rewrite IH.
    + rewrite !filter_cons_False by (by rewrite Ha). done.
Qed.

(** With a primary on file, a base is selected. *)
Lemma select_base_with_main cs bb m sel :
  group_by_base cs [] = inr bb -> In m cs -> c_kind m = KMain ->
  select_base bb = inr sel -> is_Some sel.
Proof.
  intros Hg Hm Hk. 
  destruct (group_by_base_spec cs [] bb NoDup_nil_2 Hg) as (Hnd & Ha & _).
  assert (Hl : lookup2 (base m) KMain bb = Some m).
  { rewrite <- Hk. apply Ha; [done|].
    unfold main_or_backup, is_kind. by rewrite Hk. }
  unfold select_base.
  destruct (sort _) as [|b r]; [|intros [= <-]; by eexists].
  destruct (bases_with (fun mm => dict_mem KMain mm) bb) as [|b [|b' bs]] eqn:Hb;
    [|intros [= <-]; by eexists|done].
  exfalso.
  assert (Hin : In (base m) (bases_with (fun mm => dict_mem KMain mm) bb)).
  { apply bases_with_In; [done|]. apply main_lookup2. by rewrite Hl. }
  rewrite Hb in Hin. destruct Hin.
Qed.

Lemma decide_candidates_drop_plain cs m :
  In m cs -> c_kind m = KMain ->
  decide_candidates (filter (fun c => is_kind KPlain c = false) cs) =
  decide_candidates cs.
Proof.
  intros Hm Hk.
  assert (Hm' : In m (filter (fun c => is_kind KPlain c = false) cs)).
  { apply list_elem_of_In, list_elem_of_filter. split.
    - unfold is_kind. rewrite bool_decide_eq_false_2; [done | congruence].
    - by apply list_elem_of_In. }
  unfold decide_candidates.
  destruct cs as [|c0 cs0]; [destruct Hm|]. set (cs := c0 :: cs0) in *.
  destruct (filter (fun c => is_kind KPlain c = false) cs) as [|d0 ds0] eqn:Hf;
    [destruct Hm'|].
  rewrite <- Hf. rewrite filter_aux_drop_plain, group_by_base_drop_plain.
  destruct (filter (fun c => is_kind KAux c = true) cs) as [|a [|a' l]];
    [| |done].
  all: destruct (group_by_base cs []) as [err|bb] eqn:Hg; [done|].
  all: destruct (select_base bb) as [err|sel] eqn:Hsel; [done|].
  all: destruct (select_base_with_main cs bb m sel Hg Hm Hk Hsel) as [sb ->].
  all: reflexivity.
Qed.

Lemma candidates_drop_plain rs :
  candidates cfg (drop_plain cfg rs) =
  filter (fun c => is_kind KPlain c = false) (candidates cfg rs).
Proof.
  unfold candidates, drop_plain.
  induction rs as [|[addr ws] rs IH]; [done|].
  cbn [map flat_map fst snd]. rewrite filter_app, IH. f_equal.
  clear IH. induction ws as [|item ws IHws]; [done|].
  cbn [flat_map]. rewrite filter_app, <- IHws.
  destruct (tagged cfg item) eqn:Ht; unfold tagged in Ht;
    destruct (bool_decide (fst (_classify cfg (fst item)) = KPlain)) eqn:Hp;
    try discriminate Ht; clear Ht; cycle 1.
  - rewrite filter_cons_False
      by (unfold tagged; rewrite Hp; simpl; congruence).
    apply bool_decide_eq_true_1 in Hp.
    unfold candidate_of. destruct (_classify cfg (fst item)) as [kd b].
    simpl in Hp. subst kd.
    destruct (nonempty_str (snd item)); [|done].
    rewrite filter_cons_False; [done|]. by unfold is_kind.
  - rewrite filter_cons_True by (unfold tagged; by rewrite Hp).
    cbn [flat_map]. f_equal.
    apply bool_decide_eq_false_1 in Hp.
    unfold candidate_of. destruct (_classify cfg (fst item)) as [kd b].
    simpl in Hp. destruct (nonempty_str (snd item)); [|done].
    rewrite filter_cons_True; [done|].
    unfold is_kind. simpl. by rewrite bool_decide_eq_false_2.
Qed.

End PlainFacts.

(** X26. Beside a tagged primary, plain workspaces do not count.  When some
    responder lists, with a non-empty string identifier, a workspace whose
    name classifies as primary, the decision is that of the discovery input
    with every plain workspace removed: the same assignment, or the same
    exception. *)
Theorem decide_roles_plain_ignored (cfg : Config) rs addr ws n v wid :
  In (addr, ws) rs -> In (n, v) ws -> nonempty_str v = Some wid ->
  fst (_classify cfg n) = KMain ->
  decide_roles cfg (drop_plain cfg rs) = decide_roles cfg rs.
Proof.
  intros Hr Hi Hv Hk.
  assert (Hm : In {| c_ip := addr; ws_name := n; ws_id := wid;
                     c_kind := fst (_classify cfg n);
                     base := snd (_classify cfg n) |} (candidates cfg rs)).
  { apply candidates_In. by exists addr, ws, n, v, wid. }
  unfold decide_roles. destruct rs as [|r rs']; [destruct Hr|].
  cbn [drop_plain map]. fold (drop_plain cfg rs').
  change ((fst r, filter (fun item => tagged cfg item = true) (snd r))
            :: drop_plain cfg rs') with (drop_plain cfg (r :: rs')).
  rewrite candidates_drop_plain.
  by apply (decide_candidates_drop_plain _ _ Hm).
Qed.

Lemma decide_roles_plain_ignored_witness :
  decide_roles user_config
    (drop_plain user_config
       [("10.0.0.1", [("gala_main", VStr "W1"); ("notes", VStr "N1")]);
        ("10.0.0.2", [("draft", VStr "D1")])]) =
  decide_roles user_config
    [("10.0.0.1", [("gala_main", VStr "W1"); ("notes", VStr "N1")]);
     ("10.0.0.2", [("draft", VStr "D1")])].
Proof.
  apply (decide_roles_plain_ignored user_config _ "10.0.0.1"
           [("gala_main", VStr "W1"); ("notes", VStr "N1")]
           "gala_main" (VStr "W1") "W1").
  - left. reflexivity.
  - left. reflexivity.
  - reflexivity.
  - reflexivity.
Defined.

(** ** LED states: the legend *)

Lemma led_set_all_lookup (rgb : color) (blink : bool) (toggle_sec : Q) e p r :
  In r LED_ROLES ->
  let w := LEDW (snd (led_set_all rgb blink toggle_sec e p)) in
  _steady w !! r = Some rgb /\ _blink w !! r = Some blink /\
  _toggle w !! r = Some (Qmax float_0_05 toggle_sec).
Proof.
  intros Hr w. subst w. unfold led_set_all, led_set, pbind, modifyP.
  cbn [snd LEDW set_LEDW set_state _steady _blink _toggle].
  unfold LED_ROLES in Hr. simpl in Hr.
  destruct Hr as [<-|[<-|[<-|[]]]];
    repeat (rewrite lookup_insert_eq || rewrite lookup_insert_ne by done);
    done.
Qed.

Lemma target_color_steady (MASTER_DIM now : Q) r (w : LEDWorker) rgb T :
  _steady w !! r = Some rgb -> _blink w !! r = Some false ->
  _toggle w !! r = Some T ->
  target_color MASTER_DIM now r w = rgb.
Proof.
  intros Hs Hb Ht. unfold target_color. by rewrite Hs, Hb.
Qed.

Lemma target_color_blinking (MASTER_DIM now : Q) r (w : LEDWorker) rgb T k :
  (0 <= now)%Q -> binary64 now -> (k <= 0)%Z -> (T == 2 ^ k)%Q ->
  _steady w !! r = Some rgb -> _blink w !! r = Some true ->
  _toggle w !! r = Some T ->
  target_color MASTER_DIM now r w =
  if Z.even (Qfloor (now / T)) then rgb else dim MASTER_DIM C_OFF.
Proof.
  intros Hnow Hb Hk HT Hs Hbl Ht. unfold target_color.
  rewrite Hs, Hbl, Ht. simpl.
  assert (Hpos : (0 < T)%Q) by (rewrite HT; apply two_pow_pos).
  rewrite blink_on_even by done.
  rewrite (float_div_pow2 now T k Hb Hk HT). by destruct (Z.even _).
Qed.

(** X27. The legend of the LED states.  After the function that sets it,
    the colour every pixel is to show at a clock value [now], a float that
    is not negative and is below [2^1021], is: for a conflict the dimmed
    violet and for a failed pairing the dimmed red, both steady; during a
    discovery the dimmed blue in the quarters of a second of even rank and
    off in the others; before any pairing the dimmed blue in the seconds of
    even rank and off in the others. *)
Theorem led_state_legend (MASTER_DIM now : Q) (r : string) e (p : Panel) :
  In r LED_ROLES -> (0 <= now)%Q -> binary64 now -> (now < 2 ^ 1021)%Q ->
  target_color MASTER_DIM now r (LEDW (snd (set_led_conflict MASTER_DIM e p)))
  = dim MASTER_DIM C_VIOLET /\
  target_color MASTER_DIM now r
    (LEDW (snd (set_led_fatal_fail MASTER_DIM e p)))
  = dim MASTER_DIM C_RED /\
  target_color MASTER_DIM now r
    (LEDW (snd (set_led_discovery MASTER_DIM e p)))
  = (if Z.even (Qfloor (now / (1 # 4))) then dim MASTER_DIM C_BLUE
     else dim MASTER_DIM C_OFF) /\
  target_color MASTER_DIM now r
    (LEDW (snd (set_led_never_paired MASTER_DIM e p)))
  = (if Z.even (Qfloor (now / 1)) then dim MASTER_DIM C_BLUE
     else dim MASTER_DIM C_OFF).
Proof.
  intros Hr Hnow Hb Hfin. split; [|split; [|split]].
  - destruct (led_set_all_lookup (dim MASTER_DIM C_VIOLET) false
                BLINK_TOGGLE_NORM e p r Hr) as (Hs & Hbl & Ht).
    by eapply target_color_steady.
  - destruct (led_set_all_lookup (dim MASTER_DIM C_RED) false
                BLINK_TOGGLE_NORM e p r Hr) as (Hs & Hbl & Ht).
    by eapply target_color_steady.
  - destruct (led_set_all_lookup (dim MASTER_DIM C_BLUE) true
                BLINK_TOGGLE_FAST e p r Hr) as (Hs & Hbl & Ht).
    by apply (target_color_blinking _ _ _ _ _ (1 # 4) (-2)%Z).
  - destruct (led_set_all_lookup (dim MASTER_DIM C_BLUE) true
                BLINK_TOGGLE_SLOW e p r Hr) as (Hs & Hbl & Ht).
    by apply (target_color_blinking _ _ _ _ _ 1 0%Z).
Qed.

Lemma led_state_legend_witness :
  target_color (18 # 100) (3 # 8) "aux"
    (LEDW (snd (set_led_discovery (18 # 100) sample_env_idle
                  (Panel_init (18 # 100))))) = dim (18 # 100) C_OFF.
Proof.
  refine (proj1 (proj2 (proj2
            (led_state_legend (18 # 100) (3 # 8) "aux" sample_env_idle
               (Panel_init (18 # 100)) _ _ _ _)))).
  - right. right. left. reflexivity.
  - vm_compute. discriminate.
  - exists 3%Z, (-3)%Z. split; [reflexivity|]. split; [lia | reflexivity].
  - reflexivity.
Defined.

(** ** The inbound dispatcher: the answer to an action *)

Lemma endswith_char_from_end s suf i c :
  endswith s suf = true -> (i < String.length suf)%nat ->
  String.get (String.length suf - 1 - i) suf = Some c ->
  String.get (String.length s - 1 - i) s = Some c.
Proof.
  unfold endswith. intros H Hi Hc. apply andb_true_iff in H as [Hle Heq].
  apply Nat.leb_le in Hle. apply String.eqb_eq in Heq.
  pose proof (substring_correct1 s (String.length s - String.length suf)
                (String.length suf) (String.length suf - 1 - i)
                ltac:(lia)) as Hg.
  rewrite Heq in Hg. rewrite Hc in Hg.
  replace (String.length suf - 1 - i + (String.length s - String.length suf))%nat
    with (String.length s - 1 - i)%nat in Hg by lia.
  by symmetry.
Qed.

Lemma ack_suffix_not_connect_thump a suffix :
  In suffix ACK_SUFFIXES -> endswith a suffix = true ->
  endswith a "/connect" = false /\ endswith a "/thump" = false.
Proof.
  intros Hin Hend.
  assert (Hno : forall other c0 c1 d0 d1,
            String.get (String.length other - 1 - 0) other = Some c0 ->
            String.get (String.length other - 1 - 1) other = Some c1 ->
            String.get (String.length suffix - 1 - 0) suffix = Some d0 ->
            String.get (String.length suffix - 1 - 1) suffix = Some d1 ->
            (2 <= String.length other)%nat -> (2 <= String.length suffix)%nat ->
            c0 <> d0 \/ c1 <> d1 ->
            endswith a other = false).
  { intros other c0 c1 d0 d1 Hc0 Hc1 Hd0 Hd1 Hlo Hls Hdiff.
    destruct (endswith a other) eqn:Ho; [|done]. exfalso.
    pose proof (endswith_char_from_end a other 0 c0 Ho ltac:(lia) Hc0) as A0.
    pose proof (endswith_char_from_end a other 1 c1 Ho ltac:(lia) Hc1) as A1.
    pose proof (endswith_char_from_end a suffix 0 d0 Hend ltac:(lia) Hd0) as B0.
    pose proof (endswith_char_from_end a suffix 1 d1 Hend ltac:(lia) Hd1) as B1.
    destruct Hdiff as [Hd|Hd]; apply Hd; congruence. }
  unfold ACK_SUFFIXES in Hin. simpl in Hin.
  destruct Hin as [<-|[<-|[<-|[<-|[<-|[<-|[<-|[]]]]]]]]; split;
    (eapply Hno; [reflexivity | reflexivity | reflexivity | reflexivity
                 | simpl; lia | simpl; lia | ]);
    first [left; discriminate | right; discriminate].
Qed.

(** X28. The answer to an action is acknowledged.  A message whose argument
    decodes to a JSON object, whose OSC address does not start with
    [/reply/workspaces], whose inner address is no [/workspaces] and ends
    with the suffix of an action ([/go], [/panic], [/stop], [/pause],
    [/resume], [/select/next], [/select/previous]), whose workspace
    identifier is a non-empty string and whose status is ["ok"]: the handler
    records the clock value it reads as the last-seen time of the source
    address and, the role map giving this address a role and a callback
    being registered, calls the callback once with the address and the
    role.  Nothing else changes. *)
Theorem action_reply_acknowledged e w client address args payload j a id
    suffix r :
  head args = Some (ArgStr payload) \/ head args = Some (ArgBytes payload) ->
  (N.of_nat (String.length payload) <= 200000)%N ->
  json_loads e payload = Some (VDict j) ->
  startswith address "/reply/workspaces" = false ->
  dict_get "address" j = Some (VStr a) -> a <> "/workspaces" ->
  In suffix ACK_SUFFIXES -> endswith a suffix = true ->
  nonempty_str (vget "workspace_id" j) = Some id ->
  vget "status" j = VStr "ok" ->
  ROLE_BY_IP w !! default "0.0.0.0" client = Some r -> r <> "" ->
  _on_ack w = true ->
  snd (_osc_handler client address args e w) =
  set_acks (acks w ++ [(default "0.0.0.0" client, r)])
    (set_LAST_SEEN_BY_IP
       (<[default "0.0.0.0" client := clock e (ticks w)]> (LAST_SEEN_BY_IP w))
       (set_ticks (S (ticks w)) w)).
Proof.
  intros Hargs Hlen Hjson Haddr Ha Hnw Hin Hend Hid Hst Hrole Hr Hcb.
  destruct (ack_suffix_not_connect_thump a suffix Hin Hend) as [Hnc Hnt].
  assert (Hroute : snd (route (default "0.0.0.0" client) address j e w) =
    set_acks (acks w ++ [(default "0.0.0.0" client, r)])
      (set_LAST_SEEN_BY_IP
         (<[default "0.0.0.0" client := clock e (ticks w)]>
            (LAST_SEEN_BY_IP w))
         (set_ticks (S (ticks w)) w))).
  { unfold route. rewrite Ha, Haddr, Hst.
    change (default (VStr "") (Some (VStr a))) with (VStr a).
    cbn [eq_str str_endswith orb as_str].
    assert (Hne : String.eqb a "/workspaces" = false)
      by (by apply String.eqb_neq).
    rewrite Hne, Hnc, Hnt. cbn [andb].
    unfold nonempty. rewrite Hid.
    change (String.eqb "ok" "ok") with true. cbn [andb].
    assert (Hex : existsb (str_endswith (VStr a)) ACK_SUFFIXES = true).
    { apply existsb_exists. by exists suffix. }
    rewrite Hex.
    unfold mark_seen, mono, modify, role_from_ip, get, ret. unfold bind.
    cbn [fst snd ROLE_BY_IP set_LAST_SEEN_BY_IP set_ticks _on_ack].
    rewrite Hrole, Hcb.
    assert (Hre : String.eqb r "" = false) by (by apply String.eqb_neq).
    rewrite Hre. reflexivity. }
  unfold _osc_handler.
  assert (Hlt : (200000 <? N.of_nat (String.length payload))%N = false)
    by (apply N.ltb_ge; exact Hlen).
  destruct Hargs as [-> | ->]; rewrite Hlt; unfold bind, ask;
    rewrite Hjson; exact Hroute.
Qed.

Lemma action_reply_acknowledged_witness :
  acks (snd (_osc_handler (Some "10.0.0.1") "/reply/workspace/W1/go"
               [ArgStr "{...}"]
               (sample_env_reply [("address", VStr "/workspace/W1/go");
                                  ("workspace_id", VStr "W1");
                                  ("status", VStr "ok")])
               (set__on_ack true
                  (set_ROLE_BY_IP (<["10.0.0.1" := "main"]> ∅) Net_init)))) =
  [("10.0.0.1", "main")].
Proof.
  rewrite (action_reply_acknowledged _ _ (Some "10.0.0.1") _ _ "{...}"
             [("address", VStr "/workspace/W1/go");
              ("workspace_id", VStr "W1"); ("status", VStr "ok")]
             "/workspace/W1/go" "W1" "/go" "main").
  - reflexivity.
  - left. reflexivity.
  - vm_compute. discriminate.
  - reflexivity.
  - reflexivity.
  - reflexivity.
  - discriminate.
  - left. reflexivity.
  - reflexivity.
  - reflexivity.
  - reflexivity.
  - reflexivity.
  - discriminate.
  - reflexivity.
Defined.

(** ** A discovery reports only the answers of its own windows *)

Lemma route_discovery src address j e w a v :
  DISCOVERY (snd (route src address j e w)) !! a = Some v ->
  DISCOVERY w !! a = Some v \/
  (src = a /\ v = VDict j /\
   (startswith address "/reply/workspaces" = true \/
    dict_get "address" j = Some (VStr "/workspaces"))).
Proof.
  intros H. destruct (decide (src = a)) as [->|Hne].
  2:{ left. rewrite <- H. symmetry.
      by destruct (route_frame src address j e w)
        as (_ & _ & _ & _ & _ & _ & _ & _ & Ho & _);
        destruct (Ho a ltac:(congruence)). }
  revert H. unfold route.
  destruct (startswith address "/reply/workspaces") eqn:Hs; cbn [orb].
  { unfold bind, WAITERS_set, DISCOVERY_add, modify, get, ret.
    cbn. destruct (_events w !! _); cbn; rewrite lookup_insert_eq;
      intros [= <-]; right; eauto. }
  destruct (eq_str _ "/workspaces") eqn:Hw.
  { assert (Ha : dict_get "address" j = Some (VStr "/workspaces")).
    { destruct (dict_get "address" j) as [[| | | s | |]|]; try done.
      cbn in Hw. apply String.eqb_eq in Hw. by subst. }
    unfold bind, WAITERS_set, DISCOVERY_add, modify, get, ret.
    cbn. destruct (_events w !! _); cbn; rewrite lookup_insert_eq;
      intros [= <-]; right; eauto. }
  intros H. left. rewrite <- H. clear H.
  repeat match goal with
         | |- context [if ?b then _ else _] => destruct b
         end;
    unfold WAITERS_set, mark_seen, mono, modify, role_from_ip, get, ret;
    unfold bind; cbn;
    repeat match goal with
           | |- context [if ?b then _ else _] => destruct b; cbn
           | |- context [match ?x with Some _ => _ | None => _ end] =>
               destruct x; cbn
           end; reflexivity.
Qed.

Lemma bg_run_discovery s e w a v :
  DISCOVERY (snd (bg_run s e w)) !! a = Some v ->
  DISCOVERY w !! a = Some v \/ workspaces_answer e a v s.
Proof.
  destruct s as [c address args|]; cbn [bg_run].
  2:{ unfold SENDW_run_once, modify. cbn [snd].
      destruct (SENDW_q w); by left. }
  unfold _osc_handler, workspaces_answer.
  destruct (head args) as [[payload|payload|]|] eqn:Hh; try by left.
  - destruct (200000 <? N.of_nat (String.length payload))%N; [by left|].
    unfold bind, ask.
    destruct (json_loads e payload) as [[| | | | |j]|] eqn:Hj; try by left.
    intros H. apply route_discovery in H as [H|(Hs & -> & Hk)]; [by left|].
    right. split; [done|]. exists payload, j. eauto.
  - destruct (200000 <? N.of_nat (String.length payload))%N; [by left|].
    unfold bind, ask.
    destruct (json_loads e payload) as [[| | | | |j]|] eqn:Hj; try by left.
    intros H. apply route_discovery in H as [H|(Hs & -> & Hk)]; [by left|].
    right. split; [done|]. exists payload, j. eauto.
Qed.

Lemma bg_run_waits s e w : waits (snd (bg_run s e w)) = waits w.
Proof.
  destruct s as [c address args|]; cbn [bg_run].
  - assert (Hr : forall src j,
               handler_frame src w (snd (route src address j e w)))
      by (intros; apply route_frame).
    unfold _osc_handler.
    destruct (head args) as [[payload|payload|]|]; try done.
    + destruct (200000 <? N.of_nat (String.length payload))%N; [done|].
      unfold bind, ask.
      destruct (json_loads e payload) as [[| | | | |j]|]; try done.
      by destruct (Hr (default "0.0.0.0" c) j)
        as (_ & _ & _ & _ & _ & ? & _).
    + destruct (200000 <? N.of_nat (String.length payload))%N; [done|].
      unfold bind, ask.
      destruct (json_loads e payload) as [[| | | | |j]|]; try done.
      by destruct (Hr (default "0.0.0.0" c) j)
        as (_ & _ & _ & _ & _ & ? & _).
  - unfold SENDW_run_once, modify. cbn [snd]. by destruct (SENDW_q w).
Qed.

Lemma bg_run_all_discovery steps e w a v :
  waits (snd (bg_run_all steps e w)) = waits w /\
  (DISCOVERY (snd (bg_run_all steps e w)) !! a = Some v ->
   DISCOVERY w !! a = Some v \/
   exists s, In s steps /\ workspaces_answer e a v s).
Proof.
  revert w. induction steps as [|s steps IH]; intros w.
  { split; [done|]. by left. }
  cbn [bg_run_all]. unfold bind.
  pose proof (bg_run_waits s e w) as Hw.
  pose proof (bg_run_discovery s e w a v) as Hd.
  destruct (bg_run s e w) as [[] w1]. cbn [snd] in Hw, Hd.
  destruct (IH w1) as [IHw IHd]. split; [congruence|].
  intros H. apply IHd in H as [H|(s' & Hin & Hs)].
  - apply Hd in H as [H|H]; [by left|].
    right. exists s. split; [by left|done].
  - right. exists s'. split; [by right|done].
Qed.

Lemma window_spec_trans e w1 w2 w3 :
  window_spec e w1 w2 -> window_spec e w2 w3 -> window_spec e w1 w3.
Proof.
  intros [Hle1 H1] [Hle2 H2]. split; [lia|].
  intros a v H. apply H2 in H as [H|(k & s & Hk & Hin & Hs)].
  - apply H1 in H as [H|(k & s & Hk & Hin & Hs)]; [by left|].
    right. exists k, s. split; [lia|done].
  - right. exists k, s. split; [lia|done].
Qed.

Lemma sleep_spec e w : window_spec e w (snd (sleep e w)).
Proof.
  unfold sleep, bind, ask, get, modify. cbn [fst snd].
  destruct (bg_run_all_discovery (background e (waits w)) e
              (set_waits (S (waits w)) w) "" VNone) as [Hw _].
  split; [rewrite Hw; cbn; lia|].
  intros a v H.
  destruct (bg_run_all_discovery (background e (waits w)) e
              (set_waits (S (waits w)) w) a v) as [_ Hd].
  apply Hd in H as [H|(s & Hin & Hs)]; [by left|].
  right. exists (waits w), s. rewrite Hw. cbn. split; [lia|done].
Qed.

Lemma mono_spec e w : window_spec e w (snd (mono e w)).
Proof. split; [done|]. intros a v H. by left. Qed.

Lemma sleep_loop_spec fuel t0 wait_sec e w :
  window_spec e w (snd (sleep_loop fuel t0 wait_sec e w)).
Proof.
  revert w. induction fuel as [|fuel IH]; intros w.
  { split; [done|]. intros a v H. by left. }
  cbn [sleep_loop]. unfold bind.
  pose proof (mono_spec e w) as Hm.
  destruct (mono e w) as [now w1]. cbn [snd] in Hm.
  destruct (Qltb (now - t0) wait_sec); [|exact Hm].
  pose proof (sleep_spec e w1) as Hs.
  destruct (sleep e w1) as [[] w2]. cbn [snd] in Hs.
  eapply window_spec_trans; [exact Hm|].
  eapply window_spec_trans; [exact Hs|]. apply IH.
Qed.

Lemma discovery_phase_spec fuel wait_sec e w r w' a ws :
  discovery_phase fuel wait_sec e w = (Some r, w') ->
  In (a, ws) r ->
  waits w <= waits w' /\ ws <> [] /\
  exists k s v, waits w <= k < waits w' /\ In s (background e k) /\
                workspaces_answer e a v s /\ parse_workspaces v = ws.
Proof.
  unfold discovery_phase, _sleep_window, DISCOVERY_clear, modify.
  unfold bind at 1. cbn [fst snd]. unfold bind at 1. unfold bind at 1.
  set (w0 := set_DISCOVERY ∅ w).
  pose proof (mono_spec e w0) as Hm.
  destruct (mono e w0) as [t0 w1]. cbn [snd] in Hm.
  pose proof (sleep_loop_spec fuel t0 wait_sec e w1) as Hl.
  destruct (sleep_loop fuel t0 wait_sec e w1) as [[[]|] w2]; [|done].
  cbn [snd] in Hl.
  unfold _log_snapshot, DISCOVERY_snapshot, bind, get, ret. cbn [fst snd].
  intros [= <- <-] Hin.
  destruct (window_spec_trans _ _ _ _ Hm Hl) as [Hle Hd].
  change (waits w0) with (waits w) in Hle, Hd.
  split; [done|].
  destruct (snapshot_responders_spec (DISCOVERY w2)) as [Hnd Hget].
  apply (dict_In_get _ _ _ Hnd) in Hin. rewrite Hget in Hin.
  destruct (DISCOVERY w2 !! a) as [v|] eqn:Hv; [|done].
  destruct (parse_workspaces v) as [|x l] eqn:Hp; [done|].
  injection Hin as <-. split; [done|].
  apply Hd in Hv as [Hv|(k & s & Hk & Hs & Ha)].
  { subst w0. cbn in Hv. by rewrite lookup_empty in Hv. }
  exists k, s, v. done.
Qed.

Lemma discovery_phase_waits fuel wait_sec e w :
  waits w <= waits (snd (discovery_phase fuel wait_sec e w)).
Proof.
  unfold discovery_phase, _sleep_window, DISCOVERY_clear, modify.
  unfold bind at 1. cbn [fst snd]. unfold bind at 1. unfold bind at 1.
  set (w0 := set_DISCOVERY ∅ w).
  pose proof (mono_spec e w0) as Hm.
  destruct (mono e w0) as [t0 w1]. cbn [snd] in Hm.
  pose proof (sleep_loop_spec fuel t0 wait_sec e w1) as Hl.
  destruct (sleep_loop fuel t0 wait_sec e w1) as [[[]|] w2];
    cbn [snd] in Hl;
    destruct (window_spec_trans _ _ _ _ Hm Hl) as [Hle _]; exact Hle.
Qed.

Lemma dict_set_In {V : Type} (k k' : string) (v v' : V) d :
  In (k', v') (dict_set k v d) -> (k', v') = (k, v) \/ In (k', v') d.
Proof.
  induction d as [|[k0 v0] d IH]; simpl.
  - intros [H|[]]. by left.
  - destruct (decide (k0 = k)) as [->|Hne]; simpl.
    + intros [H|H]; [by left | right; by right].
    + intros [H|H]; [right; by left|].
      apply IH in H as [H|H]; [by left | right; by right].
Qed.

Lemma fold_dict_set_In {V : Type} (l m : dict string V) x :
  In x (fold_left (fun m r => dict_set (fst r) (snd r) m) l m) ->
  In x l \/ In x m.
Proof.
  revert m. induction l as [|[k v] l IH]; intros m; simpl; [by right|].
  intros H. apply IH in H as [H|H]; [left; by right|].
  destruct x as [k' v']. apply dict_set_In in H as [H|H]; [|by right].
  left. left. done.
Qed.

Lemma merge_responders_In r1 r2 x :
  In x (merge_responders r1 r2) -> In x r1 \/ In x r2.
Proof.
  unfold merge_responders. intros H.
  apply list_elem_of_In in H. rewrite sort_by_ip_Permutation in H.
  apply list_elem_of_In in H.
  apply fold_dict_set_In in H as [H|H]; [by right|].
  apply fold_dict_set_In in H as [H|[]]. by left.
Qed.

(** *** The windows end *)

Lemma route_ticks src address j e w :
  ticks w <= ticks (snd (route src address j e w)).
Proof.
  unfold route.
  repeat match goal with
         | |- context [if ?b then _ else _] => destruct b
         end;
    unfold WAITERS_set, DISCOVERY_add, mark_seen, mono, modify, role_from_ip,
      get, ret;
    unfold bind; cbn;
    repeat match goal with
           | |- context [if ?b then _ else _] => destruct b; cbn
           | |- context [match ?x with Some _ => _ | None => _ end] =>
               destruct x; cbn
           end; lia.
Qed.

Lemma bg_run_ticks s e w : ticks w <= ticks (snd (bg_run s e w)).
Proof.
  destruct s as [c address args|]; cbn [bg_run].
  - unfold _osc_handler.
    destruct (head args) as [[payload|payload|]|]; try done.
    + destruct (200000 <? N.of_nat (String.length payload))%N; [done|].
      unfold bind, ask.
      destruct (json_loads e payload) as [[| | | | |j]|]; try done.
      apply route_ticks.
    + destruct (200000 <? N.of_nat (String.length payload))%N; [done|].
      unfold bind, ask.
      destruct (json_loads e payload) as [[| | | | |j]|]; try done.
      apply route_ticks.
  - unfold SENDW_run_once, modify. cbn [snd]. by destruct (SENDW_q w).
Qed.

Lemma bg_run_all_ticks steps e w :
  ticks w <= ticks (snd (bg_run_all steps e w)).
Proof.
  revert w. induction steps as [|s steps IH]; intros w; [done|].
  cbn [bg_run_all]. unfold bind.
  pose proof (bg_run_ticks s e w) as H.
  destruct (bg_run s e w) as [[] w1]. cbn [snd] in H.
  specialize (IH w1). lia.
Qed.

Lemma sleep_ticks e w : ticks w <= ticks (snd (sleep e w)).
Proof.
  unfold sleep, bind, ask, get, modify. cbn [fst snd].
  apply (bg_run_all_ticks _ e (set_waits (S (waits w)) w)).
Qed.

Lemma advancing_lt d e n m :
  (0 < d)%Q -> advancing d e -> n < m -> (clock e n + d <= clock e m)%Q.
Proof.
  intros Hd Ha Hlt. induction Hlt as [|m Hle IH]; [apply Ha|].
  pose proof (Ha m). lra.
Qed.

Lemma inject_nat_succ (n : nat) :
  (inject_Z (Z.of_nat (S n)) == inject_Z (Z.of_nat n) + 1)%Q.
Proof.
  rewrite Nat2Z.inj_succ. unfold Z.succ. by rewrite inject_Z_plus.
Qed.

Lemma sleep_loop_returns d e fuel t0 wait_sec w :
  (0 < d)%Q -> advancing d e -> 1 <= fuel ->
  (wait_sec <= clock e (ticks w) - t0 + (inject_Z (Z.of_nat fuel) - 1) * d)%Q ->
  fst (sleep_loop fuel t0 wait_sec e w) = Some tt.
Proof.
  intros Hd Ha. revert w. induction fuel as [|fuel IH]; intros w Hf Hw; [lia|].
  cbn [sleep_loop]. unfold bind, mono at 1.
  destruct (Qltb (clock e (ticks w) - t0) wait_sec) eqn:Hlt; [|done].
  apply Qltb_true in Hlt. rewrite inject_nat_succ in Hw.
  set (w1 := set_ticks (S (ticks w)) w).
  pose proof (sleep_ticks e w1) as Ht.
  destruct (sleep e w1) as [[] w2]. cbn [snd] in Ht.
  assert (Hlt' : ticks w < ticks w2) by (subst w1; cbn in Ht; lia).
  pose proof (advancing_lt d e _ _ Hd Ha Hlt') as Hc.
  destruct fuel as [|fuel'].
  { exfalso. change (inject_Z (Z.of_nat 0)) with 0%Q in Hw. lra. }
  apply IH; [lia|]. lra.
Qed.

Lemma sleep_window_returns d e fuel wait_sec w :
  (0 < d)%Q -> advancing d e -> 1 <= fuel ->
  (wait_sec <= inject_Z (Z.of_nat fuel) * d)%Q ->
  fst (_sleep_window fuel wait_sec e w) = Some tt.
Proof.
  intros Hd Ha Hf Hw. unfold _sleep_window, bind, mono at 1.
  apply (sleep_loop_returns d); [done..|].
  cbn [ticks set_ticks]. pose proof (Ha (ticks w)). lra.
Qed.

Lemma discovery_phase_returns d e fuel wait_sec w :
  (0 < d)%Q -> advancing d e -> 1 <= fuel ->
  (wait_sec <= inject_Z (Z.of_nat fuel) * d)%Q ->
  exists r, fst (discovery_phase fuel wait_sec e w) = Some r.
Proof.
  intros Hd Ha Hf Hw. unfold discovery_phase, DISCOVERY_clear, modify.
  unfold bind at 1. cbn [fst snd]. unfold bind at 1.
  pose proof (sleep_window_returns d e fuel wait_sec (set_DISCOVERY ∅ w)
                Hd Ha Hf Hw) as H.
  destruct (_sleep_window fuel wait_sec e (set_DISCOVERY ∅ w)) as [o w1].
  cbn [fst] in H. subst o.
  unfold _log_snapshot, DISCOVERY_snapshot, bind, get, ret. cbn [fst snd].
  by eexists.
Qed.

Lemma discover_by_broadcast_returns d e fuel wait_sec w :
  (0 < d)%Q -> advancing d e -> 1 <= fuel ->
  (wait_sec <= inject_Z (Z.of_nat fuel) * d)%Q ->
  exists r1 w1 r2 w2,
    discovery_phase fuel wait_sec e w = (Some r1, w1) /\
    discovery_phase fuel wait_sec e w1 = (Some r2, w2) /\
    discover_by_broadcast fuel wait_sec e w =
      (Some (merge_responders r1 r2), w2).
Proof.
  intros Hd Ha Hf Hw. unfold discover_by_broadcast. unfold bind at 1.
  destruct (discovery_phase_returns d e fuel wait_sec w Hd Ha Hf Hw)
    as [r1 Hr1].
  destruct (discovery_phase fuel wait_sec e w) as [o1 w1] eqn:H1.
  cbn [fst] in Hr1. subst o1. unfold bind.
  destruct (discovery_phase_returns d e fuel wait_sec w1 Hd Ha Hf Hw)
    as [r2 Hr2].
  destruct (discovery_phase fuel wait_sec e w1) as [o2 w2] eqn:H2.
  cbn [fst] in Hr2. subst o2. unfold ret.
  by exists r1, w1, r2, w2.
Qed.

(** X29. A discovery ends and reports only what answered during its own
    windows.  With a clock that advances by [d] at least from a read to the
    next, and fuel for the iterations of a window, [discover_by_broadcast]
    returns its list; every responder of the list comes with a non-empty
    workspace map, parsed from a datagram that arrived from the responder's
    address during one of the sleeps of the two windows, that decoded to a
    JSON object, and that was an answer to [/workspaces] (by its OSC address
    or by its inner address).  What the store held before the call is never
    reported. *)
Theorem discover_by_broadcast_fresh (d : Q) (fuel : nat) (wait_sec : Q) e w :
  (0 < d)%Q -> advancing d e -> 1 <= fuel ->
  (wait_sec <= inject_Z (Z.of_nat fuel) * d)%Q ->
  exists rs w',
    discover_by_broadcast fuel wait_sec e w = (Some rs, w') /\
    forall a ws,
      In (a, ws) rs ->
      ws <> [] /\
      exists k s v, waits w <= k < waits w' /\ In s (background e k) /\
                    workspaces_answer e a v s /\ parse_workspaces v = ws.
Proof.
  intros Hd Ha Hf Hw.
  destruct (discover_by_broadcast_returns d e fuel wait_sec w Hd Ha Hf Hw)
    as (r1 & w1 & r2 & w2 & H1 & H2 & Hdb).
  pose proof (discovery_phase_waits fuel wait_sec e w) as Hw1.
  pose proof (discovery_phase_waits fuel wait_sec e w1) as Hw2.
  rewrite H1 in Hw1. rewrite H2 in Hw2. cbn [snd] in Hw1, Hw2.
  exists (merge_responders r1 r2), w2. split; [done|].
  intros a ws Hin.
  apply merge_responders_In in Hin as [Hin|Hin].
  - destruct (discovery_phase_spec _ _ _ _ _ _ _ _ H1 Hin)
      as (_ & Hne & k & s & v & Hk & Hs & Hv & Hp).
    split; [done|]. exists k, s, v. split; [lia|done].
  - destruct (discovery_phase_spec _ _ _ _ _ _ _ _ H2 Hin)
      as (_ & Hne & k & s & v & Hk & Hs & Hv & Hp).
    split; [done|]. exists k, s, v. split; [lia|done].
Qed.

Lemma sample_env_listing_advancing : advancing 10 sample_env_listing.
Proof.
  intros n. cbn [clock sample_env_listing]. rewrite inject_nat_succ. lra.
Qed.

Lemma discover_by_broadcast_fresh_witness :
  exists rs w',
    discover_by_broadcast 2 15 sample_env_listing Net_init = (Some rs, w') /\
    forall a ws,
      In (a, ws) rs ->
      ws <> [] /\
      exists k s v, waits Net_init <= k < waits w' /\
                    In s (background sample_env_listing k) /\
                    workspaces_answer sample_env_listing a v s /\
                    parse_workspaces v = ws.
Proof.
  apply (discover_by_broadcast_fresh 10 2 15 sample_env_listing Net_init).
  - reflexivity.
  - exact sample_env_listing_advancing.
  - lia.
  - vm_compute. discriminate.
Defined.

(** ** A pairing that nobody answers *)

Lemma quiet_trans w1 w2 w3 : quiet w1 w2 -> quiet w2 w3 -> quiet w1 w3.
Proof. intros [? ?] [? ?]. split; congruence. Qed.

Lemma bg_run_role_map s e w : ROLE_BY_IP (snd (bg_run s e w)) = ROLE_BY_IP w.
Proof.
  destruct s as [c address args|]; cbn [bg_run].
  - assert (Hr : forall src j,
               handler_frame src w (snd (route src address j e w)))
      by (intros; apply route_frame).
    unfold _osc_handler.
    destruct (head args) as [[payload|payload|]|]; try done.
    + destruct (200000 <? N.of_nat (String.length payload))%N; [done|].
      unfold bind, ask.
      destruct (json_loads e payload) as [[| | | | |j]|]; try done.
      by destruct (Hr (default "0.0.0.0" c) j) as (_ & _ & ? & _).
    + destruct (200000 <? N.of_nat (String.length payload))%N; [done|].
      unfold bind, ask.
      destruct (json_loads e payload) as [[| | | | |j]|]; try done.
      by destruct (Hr (default "0.0.0.0" c) j) as (_ & _ & ? & _).
  - unfold SENDW_run_once, modify. cbn [snd]. by destruct (SENDW_q w).
Qed.

Lemma bg_run_all_quiet steps e w : quiet w (snd (bg_run_all steps e w)).
Proof.
  split; [|apply bg_run_all_handed].
  revert w. induction steps as [|s steps IH]; intros w; [done|].
  cbn [bg_run_all]. unfold bind.
  pose proof (bg_run_role_map s e w) as H.
  destruct (bg_run s e w) as [[] w1]. cbn [snd] in H.
  by rewrite IH.
Qed.

Lemma sleep_loop_quiet fuel t0 wait_sec e w :
  quiet w (snd (sleep_loop fuel t0 wait_sec e w)).
Proof.
  revert w. induction fuel as [|fuel IH]; intros w; [done|].
  cbn [sleep_loop]. unfold bind, mono at 1.
  destruct (Qltb _ wait_sec); [|done].
  set (w1 := set_ticks (S (ticks w)) w).
  unfold sleep, bind, ask, get, modify. cbn [fst snd].
  pose proof (bg_run_all_quiet (background e (waits w1)) e
                (set_waits (S (waits w1)) w1)) as Hq.
  destruct (bg_run_all _ e (set_waits (S (waits w1)) w1)) as [[] w2].
  cbn [snd] in Hq.
  eapply quiet_trans; [|apply IH].
  eapply quiet_trans; [|exact Hq]. done.
Qed.

Lemma discovery_phase_quiet fuel wait_sec e w :
  quiet w (snd (discovery_phase fuel wait_sec e w)).
Proof.
  unfold discovery_phase, _sleep_window, DISCOVERY_clear, modify.
  unfold bind at 1. cbn [fst snd]. unfold bind at 1. unfold bind at 1.
  unfold mono at 1.
  set (w1 := set_ticks _ _).
  pose proof (sleep_loop_quiet fuel (clock e (ticks (set_DISCOVERY ∅ w)))
                wait_sec e w1) as Hq.
  destruct (sleep_loop fuel _ wait_sec e w1) as [[[]|] w2]; cbn [snd] in Hq;
    (eapply quiet_trans; [|exact Hq]); done.
Qed.

Lemma discover_by_broadcast_quiet fuel wait_sec e w :
  quiet w (snd (discover_by_broadcast fuel wait_sec e w)).
Proof.
  unfold discover_by_broadcast. unfold bind at 1.
  pose proof (discovery_phase_quiet fuel wait_sec e w) as H1.
  destruct (discovery_phase fuel wait_sec e w) as [[r1|] w1];
    cbn [snd] in H1; [|done].
  unfold bind.
  pose proof (discovery_phase_quiet fuel wait_sec e w1) as H2.
  destruct (discovery_phase fuel wait_sec e w1) as [[r2|] w2];
    cbn [snd] in H2; by eapply quiet_trans.
Qed.

(** X30. A pairing that nobody answers fails and changes nothing.  With a
    clock that advances by [d] at least from a read to the next and fuel for
    the iterations of a window: when no datagram of the two windows is an
    answer to [/workspaces] that lists a workspace, [pair_auto] ends with
    its own [NoRespondersError].  The state file and its manager, the
    dictionaries of the daemon and the role map are as before, and no
    message was handed to the send worker. *)
Theorem pair_auto_nobody_answers (cfg : Config) (port : Z) (d : Q)
    (fuel : nat) (wait_sec paired_at : Q) e y :
  (0 < d)%Q -> advancing d e -> 1 <= fuel ->
  (wait_sec <= inject_Z (Z.of_nat fuel) * d)%Q ->
  (forall k s a v, In s (background e k) -> workspaces_answer e a v s ->
                   parse_workspaces v = []) ->
  exists y',
    pair_auto cfg port fuel wait_sec paired_at e y =
      (Some (inl PairAutoNoResponders), y') /\
    store y' = store y /\ globals y' = globals y /\
    ROLE_BY_IP (net y') = ROLE_BY_IP (net y) /\
    handed (net y') = handed (net y).
Proof.
  intros Hd Ha Hf Hw Hnone. unfold pair_auto, dbind, liftN.
  pose proof (discover_by_broadcast_quiet fuel wait_sec e (net y)) as [Hr Hh].
  destruct (discover_by_broadcast_returns d e fuel wait_sec (net y)
              Hd Ha Hf Hw) as (r1 & w1 & r2 & w2 & H1 & H2 & Hdb).
  rewrite Hdb in Hr, Hh |- *. cbn [snd] in Hr, Hh.
  assert (Hempty : forall r w w', discovery_phase fuel wait_sec e w
                                  = (Some r, w') -> r = []).
  { intros [|[a ws] r] w w' Hp; [done|]. exfalso.
    destruct (discovery_phase_spec _ _ _ _ _ _ a ws Hp ltac:(by left))
      as (_ & Hne & k & s & v & _ & Hs & Hv & Hpw).
    apply Hne. rewrite <- Hpw. by eapply Hnone. }
  rewrite (Hempty _ _ _ H1), (Hempty _ _ _ H2).
  change (merge_responders [] []) with (@nil (string * dict string string)).
  cbn [pair_auto_from]. unfold dret. eexists. split; [reflexivity|].
  by destruct y.
Qed.

Lemma pair_auto_nobody_answers_witness :
  exists y',
    pair_auto user_config 53000 2 15 0 sample_env_silent sys_init =
      (Some (inl PairAutoNoResponders), y') /\
    store y' = store sys_init /\ globals y' = globals sys_init /\
    ROLE_BY_IP (net y') = ROLE_BY_IP (net sys_init) /\
    handed (net y') = handed (net sys_init).
Proof.
  apply (pair_auto_nobody_answers user_config 53000 10 2 15 0
           sample_env_silent sys_init).
  - reflexivity.
  - intros n. cbn [clock sample_env_silent]. rewrite inject_nat_succ. lra.
  - lia.
  - vm_compute. discriminate.
  - intros k s a v []. 
Defined.

(** ** The heartbeat: what reaches the send worker *)

Lemma str_last_cons (c a : ascii) (s : string) :
  str_last s = Some c -> str_last (String a s) = Some c.
Proof. destruct s; [done|]. intros H. exact H. Qed.

Lemma str_last_app (c : ascii) (a b : string) :
  str_last b = Some c -> str_last (a ++ b)%string = Some c.
Proof.
  intros H. induction a as [|x a IH]; [done|].
  change (String x a ++ b)%string with (String x (a ++ b)%string).
  by apply str_last_cons.
Qed.

Lemma prefix_double_slash (a : ascii) (s : string) :
  String.prefix "//" (String a s) = true ->
  a = "/"%char /\ exists rest, s = String "/" rest.
Proof.
  cbn [String.prefix]. destruct (ascii_dec "/" a) as [<-|]; [|done].
  destruct s as [|b s']; [done|]. cbn [String.prefix].
  destruct (ascii_dec "/" b) as [<-|]; [|done].
  intros _. split; [done|]. by eexists.
Qed.

Lemma replace_from_slash_last (c : ascii) (s : string) (skip : nat) :
  str_last s = Some c -> c <> "/"%char ->
  (skip = 0 \/ (skip = 1 /\ exists rest, s = String "/" rest)) ->
  str_last (replace_from "//" "/" skip s) = Some c.
Proof.
  intros Hlast Hc. revert skip Hlast.
  induction s as [|a s IH]; intros skip Hlast Hskip; [done|].
  assert (Hrest : s <> EmptyString -> str_last s = Some c).
  { intros Hne. by destruct s. }
  destruct Hskip as [->|[-> [rest Heq]]].
  - cbn [replace_from].
    destruct (String.prefix "//" (String a s)) eqn:Hp.
    + apply prefix_double_slash in Hp as [-> [rest ->]].
      change (String.length "//" - 1) with 1.
      change ("/" ++ ?x)%string with (String "/" x).
      apply str_last_cons. apply IH; [by apply Hrest|].
      right. split; [done|]. by eexists.
    + destruct s as [|b s'].
      * simpl in Hlast. simpl. exact Hlast.
      * apply str_last_cons. apply IH; [by apply Hrest|]. by left.
  - injection Heq as -> ->. cbn [replace_from].
    destruct rest as [|b s'].
    + simpl in Hlast. congruence.
    + apply IH; [by apply Hrest|]. by left.
Qed.

Lemma ws_path_last (c : ascii) (wsid suffix : string) :
  str_last suffix = Some c -> c <> "/"%char ->
  str_last (ws_path wsid suffix) = Some c.
Proof.
  intros Hs Hc. unfold ws_path, replace.
  apply replace_from_slash_last; [|done|by left].
  apply str_last_app, str_last_app, str_last_app. exact Hs.
Qed.

Lemma is_thump_path ep m : is_thump ep m = true -> ~ not_thump_path m.
Proof.
  unfold is_thump, not_thump_path. intros H Hn.
  apply andb_true_iff in H as [_ H]. apply String.eqb_eq in H.
  apply Hn. rewrite H. by apply ws_path_last.
Qed.

Lemma hands_only_refl P w w' : handed w' = handed w -> hands_only P w w'.
Proof. intros H. exists []. by rewrite app_nil_r. Qed.

Lemma hands_only_trans P w1 w2 w3 :
  hands_only P w1 w2 -> hands_only P w2 w3 -> hands_only P w1 w3.
Proof.
  intros (l1 & H1 & F1) (l2 & H2 & F2). exists (l1 ++ l2).
  split; [by rewrite H2, H1, app_assoc | by apply Forall_app].
Qed.

Lemma SENDW_send_hands P addr path arg e w :
  P (addr, path, arg) -> hands_only P w (snd (SENDW_send addr path arg e w)).
Proof.
  intros HP. unfold SENDW_send, modify. cbn [snd].
  destruct (length (SENDW_q w) <? 1000)%nat.
  - exists [(addr, path, arg)]. split; [|by constructor].
    unfold handed. cbn. by rewrite app_assoc.
  - by apply hands_only_refl.
Qed.

Lemma hands_only_thumps ep y y' :
  hands_only not_thump_path (net y) (net y') ->
  thumps_handed ep y' = thumps_handed ep y.
Proof.
  intros (l & H & F). unfold thumps_handed. rewrite H, filter_app, length_app.
  clear H.
  assert (Hl : filter (fun m => is_thump ep m = true) l = []).
  { induction F as [|m l Hm F IH]; [done|].
    rewrite filter_cons_False; [done|]. intros Ht.
    by apply (is_thump_path ep m). }
  rewrite Hl. simpl. lia.
Qed.

Lemma ensure_app_flags_hands cfg addr force e w :
  hands_only not_thump_path w (snd (ensure_app_flags cfg addr force e w)).
Proof.
  unfold ensure_app_flags, bind, mono, get. cbn [fst snd].
  destruct (negb force && Qltb _ APPFLAGS_REFRESH_EVERY).
  { by apply hands_only_refl. }
  unfold modify at 1. cbn [fst snd].
  set (w1 := set_flags_last _ _).
  unfold send_app.
  pose proof (SENDW_send_hands not_thump_path addr P_UDP_REPLY_PORT
                (send_arg [VNum (inject_Z (PI_REPLY_PORT cfg))]) e w1
                ltac:(by unfold not_thump_path)) as H1.
  destruct (SENDW_send addr P_UDP_REPLY_PORT _ e w1) as [[] w2].
  pose proof (SENDW_send_hands not_thump_path addr P_ALWAYS_REPLY
                (send_arg [VNum 1]) e w2
                ltac:(by unfold not_thump_path)) as H2.
  destruct (SENDW_send addr P_ALWAYS_REPLY _ e w2) as [[] w3].
  pose proof (SENDW_send_hands not_thump_path addr P_FORGET_ME_NOT
                (send_arg [VNum 1]) e w3
                ltac:(by unfold not_thump_path)) as H3.
  cbn [snd] in H1, H2.
  eapply hands_only_trans; [|exact H3].
  eapply hands_only_trans; [|exact H2].
  eapply hands_only_trans; [|exact H1].
  by apply hands_only_refl.
Qed.

Lemma connect_endpoint_hands cfg ep e w :
  hands_only not_thump_path w (snd (connect_endpoint cfg ep e w)).
Proof.
  unfold connect_endpoint.
  destruct (usable_id ep) as [wsid|]; [|by apply hands_only_refl].
  set (key := ("connect:" ++ ip ep ++ ":" ++ wsid)%string).
  unfold bind at 1. unfold WAITERS_arm at 1, modify at 1.
  set (w1 := set__payloads _ _).
  assert (Hw1 : hands_only not_thump_path w w1) by (by apply hands_only_refl).
  unfold bind at 1.
  assert (Hsend : forall args,
            hands_only not_thump_path w1
              (snd (send_ws (ip ep) wsid "connect" args e w1))).
  { intros args. unfold send_ws, bind, ret.
    pose proof (SENDW_send_hands not_thump_path (ip ep)
                  (ws_path wsid "connect") (send_arg args) e w1) as H.
    destruct (SENDW_send _ _ _ e w1) as [[] w2]. apply H.
    unfold not_thump_path. cbn [fst snd].
    by rewrite (ws_path_last "t" wsid "connect"). }
  assert (H2 : hands_only not_thump_path w1
                 (snd ((if String.eqb (OSC_PASSCODE cfg) ""
                        then send_ws (ip ep) wsid "connect" []
                        else send_ws (ip ep) wsid "connect"
                               [VStr (OSC_PASSCODE cfg)]) e w1)))
    by (destruct (String.eqb (OSC_PASSCODE cfg) ""); apply Hsend).
  set (m := if String.eqb (OSC_PASSCODE cfg) ""
            then send_ws (ip ep) wsid "connect" []
            else send_ws (ip ep) wsid "connect" [VStr (OSC_PASSCODE cfg)])
    in *.
  destruct (m e w1) as [full w2].
  cbn [snd] in H2. unfold bind at 1.
  pose proof (Event_wait_handed key e w2) as (H3 & _).
  destruct (Event_wait key e w2) as [woken w3]. cbn [snd] in H3.
  eapply hands_only_trans; [exact Hw1|].
  eapply hands_only_trans; [exact H2|].
  apply hands_only_refl. rewrite <- H3.
  destruct woken; cbn [negb].
  - unfold WAITERS_pop, get, modify, ret, bind. cbn [fst snd].
    destruct (_payloads w3 !! key) as [[| | | | |d]|]; try done.
    by destruct (eq_str (vget "status" d) "ok").
  - by unfold WAITERS_cleanup, modify, ret, bind.
Qed.

Lemma ensure_connected_hands cfg ep force e w :
  hands_only not_thump_path w (snd (ensure_connected cfg ep force e w)).
Proof.
  destruct (usable_id ep) as [wsid|] eqn:Hid.
  2:{ unfold ensure_connected. rewrite Hid. by apply hands_only_refl. }
  rewrite (ensure_connected_unfold cfg ep wsid force e w Hid). cbn zeta.
  destruct (negb force && Qltb _ CONNECT_REFRESH_EVERY).
  { by apply hands_only_refl. }
  set (w1 := set_connect_last _ _).
  pose proof (connect_endpoint_hands cfg ep e w1) as H2.
  destruct (connect_endpoint cfg ep e w1) as [connected w2]. cbn [snd] in H2.
  assert (H1 : hands_only not_thump_path w w1) by (by apply hands_only_refl).
  destruct connected.
  { by eapply hands_only_trans. }
  pose proof (ensure_app_flags_hands cfg (ip ep) true e w2) as H3.
  destruct (ensure_app_flags cfg (ip ep) true e w2) as [[] w3].
  pose proof (connect_endpoint_hands cfg ep e w3) as H4.
  destruct (connect_endpoint cfg ep e w3) as [c4 w4]. cbn [snd] in H3, H4.
  eapply hands_only_trans; [exact H1|].
  eapply hands_only_trans; [exact H2|].
  by eapply hands_only_trans.
Qed.

Lemma liftN_net {A : Type} (m : M A) e y :
  net (snd (liftN m e y)) = snd (m e (net y)).
Proof. unfold liftN. by destruct (m e (net y)). Qed.

Lemma thumps_handed_net ep y y' :
  handed (net y') = handed (net y) -> thumps_handed ep y' = thumps_handed ep y.
Proof. unfold thumps_handed. by intros ->. Qed.

(** What a call of [thump_fire] hands to the send worker, by the return
    statement that ends it. *)
Lemma thump_fire_handed cfg ep e y o y' :
  thump_fire cfg ep e y = (o, y') ->
  match o with
  | ThumpNoId => y' = y
  | ThumpThrottled => thumps_handed ep y' = thumps_handed ep y
  | ThumpSent now =>
      last_read e y' = now /\ thumps_handed ep y' <= S (thumps_handed ep y)
  end.
Proof.
  unfold thump_fire.
  destruct (usable_id ep) as [wsid|]; [|by intros [= <- <-]].
  unfold dbind.
  pose proof (ensure_app_flags_hands cfg (ip ep) false e (net y)) as H1.
  rewrite <- liftN_net in H1.
  destruct (liftN (ensure_app_flags cfg (ip ep) false) e y) as [[] y1].
  cbn [snd] in H1.
  pose proof (ensure_connected_hands cfg ep false e (net y1)) as H2.
  rewrite <- liftN_net in H2.
  destruct (liftN (ensure_connected cfg ep false) e y1) as [[] y2].
  cbn [snd] in H2.
  assert (Hy2 : thumps_handed ep y2 = thumps_handed ep y).
  { rewrite (hands_only_thumps ep y1 y2 H2).
    apply (hands_only_thumps ep y y1 H1). }
  rewrite liftN_mono_spec. unfold getG. cbn [globals set_net].
  destruct (Qltb _ HEARTBEAT_INTERVAL).
  - intros [= <- <-]. rewrite <- Hy2. by apply thumps_handed_net.
  - unfold modifyG, liftN, send_ws, SENDW_send, modify, bind, ret, dret.
    cbn [net set_net set_globals fst snd SENDW_q set_ticks].
    intros [= <- <-]. rewrite <- Hy2.
    unfold last_read, thumps_handed, handed.
    destruct (length (SENDW_q (net y2)) <? 1000)%nat;
      cbn [net set_net wire SENDW_q set_SENDW_q set_ticks ticks Nat.pred];
      (split; [done|]); [|lia].
    rewrite !filter_app, !length_app.
    pose proof (length_filter (fun m => is_thump ep m = true)
                  [(ip ep, ws_path wsid "thump", VList [])]) as Hl.
    change (length [(ip ep, ws_path wsid "thump", VList [])]) with 1 in Hl.
    change (send_arg []) with (VList []). lia.
Qed.

Lemma thump_states_step cfg eps e y i ep yi yi' :
  eps !! i = Some ep ->
  thump_states cfg eps e y !! i = Some yi ->
  thump_states cfg eps e y !! S i = Some yi' ->
  yi' = snd (thump_fire cfg ep e yi).
Proof.
  revert y i. induction eps as [|ep0 rest IH]; intros y i; [done|].
  destruct i as [|i]; cbn [thump_states].
  - intros [= ->] [= ->]. destruct rest; by intros [= ->].
  - intros Hep Hi Hi'. by eapply (IH _ i).
Qed.

Lemma thump_states_from cfg eps e y j yj k :
  thump_states cfg eps e y !! j = Some yj ->
  (last_thump y k <= last_thump yj k)%Q.
Proof.
  revert y j. induction eps as [|ep rest IH]; intros y j.
  - destruct j as [|j]; [|done]. intros [= ->]. apply Qle_refl.
  - destruct j as [|j]; [intros [= ->]; apply Qle_refl|].
    cbn [thump_states]. intros Hj.
    apply Qle_trans with
      (last_thump (snd (thump_fire cfg ep e y)) k); [|by eapply IH].
    eapply thump_fire_mono. apply surjective_pairing.
Qed.

Lemma thump_states_mono cfg eps e y i j yi yj k :
  i <= j ->
  thump_states cfg eps e y !! i = Some yi ->
  thump_states cfg eps e y !! j = Some yj ->
  (last_thump yi k <= last_thump yj k)%Q.
Proof.
  revert y i j. induction eps as [|ep rest IH]; intros y i j Hij.
  - destruct i as [|i]; [|done]. destruct j as [|j]; [|done].
    intros [= ->] [= ->]. apply Qle_refl.
  - destruct i as [|i].
    + intros [= ->]. apply thump_states_from.
    + destruct j as [|j]; [lia|]. cbn [thump_states].
      apply IH. lia.
Qed.

(** C7. At most one [/thump] message per two seconds.  In any sequence of
    calls of [thump_fire], for any clock and whatever the other threads do
    meanwhile: a call hands at most one [/thump] message of its endpoint to
    the send worker, and a call for an endpoint without a workspace
    identifier changes nothing at all; and when two calls for the same
    address and workspace identifier both hand one over, the clock value
    that the later call read last, just before handing it over, is at least
    2 seconds past the one the earlier call read last.  A message is counted
    once the send worker has it, queued or gone out. *)
Theorem thump_fire_rate (cfg : Config) eps e y :
  (forall i ep yi yi',
      eps !! i = Some ep ->
      thump_states cfg eps e y !! i = Some yi ->
      thump_states cfg eps e y !! S i = Some yi' ->
      thumps_handed ep yi' <= S (thumps_handed ep yi) /\
      (usable_id ep = None -> yi' = yi)) /\
  (forall i j epi epj yi yi' yj yj',
      i < j ->
      eps !! i = Some epi -> eps !! j = Some epj ->
      ip epi = ip epj -> workspace_id epi = workspace_id epj ->
      thump_states cfg eps e y !! i = Some yi ->
      thump_states cfg eps e y !! S i = Some yi' ->
      thump_states cfg eps e y !! j = Some yj ->
      thump_states cfg eps e y !! S j = Some yj' ->
      thumps_handed epi yi < thumps_handed epi yi' ->
      thumps_handed epj yj < thumps_handed epj yj' ->
      (2 <= last_read e yj' - last_read e yi')%Q).
Proof.
  assert (Hcall : forall ep y0,
            let o := fst (thump_fire cfg ep e y0) in
            let y1 := snd (thump_fire cfg ep e y0) in
            thumps_handed ep y1 <= S (thumps_handed ep y0) /\
            (usable_id ep = None -> y1 = y0) /\
            (thumps_handed ep y0 < thumps_handed ep y1 ->
             (HEARTBEAT_INTERVAL <=
              last_read e y1 - last_thump y0 (thump_key ep))%Q /\
             last_thump y1 (thump_key ep) = last_read e y1)).
  { intros ep y0 o y1.
    pose proof (thump_fire_handed cfg ep e y0 o y1
                  ltac:(apply surjective_pairing)) as Hh.
    pose proof (thump_fire_spec cfg ep e y0 o y1
                  ltac:(apply surjective_pairing)) as Hs.
    assert (Hid : usable_id ep = None -> y1 = y0).
    { intros Hnone. subst y1. unfold thump_fire. by rewrite Hnone. }
    destruct o as [| |now].
    - rewrite Hh. split; [lia|]. split; [done|]. lia.
    - rewrite Hh. split; [lia|]. split; [done|]. lia.
    - destruct Hh as [Hlast Hle]. destruct Hs as [Hset Hgap].
      split; [done|]. split; [done|]. intros _. rewrite Hlast.
      split; [done|]. unfold last_thump. rewrite Hset.
      by rewrite lookup_insert_eq. }
  split.
  - intros i ep yi yi' Hep Hi Hi'.
    rewrite (thump_states_step cfg eps e y i ep yi yi' Hep Hi Hi').
    destruct (Hcall ep yi) as (H1 & H2 & _). done.
  - intros i j epi epj yi yi' yj yj' Hij Hepi Hepj Hip Hid Hi Hi' Hj Hj'
      Hgi Hgj.
    assert (Hkey : thump_key epi = thump_key epj).
    { unfold thump_key, usable_id. by rewrite Hip, Hid. }
    rewrite (thump_states_step cfg eps e y i epi yi yi' Hepi Hi Hi') in Hgi.
    rewrite (thump_states_step cfg eps e y j epj yj yj' Hepj Hj Hj') in Hgj.
    destruct (Hcall epi yi) as (_ & _ & Hci).
    destruct (Hcall epj yj) as (_ & _ & Hcj).
    destruct (Hci Hgi) as [_ Hlast]. destruct (Hcj Hgj) as [Hgap _].
    rewrite <- (thump_states_step cfg eps e y i epi yi yi' Hepi Hi Hi')
      in Hlast.
    rewrite <- (thump_states_step cfg eps e y j epj yj yj' Hepj Hj Hj')
      in Hgap.
    pose proof (thump_states_mono cfg eps e y (S i) j yi' yj
                  (thump_key epi) ltac:(lia) Hi' Hj) as Hmono.
    rewrite Hlast, Hkey in Hmono. unfold HEARTBEAT_INTERVAL in Hgap. lra.
Qed.

Lemma thump_fire_rate_witness :
  thumps_handed sample_endpoint sys_init = 0 /\
  thumps_handed sample_endpoint sample_sys_thump1 = 1 /\
  thumps_handed sample_endpoint sample_sys_thump2 = 2 /\
  (2 <= last_read sample_env_idle sample_sys_thump2 -
        last_read sample_env_idle sample_sys_thump1)%Q.
Proof.
  split; [vm_compute; reflexivity|].
  split; [vm_compute; reflexivity|].
  split; [vm_compute; reflexivity|].
  apply (proj2 (thump_fire_rate user_config
                  [sample_endpoint; sample_endpoint] sample_env_idle
                  sys_init)
           0 1 sample_endpoint sample_endpoint
           sys_init sample_sys_thump1 sample_sys_thump1 sample_sys_thump2).
  - lia.
  - reflexivity.
  - reflexivity.
  - reflexivity.
  - reflexivity.
  - reflexivity.
  - reflexivity.
  - reflexivity.
  - reflexivity.
  - vm_compute. lia.
  - vm_compute. lia.
Defined.

(** ** Reconcile: the rate of the attempts and the offline backoff *)



Lemma set_ticks_twice n m (w : Net) :
  set_ticks n (set_ticks m w) = set_ticks n w.
Proof. by destruct w. Qed.



Section ReconcileStates.
Variable cfg : Config.
Hypothesis every_nonneg : (0 <= RECONCILE_EVERY cfg)%Q.




End ReconcileStates.



